(* ===== verification/_CoqProject ===== *)
-Q . S2P
Prelude.v
Python.v
Columns.v
Json.v
JsonFacts.v
Effects.v
Outbox.v
Inbox.v
Idempotency.v
JwtAuth.v
Schema.v
Settings.v
Migrations.v
Observability.v
Lifespan.v
Http.v
Pagination.v
Auth.v
AuthFacts.v
BookingDomain.v
BookingRepo.v
BookingService.v
BookingFacts.v
BookingInvariant.v
BookingConcurrency.v
BookingRoutes.v
Payment.v
PaymentFacts.v
PaymentBooks.v
PaymentService.v
Saga.v
Redis.v
Listing.v
ListingFacts.v
ListingService.v
Search.v
SearchApp.v
SearchFacts.v
SearchQuery.v
SearchCache.v
Telemetry.v
TelemetryFacts.v
Simulator.v
LoadTest.v
Admin.v
Tables.v
Responses.v
Upstreams.v
Routing.v
Notification.v
System.v
Wire.v
Wiring.v
Scenario.v
Services.v
SystemScenario.v
WiringScenario.v
SimulatorScenario.v
StorageScenario.v
RoutingScenario.v
