(* ===== verification/Prelude.v ===== *)
(** * CarFlow: a verification library for the car-sharing backend

    CarFlow is a set of Python services (FastAPI, SQLAlchemy, Kafka) under
    src/services, on a shared library under src/shared.  Each service owns a
    Postgres database and talks to the others through events: a row of its
    [outbox] table is written with the state change, shipped to Kafka by
    Debezium, and consumed at least once behind an [inbox] table (search:
    behind a Redis key).  This library models the services as executable
    functions over explicit state and proves what makes them correct.

    ** The parts, and where they are

    Foundations.  Prelude (this file): generic lemmas and tactics.  Python:
    values ([pyval], [dict]), UUIDs with their text, strings, exceptions.
    Columns: PostgreSQL column types.  Schema: tables with their columns and
    constraints, the statements that write rows and those that change tables.
    Effects: the exception-and-state monad
    [M], the SQLAlchemy [session] (committed database, the transaction's
    view, the world a rollback does not undo, and the source of identifiers,
    time and trace context) and the rules [read_only], [preserves],
    [no_commit] with their tactics.  Pagination: the limit/offset protocol.

    src/shared.  Outbox (outbox.py), Inbox (inbox.py and the loop of
    kafka_consumer.py), Json and JsonFacts (the JSON codec and
    [decode_envelope]), Idempotency (idempotency.py), JwtAuth (jwt_auth.py),
    Redis (kill_switch.py), Http (what FastAPI does around a handler).  A
    service's database says what these need of it through the classes
    [HasOutbox], [HasInbox], [HasIdem].

    src/services/booking.  BookingDomain (domain.py), BookingRepo (models,
    repository, migration), BookingService (service, listing_client,
    consumers), BookingRoutes (schemas, routes, app).  BookingFacts gives the
    effect of each command, BookingInvariant the invariant of the database,
    BookingConcurrency the interleavings.
    src/services/payment.  Payment (all of it), PaymentFacts (effect of each
    command), PaymentBooks (the books), PaymentService (the running service,
    Stripe under redelivery).  Saga puts booking and payment together.
    src/services/listing.  Listing, ListingFacts, ListingService.
    src/services/search.  Search (consumer and query), SearchApp (endpoint
    with its cache, backfill), SearchFacts, SearchQuery, SearchCache.
    src/services/auth.  Auth, AuthFacts.
    src/services/telemetry.  Telemetry, TelemetryFacts.
    src/services/admin.  Admin.   src/services/notification.  Notification.
    Storage.  Migrations (the upgrades and downgrades of every
    migrations/versions, the tables that the ORM classes map, and
    migrations/env.py over Alembic's context, which is a parameter), Tables
    (the rows of the ORM objects, and the repositories' maps against the
    migrated tables), Responses (the response models of every schemas.py).
    src/services/telemetry/simulator.py, src/deploy/loadtest.  Simulator (the
    two device clients, and the WebSocket the telemetry service answers),
    LoadTest (the seeding script and the Locust users).

    The services together.  Upstreams puts the services that call one another
    over HTTP in each other's place: booking's ListingClient answered by the
    router of listing, admin's clients by those of listing and booking, a
    call being delivered, lost, or done with its answer lost ([fate]).
    System is the whole: six services as one state, one step per request,
    delivery, clean-up or call between services, with the invariant the
    databases keep together.  Wire says what travels: the rows of the
    outboxes and their types.

    The processes.  Settings (every config.py), Observability
    (shared/telemetry.py, shared/tracing.py, the lag gauge, the log lines),
    Lifespan (every app.py: clients, background tasks, start and shutdown),
    Routing (the rest of every app.py: the route tables, from the decorators
    of the routes.py to the prefixes, and the URLs of the clients), Wiring (the topics of
    infra/debezium, the consumer groups and their handlers).

    Every definition keeps the name of the function it translates; a
    [Record] ending in DB is the tables of a migration, a flush or insert
    function the statement SQLAlchemy sends with the constraints of the table
    as its failures, [handle] the router of a service.

    ** What the theorems show

    The system (System, Upstreams, Wiring): a run of the whole is, seen by
    each service, a run of that service, so that its theorems hold of it
    ([system_refines]); a booking is of an approved vehicle, made on the
    terms its owner listed, and its money goes to that owner; search shows
    approved vehicles only, whatever is lost, repeated or reordered; an
    audited decision was taken, and one whose answer was lost is never
    audited; an event that is published has a consumer with a handler for
    it.
    Messages (Wire): what a service publishes is JSON that its consumers
    decode back, with the fields they read and the types they expect.
    Money and bookings (Saga, PaymentBooks, PaymentService): a payment is for
    the price and the renter of its booking; the ledger balances and charges
    a renter once; statuses of booking and payment agree; a redelivered
    command does nothing new at Stripe, and a capture whose answer is lost is
    never booked.
    Booking (BookingInvariant, BookingConcurrency, BookingRoutes,
    BookingDomain): no double booking, the event log replays to the row,
    interleaved commands serialise, final states are final, errors change
    nothing, lists are complete.
    Delivery (Inbox, JsonFacts, Notification): at-least-once delivery has the
    effect of exactly-once handling; envelopes decode to what was encoded;
    every booking event notifies both parties once.
    Requests (Idempotency): a retry replays; two concurrent ones do not.
    Listing and search (ListingService, SearchFacts, SearchQuery,
    SearchCache): the approval machine, disjoint blocks, published events
    tell the truth, the index is the set of approved vehicles, a search is
    exact, a cached answer is an answer to the same search, and the backfill
    ends with a complete index or, interrupted, has written current documents
    only.
    Accounts (AuthFacts): one account per email, log-in works with the chosen
    password only, token kinds are separate.
    Telemetry and admin (TelemetryFacts, Admin): the ingest publishes exactly
    the valid packets, the location is never stale, the kill switch reaches
    the ingest, and the audit trail is the list of successful actions.  The
    simulator is a client of the ingest: their conversation, frame by frame,
    is one run of the endpoint, which is how the endpoint is modelled.
    Storage (Migrations, Tables, Responses): the migrations build the tables
    that the ORM maps and the downgrades take away exactly those
    ([migrations_roundtrip]), online or offline, all or nothing; the maps and
    checks of the repositories, which the other files reason with, are the
    SQL statements on these tables, violated constraints included
    ([booking_tables], [payment_tables], [listing_auth_tables]); what an
    endpoint answers with success, replayed or not, is of its response model
    ([responses_well_typed] and the like).
    Routes (Routing): every endpoint is reached at its path, hidden by no
    other, and the URLs built by admin, booking, the backfill and the devices
    lead where they were meant to.
    Processes (Lifespan, Observability): a background loop that raises is
    noticed by nothing before the shutdown; without one a service ends by
    closing what it opened; the request counter counts the answers.

    Some theorems show what the code does against its intention:
    [concurrent_retry_commits_twice], [late_authorization_blocks],
    [failed_effect_is_lost], [stale_update_unpublishes], [quiet_failure], the
    uncounted requests of [request_counts], and the second half of
    [kill_switch_enforced].

    Scenario and Services run the services on concrete data, SystemScenario
    the whole system from a listing to the payout, WiringScenario the booking
    application with its consumer stopped, SimulatorScenario a device,
    StorageScenario a database migrated and written to, RoutingScenario the
    route tables under a router that tries them in order; they witness the theorems that have hypotheses.

    ** Recursion and fuel

    Recursion is structural except in the JSON decoder (one unit of fuel per
    value, element or member; [json_loads] takes the length of the text and
    one more, which JsonFacts shows to be enough for any dumped value), the
    client that follows [next_offset] (one per row and one more), the
    backfill loop (one per approved vehicle and one more:
    [backfill_complete]) and the retries of the load test (one per refusal
    the rate limiter has left and one more: [retry_ends]).  The endless loops
    recurse over what drives them: records, batches, the times a task wakes
    up, the clock readings of a device.

    ** What is assumed

    Code outside the repository is a parameter with its documented laws:
    PyJWT ([JwtLaws]), argon2 ([Argon2Laws]), SHA-256 (no law; collisions are
    named where they matter), pydantic's JSON parsers ([PacketJson],
    [SearchJson]), the text of floats ([FloatLaws]), Stripe ([StripeLaws]),
    Redis ([RedisLaws]), Elasticsearch ([ElasticsearchLaws],
    [ElasticsearchQueryLaws]), Alembic's migration context ([ContextLaws]),
    FastAPI's dispatch ([RouterLaws]), pydantic's reading of paths, queries
    and bodies ([PydanticLaws]) and the services behind HTTP clients.
    PostgreSQL executes one statement at a time on the committed state its
    transaction sees; what overlapping transactions do is modelled where the
    code relies on it (the version index of booking events, the UPDATE of
    changed columns in listing, the idempotency row).  Kafka redelivers from
    the committed offset; for the saga it may deliver anything published, in
    any order.  Characters are code points below 256.

    ** Not modelled

    Commit failures of the database, except as an exception a background loop
    may raise; the columns nothing reads ([updated_at], [processed_at]) other
    than in the tables of Migrations;
    the set-up of logging, and spans other than the trace context of an
    envelope; pydantic's coercions of a body into its model, which is where
    the handlers' inputs start; the environment variables behind the settings;
    the command lines and the printing of the scripts; the tests, the deployment
    files but the three connectors, and the web client. *)
From stdpp Require Export base gmap strings list fin_maps numbers option sorting.

(** ** Tactics of the development *)

(** Split every conjunction of the context. *)
Ltac destruct_ands :=
  repeat match goal with
  | H : _ ∧ _ |- _ => destruct H
  | H : ∃ _, _ |- _ => destruct H
  end.

(** Case analysis on the scrutinee of a [match] or [if] that blocks
    hypothesis [H], then simplify. *)
Ltac case_in H :=
  match type of H with
  | context [decide ?P] => destruct (decide P); try discriminate H
  | context [match ?x with _ => _ end] =>
      let E := fresh "E" in destruct x eqn:E; try discriminate H
  end.


(** ** Lists *)
Section lists.
Context {A : Type}.
Implicit Types l : list A.

(** The last element satisfying [P], in list order. *)
Fixpoint find_last (P : A → bool) (l : list A) : option A :=
match l with
| [] => None
| x :: l =>
    match find_last P l with
    | Some y => Some y
    | None => if P x then Some x else None
    end
end.

Lemma find_last_snoc P l x :
find_last P (l ++ [x]) = if P x then Some x else find_last P l.
Proof.
induction l as [|y l IH]; simpl; [by destruct (P x)|].
rewrite IH. by destruct (P x).
Qed.
End lists.
