(* ===== verification/Python.v ===== *)
(** * Python: the values, identifiers and exceptions the services use

    [pyval] is the type of the JSON-able values the services put in event
    payloads, claims and responses; [dict] is a Python dict in insertion
    order.  [uuid] is [uuid.UUID] with its text form ([str(u)]) and its
    parser ([uuid.UUID(s)]).  [exn] lists the exception classes raised under
    services/ and shared/, with the ones of the language and of the database
    driver that the code catches or lets through. *)
From S2P Require Import Prelude.
From Stdlib Require Export SpecFloat Ascii.


(** ** Values *)
Inductive pyval :=
| PNone
| PBool (b : bool)
| PInt (z : Z)
| PFloat (f : spec_float)
| PStr (s : string)
| PDate (d : Z)
| PList (l : list pyval)
| PDict (d : list (string * pyval)).

Abbreviation dict := (list (string * pyval)).

(** [d.get(k)]. *)
Fixpoint dict_get (d : dict) (k : string) : option pyval :=
  match d with
  | [] => None
  | (k', v) :: d => if decide (k = k') then Some v else dict_get d k
  end.

(** [d[k] = v]: overwrite in place, or append. *)
Fixpoint dict_set (d : dict) (k : string) (v : pyval) : dict :=
  match d with
  | [] => [(k, v)]
  | (k', v') :: d => if decide (k = k') then (k, v) :: d else (k', v') :: dict_set d k v
  end.

Lemma dict_get_set_eq d k v : dict_get (dict_set d k v) k = Some v.
Proof. induction d as [|[k' v'] d IH]; simpl; repeat (case_decide; simpl); naive_solver. Qed.

Lemma dict_get_set_ne d k k' v : k ≠ k' → dict_get (dict_set d k v) k' = dict_get d k'.
Proof. intros. induction d as [|[j w] d IH]; simpl; repeat (case_decide; simpl); naive_solver. Qed.

Lemma dict_set_keys d k v k' : k' ∈ (dict_set d k v).*1 ↔ k' = k ∨ k' ∈ d.*1.
Proof.
  induction d as [|[j w] d IH]; [cbn; set_solver|].
  cbn [dict_set]. case_decide as Hk; subst; cbn [fmap list_fmap fst] in *; rewrite ?elem_of_cons, ?IH;
    naive_solver.
Qed.

Lemma dict_set_NoDup d k v : NoDup d.*1 → NoDup (dict_set d k v).*1.
Proof.
  induction d as [|[j w] d IH]; cbn [dict_set fmap list_fmap fst]; [intros _; apply NoDup_singleton|].
  intros [Hj Hd]%NoDup_cons. case_decide as Hk; cbn [fmap list_fmap fst]; [by subst; constructor|].
  constructor; [|by apply IH]. rewrite dict_set_keys. naive_solver.
Qed.

Lemma elem_of_dict_set d k v k' v' :
  NoDup d.*1 → (k', v') ∈ dict_set d k v → (k' = k ∧ v' = v) ∨ (k' ≠ k ∧ (k', v') ∈ d).
Proof.
  induction d as [|[j w] d IH]; cbn [dict_set fmap list_fmap fst].
  { intros _ [= -> ->]%list_elem_of_singleton. by left. }
  intros [Hj Hd]%NoDup_cons. case_decide as Hk.
  - subst j. intros [[= -> ->]|Hin]%elem_of_cons; [by left|]. right.
    split; [|by right]. intros ->. apply Hj. by apply (list_elem_of_fmap_2 fst) in Hin.
  - intros [[= -> ->]|Hin]%elem_of_cons.
    + right. split; [done | by left].
    + apply IH in Hin as [?|[? ?]]; [by left| |done]. right. split; [done | by right].
Qed.

(** [x if x is not None] of an optional attribute, as a value. *)
Definition opt_int (o : option Z) : pyval := match o with Some z => PInt z | None => PNone end.
Definition opt_str (o : option string) : pyval := match o with Some s => PStr s | None => PNone end.

(** [d.get(k) == s], for a string [s]. *)
Definition get_is (d : dict) (k s : string) : bool :=
  match dict_get d k with Some (PStr t) => bool_decide (t = s) | _ => false end.

(** [l[:n]], [n] counted from the end when negative. *)
Definition slice_to {A} (l : list A) (n : Z) : list A :=
  take (Z.to_nat (if decide (n < 0)%Z then Z.of_nat (length l) + n else n)) l.

(** ** Dates: a [datetime.date] is its proleptic ordinal, so that
    [(e - s).days] is the difference of the ordinals. *)
Abbreviation date := Z.

(** ** Strings: the methods of [str] the services call *)

Fixpoint str_forall (P : ascii → bool) (s : string) : bool :=
  match s with
  | "" => true
  | String c s => P c && str_forall P s
  end.

(** [s.replace(pat, "")], scanning left to right; [skip] counts the
    characters of the current match still to be dropped. *)
Fixpoint str_remove (pat : string) (skip : nat) (s : string) : string :=
  match s with
  | "" => ""
  | String c r =>
      match skip with
      | S k => str_remove pat k r
      | O => if String.prefix pat s then str_remove pat (String.length pat - 1) r
             else String c (str_remove pat 0 r)
      end
  end.

Fixpoint str_filter (P : ascii → bool) (s : string) : string :=
  match s with
  | "" => ""
  | String c s => if P c then String c (str_filter P s) else str_filter P s
  end.

Fixpoint str_lstrip (P : ascii → bool) (s : string) : string :=
  match s with
  | "" => ""
  | String c r => if P c then str_lstrip P r else s
  end.

Fixpoint str_rstrip (P : ascii → bool) (s : string) : string :=
  match s with
  | "" => ""
  | String c r =>
      match str_rstrip P r with
      | "" => if P c then "" else String c ""
      | r' => String c r'
      end
  end.

(** [s.strip(chars)] for the characters satisfying [P]. *)
Definition str_strip (P : ascii → bool) (s : string) : string := str_rstrip P (str_lstrip P s).

Lemma str_forall_impl P Q s :
  (∀ c, P c = true → Q c = true) → str_forall P s = true → str_forall Q s = true.
Proof. intros HPQ. induction s as [|c s IH]; simpl; [done|]. rewrite !andb_true_iff. naive_solver. Qed.

Lemma str_forall_app P s t : str_forall P (s +:+ t) = str_forall P s && str_forall P t.
Proof. induction s as [|c s IH]; simpl; [done|]. by rewrite IH, andb_assoc. Qed.

Lemma str_forall_substring P i n s :
  str_forall P s = true → str_forall P (String.substring i n s) = true.
Proof.
  revert i n. induction s as [|c s IH]; intros [|i] [|n]; simpl; try done;
    intros [Hc Hs]%andb_true_iff; try (rewrite Hc; simpl); by apply IH.
Qed.

Lemma str_filter_app P s t : str_filter P (s +:+ t) = str_filter P s +:+ str_filter P t.
Proof. induction s as [|c s IH]; simpl; [done|]. destruct (P c); simpl; by rewrite IH. Qed.

Lemma str_filter_id P s : str_forall P s = true → str_filter P s = s.
Proof.
  induction s as [|c s IH]; simpl; [done|]. intros [-> Hs]%andb_true_iff. by rewrite IH.
Qed.

Lemma substring_app i n m s :
  String.substring i n s +:+ String.substring (i + n) m s = String.substring i (n + m) s.
Proof.
  revert i n. induction s as [|c s IH]; intros i n.
  { by destruct (i + n), m, i, n. }
  destruct i as [|i].
  - destruct n as [|n]; [done|]. simpl. by rewrite <- (IH 0 n).
  - apply (IH i n).
Qed.

Lemma substring_full s : String.substring 0 (String.length s) s = s.
Proof. induction s as [|c s IH]; simpl; [done|]. by rewrite IH. Qed.

Lemma str_strip_id P s : str_forall (λ c, negb (P c)) s = true → str_strip P s = s.
Proof.
  intros H. unfold str_strip.
  assert (str_lstrip P s = s) as ->.
  { destruct s as [|c s]; simpl in *; [done|]. by destruct (P c). }
  induction s as [|c s IH]; simpl in *; [done|].
  apply andb_true_iff in H as [Hc Hs]. rewrite IH; [|done].
  destruct (P c), s; done.
Qed.

Lemma str_remove_id c pat s :
  str_forall (λ d, negb (bool_decide (d = c))) s = true →
  str_remove (String c pat) 0 s = s.
Proof.
  induction s as [|d s IH]; [done|]. intros [Hd Hs]%andb_true_iff.
  cbn [str_remove String.prefix].
  destruct (ascii_dec c d) as [->|]; [by rewrite bool_decide_true in Hd|].
  by rewrite IH.
Qed.

(** ** [uuid.UUID] *)

Record uuid := mk_uuid { uuid_int : N; uuid_lt : bool_decide (uuid_int < 2 ^ 128)%N = true }.

Lemma uuid_eq (u v : uuid) : uuid_int u = uuid_int v → u = v.
Proof.
  destruct u as [n Hn], v as [m Hm]; simpl. intros <-.
  f_equal. apply proof_irrel.
Qed.

#[export] Instance uuid_eq_dec : EqDecision uuid.
Proof.
  refine (λ u v, cast_if (decide (uuid_int u = uuid_int v))); [by apply uuid_eq | congruence].
Defined.

Definition uuid_of_N (n : N) : option uuid :=
  match bool_decide (n < 2 ^ 128)%N as b return bool_decide (n < 2 ^ 128)%N = b → option uuid with
  | true => λ H, Some (mk_uuid n H)
  | false => λ _, None
  end eq_refl.

Lemma uuid_of_N_int u : uuid_of_N (uuid_int u) = Some u.
Proof.
  unfold uuid_of_N.
  generalize (eq_refl (bool_decide (uuid_int u < 2 ^ 128)%N)).
  generalize (bool_decide (uuid_int u < 2 ^ 128)%N) at 2 3 as b.
  intros [] E; [f_equal; by apply uuid_eq|]. pose proof (uuid_lt u). congruence.
Qed.

#[export] Instance uuid_countable : Countable uuid.
Proof. refine (inj_countable uuid_int uuid_of_N uuid_of_N_int). Defined.

Definition hex_digit (d : N) : ascii :=
  match d with
  | 0 => "0" | 1 => "1" | 2 => "2" | 3 => "3" | 4 => "4" | 5 => "5" | 6 => "6" | 7 => "7"
  | 8 => "8" | 9 => "9" | 10 => "a" | 11 => "b" | 12 => "c" | 13 => "d" | 14 => "e" | _ => "f"
  end%N%char.

(** The value of a hexadecimal digit, either case. *)
Definition hex_val (c : ascii) : option N :=
  let n := N_of_ascii c in
  if bool_decide (48 ≤ n ∧ n ≤ 57)%N then Some (n - 48)%N
  else if bool_decide (97 ≤ n ∧ n ≤ 102)%N then Some (n - 87)%N
  else if bool_decide (65 ≤ n ∧ n ≤ 70)%N then Some (n - 55)%N
  else None.

(** The [k] low hexadecimal digits of [n], in front of [tail]. *)
Fixpoint hex_digits (k : nat) (n : N) (tail : string) : string :=
  match k with
  | O => tail
  | S k => hex_digits k (n / 16) (String (hex_digit (n mod 16)) tail)
  end.

(** [str(u)]: ['%032x' % u.int] cut 8-4-4-4-12. *)
Definition str_uuid (u : uuid) : string :=
  let h := hex_digits 32 (uuid_int u) "" in
  String.substring 0 8 h +:+ "-" +:+ String.substring 8 4 h +:+ "-" +:+
  String.substring 12 4 h +:+ "-" +:+ String.substring 16 4 h +:+ "-" +:+
  String.substring 20 12 h.

Definition is_space (c : ascii) : bool :=
  let n := N_of_ascii c in
  bool_decide (9 ≤ n ∧ n ≤ 13)%N || bool_decide (28 ≤ n ∧ n ≤ 32)%N
  || bool_decide (n = 133)%N || bool_decide (n = 160)%N.

(** The digits of [int(s, 16)]: single underscores are allowed between
    digits; [us] holds when a digit must come next. *)
Fixpoint digits16 (acc : N) (us : bool) (s : string) : option N :=
  match s with
  | "" => if us then None else Some acc
  | String c r =>
      if bool_decide (c = "_"%char) then (if us then None else digits16 acc true r)
      else match hex_val c with
           | Some d => digits16 (acc * 16 + d) false r
           | None => None
           end
  end.

Definition drop_0x (s : string) : option string :=
  match s with
  | String c (String d r) =>
      if bool_decide (c = "0"%char) && (bool_decide (d = "x"%char) || bool_decide (d = "X"%char))
      then Some r else None
  | _ => None
  end.

(** [int(s, 16)]; [None] is the ValueError. *)
Definition int16 (s : string) : option Z :=
  let s := str_strip is_space s in
  let unsigned (s : string) : option N :=
    match drop_0x s with
    | Some "" => None
    | Some r => digits16 0 false r
    | None => digits16 0 true s
    end in
  match s with
  | String c r =>
      if bool_decide (c = "-"%char) then (λ n, - Z.of_N n)%Z <$> unsigned r
      else if bool_decide (c = "+"%char) then Z.of_N <$> unsigned r
      else Z.of_N <$> unsigned s
  | "" => None
  end.

Definition is_brace (c : ascii) : bool := bool_decide (c = "{"%char) || bool_decide (c = "}"%char).

(** [uuid.UUID(s)]; [None] is the ValueError. *)
Definition UUID (s : string) : option uuid :=
  let h := str_remove "uuid:" 0 (str_remove "urn:" 0 s) in
  let h := str_filter (λ c, negb (bool_decide (c = "-"%char))) (str_strip is_brace h) in
  if decide (String.length h = 32) then
    match int16 h with
    | Some z => if decide (0 ≤ z)%Z then uuid_of_N (Z.to_N z) else None
    | None => None
    end
  else None.

Section uuid_text.
Local Open Scope N_scope.

Lemma lt16 (d : N) : d < 16 → d ∈ ([0;1;2;3;4;5;6;7;8;9;10;11;12;13;14;15] : list N).
Proof. intros. rewrite !elem_of_cons. lia. Qed.

(** A decidable property of hexadecimal digits, by enumeration. *)
Lemma hex_digit_forall (P : N → bool) :
forallb P [0;1;2;3;4;5;6;7;8;9;10;11;12;13;14;15] = true → ∀ d, d < 16 → P d = true.
Proof. intros H d Hd%lt16. rewrite forallb_forall in H. apply H. by apply list_elem_of_In. Qed.

Lemma hex_val_digit d : d < 16 → hex_val (hex_digit d) = Some d.
Proof.
intros Hd.
pose proof (hex_digit_forall (λ d, bool_decide (hex_val (hex_digit d) = Some d))
  eq_refl d Hd) as H. simpl in H. by apply bool_decide_eq_true in H.
Qed.

(** The characters of [str(u)]. *)
Definition hex_lower (c : ascii) : bool :=
existsb (λ d, bool_decide (hex_digit d = c)) [0;1;2;3;4;5;6;7;8;9;10;11;12;13;14;15].

Lemma hex_lower_digit d : d < 16 → hex_lower (hex_digit d) = true.
Proof. intros. by apply (hex_digit_forall (λ d, hex_lower (hex_digit d))). Qed.

Lemma hex_lower_inv (Q : ascii → bool) :
forallb (λ d, Q (hex_digit d)) [0;1;2;3;4;5;6;7;8;9;10;11;12;13;14;15] = true →
∀ c, hex_lower c = true → Q c = true.
Proof.
intros HQ c (d & Hd & Hc%bool_decide_eq_true)%existsb_exists.
rewrite forallb_forall in HQ. rewrite <- Hc. by apply HQ.
Qed.

Lemma digits16_hex k n acc us tail :
digits16 acc us (hex_digits k n tail) =
digits16 (acc * 16 ^ N.of_nat k + n mod 16 ^ N.of_nat k)
         (match k with O => us | _ => false end) tail.
Proof.
revert n tail. induction k as [|k IH]; intros n tail.
{ simpl. rewrite N.pow_0_r, N.mod_1_r. f_equal. lia. }
assert (n mod 16 < 16) by (apply N.mod_lt; lia).
simpl hex_digits. rewrite IH. simpl digits16.
rewrite bool_decide_false, hex_val_digit; [|done|].
2:{ intros He. pose proof (hex_lower_inv (λ c, negb (bool_decide (c = "_"%char))) eq_refl
      _ (hex_lower_digit _ H)) as Hne. by rewrite He in Hne. }
f_equal. rewrite Nat2N.inj_succ, N.pow_succ_r', N.Div0.mod_mul_r. lia.
Qed.

Lemma hex_digits_forall P k n tail :
(∀ d, d < 16 → P (hex_digit d) = true) → str_forall P tail = true →
str_forall P (hex_digits k n tail) = true.
Proof.
intros HP. revert n tail. induction k as [|k IH]; intros n tail Ht; simpl; [done|].
apply IH. simpl. rewrite HP, Ht; [done|]. apply N.mod_lt. lia.
Qed.

Lemma hex_digits_length k n tail :
String.length (hex_digits k n tail) = (k + String.length tail)%nat.
Proof. revert n tail. induction k as [|k IH]; intros; simpl; [done|]. rewrite IH. simpl. lia. Qed.

Lemma str_uuid_forall P u :
(∀ d, d < 16 → P (hex_digit d) = true) → P "-"%char = true →
str_forall P (str_uuid u) = true.
Proof.
intros HP Hdash. pose proof (hex_digits_forall P 32 (uuid_int u) "" HP eq_refl) as H.
unfold str_uuid. rewrite !str_forall_app, !str_forall_substring by done. simpl.
by rewrite Hdash.
Qed.

Lemma str_uuid_filter u :
str_filter (λ c, negb (bool_decide (c = "-"%char))) (str_uuid u) =
hex_digits 32 (uuid_int u) "".
Proof.
set (P := λ c, negb (bool_decide (c = "-"%char))).
assert (str_forall P (hex_digits 32 (uuid_int u) "") = true) as H.
{ apply hex_digits_forall; [|done]. by apply (hex_digit_forall (λ d, P (hex_digit d))). }
pose proof (hex_digits_length 32 (uuid_int u) "") as Hl.
unfold str_uuid. revert H Hl. generalize (hex_digits 32 (uuid_int u) "") as h. intros h H Hl.
rewrite !str_filter_app, !(str_filter_id P (String.substring _ _ _)) by
  by apply str_forall_substring.
assert (∀ t, str_filter P "-" +:+ t = t) as Hdash by done. rewrite !Hdash.
pose proof (substring_app 16 4 12 h) as E1. pose proof (substring_app 12 4 16 h) as E2.
pose proof (substring_app 8 4 20 h) as E3. pose proof (substring_app 0 8 24 h) as E4.
simpl Nat.add in *. rewrite E1, E2, E3, E4. simpl in Hl. rewrite <- Hl. apply substring_full.
Qed.

Lemma int16_hex32 n : n < 2 ^ 128 → int16 (hex_digits 32 n "") = Some (Z.of_N n).
Proof.
intros Hn. unfold int16.
rewrite str_strip_id.
2:{ apply hex_digits_forall; [|done].
    by apply (hex_digit_forall (λ d, negb (is_space (hex_digit d)))). }
pose proof (hex_digits_forall hex_lower 32 n "" hex_lower_digit eq_refl) as H.
assert (digits16 0 true (hex_digits 32 n "") = Some n) as Hd.
{ rewrite digits16_hex. simpl. f_equal. apply N.mod_small. done. }
revert H Hd. generalize (hex_digits 32 n "") as s. intros s Hs Hd.
destruct s as [|c s]; [done|]. simpl in Hs. apply andb_true_iff in Hs as [Hc Hs].
pose proof (hex_lower_inv (λ c, negb (bool_decide (c = "-"%char))) eq_refl _ Hc) as H1.
pose proof (hex_lower_inv (λ c, negb (bool_decide (c = "+"%char))) eq_refl _ Hc) as H2.
assert (drop_0x (String c s) = None) as ->.
{ destruct s as [|c' s]; [done|]. apply andb_true_iff in Hs as [Hc' _]. simpl.
  pose proof (hex_lower_inv (λ c, negb (bool_decide (c = "x"%char))) eq_refl _ Hc') as H3.
  pose proof (hex_lower_inv (λ c, negb (bool_decide (c = "X"%char))) eq_refl _ Hc') as H4.
  apply negb_true_iff in H3 as ->, H4 as ->. by rewrite andb_false_r. }
apply negb_true_iff in H1 as ->, H2 as ->. by rewrite Hd.
Qed.

(** [uuid.UUID(str(u)) == u]: every identifier that travels in an event or
  a token is read back as itself. *)
Lemma UUID_str u : UUID (str_uuid u) = Some u.
Proof.
unfold UUID.
assert (str_forall (λ d, negb (bool_decide (d = "u"%char))) (str_uuid u) = true) as Hu.
{ apply str_uuid_forall; [|done].
  by apply (hex_digit_forall (λ d, negb (bool_decide (hex_digit d = "u"%char)))). }
rewrite (str_remove_id "u"%char "rn:"), (str_remove_id "u"%char "uid:") by done.
rewrite str_strip_id.
2:{ apply str_uuid_forall; [|done].
    by apply (hex_digit_forall (λ d, negb (is_brace (hex_digit d)))). }
rewrite str_uuid_filter, int16_hex32.
2:{ eapply bool_decide_eq_true_1, uuid_lt. }
rewrite decide_True by done. rewrite decide_True by lia.
rewrite N2Z.id. apply uuid_of_N_int.
Qed.

#[export] Instance str_uuid_inj : Inj (=) (=) str_uuid.
Proof. intros u v H. apply (f_equal UUID) in H. rewrite !UUID_str in H. congruence. Qed.
End uuid_text.

(** ** Exceptions: one constructor per class, in the order of the services *)
Inductive exn :=
(** the language, FastAPI, httpx, the database driver, PyJWT, websockets *)
| KeyError (key : string)
| ValueError
| TypeError
| IndexError
| HTTPException (status_code : Z) (detail : string)
| HTTPStatusError (status_code : Z)
| IntegrityError
| DataError
| ProgrammingError
| DBAPIError
| InvalidTokenError
| ZeroDivisionError
| ConnectionClosed
| TransportError
(** services/booking *)
| InvalidBookingTransitionError (msg : string)
| BookingNotFoundError (id : uuid)
| NotBookingPartyError (id : uuid)
| VehicleNotBookableError (id : uuid)
| OverlappingBookingError (vehicle_id : uuid)
| ConcurrentBookingUpdateError (id : uuid)
| VehicleNotFoundError (id : uuid)
(** services/payment *)
| StripeError
(** services/listing *)
| NotVehicleOwnerError (id : uuid)
| InvalidApprovalTransitionError (status : string)
| OverlappingAvailabilityBlockError (id : uuid)
(** services/auth and argon2 *)
| VerifyMismatchError
| DuplicateEmailError (email : string)
| EmailAlreadyRegisteredError (email : string)
| InvalidCredentialsError
(** services/admin, services/search, services/telemetry *)
| UpstreamError (status_code : Z) (detail : string)
| NotFoundError
| InvalidSearchQueryError (msg : string)
| InvalidPacketError (msg : string).

Inductive result (A : Type) := Ok (a : A) | Err (e : exn).
Arguments Ok {A} a.
Arguments Err {A} e.

Definition is_Ok {A} (r : result A) : bool := match r with Ok _ => true | Err _ => false end.
