(* ===== verification/Columns.v ===== *)
(** * Columns: the PostgreSQL column types of the migrations

    A value that does not fit its column is refused when the statement is
    sent (asyncpg's DataError). *)
From S2P Require Import Prelude Python.

(** INTEGER columns are 32-bit. *)
Definition int4 (z : Z) : Prop := (- 2 ^ 31 ≤ z < 2 ^ 31)%Z.
#[export] Instance int4_dec z : Decision (int4 z).
Proof. unfold int4. apply _. Defined.

Definition opt_all {A} (P : A → Prop) (o : option A) : Prop :=
  match o with Some a => P a | None => True end.
#[export] Instance opt_all_dec {A} (P : A → Prop) `{!∀ a, Decision (P a)} o : Decision (opt_all P o).
Proof. destruct o; apply _. Defined.

Definition varchar (n : nat) (s : string) : Prop := String.length s ≤ n.
#[export] Instance varchar_dec n s : Decision (varchar n s).
Proof. unfold varchar. apply _. Defined.

(** A [float], and DOUBLE PRECISION: a double, in its canonical form. *)
Definition float8 (f : spec_float) : Prop :=
  match f with S754_nan | S754_infinity _ => True | _ => valid_binary 53 1024 f = true end.
#[export] Instance float8_dec f : Decision (float8 f).
Proof. unfold float8. destruct f; apply _. Defined.

(** A LIMIT or OFFSET PostgreSQL accepts: a non-negative bigint. *)
Definition bigint_nat (z : Z) : Prop := (0 ≤ z < 2 ^ 63)%Z.
#[export] Instance bigint_nat_dec z : Decision (bigint_nat z).
Proof. unfold bigint_nat. apply _. Defined.
