(* ===== verification/Json.v ===== *)
(** * Json: [json.dumps] and [json.loads]

    The standard library's encoder (default separators, [ensure_ascii]) and
    decoder on the values of [pyval].  A character is one of the code points
    below 256; an escape beyond them has no value here.  The decimal text of
    a float ([float.__repr__], [float(s)]) is [FloatText].

    [decode_envelope] is shared/kafka_consumer.py's: an event envelope is
    encoded once or, as Debezium ships it, twice.  The round trip is in
    JsonFacts. *)
From S2P Require Import Prelude Python.
From Stdlib Require Import Decimal DecimalString DecimalZ.

Class FloatText := {
  float_repr : spec_float → string;
  float_of_string : string → option spec_float;
}.

(** ** Encoding *)
Definition json_float `{!FloatText} (f : spec_float) : string :=
  match f with
  | S754_nan => "NaN"
  | S754_infinity false => "Infinity"
  | S754_infinity true => "-Infinity"
  | _ => float_repr f
  end.

(** [str(z)]. *)
Definition str_Z (z : Z) : string := NilZero.string_of_int (Z.to_int z).

(** [\u00XX]. *)
Definition unicode_escape (c : ascii) : string :=
  "\u00" +:+ String (hex_digit (N_of_ascii c / 16)) (String (hex_digit (N_of_ascii c mod 16)) "").

Definition json_char (c : ascii) : string :=
  let n := N_of_ascii c in
  if decide (n = 34)%N then "\" +:+ String c ""
  else if decide (n = 92)%N then "\\"
  else if decide (n = 10)%N then "\n"
  else if decide (n = 13)%N then "\r"
  else if decide (n = 9)%N then "\t"
  else if decide (n = 12)%N then "\f"
  else if decide (n = 8)%N then "\b"
  else if decide (32 ≤ n ∧ n ≤ 126)%N then String c ""
  else unicode_escape c.

Fixpoint json_chars (s : string) : string :=
  match s with "" => "" | String c s => json_char c +:+ json_chars s end.

Definition quote_char : ascii := ascii_of_N 34.

Definition json_str (s : string) : string :=
  String quote_char (json_chars s +:+ String quote_char "").

(** [", ".join(parts)]. *)
Fixpoint join (parts : list string) : string :=
  match parts with
  | [] => ""
  | [p] => p
  | p :: ps => p +:+ ", " +:+ join ps
  end.

(** A date is no JSON value: [json.dumps] raises TypeError on it. *)
Fixpoint json_dumps `{!FloatText} (v : pyval) : string :=
  match v with
  | PNone => "null"
  | PBool true => "true"
  | PBool false => "false"
  | PInt z => str_Z z
  | PFloat f => json_float f
  | PStr s => json_str s
  | PDate _ => ""
  | PList l => "[" +:+ join (json_dumps <$> l) +:+ "]"
  | PDict d => "{" +:+ join ((λ p, json_str p.1 +:+ ": " +:+ json_dumps p.2) <$> d) +:+ "}"
  end.

(** ** Decoding *)
Definition is_digit (c : ascii) : bool :=
  let n := N_of_ascii c in bool_decide (48 ≤ n ∧ n ≤ 57)%N.

Definition is_ws (c : ascii) : bool :=
  let n := N_of_ascii c in
  bool_decide (n = 32)%N || bool_decide (n = 9)%N || bool_decide (n = 10)%N || bool_decide (n = 13)%N.

Definition skip_ws : string → string := str_lstrip is_ws.

(** [s] without the prefix [pat]. *)
Fixpoint drop_prefix (pat s : string) : option string :=
  match pat, s with
  | "", s => Some s
  | String c pat, String d s => if decide (c = d) then drop_prefix pat s else None
  | _, _ => None
  end.

(** The number literals: an integer without leading zeros, an optional
    fraction, an optional exponent, each as its text and what follows. *)
Fixpoint span_digits (s : string) : string * string :=
  match s with
  | "" => ("", "")
  | String c r => if is_digit c then let '(ds, r') := span_digits r in (String c ds, r') else ("", s)
  end.

Definition scan_nat (s : string) : option (string * string) :=
  match s with
  | "" => None
  | String c r =>
      if decide (c = "0"%char) then Some ("0", r)
      else if is_digit c then Some (span_digits s) else None
  end.

Definition scan_int (s : string) : option (string * string) :=
  match drop_prefix "-" s with
  | Some r => '(ds, r) ← scan_nat r; Some ("-" +:+ ds, r)
  | None => scan_nat s
  end.

Definition scan_frac (s : string) : string * string :=
  match drop_prefix "." s with
  | Some r =>
      let '(ds, r') := span_digits r in
      if decide (ds = "") then ("", s) else ("." +:+ ds, r')
  | None => ("", s)
  end.

(** The exponent letter and an optional sign. *)
Definition scan_exp_head (s : string) : option (string * string) :=
  match s with
  | String e r =>
      if decide (e = "e"%char ∨ e = "E"%char) then
        match r with
        | String g r' =>
            if decide (g = "+"%char ∨ g = "-"%char) then Some (String e (String g ""), r')
            else Some (String e "", r)
        | "" => Some (String e "", "")
        end
      else None
  | "" => None
  end.

Definition scan_exp (s : string) : string * string :=
  match scan_exp_head s with
  | Some (h, r) =>
      let '(ds, r') := span_digits r in
      if decide (ds = "") then ("", s) else (h +:+ ds, r')
  | None => ("", s)
  end.

Definition json_number `{!FloatText} (s : string) : option (pyval * string) :=
  '(i, r) ← scan_int s;
  let '(f, r) := scan_frac r in
  let '(x, r) := scan_exp r in
  if decide (f +:+ x = "") then
    z ← NilZero.int_of_string i; Some (PInt (Z.of_int z), r)
  else
    fl ← float_of_string (i +:+ f +:+ x); Some (PFloat fl, r).

(** The literal after the opening quote. *)
Definition simple_escape (d : ascii) : option ascii :=
  let n := N_of_ascii d in
  if decide (n = 34 ∨ n = 92 ∨ n = 47)%N then Some d
  else if decide (n = 98)%N then Some (ascii_of_N 8)
  else if decide (n = 102)%N then Some (ascii_of_N 12)
  else if decide (n = 110)%N then Some (ascii_of_N 10)
  else if decide (n = 114)%N then Some (ascii_of_N 13)
  else if decide (n = 116)%N then Some (ascii_of_N 9)
  else None.

Definition hex4 (a b c d : ascii) : option N :=
  a ← hex_val a; b ← hex_val b; c ← hex_val c; d ← hex_val d;
  Some (((a * 16 + b) * 16 + c) * 16 + d)%N.

Definition prepend (c : ascii) (o : option (string * string)) : option (string * string) :=
  '(s, r) ← o; Some (String c s, r).

Fixpoint json_string (s : string) : option (string * string) :=
  match s with
  | "" => None
  | String c r =>
      if decide (c = quote_char) then Some ("", r)
      else if decide (c = "\"%char) then
        match r with
        | "" => None
        | String d r' =>
            if decide (d = "u"%char) then
              match r' with
              | String h1 (String h2 (String h3 (String h4 r''))) =>
                  match hex4 h1 h2 h3 h4 with
                  | Some n => if decide (n < 256)%N then prepend (ascii_of_N n) (json_string r'') else None
                  | None => None
                  end
              | _ => None
              end
            else match simple_escape d with
                 | Some x => prepend x (json_string r')
                 | None => None
                 end
        end
      else if decide (N_of_ascii c < 32)%N then None
      else prepend c (json_string r)
  end.

Section loads.
Context `{!FloatText}.

(** The constants and numbers, in the decoder's order. *)
Definition json_scalar (s : string) : option (pyval * string) :=
match drop_prefix "null" s with Some r => Some (PNone, r) | None =>
match drop_prefix "true" s with Some r => Some (PBool true, r) | None =>
match drop_prefix "false" s with Some r => Some (PBool false, r) | None =>
match json_number s with Some p => Some p | None =>
match drop_prefix "NaN" s with Some r => Some (PFloat S754_nan, r) | None =>
match drop_prefix "Infinity" s with Some r => Some (PFloat (S754_infinity false), r) | None =>
match drop_prefix "-Infinity" s with Some r => Some (PFloat (S754_infinity true), r) | None =>
None end end end end end end end.

(** One unit of fuel per value, element or member. *)
Fixpoint json_value (fuel : nat) (s : string) : option (pyval * string) :=
match fuel with
| O => None
| S fuel =>
    match s with
    | "" => None
    | String c r =>
        if decide (c = quote_char) then '(t, r) ← json_string r; Some (PStr t, r)
        else if decide (c = "{"%char) then
          match drop_prefix "}" (skip_ws r) with
          | Some r => Some (PDict [], r)
          | None => '(d, r) ← json_members fuel [] (skip_ws r); Some (PDict d, r)
          end
        else if decide (c = "["%char) then
          match drop_prefix "]" (skip_ws r) with
          | Some r => Some (PList [], r)
          | None => '(l, r) ← json_elements fuel (skip_ws r); Some (PList l, r)
          end
        else json_scalar s
    end
end
(** The members up to the closing brace; a repeated key keeps its place and
  takes the last value. *)
with json_members (fuel : nat) (acc : dict) (s : string) : option (dict * string) :=
match fuel with
| O => None
| S fuel =>
    r ← drop_prefix (String quote_char "") s;
    '(k, r) ← json_string r;
    r ← drop_prefix ":" (skip_ws r);
    '(v, r) ← json_value fuel (skip_ws r);
    let acc := dict_set acc k v in
    match drop_prefix "}" (skip_ws r) with
    | Some r => Some (acc, r)
    | None => r ← drop_prefix "," (skip_ws r); json_members fuel acc (skip_ws r)
    end
end
with json_elements (fuel : nat) (s : string) : option (list pyval * string) :=
match fuel with
| O => None
| S fuel =>
    '(v, r) ← json_value fuel s;
    match drop_prefix "]" (skip_ws r) with
    | Some r => Some ([v], r)
    | None =>
        r ← drop_prefix "," (skip_ws r);
        '(l, r) ← json_elements fuel (skip_ws r);
        Some (v :: l, r)
    end
end.

(** [json.loads]; [None] is the JSONDecodeError. *)
Definition json_loads (s : string) : option pyval :=
'(v, r) ← json_value (S (String.length s)) (skip_ws s);
if decide (skip_ws r = "") then Some v else None.

(** ** shared/kafka_consumer.py: [decode_envelope] *)
Definition decode_envelope (raw : string) : option pyval :=
envelope ← json_loads raw;
match envelope with
| PStr inner => json_loads inner
| envelope => Some envelope
end.
End loads.
