(* ===== verification/JsonFacts.v ===== *)
(** * JsonFacts: JSON text is read back as it was written

    [FloatLaws] is what Python promises of the text of a float.  The lemmas
    follow the decoder: characters, numbers, then values by nested
    induction, the fuel being the length of the text. *)
From S2P Require Import Prelude Python Columns Json.
From Stdlib Require Import Decimal DecimalString DecimalZ DecimalFacts.

(** The text of a float is a JSON number that reads back as the float. *)
Class FloatLaws `{!FloatText} : Prop := {
  float_repr_number f :
    valid_binary 53 1024 f = true → match f with S754_zero _ | S754_finite _ _ _ => True | _ => False end →
    json_number (float_repr f) = Some (PFloat f, "");
}.

(** ** Characters *)
Lemma str_app_cons c (a b : string) : String c a +:+ b = String c (a +:+ b).
Proof. done. Qed.
Lemma str_app_nil (b : string) : "" +:+ b = b.
Proof. done. Qed.
Lemma str_app_assoc (a b c : string) : (a +:+ b) +:+ c = a +:+ b +:+ c.
Proof. induction a as [|x a IH]; [done|]. by rewrite !str_app_cons, IH. Qed.
Lemma str_app_nil_r (a : string) : a +:+ "" = a.
Proof. induction a as [|x a IH]; [done|]. by rewrite str_app_cons, IH. Qed.
Lemma str_length_app (a b : string) : String.length (a +:+ b) = String.length a + String.length b.
Proof. induction a as [|x a IH]; [done|]. rewrite str_app_cons. simpl. by rewrite IH. Qed.

Lemma json_char_parse c t : json_string (json_char c +:+ t) = prepend c (json_string t).
Proof. destruct c as [[] [] [] [] [] [] [] []]; reflexivity. Qed.

Lemma json_chars_parse s rest :
  json_string (json_chars s +:+ String quote_char rest) = Some (s, rest).
Proof.
  induction s as [|c s IH]; [done|]. cbn [json_chars].
  by rewrite str_app_assoc, json_char_parse, IH.
Qed.

Lemma json_str_app s rest :
  json_str s +:+ rest = String quote_char (json_chars s +:+ String quote_char rest).
Proof. unfold json_str. by rewrite str_app_cons, str_app_assoc. Qed.

(** ** Numbers *)

(** What may follow a number: nothing it could swallow. *)
Definition ends_number (rest : string) : Prop :=
  match rest with
  | "" => True
  | String c _ => is_digit c = false ∧ c ≠ "."%char ∧ c ≠ "e"%char ∧ c ≠ "E"%char ∧
      c ≠ "+"%char ∧ c ≠ "-"%char
  end.

Lemma span_digits_stop rest : ends_number rest → span_digits rest = ("", rest).
Proof. destruct rest as [|c r]; [done|]. intros [Hc _]. simpl. by rewrite Hc. Qed.

Lemma span_digits_app t rest ds r :
  ends_number rest → span_digits t = (ds, r) → span_digits (t +:+ rest) = (ds, r +:+ rest).
Proof.
  intros Hr. revert ds r. induction t as [|c t IH]; intros ds r; rewrite ?str_app_cons; simpl.
  - intros [= <- <-]. by apply span_digits_stop.
  - destruct (is_digit c); [|by intros [= <- <-]].
    destruct (span_digits t) as [ds' r'] eqn:E. intros [= <- <-]. by rewrite (IH ds' r').
Qed.

Lemma scan_nat_app t rest ds r :
  ends_number rest → scan_nat t = Some (ds, r) → scan_nat (t +:+ rest) = Some (ds, r +:+ rest).
Proof.
  intros Hr. destruct t as [|c t]; [done|]. rewrite str_app_cons. cbn [scan_nat].
  case_decide; [by intros [= <- <-]|]. destruct (is_digit c) eqn:Ec; [|done].
  intros [= Hs]. f_equal. by apply (span_digits_app (String c t)).
Qed.

Lemma drop_minus_app t rest :
  t ≠ "" → drop_prefix "-" (t +:+ rest) = (λ r, r +:+ rest) <$> drop_prefix "-" t.
Proof. destruct t as [|c t]; [done|]. intros _. rewrite str_app_cons. simpl. by case_decide. Qed.

Lemma scan_int_app t rest i r :
  ends_number rest → scan_int t = Some (i, r) → scan_int (t +:+ rest) = Some (i, r +:+ rest).
Proof.
  intros Hr. destruct t as [|c t]; [done|]. unfold scan_int.
  rewrite drop_minus_app by done. destruct (drop_prefix "-" (String c t)) as [u|]; simpl.
  - intros ([ds r'] & Hn & [= <- <-])%bind_Some. by rewrite (scan_nat_app u rest ds r').
  - by apply (scan_nat_app (String c t)).
Qed.

Lemma scan_frac_app t rest f r :
  ends_number rest → scan_frac t = (f, r) → scan_frac (t +:+ rest) = (f, r +:+ rest).
Proof.
  intros Hr. destruct t as [|c t]; unfold scan_frac; rewrite ?str_app_cons; simpl.
  - intros [= <- <-]. destruct rest as [|d rest]; [done|]. simpl.
    rewrite decide_False; [done|]. by destruct Hr as (_ & ? & _).
  - case_decide; [|by intros [= <- <-]].
    destruct (span_digits t) as [ds r'] eqn:E. rewrite (span_digits_app t rest ds r') by done.
    case_decide; intros [= <- <-]; done.
Qed.

Lemma scan_exp_head_app t rest :
  t ≠ "" → (∀ e, t ≠ String e "") →
  scan_exp_head (t +:+ rest) = (λ p, (p.1, p.2 +:+ rest)) <$> scan_exp_head t.
Proof.
  destruct t as [|e [|g t]]; [done|by intros _ Hne; destruct (Hne e)|]. intros _ _. rewrite !str_app_cons. simpl.
  do 2 (case_decide; try done).
Qed.

Lemma scan_exp_app t rest x r :
  ends_number rest → scan_exp t = (x, r) → scan_exp (t +:+ rest) = (x, r +:+ rest).
Proof.
  intros Hr. destruct t as [|e [|g t]].
  - rewrite str_app_nil. intros [= <- <-]. destruct rest as [|d rest]; [done|].
    unfold scan_exp, scan_exp_head. rewrite decide_False; [done|].
    destruct Hr as (_&_&?&?&_). naive_solver.
  - rewrite str_app_cons, str_app_nil. unfold scan_exp. cbn [scan_exp_head].
    case_decide; intros [= <- <-]; [|done]. destruct rest as [|d rest]; [done|].
    destruct Hr as (Hd1&_&_&_&?&?). rewrite decide_False by naive_solver.
    cbn [span_digits]. by rewrite Hd1.
  - unfold scan_exp. rewrite scan_exp_head_app by done.
    destruct (scan_exp_head (String e (String g t))) as [[h u]|]; simpl; [|by intros [= <- <-]].
    destruct (span_digits u) as [ds r'] eqn:E. rewrite (span_digits_app u rest ds r') by done.
    case_decide; intros [= <- <-]; done.
Qed.

Section values.
Context `{!FloatText}.

Lemma json_number_app t rest v r :
ends_number rest → json_number t = Some (v, r) → json_number (t +:+ rest) = Some (v, r +:+ rest).
Proof.
intros Hr. unfold json_number. intros ([i r1] & Hi & Hk)%bind_Some.
rewrite (scan_int_app _ _ _ _ Hr Hi). cbn [mbind option_bind].
destruct (scan_frac r1) as [f r2] eqn:Ef. rewrite (scan_frac_app _ _ _ _ Hr Ef).
destruct (scan_exp r2) as [x r3] eqn:Ex. rewrite (scan_exp_app _ _ _ _ Hr Ex).
case_decide; apply bind_Some in Hk as (z & Hz & [= <- <-]); rewrite Hz; done.
Qed.

(** A number starts with a digit or a minus sign. *)
Definition starts_number (t : string) : Prop :=
match t with "" => False | String c _ => c = "-"%char ∨ is_digit c = true end.

Lemma json_number_starts t v r : json_number t = Some (v, r) → starts_number t.
Proof.
unfold json_number. intros ([i r1] & Hi & _)%bind_Some. destruct t as [|c t]; [done|].
unfold scan_int in Hi. cbn [drop_prefix] in Hi. case_decide as Hc; [by left; subst|]. right.
cbn [scan_nat] in Hi. case_decide; [by subst|]. by destruct (is_digit c).
Qed.

(** *** Integers *)
Definition leading (d : uint) : Prop := d ≠ Nil ∧ ((∀ d', d ≠ D0 d') ∨ d = D0 Nil).

Lemma unorm_leading d : leading (unorm d).
Proof.
unfold unorm, leading. pose proof (λ d', nzhead_nonzero d d') as Hn.
destruct (nzhead d) as [|u|u|u|u|u|u|u|u|u|u]; (split; [done|]); try (by left); by right.
Qed.

(** The digits [Z.to_int] gives have no leading zero. *)
Lemma to_int_leading z :
match Z.to_int z with Decimal.Pos d | Decimal.Neg d => leading d end.
Proof.
rewrite <- (of_to z), to_of. unfold norm. destruct (Z.to_int z) as [d|d]; [apply unorm_leading|].
pose proof (λ d', nzhead_nonzero d d') as Hn.
destruct (nzhead d) as [|u|u|u|u|u|u|u|u|u|u]; (split; [done|]); try (by left); by right.
Qed.

Lemma span_digits_uint d : span_digits (NilEmpty.string_of_uint d) = (NilEmpty.string_of_uint d, "").
Proof. induction d as [|d IH|d IH|d IH|d IH|d IH|d IH|d IH|d IH|d IH|d IH]; simpl; by rewrite ?IH. Qed.

Lemma scan_nat_uint d :
leading d → scan_nat (NilZero.string_of_uint d) = Some (NilZero.string_of_uint d, "").
Proof.
pose proof (span_digits_uint d) as Hs. intros [Hn [Hl| ->]]; [|done].
destruct d; try done; [by destruct (Hl d)|..]; simpl in *; by rewrite Hs.
Qed.

Lemma uint_starts d : ∃ c r, NilZero.string_of_uint d = String c r ∧ c ≠ "-"%char.
Proof. destruct d; eexists _, _; (split; [reflexivity|done]). Qed.

Lemma json_number_Z z : json_number (str_Z z) = Some (PInt z, "").
Proof.
pose proof (to_int_leading z) as Hl.
assert (scan_int (str_Z z) = Some (str_Z z, "")) as Hs.
{ unfold str_Z, scan_int. destruct (Z.to_int z) as [d|d]; cbn [NilZero.string_of_int].
  - destruct (uint_starts d) as (c & r & Hd & Hc). rewrite Hd. cbn [drop_prefix].
    rewrite decide_False by done. rewrite <- Hd. by apply scan_nat_uint.
  - cbn [drop_prefix]. rewrite decide_True by done. by rewrite (scan_nat_uint d Hl). }
unfold json_number. rewrite Hs. cbn [mbind option_bind scan_frac scan_exp drop_prefix scan_exp_head].
rewrite str_app_nil, decide_True by done. unfold str_Z. rewrite NilZero.isi.
- cbn [mbind option_bind]. by rewrite of_to.
- intros E. rewrite E in Hl. by destruct Hl.
- intros E. rewrite E in Hl. by destruct Hl.
Qed.

(** ** Values *)

(** What [json.dumps] takes: no dates, no repeated keys, floats that are
  doubles. *)
Fixpoint json_ok (v : pyval) : Prop :=
match v with
| PDate _ => False
| PFloat f => float8 f
| PList l => foldr (λ x P, json_ok x ∧ P) True l
| PDict d => NoDup d.*1 ∧ foldr (λ p P, json_ok p.2 ∧ P) True d
| _ => True
end.

Lemma scalar_number t v rest :
json_number t = Some (v, "") → ends_number rest → json_scalar (t +:+ rest) = Some (v, rest).
Proof.
intros Hn Hr. pose proof (json_number_starts _ _ _ Hn) as Hs. unfold json_scalar.
rewrite (json_number_app _ _ _ _ Hr Hn), str_app_nil.
destruct t as [|c t]; [done|]. rewrite str_app_cons. cbn [drop_prefix].
by destruct Hs as [->|Hd]; [|rewrite !decide_False by (intros <-; done)].
Qed.

(** The first character of a value's text. *)
Definition value_head (t : string) : Prop :=
match t with "" => False | String c _ => is_ws c = false ∧ c ≠ "]"%char ∧ c ≠ "}"%char end.

Lemma starts_number_head t : starts_number t → value_head t.
Proof.
destruct t as [|c t]; [done|]. intros [->|Hd]; [done|]. simpl.
split_and!; [|by intros ->..]. revert Hd. by destruct c as [[] [] [] [] [] [] [] []].
Qed.

Lemma skip_ws_head t rest : value_head t → skip_ws (t +:+ rest) = t +:+ rest.
Proof.
destruct t as [|c t]; [done|]. intros [Hc _]. rewrite str_app_cons. unfold skip_ws. simpl.
by rewrite Hc.
Qed.

(** What a value's text reads back as, given enough fuel. *)
Definition reads (t : string) (v : pyval) : Prop :=
value_head t ∧ ∀ fuel rest, ends_number rest → String.length t ≤ fuel →
  json_value fuel (t +:+ rest) = Some (v, rest).

Lemma reads_number t v : json_number t = Some (v, "") → reads t v.
Proof.
intros Hn. pose proof (json_number_starts _ _ _ Hn) as Hs.
split; [by apply starts_number_head|]. intros fuel rest Hr Hf.
pose proof (scalar_number t v rest Hn Hr) as Hv.
destruct t as [|c t]; [done|]. destruct fuel as [|fuel]; [simpl in Hf; lia|].
rewrite str_app_cons in *. cbn [json_value].
rewrite !decide_False; [done|..]; intros ->; by destruct Hs.
Qed.

(** A constant. *)
Lemma reads_const t v :
value_head t → (∀ rest, json_value 1 (t +:+ rest) = Some (v, rest)) →
(∀ fuel rest, json_value (S fuel) (t +:+ rest) = json_value 1 (t +:+ rest)) → reads t v.
Proof.
intros Ht Hv Hf. split; [done|]. intros fuel rest _ Hl.
destruct fuel as [|fuel]; [destruct t; [done|simpl in Hl; lia]|]. by rewrite Hf.
Qed.

Lemma reads_str s : reads (json_str s) (PStr s).
Proof.
split; [done|]. intros fuel rest _ Hf. destruct fuel as [|fuel]; [simpl in Hf; lia|].
rewrite json_str_app. cbn [json_value]. rewrite decide_True by done.
by rewrite json_chars_parse.
Qed.

Lemma reads_float `{!FloatLaws} f : json_ok (PFloat f) → reads (json_float f) (PFloat f).
Proof.
destruct f as [b|[]| |b m e]; intros Hok; cbn [json_float].
- apply reads_number. by apply float_repr_number.
- by apply reads_const.
- by apply reads_const.
- by apply reads_const.
- apply reads_number. by apply float_repr_number.
Qed.

(** *** Lists *)
Lemma join_head t ts : value_head t → value_head (join (t :: ts)).
Proof. destruct ts; [done|]. by destruct t. Qed.

Lemma elements_read l fuel rest :
l ≠ [] → Forall (λ v, reads (json_dumps v) v) l → String.length (join (json_dumps <$> l)) < fuel →
json_elements fuel (join (json_dumps <$> l) +:+ "]" +:+ rest) = Some (l, rest).
Proof.
intros Hl Hr. revert fuel Hl. induction Hr as [|v l [Hh Hv] Hr IH]; intros fuel Hl Hf; [done|].
destruct fuel as [|fuel]; [lia|]. cbn [json_elements fmap list_fmap].
destruct l as [|w l]; cbn [fmap list_fmap join] in *.
- rewrite Hv by (done || lia). done.
- change (json_dumps w :: list_fmap _ _ json_dumps l) with (json_dumps <$> (w :: l)) in *.
  rewrite !str_length_app in Hf. cbn [String.length] in Hf.
  rewrite !str_app_assoc, Hv by (done || lia). cbn [mbind option_bind].
  rewrite !str_app_cons, str_app_nil.
  assert (Hw : value_head (join (json_dumps <$> w :: l))).
  { apply join_head. by apply Forall_cons_1 in Hr as [[]]. }
  assert (∀ x, skip_ws (String "," x) = String "," x) as Hc by done. rewrite !Hc.
  cbn [drop_prefix]. rewrite decide_False, decide_True by done. cbn [mbind option_bind].
  assert (∀ x, skip_ws (String " " x) = skip_ws x) as Hs by done. rewrite Hs, skip_ws_head by done.
  by rewrite IH by (done || lia).
Qed.

Lemma reads_list l : Forall (λ v, reads (json_dumps v) v) l → reads (json_dumps (PList l)) (PList l).
Proof.
intros Hl. split; [done|]. intros fuel rest _ Hf.
destruct fuel as [|fuel]; [simpl in Hf; lia|]. cbn [json_dumps] in *.
rewrite !str_length_app in Hf. cbn [String.length] in Hf.
rewrite str_app_assoc, str_app_cons, str_app_nil, str_app_assoc. cbn [json_value].
rewrite !decide_False, decide_True by done.
destruct l as [|v l]; [done|].
assert (value_head (join (json_dumps <$> v :: l))) as Hh
  by (apply join_head; by apply Forall_cons_1 in Hl as [[]]).
rewrite skip_ws_head by done.
assert (drop_prefix "]" (join (json_dumps <$> v :: l) +:+ "]" +:+ rest) = None) as ->.
{ destruct (join _) as [|c t]; [done|]. rewrite str_app_cons. cbn [drop_prefix].
  rewrite decide_False; [done|]. intros <-. by destruct Hh as (_ & ? & _). }
by rewrite elements_read by (done || lia).
Qed.

(** *** Dictionaries *)
Definition member (p : string * pyval) : string := json_str p.1 +:+ ": " +:+ json_dumps p.2.

Lemma dict_set_new d k v : k ∉ d.*1 → dict_set d k v = d ++ [(k, v)].
Proof.
induction d as [|[k' v'] d IH]; [done|]. cbn [fmap list_fmap fst]. rewrite not_elem_of_cons.
intros [Hne Hk]. simpl. rewrite decide_False by done. f_equal. by apply IH.
Qed.

Lemma members_read d acc fuel rest :
d ≠ [] → NoDup (acc ++ d).*1 → Forall (λ p, reads (json_dumps p.2) p.2) d →
String.length (join (member <$> d)) < fuel →
json_members fuel acc (join (member <$> d) +:+ "}" +:+ rest) = Some (acc ++ d, rest).
Proof.
intros Hd Hnd Hr. revert fuel acc Hd Hnd.
induction Hr as [|[k v] d [Hh Hv] Hr IH]; intros fuel acc Hd Hnd Hf; [done|].
cbn [snd] in *. destruct fuel as [|fuel]; [lia|].
assert (dict_set acc k v = acc ++ [(k, v)]) as Hset.
{ apply dict_set_new. rewrite fmap_app, NoDup_app in Hnd. destruct Hnd as (_ & Hnd & _).
  intros Hin. apply (Hnd k Hin). by left. }
assert (∀ fuel rest', ends_number rest' → String.length (member (k, v)) ≤ fuel →
  json_members (S fuel) acc (member (k, v) +:+ rest') =
    match drop_prefix "}" (skip_ws rest') with
    | Some r => Some (acc ++ [(k, v)], r)
    | None => r ← drop_prefix "," (skip_ws rest');
        json_members fuel (acc ++ [(k, v)]) (skip_ws r)
    end) as Hone.
{ intros f r' Hr' Hl. unfold member in *. cbn [fst snd] in *. cbn [json_members].
  rewrite !str_length_app in Hl. rewrite !str_app_assoc, json_str_app. cbn [drop_prefix].
  rewrite decide_True by done. cbn [mbind option_bind]. rewrite json_chars_parse.
  rewrite !str_app_cons, str_app_nil. cbn [mbind option_bind].
  assert (∀ x, skip_ws (String ":" x) = String ":" x) as -> by done. cbn [drop_prefix].
  rewrite decide_True by done. cbn [mbind option_bind].
  assert (∀ x, skip_ws (String " " x) = skip_ws x) as -> by done.
  rewrite skip_ws_head, Hv by (done || lia). cbn [mbind option_bind]. by rewrite Hset. }
destruct d as [|q d]; cbn [fmap list_fmap join] in *.
- rewrite Hone by (done || lia). done.
- change (member q :: list_fmap _ _ member d) with (member <$> (q :: d)) in *.
  rewrite !str_length_app in Hf. cbn [String.length] in Hf.
  rewrite !str_app_assoc, Hone by (done || lia). rewrite !str_app_cons, str_app_nil.
  assert (∀ x, skip_ws (String "," x) = String "," x) as Hc by done. rewrite !Hc.
  cbn [drop_prefix]. rewrite decide_False, decide_True by done. cbn [mbind option_bind].
  assert (∀ x, skip_ws (String " " x) = skip_ws x) as Hs by done. rewrite Hs, skip_ws_head.
  + rewrite IH by (done || lia || (by rewrite <- app_assoc)). by rewrite <- app_assoc.
  + by apply join_head.
Qed.

Lemma reads_dict d :
NoDup d.*1 → Forall (λ p, reads (json_dumps p.2) p.2) d → reads (json_dumps (PDict d)) (PDict d).
Proof.
intros Hnd Hd. split; [done|]. intros fuel rest _ Hf.
destruct fuel as [|fuel]; [simpl in Hf; lia|]. cbn [json_dumps] in *.
fold member in *. change (λ p, json_str p.1 +:+ ": " +:+ json_dumps p.2) with member in *.
rewrite !str_length_app in Hf. cbn [String.length] in Hf.
rewrite str_app_assoc, str_app_cons, str_app_nil, str_app_assoc. cbn [json_value].
rewrite decide_False, decide_True by done.
destruct d as [|p d]; [done|].
assert (value_head (join (member <$> p :: d))) as Hh by (by apply join_head).
rewrite skip_ws_head by done.
assert (drop_prefix "}" (join (member <$> p :: d) +:+ "}" +:+ rest) = None) as ->.
{ destruct (join _) as [|c t]; [done|]. rewrite str_app_cons. cbn [drop_prefix].
  rewrite decide_False; [done|]. intros <-. by destruct Hh as (_ & _ & ?). }
by rewrite members_read by (done || lia).
Qed.

(** *** Induction over nested values *)
Lemma json_reads `{!FloatLaws} : ∀ v, json_ok v → reads (json_dumps v) v.
Proof.
fix IH 1. intros v. destruct v as [|b|z|f|s|d|l|d]; intros Hok.
- by apply reads_const.
- destruct b; by apply reads_const.
- apply reads_number, json_number_Z.
- by apply reads_float.
- apply reads_str.
- done.
- apply reads_list. revert Hok. cbn [json_ok]. induction l as [|x l IHl]; [constructor|].
  intros [Hx Hl]. constructor; [by apply IH | by apply IHl].
- cbn [json_ok] in Hok. destruct Hok as [Hnd Hok]. apply reads_dict; [exact Hnd|].
  clear Hnd. revert Hok. induction d as [|[k x] d IHd]; [constructor|].
  intros [Hx Hd]. constructor; [by apply IH | by apply IHd].
Qed.
End values.

Section loads.
Context `{!FloatText} `{!FloatLaws}.

Lemma json_loads_dumps v : json_ok v → json_loads (json_dumps v) = Some v.
Proof.
intros [Hh Hr]%json_reads. unfold json_loads.
pose proof (skip_ws_head (json_dumps v) "" Hh) as Hs. rewrite str_app_nil_r in Hs. rewrite Hs.
specialize (Hr (S (String.length (json_dumps v))) "" I). rewrite str_app_nil_r in Hr.
rewrite Hr by lia. done.
Qed.

(** Different values have different texts. *)
Lemma json_dumps_inj v w : json_ok v → json_ok w → json_dumps v = json_dumps w → v = w.
Proof.
intros Hv%json_loads_dumps Hw%json_loads_dumps Heq. rewrite Heq, Hw in Hv. by injection Hv.
Qed.
End loads.

(** An event envelope comes out of the consumer's decoder as it went into
    the outbox, whether it was encoded once, as a test ships it, or twice, as
    Debezium ships the JSON column. *)
Theorem envelope_decodes `{!FloatText} `{!FloatLaws} (e : dict) :
  json_ok (PDict e) →
  decode_envelope (json_dumps (PDict e)) = Some (PDict e) ∧
  decode_envelope (json_dumps (PStr (json_dumps (PDict e)))) = Some (PDict e).
Proof.
  intros He. unfold decode_envelope. split.
  - by rewrite json_loads_dumps.
  - rewrite (json_loads_dumps (PStr _)) by done. cbn [mbind option_bind]. by apply json_loads_dumps.
Qed.
