(* ===== verification/Effects.v ===== *)
(** * Effects: exceptions, and the SQLAlchemy session

    [M S A] is a computation over a state [S] that returns or raises; the
    state reached survives an exception, as a Python side effect does.

    [session DB W] is the state a request handler or a consumer runs over:
    the committed database, the transaction's view of it, and the world
    outside the database (what a rollback does not undo).  [commit],
    [rollback] and [run_session] are the three ways the code moves between
    the two views: [async with session_factory() as session] opens a
    transaction on the committed database and drops whatever was not
    committed when the block is left, by return or by exception. *)
From S2P Require Import Prelude Python.

Definition M (S A : Type) : Type := S → result A * S.

#[export] Instance M_ret {S} : MRet (M S) := λ A a s, (Ok a, s).
#[export] Instance M_bind {S} : MBind (M S) := λ A B k m s,
  match m s with
  | (Ok a, s') => k a s'
  | (Err e, s') => (Err e, s')
  end.

Definition raise {S A} (e : exn) : M S A := λ s, (Err e, s).

(** [try: m except ...: h]; [h] is [None] on the exceptions it lets through. *)
Definition try_except {S A} (m : M S A) (h : exn → option (M S A)) : M S A := λ s,
  match m s with
  | (Ok a, s') => (Ok a, s')
  | (Err e, s') => match h e with Some k => k s' | None => (Err e, s') end
  end.

Definition gets {S A} (f : S → A) : M S A := λ s, (Ok (f s), s).
Definition modify {S} (f : S → S) : M S unit := λ s, (Ok tt, f s).

(** [d[k]], and the conversions a dynamically typed value goes through. *)
Definition getitem {S} (d : dict) (k : string) : M S pyval :=
  match dict_get d k with Some v => mret v | None => raise (KeyError k) end.
Definition as_int {S} (v : pyval) : M S Z :=
  match v with PInt z => mret z | _ => raise TypeError end.
Definition as_str {S} (v : pyval) : M S string :=
  match v with PStr s => mret s | _ => raise TypeError end.
Definition to_uuid {S} (v : pyval) : M S uuid :=
  s ← as_str v;
  match UUID s with Some u => mret u | None => raise ValueError end.

(** The field [k] of [d] is read as this identifier, or this number. *)
Definition uuid_field (d : dict) (k : string) (u : uuid) : Prop :=
  ∃ t, dict_get d k = Some (PStr t) ∧ UUID t = Some u.
Definition int_field (d : dict) (k : string) (z : Z) : Prop := dict_get d k = Some (PInt z).

Section monad.
Context {S : Type}.

Lemma run_ret {A} (a : A) (s : S) : (mret a : M S A) s = (Ok a, s).
Proof. done. Qed.
Lemma run_ret_Ok {A} (a b : A) (s s' : S) : (mret a : M S A) s = (Ok b, s') → a = b ∧ s = s'.
Proof. by intros [= -> ->]. Qed.
Lemma run_raise {A} e (s : S) : (raise e : M S A) s = (Err e, s).
Proof. done. Qed.
Lemma run_bind {A B} (m : M S A) (k : A → M S B) s :
(m ≫= k) s = match m s with (Ok a, s') => k a s' | (Err e, s') => (Err e, s') end.
Proof. done. Qed.

(** Sequencing is associative: a handler may be read in any bracketing. *)
Lemma bind_assoc {A B C} (m : M S A) (k : A → M S B) (h : B → M S C) s :
((m ≫= k) ≫= h) s = (m ≫= (λ a, k a ≫= h)) s.
Proof. rewrite !run_bind. by destruct (m s) as [[a|e] s']. Qed.

Lemma bind_Ok {A B} (m : M S A) (k : A → M S B) s b s'' :
(m ≫= k) s = (Ok b, s'') ↔ ∃ a s', m s = (Ok a, s') ∧ k a s' = (Ok b, s'').
Proof. rewrite run_bind. destruct (m s) as [[a|e] s']; naive_solver. Qed.

Lemma try_except_Ok {A} (m : M S A) h s b s'' :
try_except m h s = (Ok b, s'') ↔
m s = (Ok b, s'') ∨ ∃ e s' k, m s = (Err e, s') ∧ h e = Some k ∧ k s' = (Ok b, s'').
Proof.
unfold try_except. destruct (m s) as [[a|e] s'].
- split; [by left|]. intros [?|(?&?&?&?&_)]; done.
- split.
  + intros H. destruct (h e) as [k|] eqn:E; [|done]. right. by exists e, s', k.
  + intros [?|(?&?&?&?&Hh&?)]; [done|]. simplify_eq. by rewrite Hh.
Qed.

Lemma getitem_uuid d k (s : S) v u :
getitem d k s = (Ok v, s) → to_uuid v s = (Ok u, s) → uuid_field d k u.
Proof.
unfold getitem, to_uuid. destruct (dict_get d k) as [v'|] eqn:E; [|done]. intros [= ->] Hu.
apply bind_Ok in Hu as (t & s1 & Ht & Hu). destruct v as [| | | |x| | |]; try done.
injection Ht as <- <-. exists x. split; [done|].
destruct (UUID x); [|done]. by injection Hu as <-.
Qed.

Lemma uuid_field_str d k u u' :
dict_get d k = Some (PStr (str_uuid u)) → uuid_field d k u' → u' = u.
Proof. intros Hd (t & Ht & Hu). simplify_eq. rewrite UUID_str in Hu. by simplify_eq. Qed.

Lemma getitem_run d k v (s : S) : dict_get d k = Some v → getitem d k s = (Ok v, s).
Proof. unfold getitem. by intros ->. Qed.

Lemma to_uuid_run u (s : S) : to_uuid (PStr (str_uuid u)) s = (Ok u, s).
Proof. unfold to_uuid. rewrite run_bind. cbn [as_str mret M_ret]. by rewrite UUID_str. Qed.

(** *** Partial correctness: [Q] on return, [E] on exceptions *)
Definition triple {A} (P : S → Prop) (m : M S A) (Q : A → S → Prop) (E : exn → S → Prop) : Prop :=
∀ s, P s → match m s with (Ok a, s') => Q a s' | (Err e, s') => E e s' end.

Lemma triple_ret {A} (a : A) (P : S → Prop) (Q : A → S → Prop) E :
(∀ s, P s → Q a s) → triple P (mret a) Q E.
Proof. intros H s. apply H. Qed.

Lemma triple_raise {A} e (P : S → Prop) (Q : A → S → Prop) (E : exn → S → Prop) :
(∀ s, P s → E e s) → triple P (raise e) Q E.
Proof. intros H s. apply H. Qed.

Lemma triple_bind {A B} (m : M S A) (k : A → M S B) P Q R E :
triple P m Q E → (∀ a, triple (Q a) (k a) R E) → triple P (m ≫= k) R E.
Proof.
intros Hm Hk s Hs. specialize (Hm s Hs). rewrite run_bind.
destruct (m s) as [[a|e] s']; [by apply Hk | done].
Qed.

Lemma triple_conseq {A} (m : M S A) (P P' : S → Prop) Q Q' (E E' : exn → S → Prop) :
triple P' m Q' E' → (∀ s, P s → P' s) → (∀ a s, Q' a s → Q a s) → (∀ e s, E' e s → E e s) →
triple P m Q E.
Proof. intros H HP HQ HE s Hs. specialize (H s (HP s Hs)). destruct (m s) as [[a|e] s']; eauto. Qed.
End monad.

(** *** Computations that only read *)
Definition read_only {S A} (m : M S A) : Prop := ∀ s, snd (m s) = s.

Section read_only.
Context {S : Type}.
Lemma read_only_ret {A} (a : A) : read_only (S := S) (mret a).
Proof. done. Qed.
Lemma read_only_raise {A} e : read_only (S := S) (A := A) (raise e).
Proof. done. Qed.
Lemma read_only_gets {A} (f : S → A) : read_only (gets f).
Proof. done. Qed.
Lemma read_only_bind {A B} (m : M S A) (k : A → M S B) :
read_only m → (∀ a, read_only (k a)) → read_only (m ≫= k).
Proof.
intros Hm Hk s. rewrite run_bind. specialize (Hm s).
destruct (m s) as [[a|e] s']; simpl in *; subst; [apply Hk | done].
Qed.
Lemma read_only_try {A} (m : M S A) h :
read_only m → (∀ e k, h e = Some k → read_only k) → read_only (try_except m h).
Proof.
intros Hm Hh s. unfold try_except. specialize (Hm s).
destruct (m s) as [[a|e] s']; simpl in *; subst; [done|].
destruct (h e) as [k|] eqn:E; [by apply (Hh _ _ E) | done].
Qed.
Lemma read_only_getitem d k : read_only (S := S) (getitem d k).
Proof. intros s. unfold getitem. by destruct (dict_get d k). Qed.
Lemma read_only_as_int v : read_only (S := S) (as_int v).
Proof. by destruct v. Qed.
Lemma read_only_as_str v : read_only (S := S) (as_str v).
Proof. by destruct v. Qed.
Lemma read_only_to_uuid v : read_only (S := S) (to_uuid v).
Proof. apply read_only_bind; [apply read_only_as_str|]. intros s0 s. by destruct (UUID s0). Qed.
End read_only.

(** A prologue that only reads. *)
Lemma bind_pure {S A B} (m : M S A) (k : A → M S B) s b s' :
  read_only m → (m ≫= k) s = (Ok b, s') → ∃ a, m s = (Ok a, s) ∧ k a s = (Ok b, s').
Proof.
  intros Hm (a & s1 & Ha & Hk)%bind_Ok. specialize (Hm s). rewrite Ha in Hm. simpl in Hm. subst.
  eauto.
Qed.

Create HintDb read_only.
#[export] Hint Resolve read_only_ret read_only_raise read_only_gets read_only_getitem
  read_only_as_int read_only_as_str read_only_to_uuid : read_only.

Ltac read_only :=
  repeat (intros; first
    [ solve [eauto with read_only nocore]
    | apply read_only_bind
    | apply read_only_try
    | match goal with
      | |- read_only (if decide ?P then _ else _) => destruct (decide P)
      | |- read_only (match ?x with _ => _ end) => destruct x
      | H : Some _ = Some _ |- _ => injection H as <-
      | H : None = Some _ |- _ => discriminate H
      | H : (match ?x with _ => _ end) = Some _ |- _ => destruct x
      end ]).

(** *** Computations that leave an observation of the state alone *)
Definition preserves {S A X} (f : S → X) (m : M S A) : Prop := ∀ s, f (snd (m s)) = f s.

Section preserves.
Context {S X : Type} (f : S → X).
Lemma preserves_read_only {A} (m : M S A) : read_only m → preserves f m.
Proof. intros Hm s. by rewrite Hm. Qed.
Lemma preserves_bind {A B} (m : M S A) (k : A → M S B) :
preserves f m → (∀ a, preserves f (k a)) → preserves f (m ≫= k).
Proof.
intros Hm Hk s. rewrite run_bind. specialize (Hm s).
destruct (m s) as [[a|e] s']; simpl in *; [by rewrite Hk | done].
Qed.
Lemma preserves_try {A} (m : M S A) h :
preserves f m → (∀ e k, h e = Some k → preserves f k) → preserves f (try_except m h).
Proof.
intros Hm Hh s. unfold try_except. specialize (Hm s).
destruct (m s) as [[a|e] s']; simpl in *; [done|].
destruct (h e) as [k|] eqn:E; [by rewrite (Hh _ _ E) | done].
Qed.
End preserves.

Create HintDb preserves.

(** One rule per statement, case analysis on branches; writes are settled by
    computation. *)
Ltac preserves :=
  repeat (intros; first
    [ solve [eauto with preserves nocore]
    | apply preserves_bind
    | apply preserves_try
    | solve [apply preserves_read_only; read_only]
    | match goal with
      | |- preserves _ (if decide ?P then _ else _) => destruct (decide P)
      | |- preserves _ (match ?x with _ => _ end) => destruct x
      | H : Some _ = Some _ |- _ => injection H as <-
      | H : None = Some _ |- _ => discriminate H
      | H : (match ?x with _ => _ end) = Some _ |- _ => destruct x
      end
    | solve [intros ?; reflexivity] ]).

(** *** Computations that move the state along a relation *)
Definition moves {S A} (R : relation S) (m : M S A) : Prop := ∀ s, R s (snd (m s)).

Section moves.
Context {S : Type} (R : relation S) `{!PreOrder R}.
Lemma moves_read_only {A} (m : M S A) : read_only m → moves R m.
Proof. intros Hm s. by rewrite Hm. Qed.
Lemma moves_bind {A B} (m : M S A) (k : A → M S B) :
moves R m → (∀ a, moves R (k a)) → moves R (m ≫= k).
Proof.
intros Hm Hk s. rewrite run_bind. specialize (Hm s).
destruct (m s) as [[a|e] s']; simpl in *; [|done]. etrans; [done | apply Hk].
Qed.
Lemma moves_try {A} (m : M S A) h :
moves R m → (∀ e k, h e = Some k → moves R k) → moves R (try_except m h).
Proof.
intros Hm Hh s. unfold try_except. specialize (Hm s).
destruct (m s) as [[a|e] s']; simpl in *; [done|].
destruct (h e) as [k|] eqn:E; [|done]. etrans; [done | by eapply Hh].
Qed.
End moves.

Create HintDb moves.

(** As [preserves]; the writes are left when they are no hints. *)
Ltac moves :=
  repeat (intros; first
    [ solve [eauto with moves nocore]
    | apply moves_bind; [apply _ | |]
    | apply moves_try; [apply _ | |]
    | solve [apply moves_read_only; [apply _ | read_only]]
    | match goal with
      | |- moves _ (if decide ?P then _ else _) => destruct (decide P)
      | |- moves _ (match ?x with _ => _ end) => destruct x
      | H : Some _ = Some _ |- _ => injection H as <-
      | H : None = Some _ |- _ => discriminate H
      | H : (match ?x with _ => _ end) = Some _ |- _ => destruct x
      end ]).

(** *** The exceptions a computation can raise *)
Definition raises {S A} (E : exn → Prop) (m : M S A) : Prop :=
  ∀ s e s', m s = (Err e, s') → E e.

Section raises.
Context {S : Type} (E : exn → Prop).
Lemma raises_ret {A} (a : A) : raises (S := S) E (mret a).
Proof. by intros s e s'. Qed.
Lemma raises_raise {A} e : E e → raises (S := S) (A := A) E (raise e).
Proof. by intros He s e' s' [= <- _]. Qed.
Lemma raises_gets {A} (f : S → A) : raises E (gets f).
Proof. by intros s e s'. Qed.
Lemma raises_modify (f : S → S) : raises E (modify f).
Proof. by intros s e s'. Qed.
Lemma raises_bind {A B} (m : M S A) (k : A → M S B) :
raises E m → (∀ a, raises E (k a)) → raises E (m ≫= k).
Proof.
intros Hm Hk s e s'. rewrite run_bind. destruct (m s) as [[a|x] s1] eqn:Em; [apply Hk|].
intros [= <- _]. by eapply Hm.
Qed.
Lemma raises_try {A} (m : M S A) h :
raises E m → (∀ e k, h e = Some k → raises E k) → raises E (try_except m h).
Proof.
intros Hm Hh s e s'. unfold try_except. destruct (m s) as [[a|x] s1] eqn:Em; [done|].
destruct (h x) as [k|] eqn:Ex; [by apply (Hh _ _ Ex)|]. intros [= <- _]. by eapply Hm.
Qed.
Lemma raises_as_str v : E TypeError → raises (S := S) E (as_str v).
Proof. intros ? s e s'. destruct v; intros [= <-]; done. Qed.
End raises.

Create HintDb raises.
#[export] Hint Resolve raises_ret raises_gets raises_modify : raises.
Ltac raises :=
  repeat (intros; first
    [ solve [eauto with raises nocore]
    | apply raises_bind
    | apply raises_try
    | first [apply raises_raise | apply raises_as_str]; solve [done | hnf; done | hnf; lia]
    | match goal with
      | |- raises _ (if decide ?P then _ else _) => destruct (decide P)
      | |- raises _ (match ?x with _ => _ end) => destruct x
      | H : Some _ = Some _ |- _ => injection H as <-
      | H : None = Some _ |- _ => discriminate H
      | H : (match ?x with _ => _ end) = Some _ |- _ => destruct x
      end ]).

(** ** The environment of a request: [uuid.uuid4()], [datetime.now(UTC)] and
    the ambient OpenTelemetry context ([propagate.inject]). *)
Record env := mk_env { fresh : nat → uuid; clock : Z; trace_context : dict }.

(** Code outside the repository, as the services call it.
    - [sha256_hexdigest body] is [hashlib.sha256(body).hexdigest()];
    - [model_dump_json d] is pydantic's serialisation of a response model;
    - [jwt_encode claims secret] and [jwt_decode token secret issuer now] are
      PyJWT with HS256; [None] is any [InvalidTokenError]. *)
Class Platform := {
  sha256_hexdigest : string → string;
  model_dump_json : dict → string;
  jwt_encode : dict → string → string;
  jwt_decode : string → string → string → Z → option dict;
}.

(** ** The session *)
Record session (DB W : Type) := mk_session {
  committed : DB;
  work : DB;
  world : W;
  senv : env;
}.
Arguments mk_session {DB W}.
Arguments committed {DB W}.
Arguments work {DB W}.
Arguments world {DB W}.
Arguments senv {DB W}.

Section session.
Context {DB W : Type}.
Implicit Types s : session DB W.

Definition with_work (db : DB) s : session DB W := mk_session (committed s) db (world s) (senv s).
Definition with_world (w : W) s : session DB W := mk_session (committed s) (work s) w (senv s).

Definition get_db : M (session DB W) DB := gets work.
Definition put_db (db : DB) : M (session DB W) unit := modify (with_work db).

Definition commit : M (session DB W) unit :=
modify (λ s, mk_session (work s) (work s) (world s) (senv s)).
Definition rollback : M (session DB W) unit :=
modify (λ s, mk_session (committed s) (committed s) (world s) (senv s)).

(** A call on the world outside the database. *)
Definition call {A} (f : M W A) : M (session DB W) A := λ s,
let '(r, w) := f (world s) in (r, with_world w s).

Definition shift_env (e : env) : env :=
mk_env (λ n, fresh e (S n)) (clock e) (trace_context e).

(** [uuid.uuid4()]: the next identifier of the stream. *)
Definition uuid4 : M (session DB W) uuid := λ s,
(Ok (fresh (senv s) 0), mk_session (committed s) (work s) (world s) (shift_env (senv s))).

Definition now : M (session DB W) Z := gets (λ s, clock (senv s)).

(** A process of the system: its committed database, the world, the
  environment it draws from. *)
Definition node : Type := DB * W * env.

(** [async with session_factory() as session: m]. *)
Definition run_session {A} (m : M (session DB W) A) : M node A := λ '(db, w, e),
let '(r, s) := m (mk_session db db w e) in (r, (committed s, world s, senv s)).
End session.
Arguments node : clear implicits.

Lemma raises_uuid4 {DB W} E : raises E (uuid4 (DB := DB) (W := W)).
Proof. by intros s e s'. Qed.
#[export] Hint Resolve raises_uuid4 : raises.

(** [n] identifiers later. *)
Fixpoint shift_env_n (n : nat) (e : env) : env :=
  match n with O => e | S n => shift_env_n n (shift_env e) end.

(** A computation that never commits leaves the committed database alone. *)
Definition no_commit {DB W A} (m : M (session DB W) A) : Prop :=
  ∀ s, committed (snd (m s)) = committed s.

Create HintDb effects.

Section no_commit.
Context {DB W : Type}.

Lemma no_commit_call {A} (f : M W A) : no_commit (DB := DB) (call f).
Proof. intros s. unfold call. by destruct (f (world s)). Qed.
Lemma no_commit_ret {A} (a : A) : no_commit (DB := DB) (W := W) (mret a).
Proof. done. Qed.
Lemma no_commit_raise {A} e : no_commit (DB := DB) (W := W) (A := A) (raise e).
Proof. done. Qed.
Lemma no_commit_gets {A} (f : session DB W → A) : no_commit (gets f).
Proof. done. Qed.
Lemma no_commit_get_db : no_commit (DB := DB) (W := W) get_db.
Proof. done. Qed.
Lemma no_commit_put_db db : no_commit (DB := DB) (W := W) (put_db db).
Proof. done. Qed.
Lemma no_commit_rollback : no_commit (DB := DB) (W := W) rollback.
Proof. done. Qed.
Lemma no_commit_uuid4 : no_commit (DB := DB) (W := W) uuid4.
Proof. done. Qed.
Lemma no_commit_now : no_commit (DB := DB) (W := W) now.
Proof. done. Qed.
Lemma no_commit_bind {A B} (m : M (session DB W) A) (k : A → M (session DB W) B) :
no_commit m → (∀ a, no_commit (k a)) → no_commit (m ≫= k).
Proof.
intros Hm Hk s. rewrite run_bind. specialize (Hm s).
destruct (m s) as [[a|e] s']; simpl in *; [by rewrite Hk | done].
Qed.
Lemma no_commit_try {A} (m : M (session DB W) A) h :
no_commit m → (∀ e k, h e = Some k → no_commit k) → no_commit (try_except m h).
Proof.
intros Hm Hh s. unfold try_except. specialize (Hm s).
destruct (m s) as [[a|e] s']; simpl in *; [done|].
destruct (h e) as [k|] eqn:E; [by rewrite (Hh _ _ E) | done].
Qed.
Lemma no_commit_getitem d k : no_commit (DB := DB) (W := W) (getitem d k).
Proof. intros s. unfold getitem. by destruct (dict_get d k). Qed.
Lemma no_commit_as_int v : no_commit (DB := DB) (W := W) (as_int v).
Proof. by destruct v. Qed.
Lemma no_commit_as_str v : no_commit (DB := DB) (W := W) (as_str v).
Proof. by destruct v. Qed.
Lemma no_commit_to_uuid v : no_commit (DB := DB) (W := W) (to_uuid v).
Proof. apply no_commit_bind; [apply no_commit_as_str|]. intros s. by destruct (UUID s). Qed.

(** The committed database after a session that raised without committing. *)
Lemma run_session_no_commit {A} (m : M (session DB W) A) db w e r n :
no_commit m → run_session m (db, w, e) = (r, n) → n.1.1 = db.
Proof.
intros Hm. unfold run_session. specialize (Hm (mk_session db db w e)).
destruct (m _) as [r' s]. simpl in *. intros [= <- <-]. done.
Qed.
End no_commit.

#[export] Hint Resolve no_commit_ret no_commit_raise no_commit_gets no_commit_get_db
  no_commit_put_db no_commit_call no_commit_rollback no_commit_uuid4 no_commit_now no_commit_bind
  no_commit_try no_commit_getitem no_commit_as_int no_commit_as_str no_commit_to_uuid : effects.

(** Follow the code: one rule per statement, case analysis on branches. *)
Ltac no_commit :=
  repeat (intros; first
    [ solve [eauto with effects nocore]
    | apply no_commit_bind
    | apply no_commit_try
    | match goal with
      | |- no_commit (if decide ?P then _ else _) => destruct (decide P)
      | |- no_commit (match ?x with _ => _ end) => destruct x
      | H : Some _ = Some _ |- _ => injection H as <-
      | H : None = Some _ |- _ => discriminate H
      | H : (match ?x with _ => _ end) = Some _ |- _ => destruct x
      end ]).

(** Symbolic execution: push the state through the sequencing. *)
Ltac run := repeat (rewrite run_bind; simpl).
Tactic Notation "run" "in" hyp(H) := repeat (rewrite run_bind in H; simpl in H).
