(* ===== verification/Outbox.v ===== *)
(** * Outbox: shared/outbox.py

    Every service that publishes events owns an [outbox] table, written in
    the transaction of the state change and shipped to Kafka in order by
    Debezium.  [HasOutbox] is what a service's database promises; the
    envelope is the JSONB value of the [payload] column. *)
From S2P Require Import Prelude Python Effects.

Record OutboxRow := mk_outbox_row {
  ob_id : string;
  aggregatetype : string;
  aggregateid : string;
  ob_type : string;
  payload : dict;
}.

Class HasOutbox (DB : Type) := {
  get_outbox : DB → list OutboxRow;
  set_outbox : list OutboxRow → DB → DB;
  get_set_outbox : ∀ rows db, get_outbox (set_outbox rows db) = rows;
}.

(** [json.dumps(envelope)], as the JSONB value it is cast to. *)
Definition envelope (event_id event_type : string) (data trace : dict) : dict :=
  [("event_id", PStr event_id); ("event_type", PStr event_type);
   ("data", PDict data); ("trace_context", PDict trace)].

Section outbox.
Context {DB W : Type} `{!HasOutbox DB}.

Definition write_outbox_event (aggregate_type aggregate_id event_type : string) (data : dict) :
  M (session DB W) string :=
event_id ← uuid4;
trace ← gets (λ s, trace_context (senv s));
db ← get_db;
put_db (set_outbox (get_outbox db ++
  [mk_outbox_row (str_uuid event_id) aggregate_type aggregate_id event_type
     (envelope (str_uuid event_id) event_type data trace)]) db);;
mret (str_uuid event_id).

(** The row a call inserts. *)
Definition outbox_row (e : env) (aggregate_type aggregate_id event_type : string) (data : dict) :
  OutboxRow :=
mk_outbox_row (str_uuid (fresh e 0)) aggregate_type aggregate_id event_type
  (envelope (str_uuid (fresh e 0)) event_type data (trace_context e)).

Lemma write_outbox_event_run at_ ai et data (s : session DB W) :
write_outbox_event at_ ai et data s =
(Ok (str_uuid (fresh (senv s) 0)),
 mk_session (committed s)
   (set_outbox (get_outbox (work s) ++ [outbox_row (senv s) at_ ai et data]) (work s))
   (world s) (shift_env (senv s))).
Proof. done. Qed.

Lemma no_commit_write_outbox_event at_ ai et data :
no_commit (write_outbox_event at_ ai et data).
Proof. unfold write_outbox_event. no_commit. Qed.
End outbox.

#[export] Hint Resolve no_commit_write_outbox_event : effects.
