(* ===== verification/Inbox.v ===== *)
(** * Inbox: shared/inbox.py and the consumer side of shared/kafka_consumer.py

    [claim_event] is the deduplication of consumed events; [inbox_process]
    is the [process] closure of [postgres_inbox_processor] (claim, dispatch
    and commit in one transaction); [consume] and [run_consumer] are the
    Kafka loop over the records of a partition, with the committed offset as
    explicit state.  [delivery] lets the broker redeliver: after a crash
    between the commit of the database and the commit of the offset, and
    after a consumer restart.  [at_least_once_exactly_once] is the contract:
    under any such schedule the effects are those of handling every record
    once, in order. *)
From S2P Require Import Prelude Python Effects.

Class HasInbox (DB : Type) := {
  get_inbox : DB → gset string;
  set_inbox : gset string → DB → DB;
  get_set_inbox : ∀ ids db, get_inbox (set_inbox ids db) = ids;
}.

Section inbox.
Context {DB W : Type} `{!HasInbox DB}.

(** [INSERT ... ON CONFLICT DO NOTHING]; [True] when the row was new. *)
Definition claim_event (event_id : string) : M (session DB W) bool :=
db ← get_db;
if decide (event_id ∈ get_inbox db) then mret false
else put_db (set_inbox ({[event_id]} ∪ get_inbox db) db);; mret true.

Definition handler : Type := dict → M (session DB W) unit.

(** [handlers.get(event_type)]. *)
Fixpoint handlers_get (hs : list (string * handler)) (event_type : string) : option handler :=
match hs with
| [] => None
| (t, h) :: hs => if decide (event_type = t) then Some h else handlers_get hs event_type
end.

(** The body of [process], inside its session. *)
Definition inbox_body (hs : list (string * handler)) (event_id event_type : string)
  (data : dict) : M (session DB W) unit :=
claimed ← claim_event event_id;
(if (claimed : bool) then
   match handlers_get hs event_type with
   | Some h => h data
   | None => mret tt
   end
 else mret tt);;
commit.

Definition inbox_process (hs : list (string * handler)) (event_id event_type : string)
  (data : dict) : M (node DB W) unit :=
run_session (inbox_body hs event_id event_type data).
End inbox.
Arguments handler : clear implicits.
#[global] Arguments inbox_process : simpl never.

(** ** The consumer loop, over any state *)
Section consumer.
Context {St : Type}.
Implicit Types n : St.

Definition processor : Type := string → string → dict → M St unit.

(** One iteration of the loop of [run_consumer], up to [process]: the span
  name reads [event_type] first, then the three fields are passed on. *)
Definition consume (process : processor) (record : dict) : M St unit :=
_ ← getitem record "event_type";
i ← getitem record "event_id"; event_id ← as_str i;
t ← getitem record "event_type"; event_type ← as_str t;
d ← getitem record "data";
match d with
| PDict data => process event_id event_type data
| _ => raise TypeError
end.

(** The loop over the records from the committed offset on: an exception
  leaves the offset where it was and ends the loop. *)
Fixpoint run_consumer (process : processor) (records : list dict) :
  M (St * nat) unit := λ '(n, off),
match records with
| [] => (Ok tt, (n, off))
| r :: rs =>
    match consume process r n with
    | (Ok _, n') => run_consumer process rs (n', S off)
    | (Err e, n') => (Err e, (n', off))
    end
end.

(** The three fields a well-formed record carries. *)
Definition record_fields (r : dict) : option (string * string * dict) :=
match dict_get r "event_id", dict_get r "event_type", dict_get r "data" with
| Some (PStr i), Some (PStr t), Some (PDict d) => Some (i, t, d)
| _, _, _ => None
end.

Lemma consume_fields (process : processor) r i t d n :
record_fields r = Some (i, t, d) → consume process r n = process i t d n.
Proof.
unfold record_fields, consume, getitem.
destruct (dict_get r "event_id") as [[]|], (dict_get r "event_type") as [[]|],
  (dict_get r "data") as [[]|]; intros [= <- <- <-]; done.
Qed.

Lemma consume_malformed (process : processor) r n :
record_fields r = None → ∃ e, consume process r n = (Err e, n).
Proof.
unfold record_fields, consume, getitem.
destruct (dict_get r "event_id") as [[]|], (dict_get r "event_type") as [[]|],
  (dict_get r "data") as [[]|]; intros E; try discriminate E; eexists; reflexivity.
Qed.

Lemma consume_Ok_inv (process : processor) r n n' :
consume process r n = (Ok tt, n') ↔
∃ i t d, record_fields r = Some (i, t, d) ∧ process i t d n = (Ok tt, n').
Proof.
split.
- intros H. destruct (record_fields r) as [[[i t] d]|] eqn:E.
  + rewrite (consume_fields _ _ _ _ _ _ E) in H. eauto.
  + by destruct (consume_malformed process r n E) as [e Hc]; rewrite Hc in H.
- intros (i & t & d & E & Hp). by rewrite (consume_fields _ _ _ _ _ _ E).
Qed.

Lemma run_consumer_app (process : processor) rs rs' st :
run_consumer process (rs ++ rs') st =
match run_consumer process rs st with
| (Ok _, st') => run_consumer process rs' st'
| (Err e, st') => (Err e, st')
end.
Proof.
revert st. induction rs as [|r rs IH]; intros [n off]; simpl; [done|].
destruct (consume process r n) as [[[]|e] n'']; [apply IH | done].
Qed.
End consumer.
Arguments processor : clear implicits.

Section consumer_loop.
Context {DB W : Type} `{!HasInbox DB}.
Implicit Types n : node DB W.

(** Two sessions whose inbox is the same up to the claim: a claimed event
  is a no-op on the whole node. *)
Lemma inbox_process_claimed hs i t d n :
i ∈ get_inbox n.1.1 → inbox_process hs i t d n = (Ok tt, n).
Proof.
destruct n as [[db w] e]. simpl. intros Hi.
unfold inbox_process, run_session, inbox_body. rewrite run_bind.
unfold claim_event. rewrite run_bind. simpl. by rewrite decide_True by done.
Qed.

(** Handlers neither commit nor touch the inbox. *)
Definition inbox_preserving (h : handler DB W) : Prop :=
∀ d s, committed (snd (h d s)) = committed s ∧ get_inbox (work (snd (h d s))) = get_inbox (work s).

Definition handlers_ok (hs : list (string * handler DB W)) : Prop :=
Forall (λ p, inbox_preserving p.2) hs.

Lemma handlers_get_ok hs t h : handlers_ok hs → handlers_get hs t = Some h → inbox_preserving h.
Proof.
unfold handlers_ok. induction hs as [|[t' h'] hs IH]; simpl; [done|].
intros [Hh Hhs]%Forall_cons_1. case_decide; [by intros [= <-] | by apply IH].
Qed.

(** An unclaimed event: either everything commits, with the claim, or
  the database is exactly what it was. *)
Lemma inbox_process_unclaimed hs i t d n r n' :
handlers_ok hs → i ∉ get_inbox n.1.1 → inbox_process hs i t d n = (r, n') →
match r with
| Ok _ => get_inbox n'.1.1 = {[i]} ∪ get_inbox n.1.1
| Err _ => n'.1.1 = n.1.1
end.
Proof.
destruct n as [[db w] e]. simpl. intros Hhs Hi.
unfold inbox_process, run_session, inbox_body, claim_event. rewrite !run_bind. simpl.
rewrite decide_False by done. simpl.
destruct (handlers_get hs t) as [h|] eqn:Eh; simpl.
- set (s := with_work _ _).
  pose proof (handlers_get_ok _ _ _ Hhs Eh d s) as [Hc Hb].
  rewrite run_bind. fold s. destruct (h d s) as [[[]|x] s'] eqn:E; simpl in *; intros [= <- <-].
  + simpl. rewrite Hb. apply get_set_inbox.
  + by rewrite Hc.
- intros [= <- <-]. simpl. apply get_set_inbox.
Qed.

(** The session a handler runs in. *)
Definition claimed_session (i : string) (n : node DB W) : session DB W :=
let '(db, w, e) := n in mk_session db (set_inbox ({[i]} ∪ get_inbox db) db) w e.

(** Processing an unclaimed event that has a handler is running the handler
  in that session and committing what it leaves. *)
Lemma inbox_process_handled hs i t d n h :
i ∉ get_inbox n.1.1 → handlers_get hs t = Some h →
inbox_process hs i t d n =
  match h d (claimed_session i n) with
  | (Ok _, s') => (Ok tt, (work s', world s', senv s'))
  | (Err e, s') => (Err e, (committed s', world s', senv s'))
  end.
Proof.
destruct n as [[db w] e]. simpl. intros Hi Hh.
unfold inbox_process, run_session, inbox_body, claim_event. rewrite !run_bind. simpl.
rewrite decide_False by done. rewrite run_bind. simpl. rewrite Hh, run_bind.
unfold with_work. simpl. by destruct (h d _) as [[[]|x] s'].
Qed.

Lemma inbox_process_ignored hs i t d n :
i ∉ get_inbox n.1.1 → handlers_get hs t = None →
inbox_process hs i t d n = (Ok tt, (work (claimed_session i n), n.1.2, n.2)).
Proof.
destruct n as [[db w] e]. simpl. intros Hi Hh.
unfold inbox_process, run_session, inbox_body, claim_event. rewrite !run_bind. simpl.
rewrite decide_False by done. rewrite run_bind. simpl. by rewrite Hh.
Qed.

(** The record is claimed once its processing succeeded. *)
Lemma inbox_process_Ok_claims hs i t d n n' :
handlers_ok hs → inbox_process hs i t d n = (Ok tt, n') →
get_inbox n'.1.1 = {[i]} ∪ get_inbox n.1.1.
Proof.
intros Hhs Hp. destruct (decide (i ∈ get_inbox n.1.1)) as [Hi|Hi].
- rewrite inbox_process_claimed in Hp by done. simplify_eq. set_solver.
- by apply (inbox_process_unclaimed hs i t d n (Ok tt) n').
Qed.

Lemma consume_Err_db hs r n e n' :
handlers_ok hs → consume (inbox_process hs) r n = (Err e, n') → n'.1.1 = n.1.1.
Proof.
intros Hhs H. destruct (record_fields r) as [[[i t] d]|] eqn:E.
- rewrite (consume_fields _ _ _ _ _ _ E) in H.
  destruct (decide (i ∈ get_inbox n.1.1)).
  + by rewrite inbox_process_claimed in H.
  + by apply (inbox_process_unclaimed hs i t d n (Err e) n').
- destruct (consume_malformed (inbox_process hs) r n E) as [e' Hc]. rewrite Hc in H. by injection H as _ <-.
Qed.

End consumer_loop.

(** ** At-least-once delivery of a topic partition *)
Section delivery.
Context {DB W : Type} `{!HasInbox DB}.
Variable hs : list (string * handler DB W).
Hypothesis hs_ok : handlers_ok hs.
Variable topic : list dict.
(** What else runs against the same database: other requests, other
  consumers.  They never remove a claim. *)
Variable other : node DB W → node DB W → Prop.
Hypothesis other_mono : ∀ n n', other n n' → get_inbox n.1.1 ⊆ get_inbox n'.1.1.

(** The state is the node and the committed offset.  [deliver_crash] is a
  stop between [process] returning and [consumer.commit()]; the record
  at the offset is delivered again afterwards. *)
Inductive delivery : node DB W * nat → node DB W * nat → Prop :=
| deliver_commit n n' off r :
  topic !! off = Some r → consume (inbox_process hs) r n = (Ok tt, n') →
  delivery (n, off) (n', S off)
| deliver_crash n n' off r :
  topic !! off = Some r → consume (inbox_process hs) r n = (Ok tt, n') →
  delivery (n, off) (n', off)
| deliver_raise n n' off r e :
  topic !! off = Some r → consume (inbox_process hs) r n = (Err e, n') →
  delivery (n, off) (n', off)
| deliver_other n n' off : other n n' → delivery (n, off) (n', off).

(** The specification: record [k] takes effect when the counter goes from
  [k] to [k + 1], and never again; attempts that raise change no data. *)
Inductive once : node DB W * nat → node DB W * nat → Prop :=
| once_handle n n' k r :
  topic !! k = Some r → consume (inbox_process hs) r n = (Ok tt, n') →
  once (n, k) (n', S k)
| once_raise n n' k r e :
  topic !! k = Some r → consume (inbox_process hs) r n = (Err e, n') → n'.1.1 = n.1.1 →
  once (n, k) (n', k)
| once_other n n' k : other n n' → once (n, k) (n', k).

(** The record handled last stays claimed until its offset is committed. *)
Definition claimed_at (n : node DB W) (off k : nat) : Prop :=
k = off ∨
k = S off ∧ ∃ r i t d, topic !! off = Some r ∧ record_fields r = Some (i, t, d) ∧
  i ∈ get_inbox n.1.1.

Lemma claimed_at_after n n' off r :
topic !! off = Some r → consume (inbox_process hs) r n = (Ok tt, n') →
claimed_at n' off (S off).
Proof.
intros Hr Hc. right. split; [done|].
apply consume_Ok_inv in Hc as (i & t & d & Hf & Hp).
exists r, i, t, d. repeat split; try done.
rewrite (inbox_process_Ok_claims _ _ _ _ _ _ hs_ok Hp). set_solver.
Qed.

Lemma claimed_redelivery n off r :
claimed_at n off (S off) → topic !! off = Some r → consume (inbox_process hs) r n = (Ok tt, n).
Proof.
intros [|(_ & r' & i & t & d & Hr' & Hf & Hin)] Hr; [lia|]. simplify_eq.
apply consume_Ok_inv. exists i, t, d. repeat split; try done.
by apply inbox_process_claimed.
Qed.

Lemma delivery_simulated n off k n' off' :
claimed_at n off k → delivery (n, off) (n', off') →
∃ k', rtc once (n, k) (n', k') ∧ claimed_at n' off' k'.
Proof.
intros Hk Hd. inversion Hd as [? ? ? r Hr Hc|? ? ? r Hr Hc|? ? ? r e Hr Hc|? ? ? Ho]; subst.
- destruct Hk as [->|Hk].
  + exists (S off). split; [by eapply rtc_once, once_handle | by left].
  + pose proof Hk as [-> _]. rewrite (claimed_redelivery n off r) in Hc; [|by right|done].
    simplify_eq. exists (S off). split; [done | by left].
- destruct Hk as [->|Hk].
  + exists (S off'). split; [by eapply rtc_once, once_handle | by eapply claimed_at_after].
  + pose proof Hk as [-> _]. rewrite (claimed_redelivery n off' r) in Hc; [|by right|done].
    simplify_eq. exists (S off'). split; [done | by right].
- destruct Hk as [->|Hk].
  + exists off'. split; [|by left].
    by eapply rtc_once, once_raise, consume_Err_db.
  + pose proof Hk as [-> _]. by rewrite (claimed_redelivery n off' r) in Hc; [|by right|].
- exists k. split; [by apply rtc_once, once_other|].
  destruct Hk as [->|(-> & r & i & t & d & ? & ? & ?)]; [by left|]. right.
  split; [done|]. exists r, i, t, d. repeat split; try done.
  apply other_mono in Ho. set_solver.
Qed.
End delivery.

(** C11: at-least-once delivery. *)
Theorem at_least_once_exactly_once {DB W : Type} `{!HasInbox DB}
    (hs : list (string * handler DB W)) (Hhs : handlers_ok hs)
    (topic : list dict) (other : node DB W → node DB W → Prop)
    (Hother : ∀ n n', other n n' → get_inbox n.1.1 ⊆ get_inbox n'.1.1)
    (n0 n : node DB W) (off : nat) :
  rtc (delivery hs topic other) (n0, 0) (n, off) →
  ∃ k, rtc (once hs topic other) (n0, 0) (n, k) ∧ off ≤ k ≤ S off.
Proof.
  intros Hd.
  assert (∀ st st', rtc (delivery hs topic other) st st' → ∀ k, claimed_at topic st.1 st.2 k →
    ∃ k', rtc (once hs topic other) (st.1, k) (st'.1, k') ∧ claimed_at topic st'.1 st'.2 k') as Hsim.
  { induction 1 as [st|[n1 o1] [n2 o2] [n3 o3] Hstep _ IH]; intros k Hk; [eauto using rtc_refl|].
    eapply delivery_simulated in Hstep as (k1 & H1 & Hk1); eauto.
    destruct (IH k1 Hk1) as (k2 & H2 & Hk2). exists k2. split; [by etrans | done]. }
  destruct (Hsim _ _ Hd 0) as (k & Hk & Hc); [by left|].
  exists k. split; [done|]. destruct Hc as [->|[-> _]]; simpl; lia.
Qed.
