(* ===== verification/Idempotency.v ===== *)
(** * Idempotency: shared/idempotency.py

    [idempotency_guard] is the FastAPI dependency that looks the
    Idempotency-Key up before the handler runs; [respond_idempotently] runs
    the handler unless the key was used, and [store] commits its effect
    together with the response.  [serve] is the request boundary: the
    session is opened, the handler runs, an [HTTPException] becomes its
    status code, any other exception a 500, and the session is closed. *)
From S2P Require Import Prelude Python Effects.

Record IdemRow := mk_idem_row {
  request_hash : string;
  response_body : string;
  status_code : Z;
  created_at : Z;
}.

(** The [idempotency_keys] table, keyed by (consumer_id, key). *)
Class HasIdem (DB : Type) := {
  get_idem : DB → gmap (string * string) IdemRow;
  set_idem : gmap (string * string) IdemRow → DB → DB;
  get_set_idem : ∀ m db, get_idem (set_idem m db) = m;
}.

Record Response := mk_response { resp_status : Z; resp_body : string }.

Record IdempotencyGuard := mk_guard {
  g_consumer_id : string;
  g_key : string;
  g_request_hash : string;
  g_replay : option (string * Z);   (* replay_body, replay_status *)
}.

Definition mismatch_detail : string := "Idempotency-Key was already used with a different request".

Section idempotency.
Context {DB W : Type} `{!HasIdem DB} `{!Platform}.

(** [_guard]: [key] is the header, [body] the raw request body. *)
Definition idempotency_guard (key : option string) (consumer_id body : string) :
  M (session DB W) IdempotencyGuard :=
match key with
| None | Some "" => raise (HTTPException 400 "Idempotency-Key header is required")
| Some key =>
    let hash := sha256_hexdigest body in
    db ← get_db;
    match get_idem db !! (consumer_id, key) with
    | Some row =>
        if decide (request_hash row ≠ hash) then raise (HTTPException 409 mismatch_detail)
        else mret (mk_guard consumer_id key hash (Some (response_body row, status_code row)))
    | None => mret (mk_guard consumer_id key hash None)
    end
end.

(** [IdempotencyGuard.store]; the guard it returns is the mutated object. *)
Definition store (g : IdempotencyGuard) (body : string) (status : Z) :
  M (session DB W) IdempotencyGuard :=
db ← get_db;
t ← now;
g ← match get_idem db !! (g_consumer_id g, g_key g) with
    | None =>
        put_db (set_idem (<[(g_consumer_id g, g_key g) :=
          mk_idem_row (g_request_hash g) body status t]> (get_idem db)) db);;
        mret g
    | Some row =>
        if decide (request_hash row ≠ g_request_hash g)
        then raise (HTTPException 409 mismatch_detail)
        else mret (mk_guard (g_consumer_id g) (g_key g) (g_request_hash g)
               (Some (response_body row, status_code row)))
    end;
commit;;
mret g.

Definition respond_idempotently (g : IdempotencyGuard) (status : Z)
  (build : M (session DB W) string) : M (session DB W) Response :=
match g_replay g with
| Some (body, st) => mret (mk_response st body)
| None =>
    json ← build;
    g ← store g json status;
    match g_replay g with
    | Some (body, st) => mret (mk_response st body)
    | None => mret (mk_response status json)
    end
end.

(** [purge_expired_idempotency_keys]: the number of rows deleted. *)
Definition purge_expired_idempotency_keys (older_than : Z) : M (session DB W) nat :=
t ← now;
db ← get_db;
let keep := filter (λ p, ¬ created_at p.2 < t - older_than)%Z (get_idem db) in
put_db (set_idem keep db);;
commit;;
mret (size (get_idem db) - size keep).

(** [run_idempotency_cleanup_loop], over the times it wakes up at: a session
    and a pass for each; the loop ends with the first pass that raises. *)
Fixpoint run_idempotency_cleanup_loop (older_than : Z) (wakes : list Z) : M (node DB W) unit :=
match wakes with
| [] => mret tt
| t :: wakes =>
    _ ← (λ '(db, w, e), run_session (purge_expired_idempotency_keys older_than)
           (db, w, mk_env (fresh e) t (trace_context e)));
    run_idempotency_cleanup_loop older_than wakes
end.

(** What the client sees of a result. *)
Definition http_response (r : result Response) : Response :=
match r with
| Ok resp => resp
| Err (HTTPException st detail) => mk_response st (model_dump_json [("detail", PStr detail)])
| Err _ => mk_response 500 "Internal Server Error"
end.

(** One request against a node. *)
Definition serve (m : M (session DB W) Response) (n : node DB W) : Response * node DB W :=
let '(r, n') := run_session m n in (http_response r, n').
End idempotency.

(** ** What the guard guarantees *)
Section guarantees.
Context {DB W : Type} `{!HasIdem DB} `{!Platform}.
Implicit Types (n : node DB W) (s : session DB W).

(** A mutating endpoint: the guard dependency, then the handler. *)
Definition guarded (key : option string) (consumer_id body : string) (status : Z)
  (build : M (session DB W) string) : M (session DB W) Response :=
g ← idempotency_guard key consumer_id body;
respond_idempotently g status build.

(** The row a guard with a hit, or [store], answers from. *)
Definition answered (g : IdempotencyGuard) (resp : Response) (db : DB) : Prop :=
∃ row, get_idem db !! (g_consumer_id g, g_key g) = Some row ∧
  request_hash row = g_request_hash g ∧
  resp = mk_response (status_code row) (response_body row).

Lemma guard_Ok key cid body s g s' :
idempotency_guard key cid body s = (Ok g, s') →
s' = s ∧ key = Some (g_key g) ∧ g_key g ≠ "" ∧ g_consumer_id g = cid ∧
g_request_hash g = sha256_hexdigest body ∧
match g_replay g with
| Some (b, st) => answered g (mk_response st b) (work s)
| None => get_idem (work s) !! (cid, g_key g) = None
end.
Proof.
unfold idempotency_guard. destruct key as [[|c k]|]; try done.
rewrite run_bind. simpl. destruct (get_idem (work s) !! _) as [row|] eqn:E.
- case_decide as Hh; [done|]. intros [= <- <-]. simpl.
  repeat split; try done. by exists row.
- intros [= <- <-]. simpl. done.
Qed.

(** [store] leaves the response it answers with in the committed table. *)
Lemma store_Ok g body status s g' s' :
store g body status s = (Ok g', s') →
committed s' = work s' ∧
g_consumer_id g' = g_consumer_id g ∧ g_key g' = g_key g ∧
g_request_hash g' = g_request_hash g ∧
match get_idem (work s) !! (g_consumer_id g, g_key g) with
| None => g' = g ∧
    get_idem (work s') = <[(g_consumer_id g, g_key g) :=
      mk_idem_row (g_request_hash g) body status (clock (senv s))]> (get_idem (work s))
| Some row => work s' = work s ∧ request_hash row = g_request_hash g ∧
    g_replay g' = Some (response_body row, status_code row)
end.
Proof.
unfold store. rewrite !run_bind. simpl.
destruct (get_idem (work s) !! (g_consumer_id g, g_key g)) as [row|] eqn:E; simpl.
- rewrite run_bind. case_decide as Hh; [done|]. simpl.
  intros [= <- <-]. done.
- intros [= <- <-]. simpl. by rewrite get_set_idem.
Qed.

Lemma respond_Ok_answered g status build s resp s' :
respond_idempotently g status build s = (Ok resp, s') →
match g_replay g with
| Some (b, st) => s' = s ∧ resp = mk_response st b
| None => committed s' = work s' ∧ answered g resp (work s')
end.
Proof.
unfold respond_idempotently. destruct (g_replay g) as [[b st]|] eqn:Er.
{ intros [= <- <-]. done. }
rewrite bind_Ok. intros (json & s1 & Hb & Hs). apply bind_Ok in Hs as (g' & s2 & Hst & Hr).
apply store_Ok in Hst as (Hc & Hcid & Hk & Hh & Hrow).
destruct (get_idem (work s1) !! _) as [row|] eqn:E.
- destruct Hrow as (Hw & Hhash & Hrep). rewrite Hrep in Hr. simplify_eq.
  injection Hr as <- <-. split; [done|]. exists row. by rewrite Hw.
- destruct Hrow as [-> Hins]. rewrite Er in Hr. injection Hr as <- <-. split; [done|].
  eexists. rewrite Hins, lookup_insert_eq. done.
Qed.

Lemma read_only_guard key cid body :
read_only (S := session DB W) (idempotency_guard key cid body).
Proof. unfold idempotency_guard, get_db. read_only. Qed.

(** A handler that raised, or whose key was taken meanwhile by another
  request, leaves the committed database alone. *)
Lemma respond_Err g status build s e s' :
no_commit build → respond_idempotently g status build s = (Err e, s') →
committed s' = committed s.
Proof.
intros Hb. unfold respond_idempotently. destruct (g_replay g) as [[b st]|] eqn:Er; [done|].
rewrite run_bind. specialize (Hb s). destruct (build s) as [[json|x] s2]; simpl in *;
  [|by intros [= _ <-]].
rewrite run_bind. unfold store at 1. rewrite !run_bind. simpl.
destruct (get_idem (work s2) !! _) as [row|]; simpl; [|by rewrite Er].
rewrite run_bind. case_decide; simpl; [by intros [= _ <-] | done].
Qed.

(** What [respond_idempotently] does to the database when it returns. *)
Lemma respond_built g status build s resp s' :
g_replay g = None → respond_idempotently g status build s = (Ok resp, s') →
∃ json s1, build s = (Ok json, s1) ∧ committed s' = work s' ∧ world s' = world s1 ∧
  (work s' = work s1 ∨ ∃ m, work s' = set_idem m (work s1)).
Proof.
intros Eg. unfold respond_idempotently. rewrite Eg, bind_Ok. intros (json & s1 & Hb & Hr). apply bind_Ok in Hr as (g' & s2 & Hst & Hr).
assert (s' = s2) as -> by (destruct (g_replay g') as [[]|]; by injection Hr).
exists json, s1. split; [done|]. split; [by apply store_Ok in Hst as (? & _)|].
unfold store in Hst. rewrite !run_bind in Hst. simpl in Hst.
destruct (get_idem (work s1) !! _) as [row|]; simpl in Hst.
- rewrite run_bind in Hst. case_decide; [done|]. injection Hst as _ <-. split; [done | by left].
- injection Hst as _ <-. split; [done|]. right. by eexists.
Qed.

Lemma respond_Ok_work g status build s resp s' :
respond_idempotently g status build s = (Ok resp, s') →
s' = s ∨ ∃ json s1, build s = (Ok json, s1) ∧ committed s' = work s' ∧ world s' = world s1 ∧
  (work s' = work s1 ∨ ∃ m, work s' = set_idem m (work s1)).
Proof.
destruct (g_replay g) as [[b st]|] eqn:Eg; [|intros; right; by eapply respond_built].
unfold respond_idempotently. rewrite Eg. intros [= _ <-]. by left.
Qed.

(** A guard whose row is in the table answers from it, whatever the handler. *)
Lemma guarded_hit key cid body status build s row :
key ≠ "" → get_idem (work s) !! (cid, key) = Some row →
request_hash row = sha256_hexdigest body →
guarded (Some key) cid body status build s =
  (Ok (mk_response (status_code row) (response_body row)), s).
Proof.
intros Hk Hrow Hh. unfold guarded. rewrite run_bind.
unfold idempotency_guard. destruct key as [|c k]; [done|]. rewrite run_bind. simpl.
rewrite Hrow, decide_False by (intros ?; done). done.
Qed.
End guarantees.

(** C29: a retry with the same key and body gets the stored response and
    changes nothing. *)
Theorem idempotent_retry {DB W : Type} `{!HasIdem DB} `{!Platform}
    (key : option string) (cid body : string) (status status' : Z)
    (build build' : M (session DB W) string) (n n1 : node DB W) (resp : Response) :
  run_session (guarded key cid body status build) n = (Ok resp, n1) →
  run_session (guarded key cid body status' build') n1 = (Ok resp, n1).
Proof.
  destruct n as [[db w] e]. unfold run_session.
  destruct (guarded key cid body status build _) as [r s1] eqn:Hrun. intros [= -> <-].
  unfold guarded in Hrun. apply bind_Ok in Hrun as (g & s0 & Hg & Hr).
  apply guard_Ok in Hg as (-> & -> & Hk & Hcid & Hh & Hm).
  assert (answered g resp (committed s1)) as (row & Hrow & Hhash & ->).
  { apply respond_Ok_answered in Hr. destruct (g_replay g) as [[b st]|].
    - by destruct Hr as [-> ->].
    - by destruct Hr as [-> ?]. }
  rewrite (guarded_hit _ _ _ _ _ _ row); try done; simpl; congruence.
Qed.

(** The same key with another body is refused and changes nothing. *)
Theorem key_reuse_refused {DB W : Type} `{!HasIdem DB} `{!Platform}
    (key cid body : string) (status : Z) (build : M (session DB W) string)
    (n : node DB W) (row : IdemRow) :
  key ≠ "" → get_idem n.1.1 !! (cid, key) = Some row →
  request_hash row ≠ sha256_hexdigest body →
  run_session (guarded (Some key) cid body status build) n =
    (Err (HTTPException 409 mismatch_detail), n).
Proof.
  destruct n as [[db w] e]. simpl. intros Hk Hrow Hh. unfold run_session, guarded.
  rewrite run_bind. unfold idempotency_guard. destruct key as [|c k]; [done|].
  rewrite run_bind. simpl. by rewrite Hrow, decide_True.
Qed.

(** A handler that raises commits nothing. *)
Theorem failed_request_rolls_back {DB W : Type} `{!HasIdem DB} `{!Platform}
    (key : option string) (cid body : string) (status : Z)
    (build : M (session DB W) string) (n n' : node DB W) (e : exn) :
  no_commit build →
  run_session (guarded key cid body status build) n = (Err e, n') →
  n'.1.1 = n.1.1.
Proof.
  intros Hb. destruct n as [[db w] env]. unfold run_session.
  destruct (guarded key cid body status build _) as [r s1] eqn:Hrun. intros [= -> <-]. simpl.
  revert Hrun. unfold guarded. rewrite run_bind.
  pose proof (read_only_guard key cid body (mk_session db db w env)) as Hg.
  destruct (idempotency_guard key cid body _) as [[g|x] s0]; simpl in Hg; subst s0.
  - by apply respond_Err.
  - by intros [= _ <-].
Qed.

(** Of two concurrent requests with one key, the second one (whose guard
    saw no row) answers with the first one's response, yet the effect of its
    own handler is committed as well. *)
Theorem concurrent_retry_commits_twice {DB W : Type} `{!HasIdem DB} `{!Platform}
    (g : IdempotencyGuard) (status : Z) (build : M (session DB W) string)
    (s s' : session DB W) (json : string) (row : IdemRow) :
  g_replay g = None →
  build s = (Ok json, s') →
  get_idem (work s') !! (g_consumer_id g, g_key g) = Some row →
  request_hash row = g_request_hash g →
  ∃ s'', respond_idempotently g status build s =
      (Ok (mk_response (status_code row) (response_body row)), s'') ∧
    committed s'' = work s'.
Proof.
  intros Hr Hb Hrow Hh. unfold respond_idempotently. rewrite Hr, run_bind, Hb, run_bind.
  unfold store. rewrite !run_bind. simpl. rewrite Hrow. simpl.
  rewrite decide_False by (intros ?; done). eexists. by split.
Qed.

(** The cleanup deletes exactly the rows older than the cutoff. *)
Theorem purge_exact {DB W : Type} `{!HasIdem DB} (older_than : Z) (n : node DB W) :
  let '(r, n') := run_session (purge_expired_idempotency_keys older_than) n in
  (∀ k row, get_idem n'.1.1 !! k = Some row ↔
     get_idem n.1.1 !! k = Some row ∧ clock n.2 - older_than ≤ created_at row)%Z ∧
  r = Ok (size (filter (λ p, created_at p.2 < clock n.2 - older_than)%Z (get_idem n.1.1))).
Proof.
  destruct n as [[db w] e]. simpl. rewrite get_set_idem. split.
  - intros k row. rewrite map_lookup_filter_Some. simpl. rewrite Z.nlt_ge. done.
  - f_equal.
    rewrite <- (map_filter_union_complement (λ p, created_at p.2 < clock e - older_than)%Z
      (get_idem db)) at 1.
    rewrite map_size_disj_union by apply map_disjoint_filter_complement. lia.
Qed.

(** However often the loop has run, it has not failed, and the rows left are
    those that were recent at every pass: a retry within [older_than] of the
    first answer still finds it. *)
Lemma cleanup_loop_exact {DB W : Type} `{!HasIdem DB} (older_than : Z) (wakes : list Z) (n : node DB W) :
  let '(r, n') := run_idempotency_cleanup_loop older_than wakes n in
  r = Ok tt ∧ ∀ k row, get_idem n'.1.1 !! k = Some row ↔
    get_idem n.1.1 !! k = Some row ∧ Forall (λ t, t - older_than ≤ created_at row)%Z wakes.
Proof.
  revert n. induction wakes as [|t wakes IH]; intros [[db w] e]; cbn [run_idempotency_cleanup_loop].
  { split; [done|]. intros k row. rewrite Forall_nil. tauto. }
  rewrite run_bind. pose proof (purge_exact older_than (db, w, mk_env (fresh e) t (trace_context e))) as Hp.
  destruct (run_session (purge_expired_idempotency_keys older_than) _) as [r n1]. destruct Hp as [Hk ->].
  specialize (IH n1). destruct (run_idempotency_cleanup_loop older_than wakes n1) as [r n'].
  destruct IH as [-> IH]. split; [done|]. intros k row. rewrite IH, Hk, Forall_cons. simpl. tauto.
Qed.
