(* ===== verification/JwtAuth.v ===== *)
(** * JwtAuth: shared/jwt_auth.py and the consumer-id resolvers

    Bearer-token parsing, the [claims_dependency] of every protected route,
    [require_role], and [_consumer_id_resolver] of services/*/app.py, which
    namespaces idempotency keys by caller.  PyJWT is [jwt_decode] of
    [Platform]. *)
From S2P Require Import Prelude Python Effects.

(** [str.lower] on the ASCII letters, which is all the prefix test reads. *)
Definition ascii_lower (c : ascii) : ascii :=
  let n := N_of_ascii c in
  if bool_decide (65 ≤ n ∧ n ≤ 90)%N then ascii_of_N (n + 32) else c.

Fixpoint str_lower (s : string) : string :=
  match s with "" => "" | String c s => String (ascii_lower c) (str_lower s) end.

(** [s.split(" ", 1)[1]]; [None] is the IndexError of a string with no space. *)
Fixpoint split_space_1 (s : string) : option string :=
  match s with
  | "" => None
  | String c s => if decide (c = " "%char) then Some s else split_space_1 s
  end.

Record jwt_settings := mk_jwt_settings { jwt_secret : string; jwt_issuer : string }.

Section jwt_auth.
Context {S : Type} `{!Platform}.

Definition decode_token (cfg : jwt_settings) (now : Z) (token : string) : M S dict :=
match jwt_decode token (jwt_secret cfg) (jwt_issuer cfg) now with
| Some claims => mret claims
| None => raise InvalidTokenError
end.

Definition bearer_token (authorization : option string) : M S string :=
match authorization with
| None | Some "" => raise (HTTPException 401 "missing bearer token")
| Some a =>
    if String.prefix "bearer " (str_lower a) then
      match split_space_1 a with Some t => mret t | None => raise IndexError end
    else raise (HTTPException 401 "missing bearer token")
end.

Definition claims_dependency (cfg : jwt_settings) (token_type : string) (now : Z)
  (authorization : option string) : M S dict :=
token ← bearer_token authorization;
claims ← try_except (decode_token cfg now token) (λ e,
  match e with
  | InvalidTokenError => Some (raise (HTTPException 401 "invalid or expired token"))
  | _ => None
  end);
match dict_get claims "type" with
| Some (PStr t) =>
    if decide (t = token_type) then mret claims
    else raise (HTTPException 401 ("expected a " +:+ token_type +:+ " token"))
| _ => raise (HTTPException 401 ("expected a " +:+ token_type +:+ " token"))
end.

Definition require_role (claims : dict) (allowed_roles : list string) : M S unit :=
match dict_get claims "role" with
| Some (PStr r) =>
    if decide (r ∈ allowed_roles) then mret tt
    else raise (HTTPException 403 "insufficient role")
| _ => raise (HTTPException 403 "insufficient role")
end.

(** [uuid.UUID(claims["sub"])]. *)
Definition claims_sub (claims : dict) : M S uuid :=
v ← getitem claims "sub"; to_uuid v.

(** [claims.get("role", "")]. *)
Definition claims_role (claims : dict) : pyval := default (PStr "") (dict_get claims "role").

(** [_consumer_id_resolver]: best-effort caller identity, [""] on failure. *)
Definition consumer_id_resolver (cfg : jwt_settings) (now : Z) (authorization : option string) :
  M S string :=
claims ← try_except (token ← bearer_token authorization;
                     c ← decode_token cfg now token; mret (Some c)) (λ e,
  match e with
  | HTTPException _ _ | InvalidTokenError => Some (mret None)
  | _ => None
  end);
match claims with
| None => mret ""
| Some c => as_str (default (PStr "") (dict_get c "sub"))
end.

(** The token of a well-formed header is what follows the first space. *)
Lemma bearer_token_run (s : S) t :
bearer_token (Some ("Bearer " +:+ t)) s = (Ok t, s).
Proof. by destruct t. Qed.

(** The dependency only lets a token of the expected type through. *)
Lemma claims_dependency_Ok cfg ty t auth claims (s s' : S) :
claims_dependency cfg ty t auth s = (Ok claims, s') →
s' = s ∧ dict_get claims "type" = Some (PStr ty) ∧
∃ token, bearer_token auth s = (Ok token, s) ∧
  jwt_decode token (jwt_secret cfg) (jwt_issuer cfg) t = Some claims.
Proof.
unfold claims_dependency. rewrite bind_Ok. intros (tok & s1 & Hb & Hk).
assert (s1 = s) as ->.
{ revert Hb. unfold bearer_token. destruct auth as [[|c a]|]; try done.
  destruct (String.prefix _ _); [|done]. by destruct (split_space_1 _); intros [= _ <-]. }
rewrite run_bind in Hk. unfold try_except, decode_token in Hk.
destruct (jwt_decode tok _ _ _) as [c|] eqn:Ej; simpl in Hk; [|done].
destruct (dict_get c "type") as [[]|] eqn:Et; try done.
case_decide; [|done]. subst. injection Hk as <- <-. eauto 10.
Qed.

Lemma require_role_Ok claims roles u (s s' : S) :
require_role claims roles s = (Ok u, s') ↔
s' = s ∧ ∃ r, dict_get claims "role" = Some (PStr r) ∧ r ∈ roles.
Proof.
destruct u. unfold require_role. split.
- destruct (dict_get claims "role") as [[]|]; try done.
  case_decide; [|done]. intros [= <-]. eauto.
- intros (-> & r & -> & Hr). by rewrite decide_True.
Qed.
End jwt_auth.

Section jwt_read_only.
Context {S : Type} `{!Platform}.
Lemma read_only_bearer_token a : read_only (S := S) (bearer_token a).
Proof. unfold bearer_token. read_only. Qed.
Lemma read_only_claims_dependency cfg ty t a : read_only (S := S) (claims_dependency cfg ty t a).
Proof.
unfold claims_dependency. apply read_only_bind; [apply read_only_bearer_token|]. intros tok.
apply read_only_bind; [|read_only]. intros s. unfold try_except, decode_token.
by destruct (jwt_decode _ _ _ _).
Qed.
Lemma read_only_consumer_id cfg t a : read_only (S := S) (consumer_id_resolver cfg t a).
Proof.
unfold consumer_id_resolver. apply read_only_bind; [|read_only]. intros s. unfold try_except.
rewrite run_bind. pose proof (read_only_bearer_token a s) as Hb.
destruct (bearer_token a s) as [[tok|e] s0]; simpl in Hb; subst s0.
- unfold decode_token. rewrite run_bind. by destruct (jwt_decode _ _ _ _).
- by destruct e.
Qed.
Lemma read_only_require_role c r : read_only (S := S) (require_role c r).
Proof. unfold require_role. read_only. Qed.
Lemma read_only_claims_sub c : read_only (S := S) (claims_sub c).
Proof. unfold claims_sub. read_only. Qed.
End jwt_read_only.
#[export] Hint Resolve read_only_bearer_token read_only_claims_dependency read_only_consumer_id
  read_only_require_role read_only_claims_sub : read_only.

Section jwt_no_commit.
Context {DB W : Type} `{!Platform}.
Lemma no_commit_claims_dependency cfg ty t auth :
no_commit (DB := DB) (W := W) (claims_dependency cfg ty t auth).
Proof. unfold claims_dependency, bearer_token, decode_token. no_commit. Qed.
Lemma no_commit_require_role c r : no_commit (DB := DB) (W := W) (require_role c r).
Proof. unfold require_role. no_commit. Qed.
Lemma no_commit_claims_sub c : no_commit (DB := DB) (W := W) (claims_sub c).
Proof. unfold claims_sub. no_commit. Qed.
Lemma no_commit_consumer_id cfg t auth :
no_commit (DB := DB) (W := W) (consumer_id_resolver cfg t auth).
Proof. unfold consumer_id_resolver, bearer_token, decode_token. no_commit. Qed.
End jwt_no_commit.

#[export] Hint Resolve no_commit_claims_dependency no_commit_require_role no_commit_claims_sub
  no_commit_consumer_id : effects.
