(* ===== verification/Schema.v ===== *)
(** * Schema: tables, rows and the statements of the migrations

    The part of PostgreSQL the migrations and the repositories use.  A
    database is its extensions and its tables; a table has typed columns,
    constraints and rows.  The operations are those of alembic's [op]: each
    is refused where PostgreSQL refuses it.  [insert_row] and [update_row]
    are the two statements of a flush, with the checks in PostgreSQL's order:
    the types of the values, NOT NULL, CHECK, the indexes, the foreign keys.

    [framed] says that an operation on some tables neither reads nor changes
    any other; what a migration does on an empty database it then does
    beside any other tables ([migrate_beside]). *)
From S2P Require Import Prelude Python Columns Effects.

(** ** Values and columns *)
Inductive cell :=
| NULL
| CUuid (u : uuid)
| CText (s : string)
| CInt (z : Z)
| CFloat (f : spec_float)
| CBool (b : bool)
| CDate (d : date)
| CTime (t : Z)
| CJson (v : pyval).

Inductive sql_type :=
| UUID_ | String_ (length : option nat) | Text_ | Integer_ | Float_ | Boolean_ | Date_
| DateTime_ | JSONB_.
#[export] Instance sql_type_eq_dec : EqDecision sql_type.
Proof. solve_decision. Defined.

Inductive server_default := Literal (text : string) | SqlNow | SqlTrue.
#[export] Instance server_default_eq_dec : EqDecision server_default.
Proof. solve_decision. Defined.

(** [sa.Column]; a primary key column is NOT NULL. *)
Record column := mk_column {
  c_name : string;
  c_type : sql_type;
  c_nullable : bool;
  c_primary_key : bool;
  c_unique : bool;
  c_foreign_key : option (string * string);
  c_server_default : option server_default;
}.
#[export] Instance column_eq_dec : EqDecision column.
Proof. solve_decision. Defined.

Definition key_column (name : string) (t : sql_type) : column :=
  mk_column name t false true false None None.
Definition Column (name : string) (t : sql_type) : column :=
  mk_column name t false false false None None.
Definition Column_null (name : string) (t : sql_type) : column :=
  mk_column name t true false false None None.
Definition defaulting (d : server_default) (c : column) : column :=
  mk_column (c_name c) (c_type c) (c_nullable c) (c_primary_key c) (c_unique c) (c_foreign_key c)
    (Some d).
Definition unique (c : column) : column :=
  mk_column (c_name c) (c_type c) (c_nullable c) (c_primary_key c) true (c_foreign_key c)
    (c_server_default c).
Definition references (table col : string) (c : column) : column :=
  mk_column (c_name c) (c_type c) (c_nullable c) (c_primary_key c) (c_unique c) (Some (table, col))
    (c_server_default c).

(** ** Constraints *)
Inductive check :=
| OneOf (col : string) (values : list string)      (* col IN (...) *)
| Positive (col : string)                          (* col > 0 *)
| NotBefore (col col' : string).                   (* col >= col' *)

Inductive table_constraint :=
| CheckConstraint (c : check)
| PrimaryKeyConstraint (cols : list string)
| UniqueConstraint (cols : list string)
| ForeignKeyConstraint (col table col' : string)
(** EXCLUDE USING gist (key WITH =, daterange(lower, upper, '[]') WITH &&),
    unless a column has one of some values. *)
| ExcludeUsingGist (key lower upper : string) (unless : option (string * list string)).
#[export] Instance check_eq_dec : EqDecision check.
Proof. solve_decision. Defined.
#[export] Instance table_constraint_eq_dec : EqDecision table_constraint.
Proof. solve_decision. Defined.

Definition column_constraints (c : column) : list table_constraint :=
  (if c_primary_key c then [PrimaryKeyConstraint [c_name c]] else []) ++
  (if c_unique c then [UniqueConstraint [c_name c]] else []) ++
  match c_foreign_key c with
  | Some (t, col) => [ForeignKeyConstraint (c_name c) t col]
  | None => []
  end.

Definition row := list (string * cell).

Record table := mk_table {
  t_columns : list column;
  t_constraints : list table_constraint;
  t_rows : list row;
}.
Record database := mk_database {
  extensions : gset string;
  tables : gmap string table;
}.

(** ** Rows against a table *)
Fixpoint row_get (r : row) (col : string) : cell :=
  match r with
  | [] => NULL
  | (c, v) :: r => if decide (c = col) then v else row_get r col
  end.

(** The value is one of the column's type. *)
Definition type_fits (t : sql_type) (v : cell) : Prop :=
  match t, v with
  | _, NULL => True
  | UUID_, CUuid _ | Text_, CText _ | String_ None, CText _ | Boolean_, CBool _ => True
  | Date_, CDate _ | DateTime_, CTime _ | JSONB_, CJson _ => True
  | String_ (Some n), CText s => varchar n s
  | Integer_, CInt z => int4 z
  | Float_, CFloat f => float8 f
  | _, _ => False
  end.
#[export] Instance type_fits_dec t v : Decision (type_fits t v).
Proof. destruct t as [|[]| | | | | | |], v; apply _. Defined.

Definition row_fits (t : table) (r : row) : Prop :=
  Forall2 (λ c x, x.1 = c_name c ∧ type_fits (c_type c) x.2) (t_columns t) r.
#[export] Instance row_fits_dec t r : Decision (row_fits t r).
Proof. unfold row_fits. apply _. Defined.

Definition null (v : cell) : Prop := match v with NULL => True | _ => False end.
#[export] Instance null_dec v : Decision (null v).
Proof. destruct v; apply _. Defined.

Definition not_null (t : table) (r : row) : Prop :=
  Forall (λ c, c_nullable c = false → ¬ null (row_get r (c_name c))) (t_columns t).
#[export] Instance not_null_dec t r : Decision (not_null t r).
Proof. unfold not_null. apply _. Defined.

(** A check on NULL is not false. *)
Definition check_holds (c : check) (r : row) : Prop :=
  match c with
  | OneOf col values => match row_get r col with CText s => s ∈ values | _ => True end
  | Positive col => match row_get r col with CInt z => (0 < z)%Z | _ => True end
  | NotBefore col col' =>
      match row_get r col, row_get r col' with CDate d, CDate d' => (d' ≤ d)%Z | _, _ => True end
  end.
#[export] Instance check_holds_dec c r : Decision (check_holds c r).
Proof. destruct c; simpl; repeat case_match; apply _. Defined.

Definition checks_hold (t : table) (r : row) : Prop :=
  Forall (λ k, match k with CheckConstraint c => check_holds c r | _ => True end) (t_constraints t).
#[export] Instance checks_hold_dec t r : Decision (checks_hold t r).
Proof. unfold checks_hold. apply Forall_dec. intros []; apply _. Defined.

(** Equality of an index: NULLs are distinct. *)
Definition same (v v' : cell) : Prop :=
  match v, v' with
  | CUuid u, CUuid u' => u = u'
  | CText s, CText s' => s = s'
  | CInt z, CInt z' | CDate z, CDate z' | CTime z, CTime z' => z = z'
  | _, _ => False
  end.
#[export] Instance same_dec v v' : Decision (same v v').
Proof. destruct v, v'; simpl; apply _. Defined.

Definition excluded (unless : option (string * list string)) (r : row) : Prop :=
  match unless with
  | Some (col, values) => match row_get r col with CText s => s ∈ values | _ => False end
  | None => False
  end.
#[export] Instance excluded_dec unless r : Decision (excluded unless r).
Proof. unfold excluded. repeat case_match; apply _. Defined.

(** [daterange(lower, upper, '[]')], where it can be formed. *)
Definition daterange (r : row) (lower upper : string) : option (date * date) :=
  match row_get r lower, row_get r upper with
  | CDate d, CDate d' => if decide (d ≤ d')%Z then Some (d, d') else None
  | _, _ => None
  end.
Definition range_overlap (a b : option (date * date)) : Prop :=
  match a, b with
  | Some (l, u), Some (l', u') => (l ≤ u')%Z ∧ (l' ≤ u)%Z
  | _, _ => False
  end.
#[export] Instance range_overlap_dec a b : Decision (range_overlap a b).
Proof. unfold range_overlap. repeat case_match; apply _. Defined.

(** Two rows that the constraint does not admit together. *)
Definition conflict (k : table_constraint) (r r' : row) : Prop :=
  match k with
  | PrimaryKeyConstraint cols | UniqueConstraint cols =>
      Forall (λ c, same (row_get r c) (row_get r' c)) cols
  | ExcludeUsingGist key lower upper unless =>
      ¬ excluded unless r ∧ ¬ excluded unless r' ∧ same (row_get r key) (row_get r' key) ∧
      range_overlap (daterange r lower upper) (daterange r' lower upper)
  | _ => False
  end.
#[export] Instance conflict_dec k r r' : Decision (conflict k r r').
Proof. destruct k; simpl; apply _. Defined.

(** The entry of the row in the index of the constraint, next to the rows
    [others]: what is raised. *)
Definition index_error (r : row) (others : list row) (k : table_constraint) : option exn :=
  match k with
  | ExcludeUsingGist _ lower upper unless =>
      if decide (¬ excluded unless r ∧ daterange r lower upper = None) then Some DataError
      else if decide (Exists (conflict k r) others) then Some IntegrityError else None
  | _ => if decide (Exists (conflict k r) others) then Some IntegrityError else None
  end.

Definition referenced (db : database) (t : table) (r : row) : Prop :=
  Forall (λ k, match k with
    | ForeignKeyConstraint col t' col' =>
        null (row_get r col) ∨
        match tables db !! t' with
        | Some tb => Exists (λ r', same (row_get r col) (row_get r' col')) (t_rows tb)
        | None => False
        end
    | _ => True
    end) (t_constraints t).
#[export] Instance referenced_dec db t r : Decision (referenced db t r).
Proof. unfold referenced. apply Forall_dec. intros []; try case_match; apply _. Defined.

Definition set_rows (rs : list row) (t : table) : table := mk_table (t_columns t) (t_constraints t) rs.
Definition set_table (name : string) (t : table) (db : database) : database :=
  mk_database (extensions db) (<[name := t]> (tables db)).

Fixpoint first_error {A} (f : A → option exn) (l : list A) : option exn :=
  match l with
  | [] => None
  | a :: l => match f a with Some e => Some e | None => first_error f l end
  end.

(** What writing the row next to the rows [others] raises. *)
Definition write_error (db : database) (t : table) (r : row) (others : list row) : option exn :=
  if decide (¬ row_fits t r) then Some DataError
  else if decide (¬ (not_null t r ∧ checks_hold t r)) then Some IntegrityError
  else match first_error (index_error r others) (t_constraints t) with
  | Some e => Some e
  | None => if decide (referenced db t r) then None else Some IntegrityError
  end.

(** ** The statements *)
Abbreviation Md := (M database).

Definition get_table (name : string) : Md table :=
  db ← gets id;
  match tables db !! name with Some t => mret t | None => raise ProgrammingError end.

Definition write (name : string) (t : table) (r : row) (others : list row) : Md unit :=
  db ← gets id;
  match write_error db t r others with
  | Some e => raise e
  | None => modify (set_table name (set_rows (others ++ [r]) t))
  end.

Definition insert_row (name : string) (r : row) : Md unit :=
  t ← get_table name; write name t r (t_rows t).

(** [UPDATE ... WHERE key = ...], with all the columns of the new row; the
    rows keep no order. *)
Definition update_row (name key : string) (r : row) : Md unit :=
  t ← get_table name;
  if decide (Exists (λ r', same (row_get r key) (row_get r' key)) (t_rows t))
  then write name t r (filter (λ r', ¬ same (row_get r key) (row_get r' key)) (t_rows t))
  else mret tt.

Definition target_exists (db : database) (k : table_constraint) : Prop :=
  match k with ForeignKeyConstraint _ t _ => is_Some (tables db !! t) | _ => True end.
#[export] Instance target_exists_dec db k : Decision (target_exists db k).
Proof. destruct k; simpl; apply _. Defined.

(** [op.create_table(name, *columns, *constraints)]. *)
Definition create_table (name : string) (cs : list column) (ks : list table_constraint) : Md unit :=
  db ← gets id;
  let t := mk_table cs ((cs ≫= column_constraints) ++ ks) [] in
  if decide (is_Some (tables db !! name)) then raise ProgrammingError
  else if decide (Forall (target_exists db) (t_constraints t)) then modify (set_table name t)
  else raise ProgrammingError.

Definition points_to (name : string) (t : table) : Prop :=
  Exists (λ k, match k with ForeignKeyConstraint _ t' _ => t' = name | _ => False end)
    (t_constraints t).
#[export] Instance points_to_dec name t : Decision (points_to name t).
Proof. unfold points_to. apply Exists_dec. intros []; apply _. Defined.

Definition drop_table (name : string) : Md unit :=
  db ← gets id;
  if decide (tables db !! name = None) then raise ProgrammingError
  else if decide (map_Forall (λ i t, i = name ∨ ¬ points_to name t) (tables db))
  then modify (λ db, mk_database (extensions db) (delete name (tables db)))
  else raise DBAPIError.

(** The columns the code adds have no default: the rows there are get NULL. *)
Definition add_column (name : string) (c : column) : Md unit :=
  t ← get_table name;
  if decide (c_name c ∈ c_name <$> t_columns t) then raise ProgrammingError
  else if decide (c_nullable c = false ∧ t_rows t ≠ []) then raise IntegrityError
  else modify (set_table name
    (mk_table (t_columns t ++ [c]) (t_constraints t ++ column_constraints c)
       ((λ r, r ++ [(c_name c, NULL)]) <$> t_rows t))).

Definition mentions (col : string) (k : table_constraint) : Prop :=
  match k with
  | CheckConstraint (OneOf c _ | Positive c) | ForeignKeyConstraint c _ _ => c = col
  | CheckConstraint (NotBefore c c') => c = col ∨ c' = col
  | PrimaryKeyConstraint cs | UniqueConstraint cs => col ∈ cs
  | ExcludeUsingGist c c' c'' _ => c = col ∨ c' = col ∨ c'' = col
  end.
#[export] Instance mentions_dec col k : Decision (mentions col k).
Proof. destruct k as [[]| | | |]; simpl; apply _. Defined.

(** A column other tables refer to is not dropped by the code. *)
Definition drop_column (name col : string) : Md unit :=
  t ← get_table name;
  if decide (col ∉ c_name <$> t_columns t) then raise ProgrammingError
  else modify (set_table name
    (mk_table (filter (λ c, c_name c ≠ col) (t_columns t))
       (filter (λ k, ¬ mentions col k) (t_constraints t))
       ((λ r, filter (λ x, x.1 ≠ col) r) <$> t_rows t))).

Definition create_extension_if_not_exists (name : string) : Md unit :=
  modify (λ db, mk_database ({[name]} ∪ extensions db) (tables db)).

(** The index of a constraint over rows that are there. *)
Fixpoint build_index (k : table_constraint) (rs : list row) : option exn :=
  match rs with
  | [] => None
  | r :: rs => match index_error r rs k with Some e => Some e | None => build_index k rs end
  end.

(** [ALTER TABLE ... ADD CONSTRAINT ... EXCLUDE USING gist]: a uuid has [=] in
    a gist index through the extension btree_gist only. *)
Definition add_exclusion (name key lower upper : string) (unless : option (string * list string)) :
    Md unit :=
  db ← gets id;
  t ← get_table name;
  let k := ExcludeUsingGist key lower upper unless in
  if decide ("btree_gist" ∉ extensions db) then raise ProgrammingError
  else match build_index k (t_rows t) with
  | Some e => raise e
  | None => modify (set_table name (mk_table (t_columns t) (t_constraints t ++ [k]) (t_rows t)))
  end.

Fixpoint bulk_insert (name : string) (rs : list row) : Md unit :=
  match rs with
  | [] => mret tt
  | r :: rs => insert_row name r;; bulk_insert name rs
  end.

(** ** Beside other tables *)

(** The tables [base] know nothing of the tables [names]. *)
Record apart (names : gset string) (base : gmap string table) : Prop := mk_apart {
  apart_names : ∀ n, n ∈ names → base !! n = None;
  apart_keys : ∀ n, n ∈ names → map_Forall (λ _ t, ¬ points_to n t) base;
}.

Definition beside (db base : database) : database :=
  mk_database (extensions db ∪ extensions base) (tables db ∪ tables base).

#[local] Arguments beside : simpl never.

Definition framed (names : gset string) {A} (m : Md A) : Prop :=
  ∀ db base a db', apart names (tables base) → dom (tables db) ⊆ names → m db = (Ok a, db') →
    dom (tables db') ⊆ names ∧ m (beside db base) = (Ok a, beside db' base).

Section framed.
Context (names : gset string).

Lemma framed_bind {A B} (m : Md A) (k : A → Md B) :
framed names m → (∀ a, framed names (k a)) → framed names (m ≫= k).
Proof.
intros Hm Hk db base b db'' Ha Hd (a & db' & H1 & H2)%bind_Ok.
destruct (Hm _ _ _ _ Ha Hd H1) as [Hd' H1']. destruct (Hk a _ _ _ _ Ha Hd' H2) as [Hd'' H2'].
split; [done|]. by rewrite run_bind, H1'.
Qed.

Lemma framed_ret {A} (a : A) : framed names (mret a).
Proof. intros db base b db' _ Hd H. cbv in H. by simplify_eq. Qed.

Lemma beside_lookup db base n :
apart names (tables base) → n ∈ names → tables (beside db base) !! n = tables db !! n.
Proof. intros Ha Hn. unfold beside; simpl. rewrite lookup_union, (apart_names _ _ Ha) by done. by destruct (tables db !! n). Qed.

Lemma beside_other db base n t :
tables db !! n = Some t → tables (beside db base) !! n = Some t.
Proof. intros Hn. unfold beside; simpl. by apply lookup_union_Some_l. Qed.

Lemma beside_set db base n t : set_table n t (beside db base) = beside (set_table n t db) base.
Proof. unfold set_table, beside. simpl. by rewrite insert_union_l. Qed.

Lemma set_table_dom db n t :
n ∈ names → dom (tables db) ⊆ names → dom (tables (set_table n t db)) ⊆ names.
Proof. simpl. rewrite dom_insert_L. set_solver. Qed.
#[local] Hint Resolve set_table_dom : core.

Lemma run_gets {A} (k : database → Md A) db : (gets id ≫= k) db = k db db.
Proof. done. Qed.

Lemma run_get_table {A} n (k : table → Md A) db :
(get_table n ≫= k) db =
match tables db !! n with Some t => k t db | None => (Err ProgrammingError, db) end.
Proof. unfold get_table. rewrite !run_bind. unfold gets. simpl. by destruct (tables db !! n). Qed.

(** An operation that needs the table [n] and does [f] with it. *)
Lemma framed_get_table {A} n (f : table → Md A) :
n ∈ names → (∀ t, framed names (f t)) → framed names (get_table n ≫= f).
Proof.
intros Hn Hf db base a db' Ha Hd. rewrite !run_get_table, beside_lookup by done.
destruct (tables db !! n) as [t|]; [|done]. by apply Hf.
Qed.

Lemma framed_set n (f : table) : n ∈ names → framed names (modify (set_table n f)).
Proof.
intros Hn db base [] db' _ Hd [= <-]. split; [auto|]. unfold modify. by rewrite beside_set.
Qed.

Lemma framed_raise {A} e : framed names (raise (A := A) e).
Proof. by intros ????. Qed.
#[local] Hint Resolve framed_set framed_raise framed_ret : core.

Lemma referenced_beside db base t r : referenced db t r → referenced (beside db base) t r.
Proof.
intros Hf. eapply Forall_impl; [exact Hf|]. intros [| | |col t' col'|]; try done.
intros [?|Ht]; [by left|]. right. destruct (tables db !! t') eqn:Et; [|done].
by rewrite (beside_other _ _ _ _ Et).
Qed.

Lemma write_error_beside db base t r rs :
write_error db t r rs = None → write_error (beside db base) t r rs = None.
Proof.
unfold write_error. intros Hw. case_decide; [done|]. case_decide; [done|].
destruct (first_error _ _); [done|]. case_decide as Hf; [|done].
by rewrite decide_True by by apply referenced_beside.
Qed.

Lemma framed_write n t r rs : n ∈ names → framed names (write n t r rs).
Proof.
intros Hn db base a db' Ha Hd. unfold write. rewrite !run_gets.
destruct (write_error db t r rs) eqn:E; [done|]. rewrite write_error_beside by done.
by apply framed_set.
Qed.
#[local] Hint Resolve framed_write : core.

Lemma framed_insert_row n r : n ∈ names → framed names (insert_row n r).
Proof. intros Hn. apply framed_get_table; auto. Qed.

Lemma framed_bulk_insert n rs : n ∈ names → framed names (bulk_insert n rs).
Proof.
intros Hn. induction rs; [apply framed_ret|]. apply framed_bind; [by apply framed_insert_row|done].
Qed.

Lemma framed_create_table n cs ks : n ∈ names → framed names (create_table n cs ks).
Proof.
intros Hn db base a db' Ha Hd. unfold create_table. rewrite !run_gets, beside_lookup by done.
case_decide; [done|]. case_decide as Hk; [|done].
rewrite decide_True; [by apply framed_set|]. eapply Forall_impl; [exact Hk|].
intros [| | |? t' ?|]; simpl; try done. intros [tb Ht]. exists tb. by apply beside_other.
Qed.

Lemma framed_drop_table n : n ∈ names → framed names (drop_table n).
Proof.
intros Hn db base a db' Ha Hd. unfold drop_table. rewrite !run_gets, beside_lookup by done.
case_decide; [done|]. case_decide as Hk; [|done]. rewrite decide_True.
- intros [= <- <-]. split; [simpl; rewrite dom_delete_L; set_solver|]. unfold modify, beside. simpl.
  rewrite delete_union, (delete_id (tables base)) by by apply (apart_names _ _ Ha). done.
- unfold beside. simpl. intros i t [Hi|[_ Hi]]%lookup_union_Some_raw; [by apply (Hk i)|].
  right. by apply (apart_keys _ _ Ha n Hn i).
Qed.

Lemma framed_add_column n c : n ∈ names → framed names (add_column n c).
Proof. intros Hn. apply framed_get_table; [done|]. intros t. repeat case_decide; auto. Qed.

Lemma framed_drop_column n c : n ∈ names → framed names (drop_column n c).
Proof. intros Hn. apply framed_get_table; [done|]. intros t. repeat case_decide; auto. Qed.

Lemma framed_extension n : framed names (create_extension_if_not_exists n).
Proof.
intros db base [] db' _ Hd [= <-]. split; [done|]. unfold create_extension_if_not_exists, modify, beside.
simpl. by rewrite (assoc_L (∪)).
Qed.

Lemma framed_add_exclusion n k l u x : n ∈ names → framed names (add_exclusion n k l u x).
Proof.
intros Hn db base a db' Ha Hd. unfold add_exclusion. rewrite !run_gets, !run_get_table, beside_lookup by done.
destruct (tables db !! n) as [t|]; [|done]. case_decide as He; [done|].
rewrite decide_False by (unfold beside; simpl; set_solver). destruct (build_index _ _); [done|].
by apply framed_set.
Qed.
End framed.

(** What an operation does on the empty database it does beside any other
    tables. *)
Lemma migrate_beside names {A} (m : Md A) base a db :
  framed names m → apart names (tables base) → m (mk_database ∅ ∅) = (Ok a, db) →
  m base = (Ok a, beside db base).
Proof.
  intros Hm Ha Hr. assert (dom (∅ : gmap string table) ⊆ names) as Hd by set_solver.
  destruct (Hm (mk_database ∅ ∅) base a db Ha Hd Hr) as [_ Hb]. unfold beside at 1 in Hb.
  simpl in Hb. rewrite !(left_id_L ∅ (∪)) in Hb. by destruct base.
Qed.
