(* ===== verification/Migrations.v ===== *)
(** * Migrations: the Alembic environments, the migrations and the ORM's tables

    Each service with a database has an environment (migrations/env.py), one
    or two revisions (migrations/versions) and the tables its ORM classes map
    (models.py).  An [upgrade] or [downgrade] is the sequence of its [op]
    calls, on the databases of Schema.  Three tables are written out again in
    several files, word for word: they are [create_outbox], [create_inbox]
    and [create_idempotency_keys] here.

    [migrations_roundtrip]: from any database that has no tables by these
    names, the migrations of a service succeed, next to what is there, and
    their downgrades take them back.  [models_match_migrations]: the migrated
    tables have the columns and the keys the ORM maps.  Alembic's context is
    a parameter ([Context]); [environment_online] is what env.py makes of it. *)
From S2P Require Import Prelude Python Columns Effects JwtAuth Settings Schema.

(** ** The tables several services have *)
Definition created_at_column : column := defaulting SqlNow (Column "created_at" DateTime_).
Definition updated_at_column : column := defaulting SqlNow (Column "updated_at" DateTime_).

Definition create_outbox : Md unit :=
  create_table "outbox"
    [key_column "id" UUID_; Column "aggregatetype" (String_ (Some 255));
     Column "aggregateid" (String_ (Some 255)); Column "type" (String_ (Some 255));
     Column "payload" JSONB_; created_at_column] [].

Definition create_inbox : Md unit :=
  create_table "inbox"
    [key_column "event_id" Text_; defaulting SqlNow (Column "processed_at" DateTime_)] [].

Definition create_idempotency_keys : Md unit :=
  create_table "idempotency_keys"
    [defaulting (Literal "") (Column "consumer_id" Text_); Column "key" Text_;
     Column "request_hash" Text_; Column "response_body" Text_; Column "status_code" Integer_;
     created_at_column]
    [PrimaryKeyConstraint ["consumer_id"; "key"]].

Record script := mk_script {
  revision : string;
  down_revision : option string;
  upgrade : Md unit;
  downgrade : Md unit;
}.

(** ** services/booking *)
Definition booking_upgrade : Md unit :=
  create_extension_if_not_exists "btree_gist";;
  create_table "bookings"
    [key_column "id" UUID_; Column "vehicle_id" UUID_; Column "host_id" UUID_; Column "renter_id" UUID_;
     Column "start_date" Date_; Column "end_date" Date_; Column "daily_price_cents" Integer_;
     Column "daily_mileage_limit" Integer_; Column "booking_mode" (String_ (Some 16));
     defaulting (Literal "requested") (Column "status" (String_ (Some 16)));
     defaulting (Literal "1") (Column "version" Integer_);
     Column_null "start_odometer" Integer_; Column_null "end_odometer" Integer_;
     Column_null "start_fuel_percent" Integer_; Column_null "end_fuel_percent" Integer_;
     Column_null "start_photo_url" (String_ (Some 512)); Column_null "end_photo_url" (String_ (Some 512));
     defaulting (Literal "0") (Column "overage_cents" Integer_); created_at_column; updated_at_column]
    [CheckConstraint (OneOf "status"
       ["requested"; "confirmed"; "active"; "completed"; "cancelled"; "rejected"])];;
  add_exclusion "bookings" "vehicle_id" "start_date" "end_date"
    (Some ("status", ["cancelled"; "rejected"]));;
  create_table "booking_events"
    [key_column "id" UUID_; Column "booking_id" UUID_; Column "version" Integer_;
     Column "event_type" (String_ (Some 64)); Column "payload" JSONB_; created_at_column]
    [UniqueConstraint ["booking_id"; "version"]];;
  create_outbox;;
  create_inbox;;
  create_idempotency_keys.

Definition booking_downgrade : Md unit :=
  drop_table "idempotency_keys";;
  drop_table "inbox";;
  drop_table "outbox";;
  drop_table "booking_events";;
  drop_table "bookings".

(** ** services/payment *)
Definition payment_upgrade : Md unit :=
  create_table "payments"
    [key_column "id" UUID_; unique (Column "booking_id" UUID_); Column "renter_id" UUID_;
     Column "hold_amount_cents" Integer_; defaulting (Literal "0") (Column "overage_cents" Integer_);
     Column "status" (String_ (Some 24));
     Column_null "stripe_payment_intent_id" (String_ (Some 255));
     Column_null "stripe_overage_intent_id" (String_ (Some 255)); created_at_column; updated_at_column]
    [CheckConstraint (OneOf "status"
       ["authorized"; "authorization_failed"; "captured"; "capture_failed"])];;
  create_table "ledger_entries"
    [key_column "id" UUID_; references "payments" "id" (Column "payment_id" UUID_);
     Column "booking_id" UUID_; Column "account" (String_ (Some 64));
     Column "direction" (String_ (Some 6)); Column "amount_cents" Integer_;
     Column "reason" (String_ (Some 32)); created_at_column]
    [CheckConstraint (OneOf "direction" ["debit"; "credit"]); CheckConstraint (Positive "amount_cents")];;
  create_outbox;;
  create_inbox.

Definition payment_downgrade : Md unit :=
  drop_table "inbox";;
  drop_table "outbox";;
  drop_table "ledger_entries";;
  drop_table "payments".

(** ** services/listing *)
Definition listing_upgrade : Md unit :=
  create_extension_if_not_exists "btree_gist";;
  create_table "vehicles"
    [key_column "id" UUID_; Column "host_id" UUID_; Column "make" (String_ (Some 80));
     Column "model" (String_ (Some 80)); Column "year" Integer_; Column "daily_price_cents" Integer_;
     Column "daily_mileage_limit" Integer_;
     defaulting (Literal "instant") (Column "booking_mode" (String_ (Some 16)));
     defaulting (Literal "pending") (Column "approval_status" (String_ (Some 16)));
     created_at_column; updated_at_column]
    [CheckConstraint (OneOf "booking_mode" ["instant"; "request"]);
     CheckConstraint (OneOf "approval_status" ["pending"; "approved"; "rejected"])];;
  create_table "availability_blocks"
    [key_column "id" UUID_; references "vehicles" "id" (Column "vehicle_id" UUID_);
     Column "start_date" Date_; Column "end_date" Date_; created_at_column]
    [CheckConstraint (NotBefore "end_date" "start_date")];;
  add_exclusion "availability_blocks" "vehicle_id" "start_date" "end_date" None;;
  create_outbox;;
  create_idempotency_keys.

Definition listing_downgrade : Md unit :=
  drop_table "idempotency_keys";;
  drop_table "outbox";;
  drop_table "availability_blocks";;
  drop_table "vehicles".

Definition location_upgrade : Md unit :=
  add_column "vehicles" (Column "latitude" Float_);;
  add_column "vehicles" (Column "longitude" Float_).

Definition location_downgrade : Md unit :=
  drop_column "vehicles" "longitude";;
  drop_column "vehicles" "latitude".

(** ** services/auth *)
Definition auth_upgrade : Md unit :=
  create_table "roles" [key_column "code" (String_ (Some 16))] [];;
  bulk_insert "roles" [[("code", CText "renter")]; [("code", CText "host")]; [("code", CText "admin")]];;
  create_table "users"
    [key_column "id" UUID_; unique (Column "email" (String_ (Some 320)));
     Column "name" (String_ (Some 120)); Column "password_hash" (String_ None);
     defaulting (Literal "renter") (references "roles" "code" (Column "role" (String_ (Some 16))));
     created_at_column] [];;
  create_idempotency_keys.

Definition auth_downgrade : Md unit :=
  drop_table "idempotency_keys";;
  drop_table "users";;
  drop_table "roles".

(** ** services/admin *)
Definition admin_upgrade : Md unit :=
  create_table "admin_actions"
    [key_column "id" UUID_; Column "admin_id" UUID_; Column "action_type" (String_ (Some 64));
     Column "target_type" (String_ (Some 32)); Column "target_id" (String_ (Some 64));
     defaulting (Literal "{}") (Column "payload" JSONB_); created_at_column] [];;
  create_idempotency_keys.

Definition admin_downgrade : Md unit :=
  drop_table "idempotency_keys";;
  drop_table "admin_actions".

(** ** services/notification *)
Definition notification_upgrade : Md unit :=
  create_table "notification_preferences"
    [key_column "user_id" UUID_; defaulting SqlTrue (Column "email_enabled" Boolean_);
     defaulting SqlTrue (Column "sms_enabled" Boolean_)] [];;
  create_inbox.

Definition notification_downgrade : Md unit :=
  drop_table "inbox";;
  drop_table "notification_preferences".

(** ** The revisions of a service, in the order of [down_revision] *)
Definition booking_scripts : list script := [mk_script "0001" None booking_upgrade booking_downgrade].
Definition payment_scripts : list script := [mk_script "0001" None payment_upgrade payment_downgrade].
Definition listing_scripts : list script :=
  [mk_script "0001" None listing_upgrade listing_downgrade;
   mk_script "0002" (Some "0001") location_upgrade location_downgrade].
Definition auth_scripts : list script := [mk_script "0001" None auth_upgrade auth_downgrade].
Definition admin_scripts : list script := [mk_script "0001" None admin_upgrade admin_downgrade].
Definition notification_scripts : list script :=
  [mk_script "0001" None notification_upgrade notification_downgrade].

(** [alembic upgrade head] on no revision, and [alembic downgrade base]. *)
Definition upgrade_all (ss : list script) : Md unit := foldr (λ s m, upgrade s;; m) (mret tt) ss.
Definition downgrade_all (ss : list script) : Md unit := foldr (λ s m, m;; downgrade s) (mret tt) ss.

(** ** models.py: the tables of [Base.metadata] *)
Record orm_table := mk_orm_table { o_name : string; o_columns : list column }.

Definition booking_metadata : list orm_table :=
  [mk_orm_table "bookings"
     [key_column "id" UUID_; Column "vehicle_id" UUID_; Column "host_id" UUID_; Column "renter_id" UUID_;
      Column "start_date" Date_; Column "end_date" Date_; Column "daily_price_cents" Integer_;
      Column "daily_mileage_limit" Integer_; Column "booking_mode" (String_ (Some 16));
      Column "status" (String_ (Some 16)); Column "version" Integer_;
      Column_null "start_odometer" Integer_; Column_null "end_odometer" Integer_;
      Column_null "start_fuel_percent" Integer_; Column_null "end_fuel_percent" Integer_;
      Column_null "start_photo_url" (String_ (Some 512)); Column_null "end_photo_url" (String_ (Some 512));
      Column "overage_cents" Integer_; Column "created_at" DateTime_; Column "updated_at" DateTime_];
   mk_orm_table "booking_events"
     [key_column "id" UUID_; Column "booking_id" UUID_; Column "version" Integer_;
      Column "event_type" (String_ (Some 64)); Column "payload" JSONB_; Column "created_at" DateTime_]].

Definition payment_metadata : list orm_table :=
  [mk_orm_table "payments"
     [key_column "id" UUID_; unique (Column "booking_id" UUID_); Column "renter_id" UUID_;
      Column "hold_amount_cents" Integer_; Column "overage_cents" Integer_;
      Column "status" (String_ (Some 24)); Column_null "stripe_payment_intent_id" (String_ (Some 255));
      Column_null "stripe_overage_intent_id" (String_ (Some 255)); Column "created_at" DateTime_;
      Column "updated_at" DateTime_];
   mk_orm_table "ledger_entries"
     [key_column "id" UUID_; references "payments" "id" (Column "payment_id" UUID_);
      Column "booking_id" UUID_; Column "account" (String_ (Some 64));
      Column "direction" (String_ (Some 6)); Column "amount_cents" Integer_;
      Column "reason" (String_ (Some 32)); Column "created_at" DateTime_]].

Definition listing_metadata : list orm_table :=
  [mk_orm_table "vehicles"
     [key_column "id" UUID_; Column "host_id" UUID_; Column "make" (String_ (Some 80));
      Column "model" (String_ (Some 80)); Column "year" Integer_; Column "daily_price_cents" Integer_;
      Column "daily_mileage_limit" Integer_; Column "booking_mode" (String_ (Some 16));
      Column "approval_status" (String_ (Some 16)); Column "latitude" Float_; Column "longitude" Float_;
      Column "created_at" DateTime_; Column "updated_at" DateTime_];
   mk_orm_table "availability_blocks"
     [key_column "id" UUID_; references "vehicles" "id" (Column "vehicle_id" UUID_);
      Column "start_date" Date_; Column "end_date" Date_; Column "created_at" DateTime_]].

Definition auth_metadata : list orm_table :=
  [mk_orm_table "roles" [key_column "code" (String_ (Some 16))];
   mk_orm_table "users"
     [key_column "id" UUID_; unique (Column "email" (String_ (Some 320)));
      Column "name" (String_ (Some 120)); Column "password_hash" (String_ None);
      references "roles" "code" (Column "role" (String_ (Some 16))); Column "created_at" DateTime_]].

Definition admin_metadata : list orm_table :=
  [mk_orm_table "admin_actions"
     [key_column "id" UUID_; Column "admin_id" UUID_; Column "action_type" (String_ (Some 64));
      Column "target_type" (String_ (Some 32)); Column "target_id" (String_ (Some 64));
      Column "payload" JSONB_; Column "created_at" DateTime_]].

Definition notification_metadata : list orm_table :=
  [mk_orm_table "notification_preferences"
     [key_column "user_id" UUID_; Column "email_enabled" Boolean_; Column "sms_enabled" Boolean_]].

(** ** migrations/env.py *)

(** What the file has of its service: [settings.database_url],
    [Base.metadata] and the versions next to it. *)
Record environment := mk_environment {
  env_database_url : string;
  target_metadata : list orm_table;
  env_scripts : list script;
}.
Definition booking_env (s : BookingSettings) : environment :=
  mk_environment (bo_database_url s) booking_metadata booking_scripts.
Definition payment_env (s : PaymentSettings) : environment :=
  mk_environment (pa_database_url s) payment_metadata payment_scripts.
Definition listing_env (s : ListingSettings) : environment :=
  mk_environment (li_database_url s) listing_metadata listing_scripts.
Definition auth_env (s : AuthSettings) : environment :=
  mk_environment (au_database_url s) auth_metadata auth_scripts.
Definition admin_env (s : AdminSettings) : environment :=
  mk_environment (ad_database_url s) admin_metadata admin_scripts.
Definition notification_env (s : NotificationSettings) : environment :=
  mk_environment (no_database_url s) notification_metadata notification_scripts.

Definition environments (d : Deployment) : list environment :=
  [auth_env (dp_auth d); listing_env (dp_listing d); booking_env (dp_booking d);
   payment_env (dp_payment d); notification_env (dp_notification d); admin_env (dp_admin d)].

(** The arguments of [context.configure]. *)
Record configuration := mk_configuration {
  cf_url : option string;
  cf_connection : option string;       (* the database it is connected to *)
  cf_target_metadata : list orm_table;
  cf_literal_binds : bool;
  cf_paramstyle : option string;
}.

(** [alembic.context], its [config], and the engine. *)
Class Context (W : Type) := {
  is_offline_mode : bool;
  set_main_option : string → string → M W unit;
  get_main_option : string → M W (option string);
  configure : configuration → M W unit;
  begin_transaction : M W unit → M W unit;       (* with ...: body *)
  run_migrations : M W unit;
  connect : option string → (option string → M W unit) → M W unit;   (* async with ... as connection *)
  dispose : M W unit;
}.

Section env.
Context {W : Type} `{!Context W} (e : environment).

Definition run_migrations_offline : M W unit :=
url ← get_main_option "sqlalchemy.url";
configure (mk_configuration url None (target_metadata e) true (Some "named"));;
begin_transaction run_migrations.

Definition do_run_migrations (connection : option string) : M W unit :=
configure (mk_configuration None connection (target_metadata e) false None);;
begin_transaction run_migrations.

(** The engine is made from the section of the configuration file, which has
    the url under [sqlalchemy.url]. *)
Definition run_migrations_online : M W unit :=
url ← get_main_option "sqlalchemy.url";
connect url do_run_migrations;;
dispose.

(** The module: what [alembic upgrade head] runs. *)
Definition env_main : M W unit :=
set_main_option "sqlalchemy.url" (env_database_url e);;
if is_offline_mode then run_migrations_offline else run_migrations_online.
End env.

(** The env.py of each service; the six differ in their settings and models. *)
Section env_modules.
Context {W : Type} `{!Context W}.
Definition booking_migrate (s : BookingSettings) : M W unit := env_main (booking_env s).
Definition payment_migrate (s : PaymentSettings) : M W unit := env_main (payment_env s).
Definition listing_migrate (s : ListingSettings) : M W unit := env_main (listing_env s).
Definition auth_migrate (s : AuthSettings) : M W unit := env_main (auth_env s).
Definition admin_migrate (s : AdminSettings) : M W unit := env_main (admin_env s).
Definition notification_migrate (s : NotificationSettings) : M W unit := env_main (notification_env s).
End env_modules.

(** ** Facts *)

(** [framed]: by the statements of the migration, each on one of the names. *)
Ltac framed_script :=
  unfold upgrade_all, downgrade_all; simpl; repeat first
    [ apply framed_ret | apply framed_extension | apply framed_create_table | apply framed_drop_table
    | apply framed_add_column | apply framed_drop_column | apply framed_add_exclusion
    | apply framed_bulk_insert | apply framed_bind; [|intros _] ];
  by apply (bool_decide_eq_true_1 _).

Definition empty_database : database := mk_database ∅ ∅.

(** What the migrations of a service leave on an empty database. *)
Definition migrated (e : environment) : database := snd (upgrade_all (env_scripts e) empty_database).
Definition migrated_names (e : environment) : gset string := dom (tables (migrated e)).

Definition forget_default (c : column) : column :=
  mk_column (c_name c) (c_type c) (c_nullable c) (c_primary_key c) (c_unique c) (c_foreign_key c) None.

(** The table is the one the ORM maps: its columns, in any order, and at least
    its keys. *)
Definition maps_to (o : orm_table) (t : table) : Prop :=
  forget_default <$> t_columns t ≡ₚ o_columns o ∧
  Forall (λ k, k ∈ t_constraints t) (o_columns o ≫= column_constraints).

Record env_sound (e : environment) : Prop := mk_env_sound {
  es_up : framed (migrated_names e) (upgrade_all (env_scripts e));
  es_down : framed (migrated_names e) (downgrade_all (env_scripts e));
  es_runs : fst (upgrade_all (env_scripts e) empty_database) = Ok tt;
  es_back : downgrade_all (env_scripts e) (migrated e) =
    (Ok tt, mk_database (extensions (migrated e)) ∅);
  es_maps : Forall (λ o, ∃ t, tables (migrated e) !! o_name o = Some t ∧ maps_to o t)
    (target_metadata e);
}.

Lemma environments_sound d : Forall env_sound (environments d).
Proof.
  unfold environments. repeat apply Forall_cons_2; [..|apply Forall_nil_2].
  all: (split; [framed_script|framed_script|vm_compute; reflexivity|vm_compute; reflexivity|]).
  all: unfold target_metadata; repeat apply Forall_cons_2; [..|apply Forall_nil_2].
  all: eexists; split; [vm_compute; reflexivity|]; split; [simpl; first [done | solve_Permutation]|].
  all: by apply (bool_decide_eq_true_1 _).
Qed.

(** C25: the migrations of every service, on any database that has no tables by
    their names and none that refers to them: the upgrades succeed, leave
    what is there alone and make each table the ORM maps with its columns
    and its keys; the downgrades take the tables back and nothing else (the
    extension stays). *)
Theorem migrations_roundtrip (d : Deployment) (e : environment) (base : database) :
  e ∈ environments d → apart (migrated_names e) (tables base) →
  ∃ db, upgrade_all (env_scripts e) base = (Ok tt, db) ∧
    (∀ n, n ∉ migrated_names e → tables db !! n = tables base !! n) ∧
    (∀ o, o ∈ target_metadata e → ∃ t, tables db !! o_name o = Some t ∧ maps_to o t) ∧
    downgrade_all (env_scripts e) db = (Ok tt, mk_database (extensions db) (tables base)).
Proof.
  intros He Ha. pose proof (environments_sound d) as Hs. rewrite Forall_forall in Hs.
  destruct (Hs e He) as [Hu Hd Hr Hb Hm]. exists (beside (migrated e) base). split_and!.
  - apply (migrate_beside (migrated_names e)); [done..|]. unfold migrated. rewrite <- Hr.
    apply surjective_pairing.
  - intros n Hn. unfold beside. simpl. rewrite lookup_union, (not_elem_of_dom_1 _ _ Hn).
    by destruct (tables base !! n).
  - intros o Ho. rewrite Forall_forall in Hm. destruct (Hm o Ho) as (t & Ht & Hm').
    exists t. split; [|done]. by apply beside_other.
  - destruct (Hd (migrated e) base tt _ Ha (reflexivity _) Hb) as [_ ->]. unfold beside. simpl.
    by rewrite (left_id_L ∅ (∪)).
Qed.

(** The second revision of the listing service adds NOT NULL columns without
    a default: it is refused on a table with rows. *)
Lemma location_refuses_rows (db : database) (t : table) :
  tables db !! "vehicles" = Some t → t_rows t ≠ [] → "latitude" ∉ c_name <$> t_columns t →
  location_upgrade db = (Err IntegrityError, db).
Proof.
  intros Ht Hr Hc. unfold location_upgrade, add_column. rewrite run_bind, run_get_table, Ht.
  rewrite decide_False by done. by rewrite decide_True.
Qed.

(** ** What env.py makes of Alembic *)

(** The documented behaviour of the calls of env.py: [server] are the
    databases by url; [applied] is how many revisions the version table of a
    database records; a connection is to one url.  PostgreSQL runs the
    statements of a migration in one transaction. *)
Class ContextLaws (W : Type) `{!Context W} (e : environment) := {
  server : W → gmap string database;
  applied : W → string → nat;
  main_option : W → gmap string string;
  configured_for : W → option configuration;
  set_main_option_law k v w : ∃ w', set_main_option k v w = (Ok tt, w') ∧
    main_option w' = <[k := v]> (main_option w) ∧ server w' = server w ∧ applied w' = applied w;
  get_main_option_law k w : get_main_option k w = (Ok (main_option w !! k), w);
  configure_law c w : ∃ w', configure c w = (Ok tt, w') ∧ configured_for w' = Some c ∧
    server w' = server w ∧ applied w' = applied w;
  connect_law url body w : ∃ r w', connect url body w = (r, w') ∧
    ((∃ x, r = Err x) ∧ server w' = server w ∧ applied w' = applied w ∨
     ∃ w1 w2, server w1 = server w ∧ applied w1 = applied w ∧ body url w1 = (r, w2) ∧
       server w' = server w2 ∧ applied w' = applied w2);
  dispose_law w : ∃ w', dispose w = (Ok tt, w') ∧ server w' = server w ∧ applied w' = applied w;
  (** on a connection, all the revisions that are missing or none; in offline
      mode their text is printed *)
  transaction_law w : ∃ r w', begin_transaction run_migrations w = (r, w') ∧
    match cf_connection <$> configured_for w with
    | Some (Some url) =>
        (∃ x, r = Err x) ∧ server w' = server w ∧ applied w' = applied w ∨
        r = Ok tt ∧ ∃ db db', server w !! url = Some db ∧
          upgrade_all (drop (applied w url) (env_scripts e)) db = (Ok tt, db') ∧
          server w' = <[url := db']> (server w) ∧
          ∀ u, applied w' u = if decide (u = url) then length (env_scripts e) else applied w u
    | _ => server w' = server w ∧ applied w' = applied w
    end;
}.

Section env_facts.
Context {W : Type} `{!Context W} (e : environment) `{!ContextLaws W e}.

(** All or nothing, and only there: the environment of a service brings
    the database its settings name to the newest revision, all the missing
    revisions in one go, or raises and changes no database at all; in
    offline mode it changes none whatever happens. *)
Theorem environment_all_or_nothing (w : W) :
  ∃ r w', env_main e w = (r, w') ∧
    (server w' = server w ∧ applied w' = applied w ∧ (r = Ok tt → is_offline_mode = true) ∨
     r = Ok tt ∧ is_offline_mode = false ∧ ∃ db db',
       server w !! env_database_url e = Some db ∧
       upgrade_all (drop (applied w (env_database_url e)) (env_scripts e)) db = (Ok tt, db') ∧
       server w' = <[env_database_url e := db']> (server w) ∧
       applied w' (env_database_url e) = length (env_scripts e)).
Proof.
  unfold env_main. rewrite run_bind.
  destruct (set_main_option_law (e := e) "sqlalchemy.url" (env_database_url e) w) as (w1 & -> & Ho & S1 & A1).
  destruct is_offline_mode.
  - unfold run_migrations_offline. rewrite run_bind, (get_main_option_law (e := e)), run_bind.
    destruct (configure_law (e := e) (mk_configuration (main_option w1 !! "sqlalchemy.url") None
      (target_metadata e) true (Some "named")) w1) as (w2 & -> & Hc & S2 & A2).
    destruct (transaction_law (e := e) w2) as (r & w3 & -> & Ht). rewrite Hc in Ht.
    destruct Ht as [S3 A3]. exists r, w3. split; [done|]. left. by rewrite S3, S2, A3, A2.
  - unfold run_migrations_online. rewrite run_bind, (get_main_option_law (e := e)), run_bind.
    rewrite Ho, lookup_insert_eq.
    destruct (connect_law (Some (env_database_url e)) (do_run_migrations e) w1)
      as (r & w2 & -> & [([x ->] & S2 & A2)|(w3 & w4 & S3 & A3 & Hb & S2 & A2)]).
    { exists (Err x), w2. split; [done|]. left. by rewrite S2, A2. }
    unfold do_run_migrations in Hb. rewrite run_bind in Hb.
    destruct (configure_law (e := e) (mk_configuration None (Some (env_database_url e))
      (target_metadata e) false None) w3) as (w5 & Hc5 & Hc & S5 & A5). rewrite Hc5 in Hb.
    destruct (transaction_law (e := e) w5) as (r' & w6 & Ht6 & Ht). rewrite Ht6 in Hb.
    injection Hb as <- <-. rewrite Hc in Ht. cbn [fmap option_fmap option_map cf_connection] in Ht.
    destruct Ht as [([x ->] & S6 & A6)|(-> & db & db' & Hdb & Hup & S6 & A6)].
    + exists (Err x), w2. split; [done|]. left. by rewrite S2, S6, S5, S3, A2, A6, A5, A3.
    + destruct (dispose_law (e := e) w2) as (w7 & -> & S7 & A7). exists (Ok tt), w7. split; [done|].
      right. split_and!; [done..|]. exists db, db'. rewrite S5, S3, S1 in *. rewrite A5, A3, A1 in *.
      split_and!; [done..| |]; [by rewrite S7, S2, S6|].
      rewrite A7, A2, A6. by rewrite decide_True.
Qed.
End env_facts.
