(* ===== verification/Observability.v ===== *)
(** * Observability: shared/telemetry.py and shared/tracing.py

    The probes ([healthz], [readyz]) and the request metrics that every
    service adds to its application, with the place the metrics middleware
    has among the layers FastAPI puts around a handler: inside it the one
    that turns an [HTTPException] into a response, outside it the one that
    turns any other exception into a 500.  [request_counts] says what the
    counter holds after any sequence of requests: exactly the requests a
    response came back for.  A request whose handler raised is answered with
    a 500 and is counted nowhere.

    [configure_telemetry] is what an application exports and where to, and
    [format] the log line of its [JsonFormatter], which reads back
    ([log_line_reads]). *)
From S2P Require Import Prelude Python Json JsonFacts Effects Idempotency.
From stdpp Require Import pretty.

Section probes.
Context `{!Platform}.

Definition healthz : Response := mk_response 200 (model_dump_json [("status", PStr "ok")]).

(** [readiness_check], when the application gives one, with its answer. *)
Definition readyz (readiness_check : option bool) : Response :=
let ready := default true readiness_check in
mk_response (if ready then 200 else 503)
  (model_dump_json [("status", PStr (if ready then "ok" else "not_ready"))]).
End probes.

(** ** REQUEST_COUNT and REQUEST_LATENCY *)

(** service, method, route. *)
Definition labels : Type := string * string * string.

(** The counter per labels and status; the histogram as what it observed. *)
Record metrics := mk_metrics {
  REQUEST_COUNT : gmap (labels * string) nat;
  REQUEST_LATENCY : gmap labels (list Z);
}.

Definition inc_count (k : labels * string) (m : metrics) : metrics :=
  mk_metrics (<[k := S (default 0 (REQUEST_COUNT m !! k))]> (REQUEST_COUNT m)) (REQUEST_LATENCY m).
Definition observe (k : labels) (elapsed : Z) (m : metrics) : metrics :=
  mk_metrics (REQUEST_COUNT m) (<[k := default [] (REQUEST_LATENCY m !! k) ++ [elapsed]]> (REQUEST_LATENCY m)).

Definition no_metrics : metrics := mk_metrics ∅ ∅.

Section middleware.
Context {S : Type} `{!Platform}.
Notation Ma := (M (S * metrics)).

(** A request on its way through the application: what the middleware reads
    of it ([route] is the path of the route that matched, if any, and the
    two readings of [perf_counter]) and the handler it reaches. *)
Record http_call := mk_call {
  hc_method : string;
  hc_path : string;
  hc_route : option string;
  hc_started : Z;
  hc_ended : Z;
  hc_handler : M S Response;
}.

(** Starlette's ExceptionMiddleware. *)
Definition exception_middleware (app : M S Response) : M S Response :=
try_except app (λ e, match e with
  | HTTPException st detail => Some (mret (mk_response st (model_dump_json [("detail", PStr detail)])))
  | _ => None
  end).

Definition call_next (app : M S Response) : Ma Response := λ '(s, m),
  let '(r, s) := app s in (r, (s, m)).
Definition on_metrics (f : metrics → metrics) : Ma unit := modify (λ '(s, m), (s, f m)).

Definition call_labels (service : string) (c : http_call) : labels :=
(service, hc_method c, default (hc_path c) (hc_route c)).

Definition metrics_middleware (service : string) (c : http_call) : Ma Response :=
response ← call_next (exception_middleware (hc_handler c));
let labels := call_labels service c in
on_metrics (inc_count (labels, pretty (resp_status response)));;
on_metrics (observe labels (hc_ended c - hc_started c));;
mret response.

(** A call as the server makes it: what the client gets, and what the
    metrics middleware saw. *)
Definition asgi_call (service : string) (c : http_call) (st : S * metrics) :
  Response * result Response * (S * metrics) :=
let '(r, st) := metrics_middleware service c st in (http_response r, r, st).

Fixpoint asgi_calls (service : string) (cs : list http_call) (st : S * metrics) :
  list (http_call * Response * result Response) * (S * metrics) :=
match cs with
| [] => ([], st)
| c :: cs =>
    let '(seen, r, st) := asgi_call service c st in
    let '(rest, st) := asgi_calls service cs st in
    ((c, seen, r) :: rest, st)
end.

(** The middleware saw the response [seen] go out. *)
Definition counted_as (service : string) (k : labels * string)
  (x : http_call * Response * result Response) : Prop :=
let '(c, seen, r) := x in is_Ok r = true ∧ k = (call_labels service c, pretty (resp_status seen)).
#[global] Instance counted_as_dec service k x : Decision (counted_as service k x).
Proof. destruct x as [[c seen] r]. unfold counted_as. apply _. Defined.

Lemma exception_middleware_response (app : M S Response) s r s' :
exception_middleware app s = (r, s') → http_response r = http_response (app s).1 ∧ s' = (app s).2.
Proof.
unfold exception_middleware, try_except. destruct (app s) as [[resp|e] s1]; [by intros [= <- <-]|].
destruct e; by intros [= <- <-].
Qed.

Lemma asgi_call_run service c s m seen r s' m' :
asgi_call service c (s, m) = (seen, r, (s', m')) →
seen = http_response (hc_handler c s).1 ∧ s' = (hc_handler c s).2 ∧
  match r with
  | Ok _ => m' = observe (call_labels service c) (hc_ended c - hc_started c)
              (inc_count (call_labels service c, pretty (resp_status seen)) m)
  | Err e => m' = m ∧ seen = mk_response 500 "Internal Server Error"
  end.
Proof.
unfold asgi_call, metrics_middleware. rewrite run_bind. unfold call_next at 1.
destruct (exception_middleware (hc_handler c) s) as [[resp|e] s1] eqn:E.
- apply exception_middleware_response in E as [Hr ->]. rewrite !run_bind.
  unfold on_metrics, modify, mret, M_ret. simpl in Hr. intros [= <- <- <- <-]. by rewrite <- Hr.
- pose proof E as [Hr ->]%exception_middleware_response. intros [= <- <- <- <-].
  split; [done|]. split; [done|]. split; [done|].
  unfold exception_middleware, try_except in E. destruct (hc_handler c s) as [[?|x] s2]; [done|].
  by destruct x; simplify_eq.
Qed.

Lemma inc_count_lookup k k' m :
default 0 (REQUEST_COUNT (inc_count k m) !! k') =
  (if decide (k' = k) then 1 else 0) + default 0 (REQUEST_COUNT m !! k').
Proof.
simpl. case_decide as Hk; [by subst; rewrite lookup_insert_eq|by rewrite lookup_insert_ne].
Qed.
End middleware.

(** ** What the counter counts *)

(** The request counter counts answers.  After any sequence of requests to
    a fresh service the counter holds, for each labels and status, the number
    of requests that a response with them came back for, an HTTPException
    being one; a request whose handler raised anything else was answered with
    a 500, which is counted nowhere. *)
Theorem request_counts {S : Type} `{!Platform} (service : string) (cs : list (http_call (S := S)))
    (s : S) (k : labels * string) :
  let '(log, (_, m)) := asgi_calls service cs (s, no_metrics) in
  default 0 (REQUEST_COUNT m !! k) = length (filter (counted_as service k) log) ∧
  Forall (λ '(_, seen, r), is_Ok r = false → seen = mk_response 500 "Internal Server Error") log.
Proof.
  enough (∀ m0, let '(log, (_, m)) := asgi_calls service cs (s, m0) in
    default 0 (REQUEST_COUNT m !! k) = length (filter (counted_as service k) log) + default 0 (REQUEST_COUNT m0 !! k) ∧
    Forall (λ '(_, seen, r), is_Ok r = false → seen = mk_response 500 "Internal Server Error") log) as He.
  { specialize (He no_metrics). destruct (asgi_calls _ _ _) as [log [s' m]]. unfold no_metrics in He.
    cbn [REQUEST_COUNT] in He. by rewrite lookup_empty, Nat.add_0_r in He. }
  revert s. induction cs as [|c cs IH]; intros s m0; cbn [asgi_calls]; [done|].
  destruct (asgi_call service c (s, m0)) as [[seen r] [s1 m1]] eqn:E.
  apply asgi_call_run in E as (_ & _ & Hm). specialize (IH s1 m1).
  destruct (asgi_calls service cs (s1, m1)) as [log [s' m]]. destruct IH as [-> IH].
  rewrite filter_cons. split.
  - destruct r as [resp|e].
    + subst m1. unfold observe. cbn [REQUEST_COUNT]. rewrite inc_count_lookup.
      destruct (decide (counted_as _ _ _)) as [[_ ->]|Hn].
      * rewrite decide_True by done. simpl. lia.
      * rewrite decide_False; [lia|]. intros ->. by apply Hn.
    + destruct Hm as [-> _]. rewrite decide_False; [done|]. by intros [].
  - constructor; [|done]. destruct r as [resp|e]; [done|]. by destruct Hm.
Qed.

(** ** shared/kafka_consumer.py: the lag gauge *)

(** [report_consumer_lag]: what the gauge is set to, from the high-water mark
    (if it is known) and the position of each assigned partition. *)
Fixpoint report_consumer_lag_from (total_lag : Z) (partitions : list (option Z * Z)) : Z :=
  match partitions with
  | [] => total_lag
  | (None, _) :: ps => report_consumer_lag_from total_lag ps
  | (Some highwater, position) :: ps =>
      report_consumer_lag_from (total_lag + Z.max (highwater - position) 0) ps
  end.
Definition report_consumer_lag : list (option Z * Z) → Z := report_consumer_lag_from 0.

(** The gauge reads zero exactly when no partition with a known mark is behind. *)
Lemma no_lag (partitions : list (option Z * Z)) :
  (0 ≤ report_consumer_lag partitions)%Z ∧
  (report_consumer_lag partitions = 0%Z ↔
   ∀ highwater position, (Some highwater, position) ∈ partitions → (highwater ≤ position)%Z).
Proof.
  unfold report_consumer_lag.
  enough (∀ t, (0 ≤ t)%Z → (0 ≤ report_consumer_lag_from t partitions)%Z ∧
    (report_consumer_lag_from t partitions = 0%Z ↔ t = 0%Z ∧
     ∀ h p, (Some h, p) ∈ partitions → (h ≤ p)%Z)) as He.
  { destruct (He 0%Z) as [H1 H2]; [done|]. split; [done|]. rewrite H2. naive_solver. }
  induction partitions as [|[[h|] p] ps IH]; intros t Ht; cbn [report_consumer_lag_from].
  - split; [done|]. set_solver.
  - destruct (IH (t + Z.max (h - p) 0)%Z) as [H1 H2]; [lia|]. split; [done|]. rewrite H2. split.
    + intros [He Hps]. split; [lia|]. intros h' p' [[= -> ->]|Hin]%elem_of_cons; [lia|by apply Hps].
    + intros [-> Hps]. pose proof (Hps h p ltac:(by left)). split; [lia|]. intros. apply Hps. by right.
  - destruct (IH t Ht) as [H1 H2]. split; [done|]. rewrite H2. set_solver.
Qed.

(** ** shared/tracing.py *)

(** [OTLPSpanExporter] or [OTLPMetricExporter]. *)
Record otlp_exporter := mk_otlp { otlp_endpoint : string; otlp_insecure : bool }.

(** The tracer and the meter provider that [configure_telemetry] installs, by
    their resource, the exporters behind the span processors and those behind
    the metric readers, with the interval of each; the application is
    instrumented with the tracer provider. *)
Record telemetry_providers := mk_providers {
  tp_resource : list (string * string);
  tp_span_exporters : list otlp_exporter;
  tp_metric_readers : list (otlp_exporter * Z);
}.

Definition configure_telemetry (service_name otlp_endpoint : string) : telemetry_providers :=
  let resource := [("service.name", service_name)] in
  let exporters := if decide (otlp_endpoint = "") then [] else [mk_otlp otlp_endpoint true] in
  mk_providers resource exporters ((λ e, (e, 10000%Z)) <$> exporters).

(** ** The [JsonFormatter] of every app.py: level and message of a record. *)
Definition format `{!FloatText} (levelname message : string) : string :=
  json_dumps (PDict [("level", PStr levelname); ("message", PStr message)]).

(** A log line reads back as the level and the message it was made of,
    whatever characters they have. *)
Lemma log_line_reads `{!FloatText} `{!FloatLaws} levelname message :
  json_loads (format levelname message) =
    Some (PDict [("level", PStr levelname); ("message", PStr message)]).
Proof. apply json_loads_dumps. repeat (split || constructor); set_solver. Qed.
