(* ===== verification/Lifespan.v ===== *)
(** * Lifespan: the app.py of each service

    What [create_app] opens, what its [lifespan] starts before the service
    takes requests, what goes on in the background meanwhile, and what is
    stopped and closed when the service is told to end.

    A background task is an asyncio task around an endless loop: it runs
    until its loop raises or it is cancelled, and nobody awaits it before the
    shutdown does.  [background_step] is that; [serving] are the states of a
    service that takes requests.  [quiet_failure] says what follows from a
    loop that raised while the service was up, and [graceful_shutdown] what
    the shutdown does when none has. *)
From S2P Require Import Prelude Python JwtAuth Effects Idempotency Observability Settings.

(** The clients an application holds; nothing in the code disposes of an
    engine or of an HTTP client. *)
Inductive client := PostgresEngine | HttpClient | RedisClient | EsClient | MongoClient | KafkaProducer.
#[export] Instance client_eq_dec : EqDecision client.
Proof. solve_decision. Defined.

(** The coroutines the lifespans make tasks of: the cleanup loop, and
    [run_consumer] (or [run_telemetry_consumer]) on a topic for a group. *)
Inductive coroutine := CleanupLoop | ConsumerLoop (topic group_id : string).
#[export] Instance coroutine_eq_dec : EqDecision coroutine.
Proof. solve_decision. Defined.

Inductive task_state := Running | Cancelled | Failed (e : exn).

Record runtime := mk_runtime {
  background_tasks : list (coroutine * task_state);
  opened : list client;
}.

Definition failed (t : coroutine * task_state) : Prop := ∃ e, t.2 = Failed e.

(** What the clients do when they are called: [None] is a call that returns. *)
Class Clients := {
  start : client → option exn;
  close : client → option exn;
  ensure_index_call : option exn;
  stop_loop : coroutine → option exn;   (* the [finally] of a cancelled loop *)
}.

Section lifespan.
Context `{!Clients}.
Notation Ml := (M runtime).

Definition outcome (o : option exn) : Ml unit :=
match o with None => mret tt | Some e => raise e end.

Definition open_client (c : client) : Ml unit :=
modify (λ rt, mk_runtime (background_tasks rt) (opened rt ++ [c])).

(** [await client.stop()], [await client.aclose()], [client.close()]. *)
Definition close_client (c : client) : Ml unit :=
outcome (close c);;
modify (λ rt, mk_runtime (background_tasks rt) (filter (.≠ c) (opened rt))).

(** [asyncio.create_task(...)]. *)
Definition create_task (c : coroutine) : Ml unit :=
modify (λ rt, mk_runtime (background_tasks rt ++ [(c, Running)]) (opened rt)).

(** [task.cancel()]: a loop that runs ends at its next await, through its
    [finally]; a task that has ended stays as it is. *)
Definition cancel (t : coroutine * task_state) : coroutine * task_state :=
match t with
| (c, Running) => (c, match stop_loop c with None => Cancelled | Some e => Failed e end)
| _ => t
end.

(** [try: await task except asyncio.CancelledError: pass]. *)
Definition await_task (t : coroutine * task_state) : Ml unit :=
match t.2 with Failed e => raise e | _ => mret tt end.

Fixpoint await_tasks (ts : list (coroutine * task_state)) : Ml unit :=
match ts with
| [] => mret tt
| t :: ts => await_task t;; await_tasks ts
end.

(** The two loops over the tasks in the [finally] of every lifespan. *)
Definition stop_tasks : Ml unit :=
modify (λ rt, mk_runtime (cancel <$> background_tasks rt) (opened rt));;
rt ← gets id;
await_tasks (background_tasks rt).

Fixpoint close_clients (cs : list client) : Ml unit :=
match cs with
| [] => mret tt
| c :: cs => close_client c;; close_clients cs
end.

(** ** The applications *)
Record App := mk_app {
  app_service : ServiceSettings;
  app_prefix : option string;       (* of the router, if there is one *)
  app_clients : list client;        (* opened by [create_app] *)
  app_startup : Ml unit;            (* [lifespan], up to its [yield] *)
  app_closes : list client;         (* closed by [lifespan], in this order *)
  app_readiness : option (runtime → bool);   (* [readiness_check] *)
}.

(** [lifespan] from its [yield] on. *)
Definition app_shutdown (app : App) : Ml unit := stop_tasks;; close_clients (app_closes app).

Definition consumer_if (enabled : bool) (topic group_id : string) : Ml unit :=
if enabled then create_task (ConsumerLoop topic group_id) else mret tt.

Definition hello_app : App := mk_app (service_settings "hello") None [] (mret tt) [] None.

Definition auth_app (s : AuthSettings) : App :=
mk_app (au_service s) (Some "/auth") [PostgresEngine] (create_task CleanupLoop) [] None.

Definition listing_app (s : ListingSettings) : App :=
mk_app (li_service s) (Some "/listing") [PostgresEngine] (create_task CleanupLoop) [] None.

Definition booking_app (s : BookingSettings) : App :=
mk_app (bo_service s) (Some "/booking") [PostgresEngine; HttpClient]
  (create_task CleanupLoop;;
   consumer_if (bo_enable_kafka_consumer s) (payment_events_topic s) "booking") [] None.

Definition payment_app (s : PaymentSettings) : App :=
mk_app (pa_service s) (Some "/payment") [PostgresEngine]
  (consumer_if (pa_enable_kafka_consumer s) (booking_commands_topic s) "payment") [] None.

Definition search_app (s : SearchSettings) : App :=
mk_app (se_service s) (Some "/search") [EsClient; RedisClient]
  (outcome ensure_index_call;;
   consumer_if (se_enable_kafka_consumer s) (listing_events_topic s) "search")
  [EsClient; RedisClient] None.

Definition notification_app (s : NotificationSettings) : App :=
mk_app (no_service s) None [PostgresEngine]
  (consumer_if (no_enable_kafka_consumer s) (no_booking_events_topic s) "notification") [] None.

Definition telemetry_app (s : TelemetrySettings) : App :=
mk_app (te_service s) (Some "/telemetry") []
  (open_client KafkaProducer;; open_client MongoClient;; open_client RedisClient;;
   outcome (start KafkaProducer);;
   consumer_if (enable_consumer s) (raw_topic s) "telemetry")
  [KafkaProducer; RedisClient; MongoClient] None.

Definition admin_app (s : AdminSettings) : App :=
mk_app (ad_service s) (Some "/admin") [PostgresEngine; HttpClient; HttpClient; RedisClient]
  (create_task CleanupLoop) [RedisClient] None.

Definition apps (d : Deployment) : list App :=
[auth_app (dp_auth d); listing_app (dp_listing d); booking_app (dp_booking d);
 payment_app (dp_payment d); search_app (dp_search d); notification_app (dp_notification d);
 telemetry_app (dp_telemetry d); admin_app (dp_admin d)].

(** ** A service that is up *)

(** A loop ends by raising.  Requests leave the runtime as it is. *)
Inductive background_step (rt : runtime) : runtime → Prop :=
| loop_raises i c e :
  background_tasks rt !! i = Some (c, Running) →
  background_step rt (mk_runtime (<[i := (c, Failed e)]> (background_tasks rt)) (opened rt)).

Definition booted (app : App) (rt : runtime) : Prop :=
app_startup app (mk_runtime [] (app_clients app)) = (Ok tt, rt).
Definition serving (app : App) (rt : runtime) : Prop :=
∃ rt0, booted app rt0 ∧ rtc background_step rt0 rt.

(** [add_health_endpoints]: what a probe is answered. *)
Definition probe `{!Platform} (app : App) (rt : runtime) (path : string) : Response :=
if decide (path = "/healthz") then healthz
else readyz ((λ check, check rt) <$> app_readiness app).

(** services/hello: its one endpoint. *)
Definition hello `{!Platform} (s : ServiceSettings) : Response :=
mk_response 200 (model_dump_json [("service", PStr (service_name s)); ("message", PStr "hello")]).

(** ** Facts *)
Lemma background_opened rt rt' : rtc background_step rt rt' → opened rt' = opened rt.
Proof. induction 1 as [|x y z Hs _ IH]; [done|]. rewrite IH. by destruct Hs. Qed.

Lemma background_coroutines rt rt' :
rtc background_step rt rt' → (background_tasks rt').*1 = (background_tasks rt).*1.
Proof.
induction 1 as [|x y z Hs _ IH]; [done|]. rewrite IH. destruct Hs as [i c e Hi]. simpl.
rewrite list_fmap_insert. apply list_insert_id. by rewrite list_lookup_fmap, Hi.
Qed.

(** A task that failed stays failed. *)
Lemma failed_stays rt rt' i c e :
rtc background_step rt rt' → background_tasks rt !! i = Some (c, Failed e) →
background_tasks rt' !! i = Some (c, Failed e).
Proof.
induction 1 as [|x y z Hs _ IH]; [done|]. intros Hi. apply IH. destruct Hs as [j c' e' Hj]. simpl.
rewrite list_lookup_insert_ne; [done|]. intros ->. simplify_eq.
Qed.

Lemma outcome_run o rt : outcome o rt = (match o with None => Ok tt | Some e => Err e end, rt).
Proof. by destruct o. Qed.

(** Awaiting the tasks raises what the first failed one raised. *)
Lemma await_tasks_run ts rt :
(await_tasks ts rt = (Ok tt, rt) ∧ ¬ Exists failed ts) ∨
∃ t e, t ∈ ts ∧ t.2 = Failed e ∧ await_tasks ts rt = (Err e, rt).
Proof.
induction ts as [|[c st] ts IH]; [left; split; [done|by intros ?%Exists_nil]|].
cbn [await_tasks]. rewrite run_bind. destruct st as [| |e]; unfold await_task at 1 2; simpl.
1, 2: destruct IH as [[-> Hn]|(t & e & Ht & He & ->)];
  [left; split; [done|]; rewrite Exists_cons; intros [[? Hf]|He]; [discriminate Hf|by apply Hn] | right; exists t, e; split_and!; [by right|done..]].
right. exists (c, Failed e), e. split_and!; [by left|done..].
Qed.

Lemma filter_notin_nil (l : list client) : filter (.∉ []) l = l.
Proof. induction l as [|c l IH]; [done|]. rewrite filter_cons_True by set_solver. by rewrite IH. Qed.

Lemma close_clients_run cs rt :
Forall (λ c, close c = None) cs →
close_clients cs rt = (Ok tt, mk_runtime (background_tasks rt) (filter (.∉ cs) (opened rt))).
Proof.
revert rt. induction cs as [|c cs IH]; intros [ts os] Hcs; cbn [close_clients].
- simpl. by rewrite filter_notin_nil.
- apply Forall_cons in Hcs as [Hc Hcs]. unfold close_client. rewrite !run_bind, outcome_run, Hc.
  unfold modify at 1. rewrite IH by done. simpl. do 2 f_equal. rewrite list_filter_filter.
  apply list_filter_iff. intros x. set_solver.
Qed.

Lemma cancel_failed t e : t.2 = Failed e → cancel t = t.
Proof. destruct t as [c []]; by intros [=]. Qed.

Lemma stop_tasks_failed rt t e :
t ∈ background_tasks rt → t.2 = Failed e →
∃ e', stop_tasks rt = (Err e', mk_runtime (cancel <$> background_tasks rt) (opened rt)).
Proof.
intros Ht He. unfold stop_tasks. rewrite run_bind. unfold modify, gets. rewrite run_bind. simpl.
destruct (await_tasks_run (cancel <$> background_tasks rt)
  (mk_runtime (cancel <$> background_tasks rt) (opened rt))) as [[_ Hn]|(t' & e' & _ & _ & ->)].
- contradict Hn. apply Exists_exists. exists t. split; [|by exists e].
  rewrite <- (cancel_failed t e He). by apply list_elem_of_fmap_2.
- by exists e'.
Qed.

Lemma stop_tasks_running rt :
(∀ c, stop_loop c = None) → Forall (λ t, ¬ failed t) (background_tasks rt) →
stop_tasks rt = (Ok tt, mk_runtime (cancel <$> background_tasks rt) (opened rt)) ∧
Forall (λ t, t.2 = Cancelled) (cancel <$> background_tasks rt).
Proof.
intros Hs Hf. assert (Forall (λ t, t.2 = Cancelled) (cancel <$> background_tasks rt)) as Hc.
{ apply Forall_fmap. eapply Forall_impl; [exact Hf|]. intros [c [| |e]] Hn; simpl; [by rewrite Hs|done|].
  contradict Hn. by exists e. }
split; [|done]. unfold stop_tasks. rewrite run_bind. unfold modify, gets. rewrite run_bind. simpl.
destruct (await_tasks_run (cancel <$> background_tasks rt)
  (mk_runtime (cancel <$> background_tasks rt) (opened rt))) as [[-> _]|(t & e & Ht & He & _)]; [done|].
rewrite Forall_forall in Hc. by rewrite (Hc t Ht) in He.
Qed.

End lifespan.

(** [boot H]: runs the startup of the given application in [H], on every
    branch that returns. *)
Ltac boot H :=
  cbv [booted app_startup consumer_if create_task open_client modify mbind M_bind mret M_ret outcome
    raise hello_app auth_app listing_app booking_app payment_app search_app notification_app
    telemetry_app admin_app app_clients background_tasks opened] in H;
  repeat match type of H with
    | context [match ?o with _ => _ end] =>
        match type of o with bool => destruct o | option exn => destruct o end
    end;
  try discriminate H; injection H as <-; simpl.

Section served.
Context `{!Clients}.

(** What the applications have in common. *)
Record app_sound (app : App) : Prop := mk_app_sound {
as_ready : app_readiness app = None;
as_fresh : ∀ rt, booted app rt → Forall (λ t, t.2 = Running) (background_tasks rt);
as_closes : ∀ rt, booted app rt →
  Forall (λ c, c ∈ [PostgresEngine; HttpClient]) (filter (.∉ app_closes app) (opened rt));
}.

Lemma apps_sound d : Forall app_sound (apps d).
Proof.
unfold apps. repeat apply Forall_cons_2; [..|apply Forall_nil_2]; (split; [done|..]); intros rt Hb; boot Hb;
  repeat apply Forall_cons_2; first [apply Forall_nil_2 | done | set_solver].
Qed.

Lemma serving_running app rt :
app_sound app → serving app rt →
Forall (λ t, t.2 = Running ∨ failed t) (background_tasks rt) ∧ (∃ rt0, booted app rt0 ∧ opened rt = opened rt0).
Proof.
intros Ha (rt0 & Hb & Hs). split; [|exists rt0; by erewrite background_opened].
pose proof (as_fresh _ Ha _ Hb) as Hf. clear Hb.
assert (Forall (λ t, t.2 = Running ∨ failed t) (background_tasks rt0)) as Hg
  by (eapply Forall_impl; [exact Hf|]; by left). clear Hf.
induction Hs as [|x y z Hs _ IH]; [done|]. apply IH. destruct Hs as [i c e Hi]. simpl.
apply Forall_insert; [done|]. right. by exists e.
Qed.
End served.

(** C26: a failure nobody sees.  When the loop of a background task of a service
    raises (a consumer that meets a record its handlers refuse, a cleanup pass
    that loses its database), then for as long as the service is up the task
    stays dead while both probes answer as before, so that nothing restarts
    the process; and the shutdown, when it comes, raises and closes none of
    the clients it was to close. *)
Theorem quiet_failure `{!Clients} `{!Platform} (d : Deployment) (app : App) (rt rt' : runtime)
    (i : nat) (c : coroutine) (e : exn) :
  app ∈ apps d → serving app rt → background_tasks rt !! i = Some (c, Failed e) →
  rtc background_step rt rt' →
  serving app rt' ∧ background_tasks rt' !! i = Some (c, Failed e) ∧
  (∀ path, probe app rt' path = healthz) ∧
  ∃ e' rt'', app_shutdown app rt' = (Err e', rt'') ∧ opened rt'' = opened rt'.
Proof.
  intros Happ (rt0 & Hb & Hs0) Hi Hs. pose proof (apps_sound d) as Ha. rewrite Forall_forall in Ha.
  pose proof (failed_stays _ _ _ _ _ Hs Hi) as Hi'. split_and!; [|done|..].
  - exists rt0. split; [done|]. by etrans.
  - intros path. unfold probe. rewrite (as_ready _ (Ha app Happ)). by case_decide.
  - apply list_elem_of_lookup_2 in Hi'. eapply stop_tasks_failed in Hi' as (e' & He); [|done].
    eexists e', _. unfold app_shutdown. by rewrite run_bind, He.
Qed.

(** A graceful end.  A service none of whose loops has raised, and whose
    clients answer, shuts down without an error: every task is cancelled and
    every client is closed but the SQLAlchemy engine and the HTTP clients,
    which nothing disposes of. *)
Theorem graceful_shutdown `{!Clients} (d : Deployment) (app : App) (rt : runtime) :
  (∀ c, close c = None) → (∀ c, stop_loop c = None) →
  app ∈ apps d → serving app rt → Forall (λ t, ¬ failed t) (background_tasks rt) →
  ∃ rt', app_shutdown app rt = (Ok tt, rt') ∧ Forall (λ t, t.2 = Cancelled) (background_tasks rt') ∧
    Forall (λ c, c ∈ [PostgresEngine; HttpClient]) (opened rt').
Proof.
  intros Hc Hl Happ Hs Hn. pose proof (apps_sound d) as Ha. rewrite Forall_forall in Ha.
  specialize (Ha app Happ). pose proof (serving_running _ _ Ha Hs) as (_ & rt0 & Hb & Ho).
  destruct (stop_tasks_running rt Hl Hn) as [Hr Hcan]. eexists. split_and!.
  - unfold app_shutdown. rewrite run_bind, Hr. apply close_clients_run. by apply Forall_forall.
  - done.
  - simpl. rewrite Ho. by apply (as_closes _ Ha).
Qed.
