(* ===== verification/Http.v ===== *)
(** * Http: the request boundary the routers share

    What FastAPI does around a handler of services/*/routes.py, in its order:
    a body that is not JSON is refused at once; then the dependencies run
    (the idempotency guard, the token); then path, query and body are
    validated (422); then the handler runs.  [mutation] is a POST or PATCH
    behind the idempotency guard, [query] a plain GET. *)
From S2P Require Import Prelude Python Effects Idempotency JwtAuth.

Record request := mk_request {
  rq_authorization : option string;
  rq_idempotency_key : option string;
  rq_body : string;
}.

(** Path, query and body after pydantic: the body is not JSON, some field is
    missing or of the wrong type, or the values. *)
Inductive input (P : Type) := Malformed | Invalid | Valid (p : P).
Arguments Malformed {P}.
Arguments Invalid {P}.
Arguments Valid {P} p.

Definition unprocessable : exn := HTTPException 422 "Unprocessable Entity".

(** A schema's own constraints, checked after the types. *)
Definition constrained {P} (ok : P → bool) (i : input P) : input P :=
  match i with
  | Valid p => if ok p then Valid p else Invalid
  | i => i
  end.

Section http.
Context {DB W : Type} `{!HasIdem DB} `{!Platform}.
Notation Mb := (M (session DB W)).

(** [Depends(get_guard)], with the service's consumer-id resolver. *)
Definition get_guard (cfg : jwt_settings) (rq : request) : Mb IdempotencyGuard :=
match rq_idempotency_key rq with
| None | Some "" => raise (HTTPException 400 "Idempotency-Key header is required")
| Some key =>
    t ← now;
    consumer_id ← consumer_id_resolver cfg t (rq_authorization rq);
    idempotency_guard (Some key) consumer_id (rq_body rq)
end.

(** [Depends(get_access_claims)]. *)
Definition get_access_claims (cfg : jwt_settings) (rq : request) : Mb dict :=
t ← now; claims_dependency cfg "access" t (rq_authorization rq).

Definition validated {P A} (i : input P) (k : P → Mb A) : Mb A :=
match i with Valid p => k p | _ => raise unprocessable end.

(** [refused i m]: the JSON check, before everything else. *)
Definition refused {P A} (i : input P) (m : Mb A) : Mb A :=
match i with Malformed => raise unprocessable | _ => m end.

Definition mutation {P} (cfg : jwt_settings) (rq : request) (i : input P) (roles : list string)
  (status : Z) (build : dict → P → Mb string) : Mb Response :=
refused i (
  guard ← get_guard cfg rq;
  claims ← get_access_claims cfg rq;
  validated i (λ p,
    require_role claims roles;;
    respond_idempotently guard status (build claims p))).

Definition query {P} (cfg : jwt_settings) (rq : request) (i : input P)
  (handler : dict → P → Mb dict) : Mb Response :=
refused i (
  claims ← get_access_claims cfg rq;
  validated i (λ p,
    d ← handler claims p;
    mret (mk_response 200 (model_dump_json d)))).

Implicit Types s : session DB W.

Lemma read_only_get_guard cfg rq : read_only (S := session DB W) (get_guard cfg rq).
Proof. unfold get_guard, now. pose proof @read_only_guard. read_only. Qed.

Lemma read_only_get_access_claims cfg rq :
read_only (S := session DB W) (get_access_claims cfg rq).
Proof. unfold get_access_claims, now. read_only. Qed.

Lemma get_access_claims_Ok cfg rq s claims s' :
get_access_claims cfg rq s = (Ok claims, s') →
s' = s ∧ dict_get claims "type" = Some (PStr "access").
Proof.
unfold get_access_claims. rewrite run_bind. simpl.
intros (-> & ? & _)%claims_dependency_Ok. done.
Qed.

(** A mutation that returned either replayed a stored response and changed
  nothing, or ran its handler as a caller in one of the roles, with a
  valid input, and committed. *)
Lemma mutation_authorized {P} cfg rq (i : input P) roles status build s resp s' :
mutation cfg rq i roles status build s = (Ok resp, s') →
s' = s ∨
∃ claims role p json s1, i = Valid p ∧
  get_access_claims cfg rq s = (Ok claims, s) ∧
  dict_get claims "role" = Some (PStr role) ∧ role ∈ roles ∧
  build claims p s = (Ok json, s1) ∧ committed s' = work s' ∧ world s' = world s1 ∧
  (work s' = work s1 ∨ ∃ m, work s' = set_idem m (work s1)).
Proof.
unfold mutation, refused, validated. destruct i as [| |p]; try done; rewrite bind_Ok;
  intros (g & s1 & Hg & Hr); pose proof (read_only_get_guard cfg rq s) as Hro;
  rewrite Hg in Hro; simpl in Hro; subst s1;
  apply bind_Ok in Hr as (claims & s1 & Ha & Hr); [done|].
assert (s1 = s) as -> by (by apply get_access_claims_Ok in Ha as [-> _]).
apply bind_Ok in Hr as ([] & s1 & (-> & role & Hrole & Hin)%require_role_Ok & Hr).
apply respond_Ok_work in Hr as [->|(json & s1 & Hb & Hc & Hw & Hwork)]; [by left|].
right. by exists claims, role, p, json, s1.
Qed.

(** A key no caller has used is not answered from the table. *)
Lemma mutation_fresh {P} cfg rq key (i : input P) roles status build s resp s' :
rq_idempotency_key rq = Some key → (∀ cid, get_idem (work s) !! (cid, key) = None) →
mutation cfg rq i roles status build s = (Ok resp, s') →
∃ claims p json s1, i = Valid p ∧ build claims p s = (Ok json, s1) ∧
  committed s' = work s' ∧ world s' = world s1 ∧
  (work s' = work s1 ∨ ∃ m, work s' = set_idem m (work s1)).
Proof.
intros Hkey Hfree. unfold mutation, refused, validated.
assert (∀ g, get_guard cfg rq s = (Ok g, s) → g_replay g = None) as Hg.
{ intros g. unfold get_guard. rewrite Hkey. destruct key as [|c k]; [done|].
  intros (t & _ & (cid & _ & Hg)%bind_pure)%bind_pure; [|apply read_only_consumer_id|by intros ?].
  apply guard_Ok in Hg as (_ & [= Hk] & _ & _ & _ & Hr).
  destruct (g_replay g) as [[b st]|]; [|done].
  destruct Hr as (row & Hrow & _). by rewrite <- Hk, Hfree in Hrow. }
destruct i as [| |p]; try done;
  intros (g & Hgd & (claims & _ & Hr)%bind_pure)%bind_pure;
  try apply read_only_get_guard; try apply read_only_get_access_claims; [done|].
apply bind_pure in Hr as ([] & _ & Hr); [|apply read_only_require_role].
apply respond_built in Hr as (json & s1 & Hb & Hr); [|by apply Hg]. by exists claims, p, json, s1.
Qed.

Lemma mutation_Ok {P} cfg rq (i : input P) roles status build s resp s' :
mutation cfg rq i roles status build s = (Ok resp, s') →
s' = s ∨
∃ claims role p json s1, i = Valid p ∧
  dict_get claims "type" = Some (PStr "access") ∧
  dict_get claims "role" = Some (PStr role) ∧ role ∈ roles ∧
  build claims p s = (Ok json, s1) ∧ committed s' = work s' ∧
  (work s' = work s1 ∨ ∃ m, work s' = set_idem m (work s1)).
Proof.
intros [?|(claims & role & p & json & s1 & -> & Ha & ? & ? & ? & ? & _ & ?)]%mutation_authorized;
  [by left|].
right. exists claims, role, p, json, s1. split_and!; try done. by apply get_access_claims_Ok in Ha as [].
Qed.

(** One that raised committed nothing. *)
Lemma mutation_Err {P} cfg rq (i : input P) roles status build s e s' :
(∀ claims p, no_commit (build claims p)) →
mutation cfg rq i roles status build s = (Err e, s') → committed s' = committed s.
Proof.
intros Hb. unfold mutation, refused, validated. destruct i as [| |p]; [by intros [= _ <-]| |];
  rewrite run_bind; pose proof (read_only_get_guard cfg rq s) as Hg;
  destruct (get_guard cfg rq s) as [[g|x] s0]; simpl in Hg; subst s0; try (by intros [= _ <-]);
  rewrite run_bind; pose proof (read_only_get_access_claims cfg rq s) as Ha;
  destruct (get_access_claims cfg rq s) as [[claims|x] s0]; simpl in Ha; subst s0;
  try (by intros [= _ <-]).
rewrite run_bind. pose proof (read_only_require_role claims roles s) as Hq.
destruct (require_role claims roles s) as [[[]|x] s0]; simpl in Hq; subst s0;
  [|by intros [= _ <-]].
by apply respond_Err.
Qed.

(** A mutation whose handler makes one step of [R], a relation that lets
  idempotency rows change, makes steps of [R] only. *)
Lemma mutation_rtc {P} (R : DB → DB → Prop) cfg rq (i : input P) roles status build s res s' :
(∀ claims p, no_commit (build claims p)) →
(∀ claims p s1 j s2, i = Valid p → build claims p s1 = (Ok j, s2) → R (work s1) (work s2)) →
(∀ db m, R db (set_idem m db)) →
committed s = work s → mutation cfg rq i roles status build s = (res, s') →
rtc R (committed s) (committed s').
Proof.
intros Hnc Hb Hidem Hcs Hm. destruct res as [resp|e].
- apply mutation_Ok in Hm as [->|(claims & role & p & j & s1 & Hi & _ & _ & _ & Hr & Hc & Hw)];
    [done|]. rewrite Hc, Hcs. eapply Hb in Hr; [|done].
  eapply rtc_l; [done|]. destruct Hw as [->|[m ->]]; [done|]. by apply rtc_once.
- by apply mutation_Err in Hm as ->.
Qed.

Lemma constrained_Valid {P} ok (i : input P) p : constrained ok i = Valid p → ok p = true.
Proof. destruct i as [| |q]; simpl; [done..|]. destruct (ok q) eqn:E; naive_solver. Qed.

(** A query leaves alone what its handler leaves alone. *)
Lemma preserves_query {P X} (f : session DB W → X) cfg rq (i : input P) handler :
(∀ claims p, preserves f (handler claims p)) → preserves f (query cfg rq i handler).
Proof.
intros Hh. unfold query, refused, validated.
assert (preserves f (get_access_claims cfg rq)) by apply preserves_read_only, read_only_get_access_claims.
destruct i; preserves.
Qed.

(** A query changes nothing. *)
Lemma query_read_only {P} cfg rq (i : input P) handler :
(∀ claims p, read_only (handler claims p)) → read_only (query cfg rq i handler).
Proof.
intros Hh. unfold query, refused, validated.
pose proof (read_only_get_access_claims cfg rq). destruct i; read_only.
Qed.
End http.
