(* ===== verification/Pagination.v ===== *)
(** * Pagination: the limit/offset protocol of the list endpoints

    The list endpoints of booking and listing fetch one row more than asked
    for, return the first [limit] and, when there was one more, the offset to
    continue from.  [crawl] is the client that follows [next_offset]; it sees
    every row once, in order, and stops. *)
From S2P Require Import Prelude Python Effects.

(** [LIMIT limit OFFSET offset] over an ordered result. *)
Definition limit_offset {A} (limit offset : Z) (rows : list A) : list A :=
  take (Z.to_nat limit) (drop (Z.to_nat offset) rows).

(** The response for the rows [fetched] with [LIMIT limit + 1]. *)
Definition page_response {A} (to_dict : A → dict) (fetched : list A) (limit offset : Z) : dict :=
  let next_offset := if decide (limit < Z.of_nat (length fetched))%Z
    then PInt (offset + limit) else PNone in
  [("items", PList ((λ x, PDict (to_dict x)) <$> slice_to fetched limit));
   ("next_offset", next_offset)].

(** Follow [next_offset] from [offset]; [fetch] is one request. *)
Fixpoint crawl (fetch : Z → option dict) (fuel : nat) (offset : Z) : option (list pyval) :=
  match fuel with
  | O => None
  | S fuel =>
      d ← fetch offset;
      match dict_get d "items", dict_get d "next_offset" with
      | Some (PList items), Some PNone => Some items
      | Some (PList items), Some (PInt next) => rest ← crawl fetch fuel next; Some (items ++ rest)
      | _, _ => None
      end
  end.

Lemma crawl_complete {A} (to_dict : A → dict) (rows : list A) (limit : Z) fetch :
  (1 ≤ limit)%Z →
  (∀ offset, (0 ≤ offset ≤ Z.of_nat (length rows))%Z →
     fetch offset = Some (page_response to_dict (limit_offset (limit + 1) offset rows) limit offset)) →
  crawl fetch (S (length rows)) 0 = Some ((λ x, PDict (to_dict x)) <$> rows).
Proof.
  intros Hlimit Hfetch.
  assert (∀ fuel k, k ≤ length rows → length rows - k < fuel →
    crawl fetch fuel (Z.of_nat k) = Some ((λ x, PDict (to_dict x)) <$> drop k rows)) as H.
  2:{ specialize (H (S (length rows)) 0 ltac:(lia) ltac:(lia)). exact H. }
  induction fuel as [|fuel IH]; intros k Hk Hf; [lia|]. simpl. rewrite Hfetch by lia.
  unfold page_response, limit_offset, slice_to. simpl.
  rewrite length_take, length_drop, (decide_False (P := (limit < 0)%Z)) by lia.
  rewrite take_take, Nat2Z.id. case_decide as Hn; simpl.
  - rewrite Nat.min_l by lia.
    replace (Z.of_nat k + limit)%Z with (Z.of_nat (k + Z.to_nat limit)) by lia.
    rewrite IH by lia. simpl. f_equal. rewrite <- fmap_app. f_equal.
    rewrite <- (take_drop (Z.to_nat limit) (drop k rows)) at 2. by rewrite drop_drop.
  - f_equal. f_equal. apply take_ge. rewrite length_drop. lia.
Qed.
