(* ===== verification/Auth.v ===== *)
(** * Auth: services/auth (security, models, schemas, repository, service, routes)

    Registration, login and the refresh of token pairs.  argon2 is [Argon2];
    a hash is salted, so [argon2_hash] takes the salt it draws. *)
From S2P Require Import Prelude Python Columns Effects Idempotency JwtAuth Http.

(** ** security.py *)

(** [PasswordHasher]: [hash] with the salt it drew, [verify], which raises on
    a mismatch. *)
Class Argon2 := {
  argon2_hash : uuid → string → string;
  argon2_verify : string → string → result bool;
}.

Record auth_settings := mk_auth_settings {
  auth_jwt : jwt_settings;
  access_token_ttl_seconds : Z;
  refresh_token_ttl_seconds : Z;
}.

(** [verify_password]: over any state. *)
Definition verify_password {S} `{!Argon2} (password password_hash : string) : M S bool :=
  try_except (λ s, (argon2_verify password_hash password, s)) (λ e,
    match e with VerifyMismatchError => Some (mret false) | _ => None end).

(** The payload of a token; PyJWT turns the two datetimes into seconds. *)
Definition token_claims (user_id : uuid) (role token_type issuer : string) (now ttl_seconds : Z) : dict :=
  [("sub", PStr (str_uuid user_id)); ("role", PStr role); ("type", PStr token_type);
   ("iss", PStr issuer); ("iat", PInt now); ("exp", PInt (now + ttl_seconds))].

Section security.
Context {DB W : Type} `{!Argon2} `{!Platform}.
Notation Ma := (M (session DB W)).

Definition hash_password (password : string) : Ma string :=
salt ← uuid4; mret (argon2_hash salt password).

Definition create_token (user_id : uuid) (role token_type : string) (cfg : jwt_settings)
  (ttl_seconds : Z) : Ma string :=
t ← now;
mret (jwt_encode (token_claims user_id role token_type (jwt_issuer cfg) t ttl_seconds)
        (jwt_secret cfg)).
End security.

(** ** models.py and the migration *)
Record User := mk_user {
  us_id : uuid;
  us_email : string;
  us_name : string;
  us_password_hash : string;
  us_role : string;
  us_created_at : Z;
}.

Record AuthDB := mk_auth_db {
  users : gmap uuid User;
  a_idem : gmap (string * string) IdemRow;
}.

#[export, refine] Instance auth_idem : HasIdem AuthDB := {|
  get_idem := a_idem;
  set_idem m db := mk_auth_db (users db) m;
|}.
Proof. done. Defined.

(** The rows of the roles table. *)
Definition role_codes : list string := ["renter"; "host"; "admin"].

Definition user_types (u : User) : Prop :=
  varchar 320 (us_email u) ∧ varchar 120 (us_name u) ∧ varchar 16 (us_role u).
#[export] Instance user_types_dec u : Decision (user_types u).
Proof. unfold user_types. apply _. Defined.

(** ** schemas.py: EmailStr is validated and normalised by the
    email-validator package before the handler sees it. *)
Record RegisterRequest := mk_register {
  rr_email : string;
  rr_name : string;
  rr_password : string;
  rr_role : string;
}.

Definition register_ok (p : RegisterRequest) : bool :=
  bool_decide (1 ≤ String.length (rr_name p) ≤ 120) && bool_decide (8 ≤ String.length (rr_password p))
  && bool_decide (rr_role p ∈ ["renter"; "host"]).

Record LoginRequest := mk_login { lr_email : string; lr_password : string }.

Section repo.
Context {W : Type} `{!Argon2} `{!Platform}.
Notation Ma := (M (session AuthDB W)).

(** ** repository.py *)

(** The user with this email; the column is unique. *)
Definition find_email (email : string) (db : AuthDB) : option User :=
list_find (λ u, us_email u = email) ((map_to_list (users db)).*2) ≫= λ p, Some p.2.

Definition get_by_email (email : string) : Ma (option User) :=
db ← get_db; mret (find_email email db).

Definition get_by_id (user_id : uuid) : Ma (option User) :=
db ← get_db; mret (users db !! user_id).

(** The INSERT: primary key, unique email, foreign key of the role. *)
Definition insert_user (u : User) : Ma unit :=
db ← get_db;
if decide (¬ user_types u) then raise DataError
else if decide (is_Some (users db !! us_id u)) then raise IntegrityError
else if decide (is_Some (find_email (us_email u) db)) then raise IntegrityError
else if decide (us_role u ∉ role_codes) then raise IntegrityError
else put_db (mk_auth_db (<[us_id u := u]> (users db)) (a_idem db)).

Definition create_user (email name password_hash role : string) : Ma User :=
id ← uuid4;
t ← now;
let user := mk_user id email name password_hash role t in
try_except (insert_user user) (λ e,
  match e with IntegrityError => Some (raise (DuplicateEmailError email)) | _ => None end);;
mret user.

(** ** service.py *)
Definition register_user (p : RegisterRequest) : Ma User :=
existing ← get_by_email (rr_email p);
match existing with
| Some _ => raise (EmailAlreadyRegisteredError (rr_email p))
| None =>
    try_except
      (password_hash ← hash_password (rr_password p);
       create_user (rr_email p) (rr_name p) password_hash (rr_role p))
      (λ e, match e with
            | DuplicateEmailError _ => Some (raise (EmailAlreadyRegisteredError (rr_email p)))
            | _ => None
            end)
end.

Definition authenticate_user (email password : string) : Ma User :=
user ← get_by_email email;
match user with
| None => raise InvalidCredentialsError
| Some user =>
    ok ← verify_password password (us_password_hash user);
    if (ok : bool) then mret user else raise InvalidCredentialsError
end.

Definition issue_token_pair (user : User) (cfg : auth_settings) : Ma (string * string) :=
access ← create_token (us_id user) (us_role user) "access" (auth_jwt cfg)
           (access_token_ttl_seconds cfg);
refresh ← create_token (us_id user) (us_role user) "refresh" (auth_jwt cfg)
            (refresh_token_ttl_seconds cfg);
mret (access, refresh).

(** ** routes.py *)
Variable cfg : auth_settings.

Definition user_response (user : User) : dict :=
[("id", PStr (str_uuid (us_id user))); ("email", PStr (us_email user));
 ("name", PStr (us_name user)); ("role", PStr (us_role user))].

Definition token_response (tokens : string * string) : dict :=
[("access_token", PStr tokens.1); ("refresh_token", PStr tokens.2); ("token_type", PStr "bearer")].

Definition register_build (payload : RegisterRequest) : Ma string :=
user ← try_except (register_user payload) (λ e,
  match e with
  | EmailAlreadyRegisteredError _ =>
      Some (rollback;; raise (HTTPException 409 "email already registered"))
  | _ => None
  end);
mret (model_dump_json (user_response user)).

(** Auth resolves every caller to the consumer [""]. *)
Definition register (rq : request) (payload : input RegisterRequest) : Ma Response :=
refused payload (
  guard ← idempotency_guard (rq_idempotency_key rq) "" (rq_body rq);
  validated (constrained register_ok payload) (λ p,
    respond_idempotently guard 201 (register_build p))).

Definition login_handler (payload : LoginRequest) : Ma dict :=
user ← try_except (authenticate_user (lr_email payload) (lr_password payload)) (λ e,
  match e with
  | InvalidCredentialsError => Some (raise (HTTPException 401 "invalid email or password"))
  | _ => None
  end);
tokens ← issue_token_pair user cfg;
mret (token_response tokens).

Definition login (payload : input LoginRequest) : Ma Response :=
validated payload (λ p, d ← login_handler p; mret (mk_response 200 (model_dump_json d))).

(** [payload] is the refresh token. *)
Definition refresh_handler (payload : string) : Ma dict :=
t ← now;
claims ← try_except (decode_token (auth_jwt cfg) t payload) (λ e,
  match e with
  | InvalidTokenError => Some (raise (HTTPException 401 "invalid refresh token"))
  | _ => None
  end);
if negb (get_is claims "type" "refresh")
then raise (HTTPException 401 "not a refresh token")
else
  id ← claims_sub claims;
  user ← get_by_id id;
  match user with
  | None => raise (HTTPException 401 "user no longer exists")
  | Some user => tokens ← issue_token_pair user cfg; mret (token_response tokens)
  end.

Definition refresh (payload : input string) : Ma Response :=
validated payload (λ p, d ← refresh_handler p; mret (mk_response 200 (model_dump_json d))).

Definition me_handler (claims : dict) : Ma dict :=
id ← claims_sub claims;
user ← get_by_id id;
match user with
| None => raise (HTTPException 401 "user no longer exists")
| Some user => mret (user_response user)
end.

Definition me (rq : request) : Ma Response :=
query (auth_jwt cfg) rq (Valid tt) (λ claims _, me_handler claims).
End repo.

(** The router. *)
Inductive auth_request :=
| PostRegister (payload : input RegisterRequest)
| PostLogin (payload : input LoginRequest)
| PostRefresh (payload : input string)
| GetMe.

Definition handle {W} `{!Argon2} `{!Platform} (cfg : auth_settings) (rq : request)
    (r : auth_request) : M (session AuthDB W) Response :=
  match r with
  | PostRegister p => register rq p
  | PostLogin p => login cfg p
  | PostRefresh p => refresh cfg p
  | GetMe => me cfg rq
  end.
