(* ===== verification/AuthFacts.v ===== *)
(** * AuthFacts: what holds of the auth service

    [Argon2Laws] and [JwtLaws] state what the two libraries promise.  The
    users table keeps one row per email and never holds an administrator that
    came in over HTTP; a registered user can log in with the password they
    chose and with no other; the two kinds of token are never taken for one
    another. *)
From S2P Require Import Prelude Python Columns Effects Idempotency Json JsonFacts JwtAuth Http.
From S2P Require Import Auth.

(** A hash verifies the password it was made from, and no other. *)
Class Argon2Laws `{!Argon2} : Prop := {
  argon2_verify_hash salt p q :
    argon2_verify (argon2_hash salt p) q = if decide (p = q) then Ok true else Err VerifyMismatchError;
}.

(** A token decodes to its claims, which travel as JSON, from its issue to
    its expiry. *)
Class JwtLaws `{!Platform} : Prop := {
  jwt_decode_encode claims secret issuer t iat exp : json_ok (PDict claims) →
    dict_get claims "iss" = Some (PStr issuer) → dict_get claims "iat" = Some (PInt iat) →
    dict_get claims "exp" = Some (PInt exp) →
    jwt_decode (jwt_encode claims secret) secret issuer t =
      if decide (iat ≤ t < exp)%Z then Some claims else None;
}.

(** ** The users table *)
Section table.
Context `{!Argon2}.

Record awf (db : AuthDB) : Prop := mk_awf {
awf_id : ∀ i u, users db !! i = Some u → us_id u = i;
awf_email : ∀ i j u v, users db !! i = Some u → users db !! j = Some v →
  us_email u = us_email v → i = j;
awf_role : ∀ i u, users db !! i = Some u → us_role u ∈ ["renter"; "host"];
awf_hash : ∀ i u, users db !! i = Some u → ∃ salt p, us_password_hash u = argon2_hash salt p;
}.

Lemma find_email_Some db e u :
find_email e db = Some u → us_email u = e ∧ ∃ i, users db !! i = Some u.
Proof.
unfold find_email. intros ([k x] & Hf & [= <-])%bind_Some.
apply list_find_Some in Hf as (Hk & He & _). split; [done|].
apply list_elem_of_lookup_2, list_elem_of_fmap in Hk as ([i y] & -> & Hin).
exists i. by apply elem_of_map_to_list.
Qed.

Lemma find_email_None db e :
find_email e db = None ↔ ∀ i u, users db !! i = Some u → us_email u ≠ e.
Proof.
unfold find_email. split.
- intros Hf i u Hu He.
  destruct (list_find (λ u, us_email u = e) (map_to_list (users db)).*2) as [p|] eqn:E; [done|].
  apply list_find_None in E. rewrite Forall_forall in E. apply (E u); [|done].
  apply list_elem_of_fmap. exists (i, u). split; [done|]. by apply elem_of_map_to_list.
- intros Hne. destruct (list_find _ _) as [[k x]|] eqn:E; [|done].
  apply list_find_Some in E as (Hk & He & _).
  apply list_elem_of_lookup_2, list_elem_of_fmap in Hk as ([i y] & -> & Hin).
  apply elem_of_map_to_list in Hin. by destruct (Hne i y).
Qed.

Lemma find_email_unique db i u :
awf db → users db !! i = Some u → find_email (us_email u) db = Some u.
Proof.
intros Hwf Hu. destruct (find_email (us_email u) db) as [v|] eqn:E.
- apply find_email_Some in E as (He & j & Hv).
  pose proof (awf_email _ Hwf _ _ _ _ Hv Hu He) as <-. congruence.
- rewrite find_email_None in E. by destruct (E i u).
Qed.

(** The row a registration inserts: salt first, identifier second. *)
Definition registered (e : env) (p : RegisterRequest) : User :=
mk_user (fresh e 1) (rr_email p) (rr_name p) (argon2_hash (fresh e 0) (rr_password p)) (rr_role p)
  (clock e).

Definition add_user (u : User) (db : AuthDB) : AuthDB :=
mk_auth_db (<[us_id u := u]> (users db)) (a_idem db).

Lemma awf_add db u :
awf db → users db !! us_id u = None → find_email (us_email u) db = None →
us_role u ∈ ["renter"; "host"] → (∃ salt p, us_password_hash u = argon2_hash salt p) →
awf (add_user u db).
Proof.
intros [Hid Hem Hr Hh] Hn He Hrole Hhash. rewrite find_email_None in He.
split; unfold add_user; cbn [users].
- intros i v. rewrite lookup_insert_Some. intros [[<- <-]|[_ ?]]; [done|by apply Hid].
- intros i j v w. rewrite !lookup_insert_Some.
  intros [[<- <-]|[Hi Hv]] [[<- <-]|[Hj Hw]] E; [done| | |by eapply Hem].
  + by destruct (He j w).
  + by destruct (He i v).
- intros i v. rewrite lookup_insert_Some. intros [[<- <-]|[_ ?]]; [done|by apply (Hr i)].
- intros i v. rewrite lookup_insert_Some. intros [[<- <-]|[_ ?]]; [done|by apply (Hh i)].
Qed.
End table.

Section ops.
Context {W : Type} `{!Argon2} `{!Platform}.
Implicit Types s : session AuthDB W.

Lemma insert_user_Ok u s x s' :
insert_user u s = (Ok x, s') ↔
user_types u ∧ users (work s) !! us_id u = None ∧ find_email (us_email u) (work s) = None ∧
us_role u ∈ role_codes ∧ s' = with_work (add_user u (work s)) s.
Proof.
destruct x. unfold insert_user. run.
destruct (decide (¬ user_types u)) as [Ht|Ht]; [split; [done|]; by intros (? & _)|].
apply dec_stable in Ht.
case_decide as Hi; [split; [done|]; intros (_ & Hn & _); rewrite Hn in Hi; by destruct Hi|].
case_decide as He; [split; [done|]; intros (_ & _ & Hn & _); rewrite Hn in He; by destruct He|].
rewrite <- eq_None_not_Some in Hi. rewrite <- eq_None_not_Some in He.
destruct (decide (us_role u ∉ role_codes)) as [Hr|Hr]; [split; [done|]; by intros (_&_&_&?&_)|].
apply dec_stable in Hr. split; [by intros [= <-]|]. by intros (_&_&_&_&->).
Qed.

Lemma create_user_Ok email name h role s u s' :
create_user email name h role s = (Ok u, s') ↔
u = mk_user (fresh (senv s) 0) email name h role (clock (senv s)) ∧
user_types u ∧ users (work s) !! us_id u = None ∧ find_email email (work s) = None ∧
role ∈ role_codes ∧
s' = mk_session (committed s) (add_user u (work s)) (world s) (shift_env (senv s)).
Proof.
unfold create_user. do 2 (rewrite run_bind; simpl). rewrite bind_Ok.
setoid_rewrite try_except_Ok. setoid_rewrite insert_user_Ok. setoid_rewrite run_ret. split.
- intros ([] & s1 & [(?&?&?&?&->)|(e & ? & k & _ & Hk & Hr)] & [= <- <-]); [done|].
  by destruct e; simplify_eq.
- intros (-> & ? & ? & ? & ? & ->). eexists tt, _. split; [|done]. by left.
Qed.

Lemma register_user_Ok p s u s' :
register_user p s = (Ok u, s') ↔
u = registered (senv s) p ∧ user_types u ∧ users (work s) !! us_id u = None ∧
find_email (rr_email p) (work s) = None ∧ rr_role p ∈ role_codes ∧
s' = mk_session (committed s) (add_user u (work s)) (world s) (shift_env (shift_env (senv s))).
Proof.
unfold register_user, get_by_email. run.
destruct (find_email (rr_email p) (work s)) as [x|] eqn:E.
{ split; [done|]. by intros (_&_&_&?&_). }
rewrite try_except_Ok. unfold hash_password. rewrite run_bind, run_bind. simpl.
setoid_rewrite create_user_Ok. simpl. split.
- intros [(->&?&?&?&?&->)|(e & ? & k & _ & Hk & Hr)]; [done|]. by destruct e; simplify_eq.
- intros (->&?&?&?&?&->). by left.
Qed.

(** *** Histories *)
Inductive auth_step (db : AuthDB) : AuthDB → Prop :=
| astep_register p s s' u :
  register_ok p = true → work s = db → register_user p s = (Ok u, s') → auth_step db (work s')
| astep_other db' : users db' = users db → auth_step db db'.

Definition auth_reachable (db : AuthDB) : Prop := ∃ db0, users db0 = ∅ ∧ rtc auth_step db0 db.

Lemma register_ok_role p : register_ok p = true → rr_role p ∈ ["renter"; "host"].
Proof. unfold register_ok. intros [_ Hr]%andb_true_iff. by apply bool_decide_eq_true in Hr. Qed.

Lemma auth_step_awf db db' : auth_step db db' → awf db → awf db'.
Proof.
intros [p s s' u Hok <- Hr|db1 Hu] Hwf.
- apply register_user_Ok in Hr as (-> & _ & Hn & He & _ & ->). apply awf_add; try done.
  + by apply register_ok_role.
  + by eexists _, _.
- destruct Hwf. split; rewrite Hu; done.
Qed.

Lemma auth_reachable_awf db : auth_reachable db → awf db.
Proof.
intros (db0 & Hempty & Hs). assert (awf db0) as Hwf.
{ split; rewrite Hempty; intros *; by rewrite lookup_empty. }
clear Hempty. induction Hs; [done|]. eauto using auth_step_awf.
Qed.

(** Users stay as they registered. *)
Lemma auth_steps_keep db db' i u :
rtc auth_step db db' → users db !! i = Some u → users db' !! i = Some u.
Proof.
induction 1 as [|db1 db2 db3 H12 _ IH]; [done|]. intros Hu. apply IH.
destruct H12 as [p s s' v Hok <- Hr|db2 Hs]; [|by rewrite Hs].
apply register_user_Ok in Hr as (-> & _ & Hn & _ & _ & ->). simpl.
rewrite lookup_insert_ne; [done|]. intros E. simpl in Hn. congruence.
Qed.
End ops.

(** ** Logging in *)
Section tokens.
Context {W : Type} `{!Argon2} `{!Platform}.
Implicit Types s : session AuthDB W.
Variable cfg : auth_settings.

(** The pair of tokens issued to [u] at [t]. *)
Definition token_of (u : User) (token_type : string) (t ttl : Z) : string :=
jwt_encode (token_claims (us_id u) (us_role u) token_type (jwt_issuer (auth_jwt cfg)) t ttl)
  (jwt_secret (auth_jwt cfg)).

Definition pair_of (u : User) (t : Z) : string * string :=
(token_of u "access" t (access_token_ttl_seconds cfg),
 token_of u "refresh" t (refresh_token_ttl_seconds cfg)).

Lemma issue_token_pair_run u s : issue_token_pair u cfg s = (Ok (pair_of u (clock (senv s))), s).
Proof. done. Qed.

Lemma token_claims_json id role token_type issuer t ttl :
json_ok (PDict (token_claims id role token_type issuer t ttl)).
Proof. split; [by apply (bool_decide_unpack _) | by split_and!]. Qed.

Lemma decode_token_of `{!JwtLaws} u token_type t0 ttl t :
jwt_decode (token_of u token_type t0 ttl) (jwt_secret (auth_jwt cfg)) (jwt_issuer (auth_jwt cfg)) t =
if decide (t0 ≤ t < t0 + ttl)%Z
then Some (token_claims (us_id u) (us_role u) token_type (jwt_issuer (auth_jwt cfg)) t0 ttl)
else None.
Proof. unfold token_of. apply jwt_decode_encode; [apply token_claims_json|done..]. Qed.

Lemma claims_sub_token u role token_type issuer t ttl {S} (s : S) :
claims_sub (token_claims u role token_type issuer t ttl) s = (Ok u, s).
Proof.
change (to_uuid (PStr (str_uuid u)) s = (Ok u, s)). unfold to_uuid.
rewrite run_bind. cbn [as_str mret M_ret]. by rewrite UUID_str.
Qed.

Lemma verify_password_run `{!Argon2Laws} salt p q s :
verify_password q (argon2_hash salt p) s = (Ok (bool_decide (p = q)), s).
Proof. unfold verify_password, try_except. rewrite argon2_verify_hash. by case_decide; case_bool_decide. Qed.

Lemma authenticate_user_run `{!Argon2Laws} s u salt p q :
awf (work s) → users (work s) !! us_id u = Some u → us_password_hash u = argon2_hash salt p →
authenticate_user (us_email u) q s =
  if decide (p = q) then (Ok u, s) else (Err InvalidCredentialsError, s).
Proof.
intros Hwf Hu Hh. unfold authenticate_user, get_by_email.
assert ((db ← get_db; mret (find_email (us_email u) db)) s = (Ok (Some u), s)) as He.
{ rewrite run_bind. cbn [get_db gets]. by rewrite (find_email_unique _ _ _ Hwf Hu). }
rewrite run_bind, He, run_bind, Hh, verify_password_run.
case_bool_decide; [rewrite decide_True by done|rewrite decide_False by done]; done.
Qed.

Lemma login_run `{!Argon2Laws} s u salt p q :
awf (work s) → users (work s) !! us_id u = Some u → us_password_hash u = argon2_hash salt p →
login_handler cfg (mk_login (us_email u) q) s =
  if decide (p = q) then (Ok (token_response (pair_of u (clock (senv s)))), s)
  else (Err (HTTPException 401 "invalid email or password"), s).
Proof.
intros Hwf Hu Hh. unfold login_handler. cbn [lr_email lr_password].
rewrite run_bind. unfold try_except. rewrite (authenticate_user_run _ _ _ _ _ Hwf Hu Hh).
case_decide; done.
Qed.

Lemma get_by_id_run s i : get_by_id i s = (Ok (users (work s) !! i), s).
Proof. done. Qed.

Lemma decode_try `{!JwtLaws} h u token_type t0 ttl t s :
(t0 ≤ t < t0 + ttl)%Z →
try_except (decode_token (auth_jwt cfg) t (token_of u token_type t0 ttl)) h s =
  (Ok (token_claims (us_id u) (us_role u) token_type (jwt_issuer (auth_jwt cfg)) t0 ttl), s).
Proof. intros Ht. unfold try_except, decode_token. by rewrite decode_token_of, decide_True. Qed.

Lemma refresh_run `{!JwtLaws} s u t0 :
users (work s) !! us_id u = Some u →
(t0 ≤ clock (senv s) < t0 + refresh_token_ttl_seconds cfg)%Z →
refresh_handler cfg (token_of u "refresh" t0 (refresh_token_ttl_seconds cfg)) s =
  (Ok (token_response (pair_of u (clock (senv s)))), s).
Proof.
intros Hu Ht. unfold refresh_handler. rewrite run_bind. cbn [now gets].
rewrite run_bind, decode_try by done.
assert (∀ i r iss t ttl, get_is (token_claims i r "refresh" iss t ttl) "type" "refresh" = true) as ->
  by done.
cbn [negb]. rewrite run_bind, claims_sub_token, run_bind, get_by_id_run, Hu.
by rewrite run_bind, issue_token_pair_run.
Qed.

Lemma refresh_access_run `{!JwtLaws} s u t0 ttl :
(t0 ≤ clock (senv s) < t0 + ttl)%Z →
refresh_handler cfg (token_of u "access" t0 ttl) s =
  (Err (HTTPException 401 "not a refresh token"), s).
Proof.
intros Ht. unfold refresh_handler. rewrite run_bind. cbn [now gets].
rewrite run_bind, decode_try by done.
assert (∀ i r iss t ttl, get_is (token_claims i r "access" iss t ttl) "type" "refresh" = false) as ->
  by done.
done.
Qed.

(** The token of a well-formed header, at an endpoint that wants [ty]. *)
Lemma claims_dependency_run `{!JwtLaws} {S} (s : S) u token_type ty t0 ttl t :
(t0 ≤ t < t0 + ttl)%Z →
claims_dependency (auth_jwt cfg) ty t (Some ("Bearer " +:+ token_of u token_type t0 ttl)) s =
  if decide (token_type = ty)
  then (Ok (token_claims (us_id u) (us_role u) token_type (jwt_issuer (auth_jwt cfg)) t0 ttl), s)
  else (Err (HTTPException 401 ("expected a " +:+ ty +:+ " token")), s).
Proof.
intros Ht. unfold claims_dependency. rewrite run_bind, bearer_token_run, run_bind.
unfold try_except, decode_token. rewrite decode_token_of, decide_True by done.
cbn [mret M_ret].
assert (∀ i r iss t ttl, dict_get (token_claims i r token_type iss t ttl) "type" =
  Some (PStr token_type)) as -> by done.
by case_decide.
Qed.
End tokens.

(** ** The HTTP service *)
Section service.
Context {W : Type} `{!Argon2} `{!Platform}.
Implicit Types (s : session AuthDB W) (n : node AuthDB W).
Variable cfg : auth_settings.

Lemma no_commit_insert_user u : no_commit (W := W) (insert_user u).
Proof. unfold insert_user. no_commit. Qed.
#[local] Hint Resolve no_commit_insert_user : effects.

Lemma register_build_no_commit p : no_commit (W := W) (register_build p).
Proof.
unfold register_build, register_user, get_by_email, hash_password, create_user. no_commit.
Qed.

Lemma register_build_Ok p s j s' :
register_build p s = (Ok j, s') → ∃ u, register_user p s = (Ok u, s').
Proof.
unfold register_build. rewrite bind_Ok. intros (u & s1 & Hu & [= _ <-]). exists u.
apply try_except_Ok in Hu as [?|(e & ? & k & _ & Hk & Hr)]; [done|].
by destruct e; simplify_eq.
Qed.

Lemma register_steps rq i s r s' :
committed s = work s → register rq i s = (r, s') →
rtc (auth_step (W := W)) (committed s) (committed s') ∧
(∀ e, r = Err e → committed s' = committed s).
Proof.
intros Hs. unfold register, refused, validated.
assert (∀ (i' : input RegisterRequest), (guard ← idempotency_guard (rq_idempotency_key rq) "" (rq_body rq);
    match constrained register_ok i' with
    | Valid p => respond_idempotently guard 201 (register_build p)
    | _ => raise unprocessable end) s = (r, s') →
  rtc (auth_step (W := W)) (committed s) (committed s') ∧
  (∀ e, r = Err e → committed s' = committed s)) as Hi.
{ intros i'. rewrite run_bind.
  pose proof (read_only_guard (rq_idempotency_key rq) "" (rq_body rq) s) as Hg.
  destruct (idempotency_guard _ _ _ s) as [[g|x] s0]; simpl in Hg; subst s0; [|by intros [= _ <-]].
  destruct (constrained register_ok i') as [| |p] eqn:Ei; try by intros [= _ <-].
  apply constrained_Valid in Ei. intros Hr. destruct r as [resp|e].
  - split; [|done]. apply respond_Ok_work in Hr as [->|(j & s1 & Hb & Hc & _ & Hw)]; [done|].
    rewrite Hc, Hs. apply register_build_Ok in Hb as [u Hu].
    eapply rtc_l; [by eapply astep_register|]. destruct Hw as [->|[m ->]]; [done|].
    by apply rtc_once, astep_other.
  - apply respond_Err in Hr; [|apply register_build_no_commit]. by rewrite Hr. }
destruct i as [| |p]; [by intros [= _ <-]| |]; apply Hi.
Qed.

Lemma read_only_verify_password p h : read_only (S := session AuthDB W) (verify_password p h).
Proof.
intros s. unfold verify_password, try_except.
destruct (argon2_verify h p) as [b|e]; [done|by destruct e].
Qed.
#[local] Hint Resolve read_only_verify_password : read_only.

Lemma login_read_only i : read_only (S := session AuthDB W) (login cfg i).
Proof.
unfold login, validated, login_handler, authenticate_user, get_by_email, get_db,
  issue_token_pair, create_token, now.
destruct i; read_only.
Qed.

Lemma refresh_read_only i : read_only (S := session AuthDB W) (refresh cfg i).
Proof.
assert (∀ t p, read_only (S := session AuthDB W) (decode_token (auth_jwt cfg) t p)) as Hd.
{ intros t p s. unfold decode_token. by destruct (jwt_decode _ _ _ _). }
unfold refresh, validated, refresh_handler, get_by_id, get_db, issue_token_pair, create_token, now.
destruct i; read_only.
Qed.

Lemma me_read_only rq : read_only (S := session AuthDB W) (me cfg rq).
Proof. apply query_read_only. unfold me_handler, get_by_id, get_db. read_only. Qed.

Lemma auth_handle_steps rq r s res s' :
committed s = work s → handle cfg rq r s = (res, s') →
rtc (auth_step (W := W)) (committed s) (committed s') ∧
(∀ e, res = Err e → committed s' = committed s).
Proof.
intros Hs. destruct r as [i|i|i|]; simpl; [by apply register_steps| | |].
- intros Hr. pose proof (login_read_only i s) as Hro. rewrite Hr in Hro. by simpl in Hro; subst.
- intros Hr. pose proof (refresh_read_only i s) as Hro. rewrite Hr in Hro. by simpl in Hro; subst.
- intros Hr. pose proof (me_read_only rq s) as Hro. rewrite Hr in Hro. by simpl in Hro; subst.
Qed.

Inductive auth_service_step n : node AuthDB W → Prop :=
| asvc_request rq r resp n' : serve (handle cfg rq r) n = (resp, n') → auth_service_step n n'
| asvc_cleanup older_than res n' :
  run_session (purge_expired_idempotency_keys older_than) n = (res, n') → auth_service_step n n'
| asvc_environment w e : auth_service_step n (n.1.1, w, e).

Lemma auth_service_step_steps n n' :
auth_service_step n n' → rtc (auth_step (W := W)) n.1.1 n'.1.1.
Proof.
intros [rq r resp n1 Hr|older res n1 Hr|w e]; [| |done].
- destruct n as [[db w] e]. unfold serve, run_session in Hr.
  destruct (handle cfg rq r _) as [x s'] eqn:E. simplify_eq. simpl.
  by apply (auth_handle_steps rq r (mk_session db db w e) x s').
- destruct n as [[db w] e]. unfold run_session in Hr. simpl in Hr. simplify_eq. simpl.
  by apply rtc_once, astep_other.
Qed.

Lemma auth_node_steps n n' :
rtc auth_service_step n n' → rtc (auth_step (W := W)) n.1.1 n'.1.1.
Proof.
induction 1 as [|n1 n2 n3 H12 _ IH]; [done|]. etrans; [by eapply auth_service_step_steps | done].
Qed.
End service.

(** C34: however the auth service is used over HTTP, there is one account per
    email, no account is an administrator's, and what is stored of a
    password is an argon2 hash. *)
Theorem accounts_sound {W : Type} `{!Argon2} `{!Platform} (cfg : auth_settings) (n0 n : node AuthDB W) :
  users n0.1.1 = ∅ → rtc (auth_service_step cfg) n0 n → awf n.1.1.
Proof.
  intros Hempty Hs. apply (auth_reachable_awf (W := W)). exists n0.1.1.
  split; [done|]. by apply auth_node_steps in Hs.
Qed.

(** C33: whoever registered can log in from then on with their password, gets
    a pair of tokens of which the access token opens the endpoints for their
    identifier and role until it expires, and no other password works. *)
Theorem registered_user_logs_in {W : Type} `{!Argon2} `{!Platform} `{!Argon2Laws} `{!JwtLaws}
    (cfg : auth_settings) (p : RegisterRequest) (u : User) (s s1 s2 : session AuthDB W) :
  auth_reachable (W := W) (work s) → register_ok p = true → register_user p s = (Ok u, s1) →
  rtc (auth_step (W := W)) (work s1) (work s2) →
  (∃ access refresh,
    login_handler cfg (mk_login (rr_email p) (rr_password p)) s2 =
      (Ok (token_response (access, refresh)), s2) ∧
    ∀ t, (clock (senv s2) ≤ t < clock (senv s2) + access_token_ttl_seconds cfg)%Z →
      ∃ claims, claims_dependency (auth_jwt cfg) "access" t (Some ("Bearer " +:+ access)) s2 =
          (Ok claims, s2) ∧
        claims_sub claims s2 = (Ok (us_id u), s2) ∧ claims_role claims = PStr (rr_role p)) ∧
  ∀ q, q ≠ rr_password p →
    login_handler cfg (mk_login (rr_email p) q) s2 =
      (Err (HTTPException 401 "invalid email or password"), s2).
Proof.
  intros Hreach Hok Hr Hsteps.
  assert (auth_reachable (W := W) (work s2)) as Hwf%auth_reachable_awf.
  { destruct Hreach as (db0 & Hempty & Hs). exists db0. split; [done|].
    etrans; [exact Hs|]. eapply rtc_l; [by eapply astep_register | done]. }
  apply register_user_Ok in Hr as (-> & _ & _ & _ & _ & ->).
  set (u := registered (senv s) p) in *.
  assert (users (work s2) !! us_id u = Some u) as Hu.
  { eapply auth_steps_keep; [exact Hsteps|]. apply lookup_insert_eq. }
  assert (∀ q, login_handler cfg (mk_login (rr_email p) q) s2 =
    if decide (rr_password p = q) then (Ok (token_response (pair_of cfg u (clock (senv s2)))), s2)
    else (Err (HTTPException 401 "invalid email or password"), s2)) as Hlogin.
  { intros q. by apply (login_run cfg s2 u (fresh (senv s) 0)). }
  split.
  - eexists _, _. split; [by rewrite Hlogin, decide_True|]. intros t Ht.
    eexists. split; [rewrite claims_dependency_run by done; by rewrite decide_True|].
    split; [apply claims_sub_token | done].
  - intros q Hq. rewrite Hlogin. by rewrite decide_False.
Qed.

(** A refresh token within its lifetime buys a new pair for the same
    account and nothing else: the endpoints refuse it, and the refresh
    endpoint refuses access tokens. *)
Theorem token_kinds_separate {W : Type} `{!Platform} `{!JwtLaws} (cfg : auth_settings)
    (u : User) (t0 : Z) (s : session AuthDB W) :
  users (work s) !! us_id u = Some u →
  let '(access, refresh) := pair_of cfg u t0 in
  let t := clock (senv s) in
  ((t0 ≤ t < t0 + refresh_token_ttl_seconds cfg)%Z →
    refresh_handler cfg refresh s = (Ok (token_response (pair_of cfg u t)), s) ∧
    claims_dependency (auth_jwt cfg) "access" t (Some ("Bearer " +:+ refresh)) s =
      (Err (HTTPException 401 "expected a access token"), s)) ∧
  ((t0 ≤ t < t0 + access_token_ttl_seconds cfg)%Z →
    refresh_handler cfg access s = (Err (HTTPException 401 "not a refresh token"), s)).
Proof.
  intros Hu. cbn [pair_of]. split; intros Ht.
  - split; [by apply refresh_run|]. by rewrite claims_dependency_run by done.
  - by apply refresh_access_run.
Qed.
