(* ===== verification/BookingDomain.v ===== *)
(** * BookingDomain: services/booking/domain.py

    The pure state machine of a booking.  Each function checks the status of
    the [BookingState] it is given and returns the [Transition] to apply: the
    events to append, in order, and the status they settle on.  The file
    ends with the machine's specification ([allowed], [settles]) and the
    arithmetic of the overage charge. *)
From S2P Require Import Prelude Python.

#[export] Instance result_ret : MRet result := @Ok.
#[export] Instance result_bind : MBind result := λ A B k r,
  match r with Ok a => k a | Err e => Err e end.

Definition OVERAGE_RATE_CENTS_PER_MILE : Z := 50.

Record BookingState := mk_state {
  st_id : uuid;
  st_vehicle_id : uuid;
  st_host_id : uuid;
  st_renter_id : uuid;
  st_start_date : date;
  st_end_date : date;
  st_daily_price_cents : Z;
  st_daily_mileage_limit : Z;
  st_booking_mode : string;
  st_status : string;
  st_version : Z;
  st_start_odometer : option Z;
  st_end_odometer : option Z;
  st_start_fuel_percent : option Z;
  st_end_fuel_percent : option Z;
  st_start_photo_url : option string;
  st_end_photo_url : option string;
  st_overage_cents : Z;
}.

Record Transition := mk_transition {
  tr_events : list (string * dict);
  tr_next_status : string;
}.

Definition rental_days (state : BookingState) : Z :=
  Z.max (st_end_date state - st_start_date state) 1.

Definition _require_status (state : BookingState) (expected : string) : result unit :=
  if decide (st_status state ≠ expected) then
    Err (InvalidBookingTransitionError
      ("cannot do this from status '" +:+ st_status state +:+ "' (expected '" +:+ expected +:+ "')"))
  else Ok tt.

Definition accept_request (state : BookingState) : result Transition :=
  if decide (st_booking_mode state ≠ "request") then
    Err (InvalidBookingTransitionError "booking is not in request-to-book mode")
  else
    _ ← _require_status state "requested";
    Ok (mk_transition [("booking_request_accepted", [])] "requested").

Definition reject_request (state : BookingState) : result Transition :=
  _ ← _require_status state "requested";
  Ok (mk_transition [("booking_rejected", [])] "rejected").

Definition confirm_after_payment_authorized (state : BookingState) : result Transition :=
  _ ← _require_status state "requested";
  Ok (mk_transition [("payment_authorized", []); ("booking_confirmed", [])] "confirmed").

Definition cancel_after_payment_authorization_failed (state : BookingState) : result Transition :=
  _ ← _require_status state "requested";
  Ok (mk_transition [("payment_authorization_failed", []); ("booking_cancelled", [])] "cancelled").

Definition record_handover (state : BookingState) (odometer fuel_percent : Z) (photo_url : string) :
    result Transition :=
  _ ← _require_status state "confirmed";
  Ok (mk_transition
    [("booking_handover_recorded",
      [("odometer", PInt odometer); ("fuel_percent", PInt fuel_percent);
       ("photo_url", PStr photo_url)])]
    "active").

Definition compute_overage_cents (start_odometer end_odometer daily_mileage_limit days : Z) : Z :=
  let miles_driven := (end_odometer - start_odometer)%Z in
  let miles_allowed := (daily_mileage_limit * days)%Z in
  if decide (miles_driven ≤ miles_allowed)%Z then 0%Z
  else ((miles_driven - miles_allowed) * OVERAGE_RATE_CENTS_PER_MILE)%Z.

(** The subtraction raises TypeError on a booking with no start odometer. *)
Definition record_return (state : BookingState) (odometer fuel_percent : Z) (photo_url : string) :
    result (Transition * Z) :=
  _ ← _require_status state "active";
  match st_start_odometer state with
  | None => Err TypeError
  | Some start_odometer =>
      let overage_cents := compute_overage_cents start_odometer odometer
        (st_daily_mileage_limit state) (rental_days state) in
      Ok (mk_transition
        [("booking_return_recorded",
          [("odometer", PInt odometer); ("fuel_percent", PInt fuel_percent);
           ("photo_url", PStr photo_url); ("overage_cents", PInt overage_cents)])]
        "active", overage_cents)
  end.

Definition complete_after_payment_captured (state : BookingState) : result Transition :=
  _ ← _require_status state "active";
  Ok (mk_transition [("payment_captured", []); ("booking_completed", [])] "completed").

Definition note_payment_capture_failed (state : BookingState) : result Transition :=
  _ ← _require_status state "active";
  Ok (mk_transition [("payment_capture_failed", [])] "active").

(** ** The machine *)

(** The statuses of the CHECK constraint of the bookings table. *)
Definition booking_statuses : list string :=
  ["requested"; "confirmed"; "active"; "completed"; "cancelled"; "rejected"].

(** No operation applies to a booking in one of these. *)
Definition terminal (status : string) : Prop := status ∈ ["cancelled"; "rejected"; "completed"].

#[export] Instance terminal_dec status : Decision (terminal status).
Proof. unfold terminal. apply _. Defined.

(** One move of the machine, as the diagram of the service has it. *)
Inductive allowed : string → string → Prop :=
| allow_stay_requested : allowed "requested" "requested"   (* host accepts, payment pending *)
| allow_reject : allowed "requested" "rejected"
| allow_confirm : allowed "requested" "confirmed"
| allow_cancel : allowed "requested" "cancelled"
| allow_handover : allowed "confirmed" "active"
| allow_stay_active : allowed "active" "active"            (* return recorded, capture pending *)
| allow_complete : allowed "active" "completed".

#[export] Hint Constructors allowed : core.

Lemma require_status_Ok st s u : _require_status st s = Ok u ↔ st_status st = s.
Proof. destruct u. unfold _require_status. case_decide; naive_solver. Qed.

Lemma require_status_same st : _require_status st (st_status st) = Ok tt.
Proof. by apply require_status_Ok. Qed.

Lemma result_bind_Ok {A B} (r : result A) (k : A → result B) b :
  r ≫= k = Ok b ↔ ∃ a, r = Ok a ∧ k a = Ok b.
Proof. destruct r; unfold mbind, result_bind; naive_solver. Qed.

(** Inversion of a domain function that returned. *)
Ltac domain_inv H :=
  repeat match type of H with
  | context [decide ?P] => destruct (decide P); try discriminate H
  | (_ ≫= _) = Ok _ => apply result_bind_Ok in H as (? & ?%require_status_Ok & H)
  | match ?x with _ => _ end = Ok _ => destruct x eqn:?; try discriminate H
  end; injection H as <-.

Lemma terminal_no_move s s' : terminal s → ¬ allowed s s'.
Proof. unfold terminal. rewrite !elem_of_cons, elem_of_nil. intros Ht Ha. inversion Ha; naive_solver. Qed.

(** ** The operations, as one type *)

Inductive domain_op :=
| AcceptRequest
| RejectRequest
| PaymentAuthorized
| PaymentAuthorizationFailed
| Handover (odometer fuel_percent : Z) (photo_url : string)
| Return (odometer fuel_percent : Z) (photo_url : string)
| PaymentCaptured
| PaymentCaptureFailed.

Definition domain_apply (op : domain_op) (state : BookingState) : result Transition :=
  match op with
  | AcceptRequest => accept_request state
  | RejectRequest => reject_request state
  | PaymentAuthorized => confirm_after_payment_authorized state
  | PaymentAuthorizationFailed => cancel_after_payment_authorization_failed state
  | Handover o f p => record_handover state o f p
  | Return o f p => '(t, _) ← record_return state o f p; Ok t
  | PaymentCaptured => complete_after_payment_captured state
  | PaymentCaptureFailed => note_payment_capture_failed state
  end.

(** The status an operation needs. *)
Definition expects (op : domain_op) : string :=
  match op with
  | AcceptRequest | RejectRequest | PaymentAuthorized | PaymentAuthorizationFailed => "requested"
  | Handover _ _ _ => "confirmed"
  | Return _ _ _ | PaymentCaptured | PaymentCaptureFailed => "active"
  end.

(** The status it settles on. *)
Definition settles (op : domain_op) : string :=
  match op with
  | AcceptRequest => "requested"
  | RejectRequest => "rejected"
  | PaymentAuthorized => "confirmed"
  | PaymentAuthorizationFailed => "cancelled"
  | Handover _ _ _ | Return _ _ _ | PaymentCaptureFailed => "active"
  | PaymentCaptured => "completed"
  end.

(** What it needs besides the status: request-to-book mode to be accepted,
    a start odometer to be returned. *)
Definition needs (op : domain_op) (state : BookingState) : Prop :=
  match op with
  | AcceptRequest => st_booking_mode state = "request"
  | Return _ _ _ => is_Some (st_start_odometer state)
  | _ => True
  end.

Lemma domain_apply_Ok op state t :
  domain_apply op state = Ok t →
  st_status state = expects op ∧ tr_next_status t = settles op ∧ needs op state ∧ tr_events t ≠ [].
Proof.
  destruct op; simpl; unfold accept_request, reject_request, confirm_after_payment_authorized,
    cancel_after_payment_authorization_failed, record_handover, complete_after_payment_captured,
    note_payment_capture_failed; intros H; try (domain_inv H; naive_solver).
  - case_decide as Hm; [done|]. domain_inv H. simpl. naive_solver.
  - apply result_bind_Ok in H as ([t' z] & Hr & [= <-]). unfold record_return in Hr.
    apply result_bind_Ok in Hr as (? & Hs%require_status_Ok & Hr).
    destruct (st_start_odometer state) eqn:E; [|done]. injection Hr as <- <-. simpl.
    naive_solver.
Qed.

Lemma domain_apply_enabled op state :
  st_status state = expects op → needs op state → is_Ok (domain_apply op state) = true.
Proof.
  intros Hs Hn. destruct op; simpl in *; unfold accept_request, reject_request,
    confirm_after_payment_authorized, cancel_after_payment_authorization_failed, record_handover,
    record_return, complete_after_payment_captured, note_payment_capture_failed;
    try rewrite decide_False by (intros ?; done); rewrite <- Hs, require_status_same; try done.
  by destruct Hn as [z ->].
Qed.

Lemma expects_settles op : allowed (expects op) (settles op).
Proof. destruct op; simpl; auto. Qed.

(** ** Overage *)
Lemma compute_overage_spec s e l d :
  compute_overage_cents s e l d = (OVERAGE_RATE_CENTS_PER_MILE * Z.max 0 (e - s - l * d))%Z.
Proof. unfold compute_overage_cents. case_decide; lia. Qed.


(** C19: the overage charge: nothing within the allowance, the fixed rate per
    mile beyond it, never negative, monotone in the return odometer. *)
Theorem overage_charge (start_odometer end_odometer limit : Z) (state : BookingState) :
  let days := rental_days state in
  let fee e := compute_overage_cents start_odometer e limit days in
  (1 ≤ days)%Z ∧ (0 ≤ fee end_odometer)%Z ∧
  (fee end_odometer = 0 ↔ end_odometer - start_odometer ≤ limit * days)%Z ∧
  (∀ m, fee (start_odometer + limit * days + Z.of_nat m) =
        OVERAGE_RATE_CENTS_PER_MILE * Z.of_nat m)%Z ∧
  (∀ e', end_odometer ≤ e' → fee end_odometer ≤ fee e')%Z.
Proof.
  simpl. setoid_rewrite compute_overage_spec.
  unfold rental_days, OVERAGE_RATE_CENTS_PER_MILE. repeat split; intros; lia.
Qed.
