(* ===== verification/BookingRepo.v ===== *)
(** * BookingRepo: services/booking/models.py, repository.py and the tables
    of migrations/versions/0001_initial.py

    [BookingDB] is the booking service's Postgres database.  A [Booking]
    value is the ORM object a handler holds; [flush_booking] is the UPDATE or
    INSERT a [session.flush()] sends for it, refused by the column types
    ([DataError]) or by the constraints of the table ([IntegrityError]): the
    status CHECK and the exclusion of overlapping date ranges.  Surrogate
    keys drawn from [uuid4] for append-only rows are not checked for
    collisions; [updated_at] is never read and left out. *)
From S2P Require Import Prelude Python Effects Outbox Inbox Idempotency Columns.
From S2P Require Import BookingDomain.

Record Booking := mk_booking {
  bk_id : uuid;
  bk_vehicle_id : uuid;
  bk_host_id : uuid;
  bk_renter_id : uuid;
  bk_start_date : date;
  bk_end_date : date;
  bk_daily_price_cents : Z;
  bk_daily_mileage_limit : Z;
  bk_booking_mode : string;
  bk_status : string;
  bk_version : Z;
  bk_start_odometer : option Z;
  bk_end_odometer : option Z;
  bk_start_fuel_percent : option Z;
  bk_end_fuel_percent : option Z;
  bk_start_photo_url : option string;
  bk_end_photo_url : option string;
  bk_overage_cents : Z;
  bk_created_at : Z;
}.

Record BookingEvent := mk_event {
  ev_id : uuid;
  ev_booking_id : uuid;
  ev_version : Z;
  ev_type : string;
  ev_payload : dict;
}.

Record BookingDB := mk_booking_db {
  bookings : gmap uuid Booking;
  booking_events : list BookingEvent;
  b_outbox : list OutboxRow;
  b_inbox : gset string;
  b_idem : gmap (string * string) IdemRow;
}.

Definition set_bookings (m : gmap uuid Booking) (db : BookingDB) : BookingDB :=
  mk_booking_db m (booking_events db) (b_outbox db) (b_inbox db) (b_idem db).
Definition set_events (evs : list BookingEvent) (db : BookingDB) : BookingDB :=
  mk_booking_db (bookings db) evs (b_outbox db) (b_inbox db) (b_idem db).

#[export, refine] Instance booking_outbox : HasOutbox BookingDB := {|
  get_outbox := b_outbox;
  set_outbox rows db := mk_booking_db (bookings db) (booking_events db) rows (b_inbox db) (b_idem db);
|}.
Proof. done. Defined.
#[export, refine] Instance booking_inbox : HasInbox BookingDB := {|
  get_inbox := b_inbox;
  set_inbox ids db := mk_booking_db (bookings db) (booking_events db) (b_outbox db) ids (b_idem db);
|}.
Proof. done. Defined.
#[export, refine] Instance booking_idem : HasIdem BookingDB := {|
  get_idem := b_idem;
  set_idem m db := mk_booking_db (bookings db) (booking_events db) (b_outbox db) (b_inbox db) m;
|}.
Proof. done. Defined.

(** ** Attribute assignments on a Booking object *)
Definition set_progress (version : Z) (status : string) (b : Booking) : Booking :=
  mk_booking (bk_id b) (bk_vehicle_id b) (bk_host_id b) (bk_renter_id b) (bk_start_date b)
    (bk_end_date b) (bk_daily_price_cents b) (bk_daily_mileage_limit b) (bk_booking_mode b)
    status version (bk_start_odometer b) (bk_end_odometer b) (bk_start_fuel_percent b)
    (bk_end_fuel_percent b) (bk_start_photo_url b) (bk_end_photo_url b) (bk_overage_cents b)
    (bk_created_at b).

Definition set_start (odometer fuel : Z) (photo : string) (b : Booking) : Booking :=
  mk_booking (bk_id b) (bk_vehicle_id b) (bk_host_id b) (bk_renter_id b) (bk_start_date b)
    (bk_end_date b) (bk_daily_price_cents b) (bk_daily_mileage_limit b) (bk_booking_mode b)
    (bk_status b) (bk_version b) (Some odometer) (bk_end_odometer b) (Some fuel)
    (bk_end_fuel_percent b) (Some photo) (bk_end_photo_url b) (bk_overage_cents b)
    (bk_created_at b).

Definition set_end (odometer fuel : Z) (photo : string) (overage : Z) (b : Booking) : Booking :=
  mk_booking (bk_id b) (bk_vehicle_id b) (bk_host_id b) (bk_renter_id b) (bk_start_date b)
    (bk_end_date b) (bk_daily_price_cents b) (bk_daily_mileage_limit b) (bk_booking_mode b)
    (bk_status b) (bk_version b) (bk_start_odometer b) (Some odometer) (bk_start_fuel_percent b)
    (Some fuel) (bk_start_photo_url b) (Some photo) overage (bk_created_at b).

Definition _to_state (row : Booking) : BookingState :=
  mk_state (bk_id row) (bk_vehicle_id row) (bk_host_id row) (bk_renter_id row)
    (bk_start_date row) (bk_end_date row) (bk_daily_price_cents row)
    (bk_daily_mileage_limit row) (bk_booking_mode row) (bk_status row) (bk_version row)
    (bk_start_odometer row) (bk_end_odometer row) (bk_start_fuel_percent row)
    (bk_end_fuel_percent row) (bk_start_photo_url row) (bk_end_photo_url row)
    (bk_overage_cents row).

(** ** The tables' constraints *)

(** The values fit their columns, and the range constructor accepts the dates. *)
Definition row_types (b : Booking) : Prop :=
  int4 (bk_daily_price_cents b) ∧ int4 (bk_daily_mileage_limit b) ∧ int4 (bk_version b) ∧
  opt_all int4 (bk_start_odometer b) ∧ opt_all int4 (bk_end_odometer b) ∧
  opt_all int4 (bk_start_fuel_percent b) ∧ opt_all int4 (bk_end_fuel_percent b) ∧
  opt_all (varchar 512) (bk_start_photo_url b) ∧ opt_all (varchar 512) (bk_end_photo_url b) ∧
  int4 (bk_overage_cents b) ∧ varchar 16 (bk_booking_mode b) ∧ varchar 16 (bk_status b) ∧
  (bk_start_date b ≤ bk_end_date b)%Z.

#[export] Instance row_types_dec b : Decision (row_types b).
Proof. unfold row_types. apply _. Defined.

(** [WHERE status NOT IN ('cancelled', 'rejected')] of the exclusion. *)
Definition holds_dates (b : Booking) : Prop := bk_status b ∉ ["cancelled"; "rejected"].
#[export] Instance holds_dates_dec b : Decision (holds_dates b).
Proof. unfold holds_dates. apply _. Defined.

(** [vehicle_id WITH =, daterange(start_date, end_date, '[]') WITH &&]. *)
Definition clash (b b' : Booking) : Prop :=
  bk_vehicle_id b = bk_vehicle_id b' ∧
  (bk_start_date b ≤ bk_end_date b')%Z ∧ (bk_start_date b' ≤ bk_end_date b)%Z ∧
  holds_dates b ∧ holds_dates b'.
#[export] Instance clash_dec b b' : Decision (clash b b').
Proof. unfold clash. apply _. Defined.

Definition no_clash (b : Booking) (m : gmap uuid Booking) : Prop :=
  map_Forall (λ i b', i = bk_id b ∨ ¬ clash b b') m.
#[export] Instance no_clash_dec b m : Decision (no_clash b m).
Proof. unfold no_clash. apply _. Defined.

(** ** BookingRepository *)
Section repo.
Context {W : Type}.
Notation Mb := (M (session BookingDB W)).

(** [session.flush()] for the booking object [b]. *)
Definition flush_booking (b : Booking) : Mb unit :=
db ← get_db;
if decide (¬ row_types b) then raise DataError
else if decide (bk_status b ∉ booking_statuses) then raise IntegrityError
else if decide (¬ no_clash b (bookings db)) then raise IntegrityError
else put_db (set_bookings (<[bk_id b := b]> (bookings db)) db).

Definition get_by_id (booking_id : uuid) : Mb (option Booking) :=
db ← get_db; mret (bookings db !! booking_id).

Definition create_requested (vehicle_id host_id renter_id : uuid) (start_date end_date : date)
  (daily_price_cents daily_mileage_limit : Z) (booking_mode : string) : Mb Booking :=
id ← uuid4;
t ← now;
let booking := mk_booking id vehicle_id host_id renter_id start_date end_date
  daily_price_cents daily_mileage_limit booking_mode "requested" 1
  None None None None None None 0 t in
try_except
  (db ← get_db;
   if decide (is_Some (bookings db !! id)) then raise IntegrityError
   else flush_booking booking)
  (λ e, match e with
        | IntegrityError => Some (raise (OverlappingBookingError vehicle_id))
        | _ => None
        end);;
mret booking.

(** [INSERT INTO booking_events], with UNIQUE (booking_id, version). *)
Definition insert_event (booking_id : uuid) (version : Z) (event_type : string) (payload : dict) :
  Mb unit :=
id ← uuid4;
db ← get_db;
if decide (¬ (int4 version ∧ varchar 64 event_type)) then raise DataError
else if decide (Exists (λ ev, ev_booking_id ev = booking_id ∧ ev_version ev = version)
                  (booking_events db)) then raise IntegrityError
else put_db (set_events (booking_events db ++ [mk_event id booking_id version event_type payload]) db).

(** The loop of [append_events], from [offset] on. *)
Fixpoint append_loop (booking : Booking) (offset : Z) (events : list (string * dict)) : Mb unit :=
match events with
| [] => mret tt
| (event_type, payload) :: events =>
    try_except
      (insert_event (bk_id booking) (bk_version booking + offset) event_type payload;;
       flush_booking booking)
      (λ e, match e with
            | IntegrityError => Some (raise (ConcurrentBookingUpdateError (bk_id booking)))
            | _ => None
            end);;
    append_loop booking (offset + 1) events
end.

(** Returns the object with its new version and status. *)
Definition append_events (booking : Booking) (events : list (string * dict))
  (next_status : string) : Mb Booking :=
append_loop booking 1 events;;
mret (set_progress (bk_version booking + Z.of_nat (length events)) next_status booking).

Definition save (booking : Booking) : Mb unit := flush_booking booking.

(** [ORDER BY created_at, id LIMIT limit OFFSET offset]. *)
Definition list_order (a b : Booking) : Prop :=
(bk_created_at a < bk_created_at b)%Z ∨
bk_created_at a = bk_created_at b ∧ (uuid_int (bk_id a) ≤ uuid_int (bk_id b))%N.
#[local] Instance list_order_dec a b : Decision (list_order a b).
Proof. unfold list_order. apply _. Defined.

Definition list_all (limit offset : Z) : Mb (list Booking) :=
db ← get_db;
if decide (¬ (bigint_nat limit ∧ bigint_nat offset)) then raise DataError
else mret (take (Z.to_nat limit) (drop (Z.to_nat offset)
  (merge_sort list_order ((map_to_list (bookings db)).*2)))).

Lemma no_commit_flush_booking b : no_commit (flush_booking b).
Proof. unfold flush_booking. no_commit. Qed.
Lemma no_commit_get_by_id i : no_commit (get_by_id i).
Proof. unfold get_by_id. no_commit. Qed.
#[local] Hint Resolve no_commit_flush_booking : effects.
Lemma no_commit_create_requested v h r s e p l m : no_commit (create_requested v h r s e p l m).
Proof. unfold create_requested. no_commit. Qed.
Lemma no_commit_insert_event i v t p : no_commit (insert_event i v t p).
Proof. unfold insert_event. no_commit. Qed.
#[local] Hint Resolve no_commit_insert_event : effects.
Lemma no_commit_append_loop b o evs : no_commit (append_loop b o evs).
Proof. revert o. induction evs as [|[t p] evs IH]; intros o; simpl; no_commit. Qed.
#[local] Hint Resolve no_commit_append_loop : effects.
Lemma no_commit_append_events b evs s : no_commit (append_events b evs s).
Proof. unfold append_events. no_commit. Qed.
End repo.

#[export] Hint Resolve no_commit_flush_booking no_commit_get_by_id no_commit_create_requested
  no_commit_append_events : effects.
