(* ===== verification/BookingService.v ===== *)
(** * BookingService: services/booking/service.py, listing_client.py, consumers.py

    The commands of the booking saga.  Every one of them loads the booking,
    checks who is asking, asks the domain for a transition, appends its
    events, writes the outbox message and flushes.  [with_booking] is the
    loading prologue they share; the [_body] definitions are the rest of each
    command, on the object that was loaded. *)
From S2P Require Import Prelude Python Columns Effects Outbox Inbox BookingDomain BookingRepo.

(** ** listing_client.py: the vehicle, read over HTTP *)
Record VehicleInfo := mk_vehicle_info {
  vi_id : uuid;
  vi_host_id : uuid;
  vi_daily_price_cents : Z;
  vi_daily_mileage_limit : Z;
  vi_booking_mode : string;
  vi_approval_status : string;
}.

(** The listing service as httpx shows it: status code and JSON body of
    [GET {base_url}/listing/vehicles/{id}] with a bearer token, or the
    exception of a call that did not come back. *)
Definition listing_http : Type := uuid → string → result (Z * dict).

Section service.
Context {W : Type}.
Notation Mb := (M (session BookingDB W)).

Definition lift {A} (r : result A) : Mb A :=
match r with Ok a => mret a | Err e => raise e end.

Definition get_vehicle (listing : listing_http) (vehicle_id : uuid) (bearer_token : string) :
  Mb VehicleInfo :=
response ← lift (listing vehicle_id bearer_token);
let '(status, body) := response in
if decide (status ∈ [404; 403]%Z) then raise (VehicleNotFoundError vehicle_id)
else if decide (¬ (200 ≤ status < 300)%Z) then raise (HTTPStatusError status)
else
  i ← getitem body "id"; id ← to_uuid i;
  h ← getitem body "host_id"; host_id ← to_uuid h;
  p ← getitem body "daily_price_cents"; price ← as_int p;
  l ← getitem body "daily_mileage_limit"; limit ← as_int l;
  m ← getitem body "booking_mode"; mode ← as_str m;
  a ← getitem body "approval_status"; approval ← as_str a;
  mret (mk_vehicle_info id host_id price limit mode approval).

(** ** service.py *)
Definition _apply_transition (booking : Booking) (transition : Transition) : Mb Booking :=
match tr_events transition with
| [] => raise IndexError
| (event_type, payload) :: _ =>
    booking ← (if decide (event_type = "booking_handover_recorded") then
        o ← getitem payload "odometer"; odometer ← as_int o;
        f ← getitem payload "fuel_percent"; fuel ← as_int f;
        p ← getitem payload "photo_url"; photo ← as_str p;
        mret (set_start odometer fuel photo booking)
      else mret booking);
    if decide (event_type = "booking_return_recorded") then
      o ← getitem payload "odometer"; odometer ← as_int o;
      f ← getitem payload "fuel_percent"; fuel ← as_int f;
      p ← getitem payload "photo_url"; photo ← as_str p;
      c ← getitem payload "overage_cents"; overage ← as_int c;
      mret (set_end odometer fuel photo overage booking)
    else mret booking
end.

Definition domain_event_data (booking : Booking) : dict :=
[("booking_id", PStr (str_uuid (bk_id booking)));
 ("renter_id", PStr (str_uuid (bk_renter_id booking)));
 ("host_id", PStr (str_uuid (bk_host_id booking)));
 ("status", PStr (bk_status booking))].

Definition _emit_domain_event (booking : Booking) (event_type : string) : Mb unit :=
write_outbox_event "booking" (str_uuid (bk_id booking)) event_type (domain_event_data booking);;
mret tt.

(** [max((booking.end_date - booking.start_date).days, 1)]. *)
Definition booking_days (booking : Booking) : Z :=
Z.max (bk_end_date booking - bk_start_date booking) 1.

Definition authorize_data (booking : Booking) : dict :=
[("booking_id", PStr (str_uuid (bk_id booking)));
 ("renter_id", PStr (str_uuid (bk_renter_id booking)));
 ("amount_cents", PInt (bk_daily_price_cents booking * booking_days booking))].

Definition _emit_authorize_payment_requested (booking : Booking) : Mb unit :=
write_outbox_event "booking" (str_uuid (bk_id booking)) "authorize_payment_requested"
  (authorize_data booking);;
mret tt.

Definition request_booking (listing : listing_http) (renter_id vehicle_id : uuid)
  (start_date end_date : date) (bearer_token : string) : Mb Booking :=
vehicle ← try_except (get_vehicle listing vehicle_id bearer_token) (λ e,
  match e with
  | VehicleNotFoundError _ => Some (raise (VehicleNotBookableError vehicle_id))
  | _ => None
  end);
if decide (vi_approval_status vehicle ≠ "approved")
then raise (VehicleNotBookableError vehicle_id)
else
  booking ← create_requested vehicle_id (vi_host_id vehicle) renter_id start_date end_date
    (vi_daily_price_cents vehicle) (vi_daily_mileage_limit vehicle) (vi_booking_mode vehicle);
  booking ← append_events booking [("booking_requested", [])] "requested";
  (if decide (vi_booking_mode vehicle = "instant")
   then _emit_authorize_payment_requested booking else mret tt);;
  save booking;;
  mret booking.

(** [booking = await repo.get_by_id(...); if booking is None: raise]. *)
Definition with_booking (booking_id : uuid) (body : Booking → Mb Booking) : Mb Booking :=
booking ← get_by_id booking_id;
match booking with
| None => raise (BookingNotFoundError booking_id)
| Some booking => body booking
end.

Definition accept_body (booking_id host_id : uuid) (booking : Booking) : Mb Booking :=
if decide (bk_host_id booking ≠ host_id) then raise (NotBookingPartyError booking_id)
else
  transition ← lift (accept_request (_to_state booking));
  booking ← append_events booking (tr_events transition) (tr_next_status transition);
  _emit_authorize_payment_requested booking;;
  save booking;;
  mret booking.

Definition accept_booking_request (booking_id host_id : uuid) : Mb Booking :=
with_booking booking_id (accept_body booking_id host_id).

Definition reject_body (booking_id host_id : uuid) (booking : Booking) : Mb Booking :=
if decide (bk_host_id booking ≠ host_id) then raise (NotBookingPartyError booking_id)
else
  transition ← lift (reject_request (_to_state booking));
  booking ← append_events booking (tr_events transition) (tr_next_status transition);
  _emit_domain_event booking "booking_rejected";;
  save booking;;
  mret booking.

Definition reject_booking_request (booking_id host_id : uuid) : Mb Booking :=
with_booking booking_id (reject_body booking_id host_id).

Definition list_all_bookings (limit offset : Z) : Mb (list Booking) := list_all limit offset.

Definition get_booking_for_viewer (booking_id viewer_id : uuid) (viewer_role : pyval) : Mb Booking :=
with_booking booking_id (λ booking,
  let is_party := bool_decide (viewer_id = bk_renter_id booking ∨ viewer_id = bk_host_id booking) in
  let is_admin := match viewer_role with PStr "admin" => true | _ => false end in
  if negb is_admin && negb is_party then raise (NotBookingPartyError booking_id)
  else mret booking).

Definition handover_body (booking_id host_id : uuid) (odometer fuel_percent : Z) (photo_url : string)
  (booking : Booking) : Mb Booking :=
if decide (bk_host_id booking ≠ host_id) then raise (NotBookingPartyError booking_id)
else
  transition ← lift (BookingDomain.record_handover (_to_state booking) odometer fuel_percent photo_url);
  booking ← _apply_transition booking transition;
  booking ← append_events booking (tr_events transition) (tr_next_status transition);
  save booking;;
  mret booking.

Definition record_handover (booking_id host_id : uuid) (odometer fuel_percent : Z)
  (photo_url : string) : Mb Booking :=
with_booking booking_id (handover_body booking_id host_id odometer fuel_percent photo_url).

Definition capture_data (booking : Booking) (overage_cents : Z) : dict :=
[("booking_id", PStr (str_uuid (bk_id booking)));
 ("host_id", PStr (str_uuid (bk_host_id booking)));
 ("hold_amount_cents", PInt (bk_daily_price_cents booking * booking_days booking));
 ("overage_cents", PInt overage_cents)].

Definition return_body (booking_id host_id : uuid) (odometer fuel_percent : Z) (photo_url : string)
  (booking : Booking) : Mb Booking :=
if decide (bk_host_id booking ≠ host_id) then raise (NotBookingPartyError booking_id)
else
  '(transition, overage_cents) ←
    lift (BookingDomain.record_return (_to_state booking) odometer fuel_percent photo_url);
  booking ← _apply_transition booking transition;
  booking ← append_events booking (tr_events transition) (tr_next_status transition);
  write_outbox_event "booking" (str_uuid (bk_id booking)) "capture_payment_requested"
    (capture_data booking overage_cents);;
  save booking;;
  mret booking.

Definition record_return (booking_id host_id : uuid) (odometer fuel_percent : Z)
  (photo_url : string) : Mb Booking :=
with_booking booking_id (return_body booking_id host_id odometer fuel_percent photo_url).

(** The four reactions to payment events: a transition, then its domain event. *)
Definition payment_body (f : BookingState → result Transition) (event_type : string)
  (booking : Booking) : Mb Booking :=
transition ← lift (f (_to_state booking));
booking ← append_events booking (tr_events transition) (tr_next_status transition);
_emit_domain_event booking event_type;;
save booking;;
mret booking.

Definition apply_payment_authorized (booking_id : uuid) : Mb Booking :=
with_booking booking_id (payment_body confirm_after_payment_authorized "booking_confirmed").

Definition apply_payment_authorization_failed (booking_id : uuid) : Mb Booking :=
with_booking booking_id
  (payment_body cancel_after_payment_authorization_failed "booking_cancelled").

Definition apply_payment_captured (booking_id : uuid) : Mb Booking :=
with_booking booking_id (payment_body complete_after_payment_captured "booking_completed").

Definition apply_payment_capture_failed (booking_id : uuid) : Mb Booking :=
with_booking booking_id
  (payment_body note_payment_capture_failed "booking_payment_capture_failed").

(** ** consumers.py *)
Definition _handle (data : dict) (apply : uuid → Mb Booking) : Mb unit :=
v ← getitem data "booking_id"; booking_id ← to_uuid v;
apply booking_id;;
mret tt.

Definition handle_payment_authorized (data : dict) : Mb unit := _handle data apply_payment_authorized.
Definition handle_payment_authorization_failed (data : dict) : Mb unit :=
_handle data apply_payment_authorization_failed.
Definition handle_payment_captured (data : dict) : Mb unit := _handle data apply_payment_captured.
Definition handle_payment_capture_failed (data : dict) : Mb unit :=
_handle data apply_payment_capture_failed.

Definition PAYMENT_EVENT_HANDLERS : list (string * handler BookingDB W) :=
[("payment_authorized", handle_payment_authorized);
 ("payment_authorization_failed", handle_payment_authorization_failed);
 ("payment_captured", handle_payment_captured);
 ("payment_capture_failed", handle_payment_capture_failed)].
End service.
