(* ===== verification/BookingFacts.v ===== *)
(** * BookingFacts: what the booking commands do to the database

    [command] enumerates the operations on an existing booking.  The lemmas
    describe, once, the effect of [append_events] and of a whole command; the
    invariant, the replay of the event log and the concurrency refinement
    (BookingInvariant, BookingConcurrency) are built on them. *)
From S2P Require Import Prelude Python Columns Effects Outbox Inbox BookingDomain BookingRepo.
From S2P Require Import BookingService.

(** ** Commands on an existing booking *)
Inductive command :=
| CmdAccept (host_id : uuid)
| CmdReject (host_id : uuid)
| CmdHandover (host_id : uuid) (odometer fuel_percent : Z) (photo_url : string)
| CmdReturn (host_id : uuid) (odometer fuel_percent : Z) (photo_url : string)
| CmdPaymentAuthorized
| CmdPaymentAuthorizationFailed
| CmdPaymentCaptured
| CmdPaymentCaptureFailed.

Definition command_op (c : command) : domain_op :=
  match c with
  | CmdAccept _ => AcceptRequest
  | CmdReject _ => RejectRequest
  | CmdHandover _ o f p => Handover o f p
  | CmdReturn _ o f p => Return o f p
  | CmdPaymentAuthorized => PaymentAuthorized
  | CmdPaymentAuthorizationFailed => PaymentAuthorizationFailed
  | CmdPaymentCaptured => PaymentCaptured
  | CmdPaymentCaptureFailed => PaymentCaptureFailed
  end.

(** Who may issue it: the host for the four HTTP commands. *)
Definition authorised (c : command) (b : Booking) : Prop :=
  match c with
  | CmdAccept h | CmdReject h | CmdHandover h _ _ _ | CmdReturn h _ _ _ => bk_host_id b = h
  | _ => True
  end.

Definition command_body {W} (booking_id : uuid) (c : command) :
    Booking → M (session BookingDB W) Booking :=
  match c with
  | CmdAccept h => accept_body booking_id h
  | CmdReject h => reject_body booking_id h
  | CmdHandover h o f p => handover_body booking_id h o f p
  | CmdReturn h o f p => return_body booking_id h o f p
  | CmdPaymentAuthorized => payment_body confirm_after_payment_authorized "booking_confirmed"
  | CmdPaymentAuthorizationFailed =>
      payment_body cancel_after_payment_authorization_failed "booking_cancelled"
  | CmdPaymentCaptured => payment_body complete_after_payment_captured "booking_completed"
  | CmdPaymentCaptureFailed =>
      payment_body note_payment_capture_failed "booking_payment_capture_failed"
  end.

Definition run_command {W} (booking_id : uuid) (c : command) : M (session BookingDB W) Booking :=
  with_booking booking_id (command_body booking_id c).

(** ** The specification of a command on the object it loaded *)

Definition return_fee (b : Booking) (odometer : Z) : Z :=
  compute_overage_cents (default 0%Z (bk_start_odometer b)) odometer
    (bk_daily_mileage_limit b) (booking_days b).

(** The events appended. *)
Definition op_events (op : domain_op) (b : Booking) : list (string * dict) :=
  match op with
  | AcceptRequest => [("booking_request_accepted", [])]
  | RejectRequest => [("booking_rejected", [])]
  | PaymentAuthorized => [("payment_authorized", []); ("booking_confirmed", [])]
  | PaymentAuthorizationFailed => [("payment_authorization_failed", []); ("booking_cancelled", [])]
  | Handover o f p =>
      [("booking_handover_recorded",
        [("odometer", PInt o); ("fuel_percent", PInt f); ("photo_url", PStr p)])]
  | Return o f p =>
      [("booking_return_recorded",
        [("odometer", PInt o); ("fuel_percent", PInt f); ("photo_url", PStr p);
         ("overage_cents", PInt (return_fee b o))])]
  | PaymentCaptured => [("payment_captured", []); ("booking_completed", [])]
  | PaymentCaptureFailed => [("payment_capture_failed", [])]
  end.

(** The attributes assigned besides status and version. *)
Definition op_fields (op : domain_op) (b : Booking) : Booking :=
  match op with
  | Handover o f p => set_start o f p b
  | Return o f p => set_end o f p (return_fee b o) b
  | _ => b
  end.

Definition apply_op (op : domain_op) (b : Booking) : Booking :=
  set_progress (bk_version b + Z.of_nat (length (op_events op b))) (settles op) (op_fields op b).

(** The outbox message: type and data. *)
Definition command_message (c : command) (b : Booking) : option (string * dict) :=
  let b' := apply_op (command_op c) b in
  match c with
  | CmdAccept _ => Some ("authorize_payment_requested", authorize_data b')
  | CmdReject _ => Some ("booking_rejected", domain_event_data b')
  | CmdHandover _ _ _ _ => None
  | CmdReturn _ o _ _ => Some ("capture_payment_requested", capture_data b' (return_fee b o))
  | CmdPaymentAuthorized => Some ("booking_confirmed", domain_event_data b')
  | CmdPaymentAuthorizationFailed => Some ("booking_cancelled", domain_event_data b')
  | CmdPaymentCaptured => Some ("booking_completed", domain_event_data b')
  | CmdPaymentCaptureFailed => Some ("booking_payment_capture_failed", domain_event_data b')
  end.

(** The rows [append_events] inserts from version [v] on. *)
Fixpoint new_events (e : env) (id : uuid) (v : Z) (evs : list (string * dict)) : list BookingEvent :=
  match evs with
  | [] => []
  | (t, p) :: evs => mk_event (fresh e 0) id v t p :: new_events (shift_env e) id (v + 1) evs
  end.

(** No event of booking [id] has a version in [v, v + n). *)
Definition versions_free (id : uuid) (v : Z) (n : nat) (evs : list BookingEvent) : Prop :=
  Forall (λ ev, ev_booking_id ev = id → ¬ (v ≤ ev_version ev < v + Z.of_nat n)%Z) evs.

Definition message_rows (e : env) (id : uuid) (m : option (string * dict)) : list OutboxRow :=
  match m with
  | Some (t, d) => [outbox_row e "booking" (str_uuid id) t d]
  | None => []
  end.

(** The database after a command. *)
Definition command_db (c : command) (b : Booking) (e : env) (db : BookingDB) : BookingDB :=
  let evs := op_events (command_op c) b in
  mk_booking_db
    (<[bk_id b := apply_op (command_op c) b]> (bookings db))
    (booking_events db ++ new_events e (bk_id b) (bk_version b + 1) evs)
    (b_outbox db ++ message_rows (shift_env_n (length evs) e) (bk_id b) (command_message c b))
    (b_inbox db) (b_idem db).

(** The events fit their columns. *)
Fixpoint events_fit (v : Z) (evs : list (string * dict)) : Prop :=
  match evs with
  | [] => True
  | (t, _) :: evs => int4 v ∧ varchar 64 t ∧ events_fit (v + 1) evs
  end.

Lemma no_clash_alt b m :
  no_clash b m ↔ ∀ i b', m !! i = Some b' → i = bk_id b ∨ ¬ clash b b'.
Proof. done. Qed.

(** The row of the booking itself does not count. *)
Lemma no_clash_insert b x m : no_clash b (<[bk_id b := x]> m) ↔ no_clash b m.
Proof.
  rewrite !no_clash_alt. split; intros H i b' Hi.
  - destruct (decide (i = bk_id b)); [by left|]. apply (H i b'). by rewrite lookup_insert_ne.
  - destruct (decide (i = bk_id b)); [by left|]. rewrite lookup_insert_ne in Hi by done. by apply H.
Qed.

Lemma versions_free_S id v n evs eid t p :
  versions_free id v (S n) evs ↔
  versions_free id v 1 evs ∧ versions_free id (v + 1) n (evs ++ [mk_event eid id v t p]).
Proof.
  unfold versions_free. rewrite Forall_app, Forall_singleton, !Forall_forall.
  split.
  - intros H. split_and!; [| |simpl; lia]; intros e He Hid; specialize (H e He Hid); lia.
  - intros (H1 & H2 & _) e He Hid. specialize (H1 e He Hid). specialize (H2 e He Hid). lia.
Qed.

Lemma versions_free_0 id v evs : versions_free id v 0 evs.
Proof. unfold versions_free. apply Forall_forall. lia. Qed.

(** ** One statement at a time *)
Section facts.
Context {W : Type}.
Implicit Types s : session BookingDB W.

Lemma flush_booking_Ok b s u s' :
flush_booking b s = (Ok u, s') ↔
row_types b ∧ bk_status b ∈ booking_statuses ∧ no_clash b (bookings (work s)) ∧
s' = with_work (set_bookings (<[bk_id b := b]> (bookings (work s))) (work s)) s.
Proof.
destruct u. unfold flush_booking. run.
repeat case_decide; try (split; [done | naive_solver]).
split; [intros [= <-]; naive_solver | by intros (_&_&_&->)].
Qed.

Lemma insert_event_Ok id v t p s u s' :
insert_event id v t p s = (Ok u, s') ↔
int4 v ∧ varchar 64 t ∧ versions_free id v 1 (booking_events (work s)) ∧
s' = mk_session (committed s)
  (set_events (booking_events (work s) ++ [mk_event (fresh (senv s) 0) id v t p]) (work s))
  (world s) (shift_env (senv s)).
Proof.
destruct u. unfold insert_event. run.
assert (versions_free id v 1 (booking_events (work s)) ↔
  ¬ Exists (λ ev, ev_booking_id ev = id ∧ ev_version ev = v) (booking_events (work s))) as Hv.
{ unfold versions_free. rewrite Exists_exists, Forall_forall. split.
  - intros Hf (ev & Hev & Hi & Hver). apply (Hf ev Hev Hi). lia.
  - intros Hn ev Hev Hi Hver. apply Hn. exists ev. repeat split; try done. lia. }
rewrite Hv. repeat case_decide; try (split; [done | naive_solver]).
split; [intros [= <-]; naive_solver | by intros (_&_&_&->)].
Qed.

(** What [append_events] has done to the session when its loop ends. *)
Definition appended (b : Booking) (o : Z) (evs : list (string * dict)) s : session BookingDB W :=
mk_session (committed s)
  (set_bookings (<[bk_id b := b]> (bookings (work s)))
    (set_events (booking_events (work s) ++ new_events (senv s) (bk_id b) (bk_version b + o) evs)
      (work s)))
  (world s) (shift_env_n (length evs) (senv s)).

Definition appendable (b : Booking) (o : Z) (evs : list (string * dict)) (db : BookingDB) : Prop :=
row_types b ∧ bk_status b ∈ booking_statuses ∧ no_clash b (bookings db) ∧
events_fit (bk_version b + o) evs ∧
versions_free (bk_id b) (bk_version b + o) (length evs) (booking_events db).

Lemma append_loop_Ok b o ev evs s u s' :
append_loop b o (ev :: evs) s = (Ok u, s') ↔
appendable b o (ev :: evs) (work s) ∧ s' = appended b o (ev :: evs) s.
Proof.
destruct u. revert o ev s s'. induction evs as [|ev' evs IH]; intros o [t p] s s'.
- simpl append_loop. rewrite bind_Ok. setoid_rewrite try_except_Ok.
  setoid_rewrite bind_Ok. setoid_rewrite insert_event_Ok. setoid_rewrite flush_booking_Ok.
  unfold appendable, appended. simpl. split.
  + intros ([] & s1 & [(? & s2 & (?&?&?&->) & ?&?&?&->)|(e & ? & k & ? & Hk & ?)] & [= <-]).
    * split_and!; try done.
    * by destruct e; simplify_eq.
  + intros ((?&?&?&(?&?&_)&?) & ->). eexists tt, _. split; [|done]. left.
    eexists tt, _. split_and!; done.
- change (append_loop b o ((t, p) :: ev' :: evs)) with
    (try_except (insert_event (bk_id b) (bk_version b + o) t p;; flush_booking b)
      (λ e, match e with
            | IntegrityError => Some (raise (ConcurrentBookingUpdateError (bk_id b)))
            | _ => None end) ;; append_loop (W := W) b (o + 1) (ev' :: evs)).
  rewrite bind_Ok. setoid_rewrite try_except_Ok.
  setoid_rewrite bind_Ok. setoid_rewrite insert_event_Ok. setoid_rewrite flush_booking_Ok.
  setoid_rewrite IH. unfold appendable. split.
  + intros ([] & s1 & [(? & s2 & (?&?&?&->) & ?&?&?&->)|(e & ? & k & ? & Hk & ?)] & Hr).
    2: by destruct e; simplify_eq.
    simpl in Hr. destruct Hr as ((_&_&_&Hfit&Hfree)&->).
    assert (Hz : (bk_version b + (o + 1) = bk_version b + o + 1)%Z) by lia.
    rewrite Hz in *. split.
    * split_and!; try done. simpl length. rewrite (versions_free_S _ _ _ _ (fresh (senv s) 0) t p).
      by split.
    * unfold appended. simpl. f_equal. unfold set_bookings, set_events. simpl.
      f_equal; [apply insert_insert_eq|]. by rewrite Hz, <- app_assoc.
  + intros ((Hrt&Hst&Hnc&(Hi&Hv&Hfit)&Hfree) & ->).
    assert (Hz : (bk_version b + (o + 1) = bk_version b + o + 1)%Z) by lia.
    simpl length in Hfree. rewrite (versions_free_S _ _ _ _ (fresh (senv s) 0) t p) in Hfree.
    destruct Hfree as [Hf1 Hf2]. eexists tt, _. split.
    { left. eexists tt, _. split_and!; done. }
    simpl. rewrite Hz. split.
    * split_and!; try done. by rewrite no_clash_insert.
    * unfold appended. simpl. f_equal. unfold set_bookings, set_events. simpl.
      f_equal; [symmetry; apply insert_insert_eq|]. by rewrite Hz, <- app_assoc.
Qed.

Lemma append_events_Ok b ev evs st s b' s' :
append_events b (ev :: evs) st s = (Ok b', s') ↔
appendable b 1 (ev :: evs) (work s) ∧ s' = appended b 1 (ev :: evs) s ∧
b' = set_progress (bk_version b + Z.of_nat (S (length evs))) st b.
Proof.
unfold append_events. rewrite bind_Ok. setoid_rewrite append_loop_Ok. split.
- intros ([] & s1 & [Ha ->] & [= <- <-]). done.
- intros (Ha & -> & ->). by eexists tt, _.
Qed.

(** *** The common tail of a command: append, emit, save *)
Definition emitted (id : uuid) (m : option (string * dict)) s : session BookingDB W :=
match m with
| None => s
| Some _ => mk_session (committed s)
    (set_outbox (b_outbox (work s) ++ message_rows (senv s) id m) (work s))
    (world s) (shift_env (senv s))
end.

Definition command_env (c : command) (b : Booking) (e : env) : env :=
let e := shift_env_n (length (op_events (command_op c) b)) e in
match command_message c b with Some _ => shift_env e | None => e end.

(** The session after a command. *)
Definition command_session (c : command) (b : Booking) s : session BookingDB W :=
mk_session (committed s) (command_db c b (senv s) (work s)) (world s)
  (command_env c b (senv s)).

(** When the database accepts what the command writes. *)
Definition command_fits (c : command) (b : Booking) (db : BookingDB) : Prop :=
let op := command_op c in
appendable (op_fields op b) 1 (op_events op b) db ∧
row_types (apply_op op b) ∧ no_clash (apply_op op b) (bookings db).

Lemma op_events_cons op b : ∃ ev evs, op_events op b = ev :: evs.
Proof. destruct op; simpl; eauto. Qed.

Lemma op_fields_id op b : bk_id (op_fields op b) = bk_id b.
Proof. by destruct op. Qed.
Lemma op_fields_version op b : bk_version (op_fields op b) = bk_version b.
Proof. by destruct op. Qed.

Lemma settles_status op : settles op ∈ booking_statuses.
Proof. apply (bool_decide_eq_true_1 _). by destruct op. Qed.

Lemma command_tail_Ok {A} c b (em : Booking → M (session BookingDB W) A) s b' s' :
(∀ s0, ∃ a, em (apply_op (command_op c) b) s0 =
  (Ok a, emitted (bk_id b) (command_message c b) s0)) →
(booking ← append_events (op_fields (command_op c) b) (op_events (command_op c) b)
   (settles (command_op c)); em booking;; save booking;; mret booking) s = (Ok b', s') ↔
command_fits c b (work s) ∧ b' = apply_op (command_op c) b ∧ s' = command_session c b s.
Proof.
intros Hem. set (op := command_op c) in *.
destruct (op_events_cons op b) as (ev & evs & Hevs).
assert (set_progress (bk_version (op_fields op b) + Z.of_nat (S (length evs))) (settles op)
  (op_fields op b) = apply_op op b) as Hb'.
{ unfold apply_op. by rewrite Hevs, op_fields_version. }
assert (bk_id (apply_op op b) = bk_id b) as Hid by (by destruct op).
assert (bk_status (apply_op op b) ∈ booking_statuses) as Hst by apply settles_status.
rewrite Hevs, bind_Ok. setoid_rewrite append_events_Ok. rewrite Hb'.
assert (∀ s1, appendable (op_fields op b) 1 (ev :: evs) (work s) →
  s1 = appended (op_fields op b) 1 (ev :: evs) s →
  (em (apply_op op b);; save (apply_op op b);; mret (apply_op op b)) s1 = (Ok b', s') ↔
  (row_types (apply_op op b) ∧ no_clash (apply_op op b) (bookings (work s))) ∧
  b' = apply_op op b ∧ s' = command_session c b s) as Htail.
{ intros s1 _ ->. rewrite run_bind.
  destruct (Hem (appended (op_fields op b) 1 (ev :: evs) s)) as [a ->].
  rewrite bind_Ok. unfold save.
  set (s2 := emitted _ _ _).
  assert (bookings (work s2) = <[bk_id b := op_fields op b]> (bookings (work s))) as Hbk.
  { subst s2. unfold emitted. rewrite <- (op_fields_id op b). by destruct (command_message c b). }
  assert (no_clash (apply_op op b) (bookings (work s2)) ↔
    no_clash (apply_op op b) (bookings (work s))) as Hnc.
  { rewrite Hbk, <- Hid. apply no_clash_insert. }
  assert (with_work (set_bookings (<[bk_id (apply_op op b):=apply_op op b]>
    (bookings (work s2))) (work s2)) s2 = command_session c b s) as Hs2.
  { rewrite Hbk, Hid, insert_insert_eq. subst s2.
    unfold command_session, command_db, command_env, emitted. fold op.
    rewrite Hevs. unfold appended, with_work, set_bookings, message_rows. simpl.
    rewrite op_fields_id, op_fields_version.
    destruct (command_message c b) as [[t d]|]; simpl; [done|]. by rewrite app_nil_r. }
  split.
  - intros (u & s3 & (?&?&?&->)%flush_booking_Ok & [= <- <-]). naive_solver.
  - intros ((?&?)&->&->). exists tt, (command_session c b s). split; [|done].
    apply flush_booking_Ok. rewrite Hs2, Hnc. by split_and!. }
unfold command_fits. fold op. rewrite Hevs. split.
- intros (b1 & s1 & (Ha & -> & ->) & Ht).
  apply Htail in Ht; [|done|done]. naive_solver.
- intros ((Ha & Hr & Hn) & -> & ->).
  exists (apply_op op b), (appended (op_fields op b) 1 (ev :: evs) s).
  split; [by split_and!|].
  apply Htail; [done|done|]. naive_solver.
Qed.

Lemma lift_Ok {A} (r : result A) s a s' : lift r s = (Ok a, s') ↔ r = Ok a ∧ s' = s.
Proof.
destruct r; simpl; split; [by intros [= <- <-] | by intros [[= ->] ->] | done | by intros []].
Qed.

Lemma lift_tail {T} (r : result T) (t0 : T) (rest : T → M (session BookingDB W) Booking) s b' s' :
(∀ t, r = Ok t → t = t0) →
(t ← lift r; rest t) s = (Ok b', s') ↔ is_Ok r = true ∧ rest t0 s = (Ok b', s').
Proof.
intros Ht. rewrite bind_Ok. setoid_rewrite lift_Ok. destruct r as [t|e].
- rewrite (Ht t eq_refl). split; [by intros (? & ? & ([= <-] & ->) & Hr) | by intros [_ Hr]; eauto].
- split; [by intros (? & ? & ([=] & _) & _) | by intros []].
Qed.

Lemma host_guard id h b (m : M (session BookingDB W) Booking) s b' s' :
(if decide (bk_host_id b ≠ h) then raise (NotBookingPartyError id) else m) s = (Ok b', s') ↔
bk_host_id b = h ∧ m s = (Ok b', s').
Proof. case_decide; naive_solver. Qed.

(** What the domain returns is what [op_events] and [settles] say. *)
Lemma domain_apply_transition op b t :
domain_apply op (_to_state b) = Ok t → t = mk_transition (op_events op b) (settles op).
Proof.
destruct op; simpl; unfold accept_request, reject_request, confirm_after_payment_authorized,
  cancel_after_payment_authorization_failed, BookingDomain.record_handover,
  complete_after_payment_captured, note_payment_capture_failed;
  intros Ht; try (by domain_inv Ht).
apply result_bind_Ok in Ht as ([t' z] & Hr & [= <-]). unfold BookingDomain.record_return in Hr.
apply result_bind_Ok in Hr as (? & _ & Hr). unfold return_fee. simpl in Hr.
by destruct (bk_start_odometer b) as [o|]; simplify_eq.
Qed.

Lemma record_return_fee b o f p t z :
BookingDomain.record_return (_to_state b) o f p = Ok (t, z) →
(t, z) = (mk_transition (op_events (Return o f p) b) "active", return_fee b o).
Proof.
intros Hr. f_equal.
- by apply (domain_apply_transition (Return o f p)); simpl; rewrite Hr.
- unfold BookingDomain.record_return in Hr. apply result_bind_Ok in Hr as (? & _ & Hr).
  unfold return_fee. simpl in Hr. by destruct (bk_start_odometer b); simplify_eq.
Qed.

(** A command returns exactly when the caller may issue it, the domain
  allows it and the tables accept its rows; its effect is
  [command_session]. *)
Lemma command_body_Ok id c b s b' s' :
command_body id c b s = (Ok b', s') ↔
authorised c b ∧ is_Ok (domain_apply (command_op c) (_to_state b)) = true ∧
command_fits c b (work s) ∧ b' = apply_op (command_op c) b ∧ s' = command_session c b s.
Proof.
pose proof (domain_apply_transition (command_op c) b) as Ht.
destruct c as [h|h|h o f p|h o f p| | | |]; simpl command_body; simpl authorised; simpl in Ht.
5-8: unfold payment_body; rewrite (lift_tail _ _ _ _ _ _ Ht); simpl domain_apply;
  match goal with |- context [_emit_domain_event _ ?et] =>
    match goal with |- _ ↔ _ ∧ _ ∧ command_fits ?c _ _ ∧ _ =>
      rewrite <- (command_tail_Ok c b (λ b, _emit_domain_event b et)) by (by intros; eexists)
    end end; tauto.
- unfold accept_body. rewrite host_guard, (lift_tail _ _ _ _ _ _ Ht).
  rewrite <- (command_tail_Ok (CmdAccept h) b _emit_authorize_payment_requested)
    by (by intros; eexists). done.
- unfold reject_body. rewrite host_guard, (lift_tail _ _ _ _ _ _ Ht).
  rewrite <- (command_tail_Ok (CmdReject h) b (λ b, _emit_domain_event b "booking_rejected"))
    by (by intros; eexists). done.
- unfold handover_body. rewrite host_guard, (lift_tail _ _ _ _ _ _ Ht).
  rewrite <- (command_tail_Ok (CmdHandover h o f p) b (λ _, mret tt))
    by (by intros; eexists). done.
- unfold return_body. rewrite host_guard.
  rewrite (lift_tail _ _ _ _ _ _ (λ '(t, z), record_return_fee b o f p t z)).
  rewrite <- (command_tail_Ok (CmdReturn h o f p) b (λ b', write_outbox_event "booking"
    (str_uuid (bk_id b')) "capture_payment_requested" (capture_data b' (return_fee b o))))
    by (by intros; eexists).
  simpl domain_apply. by destruct (BookingDomain.record_return (_to_state b) o f p) as [[]|].
Qed.
End facts.
