(* ===== verification/BookingInvariant.v ===== *)
(** * BookingInvariant: what holds of every reachable booking database

    [booking_step] is one committed transaction of the service: a new
    booking, a command on an existing one, or bookkeeping (inbox claims,
    idempotency rows).  [wf] is its invariant: no two live bookings of a
    vehicle overlap, the event log of a booking carries the versions
    2, 3, ..., version without gap or duplicate, and replaying the log gives
    the row.  [replay] is the reference reading of the log that the bookings
    table is a projection of. *)
From S2P Require Import Prelude Python Columns Effects Outbox Inbox Idempotency BookingDomain.
From S2P Require Import BookingRepo BookingService BookingFacts.

(** ** Replaying the event log *)
Record projection := mk_projection {
  pj_status : string;
  pj_start_odometer : option Z;
  pj_end_odometer : option Z;
  pj_start_fuel_percent : option Z;
  pj_end_fuel_percent : option Z;
  pj_start_photo_url : option string;
  pj_end_photo_url : option string;
  pj_overage_cents : Z;
}.

Definition view (b : Booking) : projection :=
  mk_projection (bk_status b) (bk_start_odometer b) (bk_end_odometer b) (bk_start_fuel_percent b)
    (bk_end_fuel_percent b) (bk_start_photo_url b) (bk_end_photo_url b) (bk_overage_cents b).

Definition pj_set_status (st : string) (p : projection) : projection :=
  mk_projection st (pj_start_odometer p) (pj_end_odometer p) (pj_start_fuel_percent p)
    (pj_end_fuel_percent p) (pj_start_photo_url p) (pj_end_photo_url p) (pj_overage_cents p).

(** The statuses the terminal facts of the log settle on. *)
Definition event_status (event_type : string) : option string :=
  if decide (event_type = "booking_rejected") then Some "rejected"
  else if decide (event_type = "booking_confirmed") then Some "confirmed"
  else if decide (event_type = "booking_cancelled") then Some "cancelled"
  else if decide (event_type = "booking_completed") then Some "completed"
  else None.

Definition get_int (d : dict) (k : string) : option Z :=
  match dict_get d k with Some (PInt z) => Some z | _ => None end.
Definition get_str (d : dict) (k : string) : option string :=
  match dict_get d k with Some (PStr s) => Some s | _ => None end.

Definition replay_event (p : option projection) (ev : string * dict) : option projection :=
  let '(t, d) := ev in
  if decide (t = "booking_requested")
  then Some (mk_projection "requested" None None None None None None 0)
  else
    p ← p;
    if decide (t = "booking_handover_recorded") then
      Some (mk_projection "active" (get_int d "odometer") (pj_end_odometer p)
        (get_int d "fuel_percent") (pj_end_fuel_percent p) (get_str d "photo_url")
        (pj_end_photo_url p) (pj_overage_cents p))
    else if decide (t = "booking_return_recorded") then
      Some (mk_projection (pj_status p) (pj_start_odometer p) (get_int d "odometer")
        (pj_start_fuel_percent p) (get_int d "fuel_percent") (pj_start_photo_url p)
        (get_str d "photo_url") (default 0%Z (get_int d "overage_cents")))
    else match event_status t with
      | Some st => Some (pj_set_status st p)
      | None => Some p
      end.

Definition replay (evs : list BookingEvent) : option projection :=
  foldl replay_event None ((λ ev, (ev_type ev, ev_payload ev)) <$> evs).

Definition events_of (id : uuid) (db : BookingDB) : list BookingEvent :=
  filter (λ ev, ev_booking_id ev = id) (booking_events db).

(** ** The invariant *)
Record wf (db : BookingDB) : Prop := mk_wf {
  wf_id : ∀ i b, bookings db !! i = Some b → bk_id b = i;
  wf_status : ∀ i b, bookings db !! i = Some b → bk_status b ∈ booking_statuses;
  wf_clash : ∀ i j b b', bookings db !! i = Some b → bookings db !! j = Some b' → i ≠ j →
    ¬ clash b b';
  wf_versions : ∀ i b, bookings db !! i = Some b →
    (1 ≤ bk_version b)%Z ∧ ev_version <$> events_of i db = seqZ 2 (bk_version b - 1);
  wf_replay : ∀ i b, bookings db !! i = Some b → replay (events_of i db) = Some (view b);
  wf_orphan : ∀ i, bookings db !! i = None → events_of i db = [];
}.

(** Two databases with the same bookings, event log and outbox. *)
Definition same_bookings (db db' : BookingDB) : Prop :=
  bookings db' = bookings db ∧ booking_events db' = booking_events db ∧ b_outbox db' = b_outbox db.

(** ** New events *)
Lemma new_events_of id e v evs i :
  filter (λ ev, ev_booking_id ev = i) (new_events e id v evs) =
  if decide (id = i) then new_events e id v evs else [].
Proof.
  revert e v. induction evs as [|[t p] evs IH]; intros e v; simpl; [by case_decide|].
  rewrite filter_cons, IH. simpl. by repeat case_decide.
Qed.

Lemma new_events_versions e id v evs :
  ev_version <$> new_events e id v evs = seqZ v (Z.of_nat (length evs)).
Proof.
  revert e v. induction evs as [|[t p] evs IH]; intros e v; [done|].
  rewrite seqZ_cons by (simpl; lia). simpl. rewrite IH. f_equal. f_equal; lia.
Qed.

Lemma new_events_types e id v evs :
  (λ ev, (ev_type ev, ev_payload ev)) <$> new_events e id v evs = evs.
Proof.
  revert e v. induction evs as [|[t p] evs IH]; intros e v; [done|]. simpl. by rewrite IH.
Qed.

Lemma events_of_command c b e db i :
  events_of i (command_db c b e db) =
  events_of i db ++ if decide (bk_id b = i)
    then new_events e (bk_id b) (bk_version b + 1) (op_events (command_op c) b) else [].
Proof. unfold events_of, command_db. simpl. by rewrite filter_app, new_events_of. Qed.

(** Replaying the events of an operation on the projection of the row it was
    applied to gives the projection of the row it produced. *)
Lemma replay_op op b :
  bk_status b = expects op →
  foldl replay_event (Some (view b)) (op_events op b) = Some (view (apply_op op b)).
Proof. intros Hs. unfold view. rewrite Hs. destruct op; reflexivity. Qed.

Lemma apply_op_id op b : bk_id (apply_op op b) = bk_id b.
Proof. by destruct op. Qed.
Lemma apply_op_version op b :
  bk_version (apply_op op b) = (bk_version b + Z.of_nat (length (op_events op b)))%Z.
Proof. done. Qed.
Lemma apply_op_status op b : bk_status (apply_op op b) = settles op.
Proof. done. Qed.
Lemma op_events_length op b : 1 ≤ length (op_events op b) ≤ 2.
Proof. destruct op; simpl; lia. Qed.

Lemma clash_sym b b' : clash b b' → clash b' b.
Proof. unfold clash. naive_solver. Qed.

Lemma seqZ_app m n k :
  (0 ≤ n)%Z → (0 ≤ k)%Z → seqZ m n ++ seqZ (m + n) k = seqZ m (n + k).
Proof. intros. symmetry. by apply seqZ_app. Qed.

(** Replacing one row by one that does not clash keeps the table clash-free. *)
Lemma clash_insert (m : gmap uuid Booking) id b :
  bk_id b = id → no_clash b m →
  (∀ i j x y, m !! i = Some x → m !! j = Some y → i ≠ j → ¬ clash x y) →
  ∀ i j x y, <[id := b]> m !! i = Some x → <[id := b]> m !! j = Some y → i ≠ j → ¬ clash x y.
Proof.
  intros Hid Hn Hm i j x y. rewrite !lookup_insert_Some. rewrite no_clash_alt, Hid in Hn.
  intros [[<- <-]|[Hi Hx]] [[<- <-]|[Hj Hy]] Hij; try done.
  - by destruct (Hn _ _ Hy) as [->|].
  - intros ?%clash_sym. by destruct (Hn _ _ Hx) as [->|].
  - by apply (Hm i j).
Qed.

Lemma wf_command db c b e :
  wf db → bookings db !! bk_id b = Some b →
  is_Ok (domain_apply (command_op c) (_to_state b)) = true → command_fits c b db →
  wf (command_db c b e db).
Proof.
  intros Hwf Hb Hdom (Happ & Hrow & Hclash). set (op := command_op c) in *.
  destruct (domain_apply op (_to_state b)) as [t|] eqn:Et; [|done].
  apply domain_apply_Ok in Et as (Hst & _). simpl in Hst.
  pose proof (op_events_length op b) as Hlen.
  destruct (wf_versions db Hwf _ _ Hb) as [Hv1 Hv].
  split; simpl; fold op.
  - intros i b'. rewrite lookup_insert_Some. intros [[<- <-]|[_ ?]]; [apply apply_op_id|].
    by apply (wf_id db Hwf).
  - intros i b'. rewrite lookup_insert_Some. intros [[<- <-]|[_ ?]]; [apply settles_status|].
    by apply (wf_status db Hwf i).
  - apply clash_insert; [apply apply_op_id | done | apply (wf_clash db Hwf)].
  - intros i b'. rewrite lookup_insert_Some, events_of_command, fmap_app. fold op.
    intros [[<- <-]|[Hne Hi]].
    + rewrite decide_True, Hv, new_events_versions, apply_op_version by done. split; [lia|].
      replace (bk_version b + 1)%Z with (2 + (bk_version b - 1))%Z by lia.
      rewrite seqZ_app by lia. f_equal. lia.
    + rewrite decide_False, app_nil_r by done. by apply (wf_versions db Hwf).
  - intros i b'. rewrite lookup_insert_Some, events_of_command. fold op.
    intros [[<- <-]|[Hne Hi]].
    + rewrite decide_True by done. unfold replay.
      pose proof (wf_replay db Hwf _ _ Hb) as Hr. unfold replay in Hr.
      rewrite fmap_app, foldl_app, Hr, new_events_types. by apply replay_op.
    + rewrite decide_False, app_nil_r by done. by apply (wf_replay db Hwf).
  - intros i. rewrite lookup_insert_None, events_of_command. intros [Hi Hne].
    rewrite decide_False, app_nil_r by done. by apply (wf_orphan db Hwf).
Qed.

(** A snapshot whose next version is free is not behind the row. *)
Lemma snapshot_current db c b cur :
  wf db → bookings db !! bk_id b = Some cur → (1 ≤ bk_version b ≤ bk_version cur)%Z →
  command_fits c b db → bk_version b = bk_version cur.
Proof.
  intros Hwf Hcur Hle ((_ & _ & _ & _ & Hfree) & _).
  destruct (decide (bk_version b = bk_version cur)) as [|Hne]; [done|].
  destruct (wf_versions db Hwf _ _ Hcur) as [_ Hv].
  assert ((bk_version b + 1)%Z ∈ ev_version <$> events_of (bk_id b) db) as Hin.
  { rewrite Hv, elem_of_seqZ. lia. }
  apply list_elem_of_fmap in Hin as (ev & Hver & Hev).
  apply list_elem_of_filter in Hev as [Hid Hev].
  unfold versions_free in Hfree. rewrite Forall_forall in Hfree.
  exfalso. apply (Hfree ev Hev).
  - by rewrite op_fields_id.
  - rewrite op_fields_version. pose proof (op_events_length (command_op c) b). lia.
Qed.

(** ** A new booking *)
Definition new_booking (e : env) (vi : VehicleInfo) (renter_id vehicle_id : uuid)
    (start_date end_date : date) : Booking :=
  mk_booking (fresh e 0) vehicle_id (vi_host_id vi) renter_id start_date end_date
    (vi_daily_price_cents vi) (vi_daily_mileage_limit vi) (vi_booking_mode vi) "requested" 1
    None None None None None None 0 (clock e).

Definition requested_event : list (string * dict) := [("booking_requested", [])].

(** The session after [request_booking] succeeded. *)
Definition created_session {W} (b : Booking) (s : session BookingDB W) : session BookingDB W :=
  let b' := set_progress 2 "requested" b in
  let e := shift_env (senv s) in
  let m := if decide (bk_booking_mode b = "instant")
           then Some ("authorize_payment_requested", authorize_data b') else None in
  mk_session (committed s)
    (mk_booking_db (<[bk_id b := b']> (bookings (work s)))
       (booking_events (work s) ++ new_events e (bk_id b) 2 requested_event)
       (b_outbox (work s) ++ message_rows (shift_env e) (bk_id b) m)
       (b_inbox (work s)) (b_idem (work s)))
    (world s)
    (if decide (bk_booking_mode b = "instant") then shift_env (shift_env e) else shift_env e).

Section request.
Context {W : Type}.
Implicit Types s : session BookingDB W.

Lemma get_vehicle_pure listing v tok :
read_only (S := session BookingDB W) (get_vehicle listing v tok).
Proof. unfold get_vehicle, lift. destruct (listing v tok) as [[]|]; read_only. Qed.

Lemma create_requested_Ok vi renter vehicle sd ed s b' s' :
let b := new_booking (senv s) vi renter vehicle sd ed in
create_requested vehicle (vi_host_id vi) renter sd ed (vi_daily_price_cents vi)
  (vi_daily_mileage_limit vi) (vi_booking_mode vi) s = (Ok b', s') ↔
(bookings (work s) !! bk_id b = None ∧ row_types b ∧ no_clash b (bookings (work s))) ∧
b' = b ∧
s' = mk_session (committed s) (set_bookings (<[bk_id b := b]> (bookings (work s))) (work s))
  (world s) (shift_env (senv s)).
Proof.
intros b. unfold create_requested. do 2 (rewrite run_bind; simpl).
rewrite bind_Ok. setoid_rewrite try_except_Ok.
change (mk_booking (fresh (senv s) 0) _ _ _ _ _ _ _ _ _ _ _ _ _ _ _ _ _ _) with b.
assert (∀ s0 u s1, (db ← get_db;
    if decide (is_Some (bookings db !! fresh (senv s) 0)) then raise IntegrityError
    else flush_booking b) s0 = (Ok u, s1) ↔
  bookings (work s0) !! bk_id b = None ∧ row_types b ∧ no_clash b (bookings (work s0)) ∧
  s1 = with_work (set_bookings (<[bk_id b := b]> (bookings (work s0))) (work s0)) s0) as Hf.
{ intros s0 u s1. run. case_decide as Hs.
  - split; [done|]. intros (Hn & _). simpl in Hn. rewrite Hn in Hs. by destruct Hs.
  - rewrite flush_booking_Ok. rewrite <- eq_None_not_Some in Hs.
    assert (bk_status b ∈ booking_statuses) by (apply (bool_decide_eq_true_1 _); done).
    naive_solver. }
setoid_rewrite Hf. simpl. split.
- intros ([] & s1 & [(?&?&?&->)|(e & ? & k & ? & Hk & ?)] & [= <- <-]); [done|].
  by destruct e; simplify_eq.
- intros ((?&?&?)&->&->). eexists tt, _. split; [|done]. left. by split_and!.
Qed.

(** Append the first event, ask for the payment of an instant booking, save. *)
Lemma request_tail b s b' s' :
bk_version b = 1%Z → bk_status b = "requested" → row_types b →
no_clash b (bookings (work s)) → bookings (work s) !! bk_id b = Some b →
(booking ← append_events b [("booking_requested", [])] "requested";
 (if decide (bk_booking_mode b = "instant")
  then _emit_authorize_payment_requested booking else mret tt);;
 save booking;; mret booking) s = (Ok b', s') ↔
versions_free (bk_id b) 2 1 (booking_events (work s)) ∧
b' = set_progress 2 "requested" b ∧
s' = mk_session (committed s)
  (mk_booking_db (<[bk_id b := b']> (bookings (work s)))
    (booking_events (work s) ++ new_events (senv s) (bk_id b) 2 requested_event)
    (b_outbox (work s) ++ message_rows (shift_env (senv s)) (bk_id b)
      (if decide (bk_booking_mode b = "instant")
       then Some ("authorize_payment_requested", authorize_data b') else None))
    (b_inbox (work s)) (b_idem (work s)))
  (world s)
  (if decide (bk_booking_mode b = "instant")
   then shift_env (shift_env (senv s)) else shift_env (senv s)).
Proof.
intros Hv Hst Hrow Hclash Hb. rewrite bind_Ok. setoid_rewrite append_events_Ok.
set (b1 := set_progress 2 "requested" b).
assert (appendable b 1 requested_event (work s) ↔
  versions_free (bk_id b) 2 1 (booking_events (work s))) as Ha.
{ unfold appendable. rewrite Hv, Hst. simpl. split; [tauto|]. intros Hfree.
  split_and!; try done; by apply (bool_decide_eq_true_1 _). }
unfold requested_event in Ha. setoid_rewrite Ha. simpl length. rewrite Hv.
change (1 + Z.of_nat 1)%Z with 2%Z. fold b1.
assert (row_types b1) as Hrow1.
{ destruct Hrow as (?&?&?&?&?&?&?&?&?&?&?&?&?). unfold row_types. simpl.
  split_and!; try done; by apply (bool_decide_eq_true_1 _). }
assert (∀ s1, bookings (work s1) = bookings (work s) → (save b1;; mret b1) s1 =
  (Ok b1, with_work (set_bookings (<[bk_id b := b1]> (bookings (work s))) (work s1)) s1)) as Hsave.
{ intros s1 Hs1. rewrite bind_Ok. eexists tt, _. split; [|done].
  apply flush_booking_Ok. rewrite Hs1. split_and!; try done.
  - by apply (bool_decide_eq_true_1 _).
  - intros i x Hx. destruct (Hclash i x Hx) as [?|Hn]; [by left|right].
    intros Hc. apply Hn. unfold clash, holds_dates in *. by rewrite Hst. }
set (s1 := appended b 1 [("booking_requested", [])] s).
assert (bookings (work s1) = bookings (work s)) as Hs1 by (by apply insert_id).
enough (((if decide (bk_booking_mode b = "instant")
  then _emit_authorize_payment_requested b1 else mret tt);; save b1;; mret b1) s1 =
  (Ok b1, mk_session (committed s)
  (mk_booking_db (<[bk_id b := b1]> (bookings (work s)))
    (booking_events (work s) ++ new_events (senv s) (bk_id b) 2 requested_event)
    (b_outbox (work s) ++ message_rows (shift_env (senv s)) (bk_id b)
      (if decide (bk_booking_mode b = "instant")
       then Some ("authorize_payment_requested", authorize_data b1) else None))
    (b_inbox (work s)) (b_idem (work s)))
  (world s)
  (if decide (bk_booking_mode b = "instant")
   then shift_env (shift_env (senv s)) else shift_env (senv s)))) as Ht.
{ split.
  - intros (b0 & s2 & (Hfree & -> & ->) & Hr). fold s1 in Hr. rewrite Ht in Hr. naive_solver.
  - intros (Hfree & -> & ->). exists b1, s1. by split_and!. }
rewrite run_bind. subst s1. unfold appended in *. rewrite Hv in *.
case_decide; simpl; rewrite Hsave; try done. simpl. by rewrite app_nil_r.
Qed.

Lemma request_booking_Ok listing renter vehicle sd ed tok s b' s' :
request_booking listing renter vehicle sd ed tok s = (Ok b', s') ↔
∃ vi, get_vehicle listing vehicle tok s = (Ok vi, s) ∧ vi_approval_status vi = "approved" ∧
  let b := new_booking (senv s) vi renter vehicle sd ed in
  (bookings (work s) !! bk_id b = None ∧ row_types b ∧ no_clash b (bookings (work s)) ∧
   versions_free (bk_id b) 2 1 (booking_events (work s))) ∧
  b' = set_progress 2 "requested" b ∧ s' = created_session b s.
Proof.
unfold request_booking. rewrite bind_Ok. setoid_rewrite try_except_Ok.
pose proof (get_vehicle_pure listing vehicle tok s) as Hp.
destruct (get_vehicle listing vehicle tok s) as [[vi|e] s0] eqn:Ev; simpl in Hp; subst s0.
2:{ split; [|naive_solver].
    intros (? & ? & [?|(? & ? & k & ? & Hk & Hr)] & _); [done|].
    by destruct x1; simplify_eq. }
set (b := new_booking (senv s) vi renter vehicle sd ed).
set (s1 := mk_session (committed s) (set_bookings (<[bk_id b := b]> (bookings (work s))) (work s))
  (world s) (shift_env (senv s))).
assert (row_types b → no_clash b (bookings (work s)) →
  (booking ← append_events b [("booking_requested", [])] "requested";
   (if decide (vi_booking_mode vi = "instant")
    then _emit_authorize_payment_requested booking else mret tt);;
   save booking;; mret booking) s1 = (Ok b', s') ↔
  versions_free (bk_id b) 2 1 (booking_events (work s)) ∧
  b' = set_progress 2 "requested" b ∧ s' = created_session b s) as Htail.
{ intros Hrow Hclash. change (vi_booking_mode vi) with (bk_booking_mode b).
  rewrite request_tail; [| done | done | done | by apply no_clash_insert
    | by apply lookup_insert_eq].
  simpl. rewrite insert_insert_eq. unfold created_session. naive_solver. }
split.
- intros (? & ? & [[= <- <-]|(?&?&?&[=]&_)] & Hr). exists vi. split; [done|].
  case_decide as Hap; [done|]. split; [done|].
  apply bind_Ok in Hr as (b0 & s2 & (Hc&->&->)%create_requested_Ok & Hr).
  fold b s1 in Hc, Hr. destruct Hc as (?&?&?). apply Htail in Hr as (?&?&?); [|done|done].
  by split_and!.
- intros (? & [= <-] & Hap & (?&?&?&?) & -> & ->). exists vi, s. split; [by left|].
  rewrite decide_False by (intros ?; done). rewrite bind_Ok.
  exists b, s1. split; [by apply create_requested_Ok; split_and!|]. by apply Htail.
Qed.
End request.

Lemma wf_created {W} (b : Booking) (s : session BookingDB W) :
  wf (work s) → bk_version b = 1%Z → bk_status b = "requested" →
  bk_start_odometer b = None → bk_end_odometer b = None → bk_start_fuel_percent b = None →
  bk_end_fuel_percent b = None → bk_start_photo_url b = None → bk_end_photo_url b = None →
  bk_overage_cents b = 0%Z →
  bookings (work s) !! bk_id b = None → no_clash b (bookings (work s)) →
  wf (work (created_session b s)).
Proof.
  intros Hwf Hv Hst H1 H2 H3 H4 H5 H6 H7 Hnone Hclash.
  assert (∀ i, events_of i (work (created_session b s)) = events_of i (work s) ++
    if decide (bk_id b = i) then new_events (shift_env (senv s)) (bk_id b) 2 requested_event else [])
    as Hev.
  { intros i. unfold events_of, created_session. simpl work. simpl booking_events.
    rewrite filter_app. f_equal. }
  split.
  - intros i x. simpl. rewrite lookup_insert_Some. intros [[<- <-]|[_ ?]]; [done|].
    by apply (wf_id _ Hwf).
  - intros i x. simpl. rewrite lookup_insert_Some. intros [[<- <-]|[_ ?]]; [|by apply (wf_status _ Hwf i)].
    by apply (bool_decide_eq_true_1 _).
  - simpl. apply clash_insert; [done| |apply (wf_clash _ Hwf)].
    intros i x Hx. destruct (Hclash i x Hx) as [?|Hn]; [by left|right]. intros Hc. apply Hn.
    unfold clash, holds_dates in *. by rewrite Hst.
  - intros i x. rewrite Hev. simpl. rewrite lookup_insert_Some, fmap_app.
    intros [[<- <-]|[Hne Hi]].
    + rewrite decide_True, (wf_orphan _ Hwf) by done. simpl. done.
    + rewrite decide_False, app_nil_r by done. by apply (wf_versions _ Hwf).
  - intros i x. rewrite Hev. simpl. rewrite lookup_insert_Some. intros [[<- <-]|[Hne Hi]].
    + rewrite decide_True, (wf_orphan _ Hwf) by done. simpl.
      unfold view. simpl. by rewrite H1, H2, H3, H4, H5, H6, H7.
    + rewrite decide_False, app_nil_r by done. by apply (wf_replay _ Hwf).
  - intros i. rewrite Hev. simpl. rewrite lookup_insert_None. intros [Hi Hne].
    rewrite decide_False, app_nil_r by done. by apply (wf_orphan _ Hwf).
Qed.

(** ** Histories of the service *)
Section steps.
Context (W : Type) (L : listing_http → Prop) (Q : uuid → command → Prop).

(** One committed transaction, given by the run of the service function
  that produced it; [L] says which listing services are meant, [Q] which
  commands. *)
Inductive booking_step_by (db : BookingDB) : BookingDB → Prop :=
| step_create listing renter vehicle sd ed tok (s s' : session BookingDB W) b :
  L listing → work s = db → request_booking listing renter vehicle sd ed tok s = (Ok b, s') →
  booking_step_by db (work s')
| step_command id c (s s' : session BookingDB W) b :
  Q id c → work s = db → run_command id c s = (Ok b, s') → booking_step_by db (work s')
| step_bookkeeping db' : same_bookings db db' → booking_step_by db db'.
End steps.

(** Any request, any command. *)
Abbreviation booking_step W := (booking_step_by W (λ _, True) (λ _ _, True)).

Lemma booking_step_weaken W (L L' : listing_http → Prop) (Q Q' : uuid → command → Prop) db db' :
  (∀ l, L l → L' l) → (∀ id c, Q id c → Q' id c) →
  booking_step_by W L Q db db' → booking_step_by W L' Q' db db'.
Proof.
  intros HL HQ [listing renter vehicle sd ed tok s s' b Hl Hs Hr|id c s s' b Hc Hs Hr|db'' H];
    [eapply step_create; eauto | eapply step_command; eauto | by apply step_bookkeeping].
Qed.

Definition empty_bookings (db : BookingDB) : Prop := bookings db = ∅ ∧ booking_events db = [].

Definition reachable (W : Type) (db : BookingDB) : Prop :=
  ∃ db0, empty_bookings db0 ∧ rtc (booking_step W) db0 db.

Lemma wf_empty db : empty_bookings db → wf db.
Proof.
  intros [Hb He]. split; unfold events_of; rewrite ?Hb, ?He; try done;
    intros *; rewrite lookup_empty; done.
Qed.

Lemma wf_same db db' : same_bookings db db' → wf db → wf db'.
Proof.
  intros (Hb & He & _) [H1 H2 H3 H4 H5 H6].
  split; unfold events_of in *; rewrite ?Hb, ?He; done.
Qed.

Lemma run_command_Ok {W} id c (s s' : session BookingDB W) b' :
  run_command id c s = (Ok b', s') ↔
  ∃ b, bookings (work s) !! id = Some b ∧ command_body id c b s = (Ok b', s').
Proof.
  unfold run_command, with_booking. rewrite run_bind. simpl.
  destruct (bookings (work s) !! id) as [b|]; [naive_solver|].
  split; [done | by intros (? & ? & _)].
Qed.

Lemma wf_step W L Q db db' : booking_step_by W L Q db db' → wf db → wf db'.
Proof.
  intros [listing renter vehicle sd ed tok s s' b _ <- Hr | id c s s' b _ <- Hr | db'' Hsame] Hwf.
  - apply request_booking_Ok in Hr as (vi & _ & _ & (Hn & _ & Hc & _) & _ & ->).
    by apply wf_created.
  - apply run_command_Ok in Hr as (b0 & Hb0 & Hr).
    apply command_body_Ok in Hr as (_ & Hd & Hf & _ & ->). simpl.
    pose proof (wf_id _ Hwf _ _ Hb0) as <-. by apply wf_command.
  - by eapply wf_same.
Qed.

Lemma wf_reachable W db : reachable W db → wf db.
Proof.
  intros (db0 & H0 & Hsteps). apply wf_empty in H0.
  induction Hsteps; [done|]. eauto using wf_step.
Qed.

(** A row only changes together with its version, which only grows. *)
Lemma step_row W L Q db db' i b :
  wf db → booking_step_by W L Q db db' → bookings db !! i = Some b →
  ∃ b', bookings db' !! i = Some b' ∧ (b' = b ∨ bk_version b < bk_version b')%Z.
Proof.
  intros Hwf [listing renter vehicle sd ed tok s s' b0 _ <- Hr | id c s s' b0 _ <- Hr | db'' [Hb _]] Hi.
  - apply request_booking_Ok in Hr as (vi & _ & _ & (Hn & _) & _ & ->). exists b.
    split; [|by left]. simpl. rewrite lookup_insert_ne; [done|]. intros <-. simpl in *. congruence.
  - apply run_command_Ok in Hr as (b1 & Hb1 & Hr).
    apply command_body_Ok in Hr as (_ & _ & _ & _ & ->). simpl.
    pose proof (wf_id _ Hwf _ _ Hb1) as <-. destruct (decide (bk_id b1 = i)) as [<-|Hne].
    + rewrite lookup_insert_eq. eexists. split; [done|]. right. assert (b = b1) as -> by congruence.
      rewrite apply_op_version. pose proof (op_events_length (command_op c) b1). lia.
    + rewrite lookup_insert_ne by done. eauto.
  - exists b. rewrite Hb. eauto.
Qed.

(** C5: no vehicle is booked twice for a day.  In every reachable database
    two live (neither cancelled nor rejected) bookings of one vehicle have
    disjoint date ranges. *)
Theorem no_double_booking (W : Type) (db : BookingDB) (i j : uuid) (b b' : Booking) (day : date) :
  reachable W db → bookings db !! i = Some b → bookings db !! j = Some b' → i ≠ j →
  bk_vehicle_id b = bk_vehicle_id b' →
  bk_status b ∉ ["cancelled"; "rejected"] → bk_status b' ∉ ["cancelled"; "rejected"] →
  ¬ ((bk_start_date b ≤ day ≤ bk_end_date b)%Z ∧ (bk_start_date b' ≤ day ≤ bk_end_date b')%Z).
Proof.
  intros Hwf%wf_reachable Hi Hj Hij Hv Hs Hs' [??].
  apply (wf_clash _ Hwf i j b b' Hi Hj Hij). unfold clash, holds_dates. split_and!; try done; lia.
Qed.

(** C9: the event log is the booking.  In every reachable database the log of
    a booking carries the versions 2, 3, ..., [version], in order and without
    gap, and folding it from nothing gives the row: status, handover and
    return readings, overage. *)
Theorem event_log_replays (W : Type) (db : BookingDB) (id : uuid) (b : Booking) :
  reachable W db → bookings db !! id = Some b →
  ev_version <$> events_of id db = seqZ 2 (bk_version b - 1) ∧
  replay (events_of id db) = Some (view b).
Proof.
  intros Hwf%wf_reachable Hb. split; [by apply (wf_versions _ Hwf) | by apply (wf_replay _ Hwf)].
Qed.

(** No step touches a booking in an end state. *)
Lemma terminal_step W L Q db db' i b :
  wf db → booking_step_by W L Q db db' → bookings db !! i = Some b → terminal (bk_status b) →
  bookings db' !! i = Some b.
Proof.
  intros Hwf [listing renter vehicle sd ed tok s s' b0 _ <- Hr | id c s s' b0 _ <- Hr | db'' [Hb _]] Hi Ht.
  - apply request_booking_Ok in Hr as (vi & _ & _ & (Hn & _) & _ & ->).
    simpl. rewrite lookup_insert_ne; [done|]. intros <-. simpl in *. congruence.
  - apply run_command_Ok in Hr as (b1 & Hb1 & Hr).
    apply command_body_Ok in Hr as (_ & Hd & _ & _ & ->). simpl.
    pose proof (wf_id _ Hwf _ _ Hb1) as <-. rewrite lookup_insert_ne; [done|]. intros <-.
    assert (b1 = b) as -> by congruence.
    destruct (domain_apply _ _) as [t|] eqn:Et; [|done].
    apply domain_apply_Ok in Et as (Hst & _). simpl in Hst. rewrite Hst in Ht.
    by eapply terminal_no_move, expects_settles.
  - by rewrite Hb.
Qed.

(** C17: the end states are final: a cancelled, rejected or completed booking
    never changes again, whatever is asked of it. *)
Theorem terminal_bookings_final (W : Type) (db db' : BookingDB) (i : uuid) (b : Booking) :
  reachable W db → rtc (booking_step W) db db' → bookings db !! i = Some b →
  bk_status b ∈ ["cancelled"; "rejected"; "completed"] → bookings db' !! i = Some b.
Proof.
  intros Hwf%wf_reachable Hs Hb Ht. induction Hs as [|x y z Hxy _ IH]; [done|].
  apply IH; [by eapply wf_step | by eapply terminal_step].
Qed.

(** Of two commands that loaded the same version, the second to write
    fails with a concurrent-update error or one of its guards; it never
    returns. *)
Theorem stale_write_refused (W : Type) (b b1 : Booking) (c1 c2 : command)
    (s s1 s2 : session BookingDB W) (r : result Booking) :
  reachable W (work s) → bookings (work s) !! bk_id b = Some b →
  command_body (bk_id b) c1 b s = (Ok b1, s1) →
  command_body (bk_id b) c2 b s1 = (r, s2) → is_Ok r = false.
Proof.
  intros Hwf%wf_reachable Hb H1 H2. destruct r as [b2|e]; [|done]. exfalso.
  assert (run_command (bk_id b) c1 s = (Ok b1, s1)) as Hrun by (apply run_command_Ok; eauto).
  assert (booking_step W (work s) (work s1)) as Hs by (by eapply step_command).
  apply command_body_Ok in H1 as (_ & _ & _ & _ & ->).
  apply command_body_Ok in H2 as (_ & _ & Hf & _).
  assert (bookings (work (command_session c1 b s)) !! bk_id b = Some (apply_op (command_op c1) b))
    as Hcur by apply lookup_insert_eq.
  pose proof (op_events_length (command_op c1) b) as Hl.
  destruct (wf_versions _ Hwf _ _ Hb) as [Hv _].
  pose proof (snapshot_current _ c2 _ _ (wf_step _ _ _ _ _ Hs Hwf) Hcur) as Hsc.
  rewrite apply_op_version in Hsc. specialize (Hsc ltac:(lia) Hf). lia.
Qed.
