(* ===== verification/BookingConcurrency.v ===== *)
(** * BookingConcurrency: commands that overlap in time

    A handler reads the booking, works on the object it read, and writes
    later.  [conc_step] lets any number of commands be between the two, on
    objects that may have become stale, while other transactions commit.
    The unique index on (booking_id, version) is the optimistic lock:
    [interleavings_serialise] shows that what is committed is always the
    result of running the commands one after the other. *)
From S2P Require Import Prelude Python Columns Effects Outbox Inbox Idempotency BookingDomain.
From S2P Require Import BookingRepo BookingService BookingFacts BookingInvariant.

(** The database, and the objects the open transactions have loaded. *)
Record conc := mk_conc { c_db : BookingDB; c_open : list Booking }.

Section concurrency.
Context (W : Type).

Inductive conc_step : conc → conc → Prop :=
| conc_load db open id b :
  bookings db !! id = Some b → conc_step (mk_conc db open) (mk_conc db (b :: open))
| conc_finish open1 b open2 c (s s' : session BookingDB W) b' :
  command_body (bk_id b) c b s = (Ok b', s') →
  conc_step (mk_conc (work s) (open1 ++ b :: open2)) (mk_conc (work s') (open1 ++ open2))
| conc_abort db open1 b open2 :
  conc_step (mk_conc db (open1 ++ b :: open2)) (mk_conc db (open1 ++ open2))
| conc_atomic db db' open :
  booking_step W db db' → conc_step (mk_conc db open) (mk_conc db' open).

(** An open object is at most as recent as its row, and is the row when
  the versions agree. *)
Definition loaded (db : BookingDB) (b : Booking) : Prop :=
∃ cur, bookings db !! bk_id b = Some cur ∧ (1 ≤ bk_version b ≤ bk_version cur)%Z ∧
  (bk_version b = bk_version cur → b = cur).

Lemma loaded_step db db' b : wf db → booking_step W db db' → loaded db b → loaded db' b.
Proof.
intros Hwf Hs (cur & Hcur & Hle & Heq).
destruct (step_row _ _ _ _ _ _ _ Hwf Hs Hcur) as (cur' & Hcur' & Hor).
exists cur'. destruct Hor as [Hor|Hlt]; [subst cur'; naive_solver|].
split_and!; [done | lia | lia | lia].
Qed.

(** The write of a loaded object goes through only if it is not stale. *)
Lemma finish_step b c (s s' : session BookingDB W) b' :
wf (work s) → loaded (work s) b → command_body (bk_id b) c b s = (Ok b', s') →
booking_step W (work s) (work s').
Proof.
intros Hwf (cur & Hcur & Hle & Heq) Hr. pose proof Hr as (_ & _ & Hf & _)%command_body_Ok.
assert (b = cur) as -> by (apply Heq; by eapply snapshot_current).
eapply step_command; [done..|]. apply run_command_Ok. eauto.
Qed.

Definition conc_ok (st : conc) : Prop := wf (c_db st) ∧ Forall (loaded (c_db st)) (c_open st).

Lemma conc_step_ok st st' :
conc_ok st → conc_step st st' → conc_ok st' ∧ rtc (booking_step W) (c_db st) (c_db st').
Proof.
intros [Hwf Hop] Hs. destruct Hs as [db open id b Hb | open1 b open2 c s s' b' Hr
  | db open1 b open2 | db db' open Hs]; simpl in *; unfold conc_ok; simpl.
- split; [|done]. split; [done|]. constructor; [|done].
  pose proof (wf_id _ Hwf _ _ Hb) as <-. exists b. pose proof (wf_versions _ Hwf _ _ Hb).
  split_and!; try done; lia.
- apply Forall_app in Hop as [H1 [Hb H2]%Forall_cons_1].
  pose proof (finish_step _ _ _ _ _ Hwf Hb Hr) as Hstep.
  split; [|by apply rtc_once]. split; [by eapply wf_step|].
  apply Forall_app. split; (eapply Forall_impl; [done|]); intros; by eapply loaded_step.
- split; [|done]. split; [done|]. apply Forall_app in Hop as [H1 [_ H2]%Forall_cons_1].
  by apply Forall_app.
- split; [|by apply rtc_once]. split; [by eapply wf_step|].
  eapply Forall_impl; [done|]. intros; by eapply loaded_step.
Qed.
End concurrency.

(** C6: overlapping commands serialise.  Whatever the interleaving of loads
    and writes, the committed database is one that some sequence of complete
    commands, run one at a time, produces: a stale write never goes through,
    no update is lost. *)
Theorem interleavings_serialise (W : Type) (db0 : BookingDB) (st : conc) :
  reachable W db0 → rtc (conc_step W) (mk_conc db0 []) st →
  rtc (booking_step W) db0 (c_db st) ∧ reachable W (c_db st).
Proof.
  intros Hr Hsteps. pose proof (wf_reachable _ _ Hr) as Hwf.
  assert (∀ st st', rtc (conc_step W) st st' → conc_ok st →
    rtc (booking_step W) (c_db st) (c_db st')) as H.
  { induction 1 as [|st1 st2 st3 Hs _ IH]; intros Hok; [done|].
    destruct (conc_step_ok _ _ _ Hok Hs) as [Hok2 H12]. etrans; eauto. }
  specialize (H _ _ Hsteps). simpl in H.
  assert (rtc (booking_step W) db0 (c_db st)) as Hdb by (by apply H).
  split; [done|]. destruct Hr as (e & He & H0). exists e. split; [done|]. by etrans.
Qed.
