(* ===== verification/BookingRoutes.v ===== *)
(** * BookingRoutes: services/booking/schemas.py, routes.py and the wiring of app.py

    The HTTP endpoints of the booking service and its payment-event consumer.
    [booking_request] enumerates the endpoints, [handle] is the router.
    [service_step] is everything the running service does to its node, and
    [service_reachable] brings it down to the steps of BookingInvariant: what
    holds of every reachable booking database holds of the service. *)
From S2P Require Import Prelude Python Columns Effects Outbox Inbox Idempotency JwtAuth Http.
From S2P Require Import Pagination.
From S2P Require Import BookingDomain BookingRepo BookingService BookingFacts BookingInvariant.

(** ** schemas.py *)
Record CreateBookingRequest := mk_create_request {
  cr_vehicle_id : uuid;
  cr_start_date : date;
  cr_end_date : date;
}.

(** [check_date_order]. *)
Definition create_request_ok (p : CreateBookingRequest) : bool :=
  negb (bool_decide (cr_end_date p ≤ cr_start_date p)%Z).

(** [HandoverRequest] and [ReturnRequest] have the same fields. *)
Record ReadingRequest := mk_reading {
  rd_odometer : Z;
  rd_fuel_percent : Z;
  rd_photo_url : string;
}.

Definition reading_ok (p : ReadingRequest) : bool :=
  bool_decide (0 ≤ rd_odometer p)%Z && bool_decide (0 ≤ rd_fuel_percent p ≤ 100)%Z
  && bool_decide (1 ≤ String.length (rd_photo_url p) ≤ 512).

Definition _booking_response (booking : Booking) : dict :=
  [("id", PStr (str_uuid (bk_id booking)));
   ("vehicle_id", PStr (str_uuid (bk_vehicle_id booking)));
   ("host_id", PStr (str_uuid (bk_host_id booking)));
   ("renter_id", PStr (str_uuid (bk_renter_id booking)));
   ("start_date", PDate (bk_start_date booking));
   ("end_date", PDate (bk_end_date booking));
   ("daily_price_cents", PInt (bk_daily_price_cents booking));
   ("daily_mileage_limit", PInt (bk_daily_mileage_limit booking));
   ("booking_mode", PStr (bk_booking_mode booking));
   ("status", PStr (bk_status booking));
   ("start_odometer", opt_int (bk_start_odometer booking));
   ("end_odometer", opt_int (bk_end_odometer booking));
   ("start_fuel_percent", opt_int (bk_start_fuel_percent booking));
   ("end_fuel_percent", opt_int (bk_end_fuel_percent booking));
   ("start_photo_url", opt_str (bk_start_photo_url booking));
   ("end_photo_url", opt_str (bk_end_photo_url booking));
   ("overage_cents", PInt (bk_overage_cents booking))].

(** ** routes.py *)
Section routes.
Context {W : Type} `{!Platform}.
Notation Mb := (M (session BookingDB W)).
Variable cfg : jwt_settings.
Variable listing : listing_http.

(** The [except] clauses of the four host commands. *)
Definition command_errors {A} (m : Mb A) : Mb A :=
try_except m (λ e,
  match e with
  | BookingNotFoundError _ => Some (raise (HTTPException 404 "booking not found"))
  | NotBookingPartyError _ => Some (raise (HTTPException 403 "not your booking"))
  | InvalidBookingTransitionError msg => Some (raise (HTTPException 409 msg))
  | _ => None
  end).

Definition json_of (m : Mb Booking) : Mb string :=
booking ← m; mret (model_dump_json (_booking_response booking)).

Definition create_build (authorization : option string) (claims : dict)
  (payload : CreateBookingRequest) : Mb string :=
json_of (try_except
  (renter_id ← claims_sub claims;
   match authorization with
   | None => raise unprocessable
   | Some a =>
       match split_space_1 a with
       | None => raise IndexError
       | Some tok =>
           request_booking listing renter_id (cr_vehicle_id payload) (cr_start_date payload)
             (cr_end_date payload) tok
       end
   end)
  (λ e, match e with
        | VehicleNotBookableError _ => Some (raise (HTTPException 404 "vehicle not bookable"))
        | OverlappingBookingError _ =>
            Some (rollback;;
                  raise (HTTPException 409 "vehicle is already booked for these dates"))
        | _ => None
        end)).

Definition create (rq : request) (payload : input CreateBookingRequest) : Mb Response :=
mutation cfg rq (constrained create_request_ok payload) ["renter"] 201
  (create_build (rq_authorization rq)).

Definition list_bookings_handler (claims : dict) (limit offset : Z) : Mb dict :=
require_role claims ["admin"];;
bookings ← list_all_bookings (limit + 1) offset;
let next_offset := if decide (limit < Z.of_nat (length bookings))%Z
  then PInt (offset + limit) else PNone in
mret [("items", PList ((λ b, PDict (_booking_response b)) <$> slice_to bookings limit));
      ("next_offset", next_offset)].

(** [limit] and [offset] are the query parameters. *)
Definition list_bookings (rq : request) (page : input (Z * Z)) : Mb Response :=
query cfg rq page (λ claims '(limit, offset), list_bookings_handler claims limit offset).

Definition get_booking (rq : request) (booking_id : input uuid) : Mb Response :=
query cfg rq booking_id (λ claims booking_id,
  booking ← try_except
    (viewer_id ← claims_sub claims;
     get_booking_for_viewer booking_id viewer_id (claims_role claims))
    (λ e, match e with
          | BookingNotFoundError _ => Some (raise (HTTPException 404 "booking not found"))
          | NotBookingPartyError _ => Some (raise (HTTPException 403 "not your booking"))
          | _ => None
          end);
  mret (_booking_response booking)).


Definition accept (rq : request) (booking_id : input uuid) : Mb Response :=
mutation cfg rq booking_id ["host"] 200 (λ claims id,
  json_of (command_errors (host_id ← claims_sub claims; accept_booking_request id host_id))).

Definition reject (rq : request) (booking_id : input uuid) : Mb Response :=
mutation cfg rq booking_id ["host"] 200 (λ claims id,
  json_of (command_errors (host_id ← claims_sub claims; reject_booking_request id host_id))).

Definition reading_input_ok (p : uuid * ReadingRequest) : bool := reading_ok p.2.

Definition handover (rq : request) (i : input (uuid * ReadingRequest)) : Mb Response :=
mutation cfg rq (constrained reading_input_ok i) ["host"] 200 (λ claims '(id, payload),
  json_of (command_errors (host_id ← claims_sub claims;
    record_handover id host_id (rd_odometer payload) (rd_fuel_percent payload)
      (rd_photo_url payload)))).

Definition return_car (rq : request) (i : input (uuid * ReadingRequest)) : Mb Response :=
mutation cfg rq (constrained reading_input_ok i) ["host"] 200 (λ claims '(id, payload),
  json_of (command_errors (host_id ← claims_sub claims;
    record_return id host_id (rd_odometer payload) (rd_fuel_percent payload)
      (rd_photo_url payload)))).
End routes.

(** The router: an endpoint with its path, query and body. *)
Inductive booking_request :=
| PostBookings (payload : input CreateBookingRequest)
| GetBookings (page : input (Z * Z))
| GetBooking (booking_id : input uuid)
| PostAccept (booking_id : input uuid)
| PostReject (booking_id : input uuid)
| PostHandover (i : input (uuid * ReadingRequest))
| PostReturn (i : input (uuid * ReadingRequest)).

Definition handle {W} `{!Platform} (cfg : jwt_settings) (listing : listing_http) (rq : request)
    (r : booking_request) : M (session BookingDB W) Response :=
  match r with
  | PostBookings p => create cfg listing rq p
  | GetBookings p => list_bookings cfg rq p
  | GetBooking i => get_booking cfg rq i
  | PostAccept i => accept cfg rq i
  | PostReject i => reject cfg rq i
  | PostHandover i => handover cfg rq i
  | PostReturn i => return_car cfg rq i
  end.

(** ** What a request or an event does to the database *)
Section boundary.
Context {W : Type} `{!Platform}.
Implicit Types (s : session BookingDB W) (n : node BookingDB W).

(** No operation of the service commits, or touches the inbox or the
  idempotency keys. *)
Definition quiet s : BookingDB * gset string * gmap (string * string) IdemRow :=
(committed s, b_inbox (work s), b_idem (work s)).

Lemma quiet_write_outbox at_ ai et d :
preserves quiet (write_outbox_event (DB := BookingDB) (W := W) at_ ai et d).
Proof. intros s. done. Qed.
Lemma quiet_flush b : preserves quiet (flush_booking (W := W) b).
Proof. intros s. unfold flush_booking. run. by repeat case_decide. Qed.
Lemma quiet_insert_event i v t p : preserves quiet (insert_event (W := W) i v t p).
Proof. intros s. unfold insert_event. run. by repeat case_decide. Qed.
#[local] Hint Resolve quiet_write_outbox quiet_flush quiet_insert_event : preserves.
Lemma quiet_append_events b evs st : preserves quiet (append_events (W := W) b evs st).
Proof.
unfold append_events. apply preserves_bind; [|preserves]. generalize 1%Z as o.
induction evs as [|[t p] evs IH]; intros o; simpl; [preserves|].
preserves.
Qed.
#[local] Hint Resolve quiet_append_events : preserves.
Lemma quiet_command_body id c b : preserves quiet (command_body (W := W) id c b).
Proof.
destruct c; simpl; unfold accept_body, reject_body, handover_body, return_body, payment_body,
  _apply_transition, _emit_authorize_payment_requested, _emit_domain_event, lift, save; preserves.
Qed.
#[local] Hint Resolve quiet_command_body : preserves.
Lemma quiet_run_command id c : preserves quiet (run_command (W := W) id c).
Proof. unfold run_command, with_booking, get_by_id, get_db. preserves. Qed.
Lemma quiet_create_requested v h r sd ed p l m :
preserves quiet (create_requested (W := W) v h r sd ed p l m).
Proof. unfold create_requested, uuid4, now, get_db. preserves. Qed.
#[local] Hint Resolve quiet_create_requested : preserves.
Lemma quiet_request_booking listing renter vehicle sd ed tok :
preserves quiet (request_booking (W := W) listing renter vehicle sd ed tok).
Proof.
unfold request_booking, get_vehicle, _emit_authorize_payment_requested, save, lift.
destruct (listing vehicle tok) as [[]|]; preserves.
Qed.

Lemma quiet_no_commit {A} (m : M (session BookingDB W) A) : preserves quiet m → no_commit m.
Proof. intros Hm s. specialize (Hm s). unfold quiet in Hm. congruence. Qed.

Lemma no_commit_json_of (m : M (session BookingDB W) Booking) : no_commit m → no_commit (json_of m).
Proof. intros. unfold json_of. no_commit. Qed.
Lemma no_commit_command_errors {A} (m : M (session BookingDB W) A) :
no_commit m → no_commit (command_errors m).
Proof. intros. unfold command_errors. no_commit. Qed.

Lemma json_of_Ok (m : M (session BookingDB W) Booking) s j s' :
json_of m s = (Ok j, s') → ∃ b, m s = (Ok b, s').
Proof. unfold json_of. rewrite bind_Ok. intros (b & s1 & Hm & [= _ <-]). eauto. Qed.

Lemma command_errors_Ok {A} (m : M (session BookingDB W) A) s a s' :
command_errors m s = (Ok a, s') → m s = (Ok a, s').
Proof.
unfold command_errors. rewrite try_except_Ok. intros [?|(e & ? & k & _ & Hk & Hr)]; [done|].
by destruct e; simplify_eq.
Qed.

Lemma claims_sub_Ok claims s u s' : claims_sub claims s = (Ok u, s') → s' = s.
Proof.
intros Hc. pose proof (read_only_claims_sub claims s) as Hr. by rewrite Hc in Hr.
Qed.

(** The host of a command is the token's subject. *)
Lemma host_command_Ok (claims : dict) id (c : uuid → command) s j s' :
json_of (command_errors (host_id ← claims_sub claims; run_command id (c host_id))) s = (Ok j, s') →
∃ h b, run_command id (c h) s = (Ok b, s').
Proof.
intros (b & Hc%command_errors_Ok)%json_of_Ok.
apply bind_Ok in Hc as (h & s1 & ->%claims_sub_Ok & Hr). eauto.
Qed.

Lemma host_command_no_commit (claims : dict) id (c : uuid → command) :
no_commit (DB := BookingDB) (W := W)
  (json_of (command_errors (host_id ← claims_sub claims; run_command id (c host_id)))).
Proof.
apply no_commit_json_of, no_commit_command_errors, no_commit_bind; [no_commit|].
intros h. apply quiet_no_commit, quiet_run_command.
Qed.

Lemma create_build_Ok listing auth claims p s j s' :
create_build listing auth claims p s = (Ok j, s') →
∃ renter tok b, request_booking listing renter (cr_vehicle_id p) (cr_start_date p)
  (cr_end_date p) tok s = (Ok b, s').
Proof.
intros (b & Hc)%json_of_Ok. apply try_except_Ok in Hc as [Hc|(e & ? & k & _ & Hk & Hr)].
- apply bind_Ok in Hc as (r & s1 & ->%claims_sub_Ok & Hr).
  destruct auth as [a|]; [|done]. destruct (split_space_1 a) as [tok|]; [eauto|done].
- by destruct e; simplify_eq.
Qed.

Lemma create_build_no_commit listing auth claims p :
no_commit (DB := BookingDB) (W := W) (create_build listing auth claims p).
Proof.
unfold create_build. apply no_commit_json_of, no_commit_try.
- apply no_commit_bind; [no_commit|]. intros r. destruct auth as [a|]; [|no_commit].
  destruct (split_space_1 a); [|no_commit]. apply quiet_no_commit, quiet_request_booking.
- no_commit.
Qed.
End boundary.

Lemma same_set_idem (db : BookingDB) m : same_bookings db (set_idem m db).
Proof. done. Qed.

(** ** The service *)
Section service_steps.
Context {W : Type} `{!Platform}.
Implicit Types (s : session BookingDB W) (n : node BookingDB W).
Variable cfg : jwt_settings.
Variable listing : listing_http.

(** Everything that happens to a node of the service: a request, a consumed
  record of the payment topic, the cleanup loop, the passage of time. *)
Inductive service_step n : node BookingDB W → Prop :=
| svc_request rq r resp n' :
  serve (handle cfg listing rq r) n = (resp, n') → service_step n n'
| svc_record record res n' :
  consume (inbox_process PAYMENT_EVENT_HANDLERS) record n = (res, n') → service_step n n'
| svc_cleanup older_than res n' :
  run_session (purge_expired_idempotency_keys older_than) n = (res, n') → service_step n n'
| svc_environment w e : service_step n (n.1.1, w, e).

(** A mutation whose handler makes one booking step. *)
Lemma mutation_steps {P} L Q rq (i : input P) roles status (build : dict → P → M _ string) s res s' :
(∀ claims p, no_commit (build claims p)) →
(∀ claims p s1 j s2, i = Valid p → build claims p s1 = (Ok j, s2) →
   booking_step_by W L Q (work s1) (work s2)) →
committed s = work s → mutation cfg rq i roles status build s = (res, s') →
rtc (booking_step_by W L Q) (committed s) (committed s').
Proof.
intros Hnc Hb. apply mutation_rtc; [done..|]. intros db m. by apply step_bookkeeping.
Qed.

(** The commands of the HTTP interface. *)
Definition by_host (c : command) : Prop :=
match c with
| CmdAccept _ | CmdReject _ | CmdHandover _ _ _ _ | CmdReturn _ _ _ _ => True
| _ => False
end.

(** The command a payment event stands for. *)
Definition payment_command (event_type : string) : option command :=
if decide (event_type = "payment_authorized") then Some CmdPaymentAuthorized
else if decide (event_type = "payment_authorization_failed") then Some CmdPaymentAuthorizationFailed
else if decide (event_type = "payment_captured") then Some CmdPaymentCaptured
else if decide (event_type = "payment_capture_failed") then Some CmdPaymentCaptureFailed
else None.

(** The command and booking a record of type [t] with [data] asks for. *)
Definition asked_by (t : string) (data : dict) (id : uuid) (c : command) : Prop :=
payment_command t = Some c ∧ uuid_field data "booking_id" id.

Lemma list_bookings_read_only rq p : read_only (list_bookings (W := W) cfg rq p).
Proof. 
apply query_read_only. unfold list_bookings_handler, list_all_bookings, list_all, get_db. read_only.
Qed.

Lemma get_booking_read_only rq i : read_only (get_booking (W := W) cfg rq i).
Proof.
apply query_read_only. unfold get_booking_for_viewer, with_booking, get_by_id, get_db. read_only.
Qed.

Lemma handle_Err rq r s e s' : handle cfg listing rq r s = (Err e, s') → committed s' = committed s.
Proof.
destruct r as [p|p|i|i|i|i|i]; simpl.
- apply mutation_Err. intros. apply create_build_no_commit.
- intros Hr. pose proof (list_bookings_read_only rq p s) as Hro. rewrite Hr in Hro.
  by simpl in Hro; subst.
- intros Hr. pose proof (get_booking_read_only rq i s) as Hro. rewrite Hr in Hro.
  by simpl in Hro; subst.
- apply mutation_Err. intros. apply (host_command_no_commit _ _ CmdAccept).
- apply mutation_Err. intros. apply (host_command_no_commit _ _ CmdReject).
- apply mutation_Err. intros claims [id q]. apply (host_command_no_commit _ _ (λ h, CmdHandover h _ _ _)).
- apply mutation_Err. intros claims [id q]. apply (host_command_no_commit _ _ (λ h, CmdReturn h _ _ _)).
Qed.

Lemma handle_steps rq r s res s' :
committed s = work s → handle cfg listing rq r s = (res, s') →
rtc (booking_step_by W (eq listing) (λ _ c, by_host c)) (committed s) (committed s').
Proof.
intros Hs. destruct r as [p|p|i|i|i|i|i]; simpl.
- apply mutation_steps; [intros; apply create_build_no_commit| |done].
  intros claims q s1 j s2 _ (renter & tok & b & Hr)%create_build_Ok. by eapply step_create.
- intros Hr. pose proof (list_bookings_read_only rq p s) as Hro. rewrite Hr in Hro.
  by simpl in Hro; subst.
- intros Hr. pose proof (get_booking_read_only rq i s) as Hro. rewrite Hr in Hro.
  by simpl in Hro; subst.
- apply mutation_steps; [intros; apply (host_command_no_commit _ _ CmdAccept)| |done].
  intros claims q s1 j s2 _ (h & b & Hr)%(host_command_Ok _ _ CmdAccept). eapply step_command; [|done|exact Hr]; done.
- apply mutation_steps; [intros; apply (host_command_no_commit _ _ CmdReject)| |done].
  intros claims q s1 j s2 _ (h & b & Hr)%(host_command_Ok _ _ CmdReject). eapply step_command; [|done|exact Hr]; done.
- apply mutation_steps; [| |done].
  + intros claims [id q]. apply (host_command_no_commit _ _ (λ h, CmdHandover h _ _ _)).
  + intros claims [id q] s1 j s2 _ (h & b & Hr)%(host_command_Ok _ _ (λ h, CmdHandover h _ _ _)).
    eapply step_command; [|done|exact Hr]; done.
- apply mutation_steps; [| |done].
  + intros claims [id q]. apply (host_command_no_commit _ _ (λ h, CmdReturn h _ _ _)).
  + intros claims [id q] s1 j s2 _ (h & b & Hr)%(host_command_Ok _ _ (λ h, CmdReturn h _ _ _)).
    eapply step_command; [|done|exact Hr]; done.
Qed.

(** The payment-event handlers are commands. *)
Lemma payment_handler t h d :
handlers_get (PAYMENT_EVENT_HANDLERS (W := W)) t = Some h →
∃ c, payment_command t = Some c ∧ h d = (v ← getitem d "booking_id"; id ← to_uuid v; run_command id c;; mret tt).
Proof.
unfold payment_command. simpl. repeat case_decide; intros [= <-]; by eexists.
Qed.

Lemma payment_handlers_ok : handlers_ok (PAYMENT_EVENT_HANDLERS (W := W)).
Proof.
assert (∀ d c, preserves quiet (v ← getitem d "booking_id"; id ← to_uuid v;
  run_command (W := W) id c;; mret tt)) as Hq.
{ intros d c. apply preserves_bind; [preserves|]. intros v. apply preserves_bind; [preserves|].
  intros id. apply preserves_bind; [apply quiet_run_command | preserves]. }
assert (∀ h : handler BookingDB W, (∀ d, ∃ c, h d = (v ← getitem d "booking_id"; id ← to_uuid v;
  run_command (W := W) id c;; mret tt)) → inbox_preserving h) as Hh.
{ intros h Hd d s. destruct (Hd d) as [c ->]. specialize (Hq d c s). unfold quiet in Hq.
  simpl. split; congruence. }
unfold handlers_ok, PAYMENT_EVENT_HANDLERS. rewrite !Forall_cons. split_and!; [| | | |done];
  apply Hh; intros d;
  [by exists CmdPaymentAuthorized | by exists CmdPaymentAuthorizationFailed
  |by exists CmdPaymentCaptured | by exists CmdPaymentCaptureFailed].
Qed.

Lemma payment_record_steps i t d n res n' :
inbox_process PAYMENT_EVENT_HANDLERS i t d n = (res, n') →
rtc (booking_step_by W (λ _, False) (asked_by t d)) n.1.1 n'.1.1.
Proof.
intros Hp. destruct (decide (i ∈ b_inbox n.1.1)) as [Hi|Hi].
{ rewrite inbox_process_claimed in Hp by done. by simplify_eq. }
destruct res as [[]|e].
2:{ pose proof (inbox_process_unclaimed _ i t d n _ n' payment_handlers_ok Hi Hp) as ->. done. }
assert (same_bookings n.1.1 (work (claimed_session i n))) as Hclaim by (by destruct n as [[]]).
apply rtc_l with (work (claimed_session i n)); [by apply step_bookkeeping|].
destruct (handlers_get (PAYMENT_EVENT_HANDLERS (W := W)) t) as [h|] eqn:Eh.
- rewrite (inbox_process_handled _ _ _ _ _ h) in Hp by done.
  destruct (payment_handler t h d Eh) as (c & Hc & Hh). rewrite Hh in Hp.
  revert Hp. generalize (claimed_session i n) as s. intros s Hp.
  match type of Hp with context [let (_, _) := ?m in _] => destruct m as [[[]|x] s1] eqn:Er end;
    [|done]. injection Hp as <-. simpl.
  apply bind_Ok in Er as (v & s2 & Hv & Er). apply bind_Ok in Er as (id & s3 & Hid & Er).
  pose proof (read_only_getitem d "booking_id" s) as R1. rewrite Hv in R1. simpl in R1. subst s2.
  pose proof (read_only_to_uuid v s) as R2. rewrite Hid in R2. simpl in R2. subst s3.
  apply bind_Ok in Er as (b & s2 & Hr & [= <-]).
  apply rtc_once. eapply step_command; [|done..]. split; [done|].
  by eapply getitem_uuid.
- rewrite inbox_process_ignored in Hp by done. injection Hp as <-. done.
Qed.

Lemma rtc_weaken (L : listing_http → Prop) (Q : uuid → command → Prop) db db' :
rtc (booking_step_by W L Q) db db' → rtc (booking_step W) db db'.
Proof. apply rtc_subrel. intros x y. by apply booking_step_weaken. Qed.

Lemma service_step_steps n n' : service_step n n' → rtc (booking_step W) n.1.1 n'.1.1.
Proof.
intros [rq r resp n1 Hr|record res n1 Hr|older res n1 Hr|w e]; [| | |done].
- destruct n as [[db w] e]. unfold serve, run_session in Hr.
  destruct (handle cfg listing rq r _) as [x s'] eqn:E. simplify_eq. simpl.
  apply (rtc_weaken (eq listing) (λ _ c, by_host c)).
  by apply (handle_steps rq r (mk_session db db w e) x s').
- destruct (record_fields record) as [[[i t] d]|] eqn:Ef.
  + rewrite (consume_fields _ _ _ _ _ _ Ef) in Hr. eapply payment_record_steps, rtc_weaken in Hr; eauto.
  + destruct (consume_malformed (inbox_process PAYMENT_EVENT_HANDLERS) record n Ef) as [e He].
    rewrite He in Hr. by simplify_eq.
- destruct n as [[db w] e]. unfold run_session in Hr. simpl in Hr. simplify_eq. simpl.
  by apply rtc_once, step_bookkeeping.
Qed.
End service_steps.

Lemma node_reachable {W : Type} `{!Platform} cfg listing (n0 n : node BookingDB W) :
  empty_bookings n0.1.1 → rtc (service_step cfg listing) n0 n → reachable W n.1.1.
Proof.
  intros H0 Hsteps. exists n0.1.1. split; [done|].
  clear H0. induction Hsteps as [|n1 n2 n3 H12 _ IH]; [done|].
  etrans; [by eapply service_step_steps | done].
Qed.

(** Whatever requests, events, redeliveries and cleanups the service
    processes, in any order, started on empty tables, its database is one
    the booking steps reach; [no_double_booking] and [event_log_replays]
    hold of it. *)
Theorem service_reachable {W : Type} `{!Platform} (cfg : jwt_settings) (listing : listing_http)
    (n0 n : node BookingDB W) :
  empty_bookings n0.1.1 → rtc (service_step cfg listing) n0 n → reachable W n.1.1.
Proof. apply node_reachable. Qed.

(** C28: an error response to a booking request means that nothing happened:
    the database is unchanged. *)
Theorem booking_errors_change_nothing {W : Type} `{!Platform} (cfg : jwt_settings)
    (listing : listing_http) (rq : request) (r : booking_request) (n n' : node BookingDB W) (e : exn) :
  run_session (handle cfg listing rq r) n = (Err e, n') → n'.1.1 = n.1.1.
Proof.
  destruct n as [[db w] env]. unfold run_session.
  destruct (handle cfg listing rq r _) as [res s'] eqn:E. intros [= -> <-]. simpl.
  by apply handle_Err in E.
Qed.

(** C30: an administrator who follows [next_offset] from 0 gets every booking
    exactly once, oldest first, and the crawl ends. *)
Theorem list_bookings_complete {W : Type} (claims : dict) (limit : Z) (s : session BookingDB W) :
  dict_get claims "role" = Some (PStr "admin") →
  (1 ≤ limit < 2 ^ 62)%Z → (Z.of_nat (size (bookings (work s))) < 2 ^ 62)%Z →
  ∃ rows, rows ≡ₚ (map_to_list (bookings (work s))).*2 ∧ StronglySorted list_order rows ∧
    crawl (λ offset, match list_bookings_handler claims limit offset s with
                     | (Ok d, _) => Some d | (Err _, _) => None end)
      (S (length rows)) 0 = Some ((λ b, PDict (_booking_response b)) <$> rows).
Proof.
  intros Hrole Hlimit Hsize.
  set (rows := merge_sort list_order ((map_to_list (bookings (work s))).*2)).
  exists rows. assert (rows ≡ₚ (map_to_list (bookings (work s))).*2) as Hperm
    by apply merge_sort_Permutation.
  assert (length rows = size (bookings (work s))) as Hlen.
  { by rewrite (Permutation_length Hperm), length_fmap, length_map_to_list. }
  split; [done|]. split.
  { apply StronglySorted_merge_sort.
    - intros a b c. unfold list_order. lia.
    - intros a b. unfold list_order. lia. }
  apply (crawl_complete _ rows limit); [lia|]. intros offset Hoff. rewrite Hlen in Hoff.
  unfold list_bookings_handler. rewrite run_bind.
  destruct (require_role claims ["admin"] s) as [[[]|e] s1] eqn:Er.
  2:{ revert Er. unfold require_role. rewrite Hrole. by rewrite decide_True by set_solver. }
  apply require_role_Ok in Er as [-> _]. rewrite run_bind.
  unfold list_all_bookings, list_all. rewrite run_bind. simpl.
  rewrite decide_False by (unfold bigint_nat; lia). done.
Qed.
