(* ===== verification/Payment.v ===== *)
(** * Payment: services/payment (models, repository, stripe_client, service,
    consumers, routes)

    The payment service holds, captures and books the money of a booking.
    It obeys commands of the booking service, calls Stripe, and answers with
    events.  [StripeClient] is the protocol of stripe_client.py; Stripe's own
    state is part of the world a rollback does not undo, and
    [StripeTestModeClient] is the wrapper over the SDK ([StripeSdk]). *)
From S2P Require Import Prelude Python Effects Outbox Inbox Idempotency JwtAuth Http.
From S2P Require Import Columns.

(** ** models.py and migrations/versions/0001_initial.py *)
Record Payment := mk_payment {
  pm_id : uuid;
  pm_booking_id : uuid;
  pm_renter_id : uuid;
  pm_hold_amount_cents : Z;
  pm_overage_cents : Z;
  pm_status : string;
  pm_stripe_payment_intent_id : option string;
  pm_stripe_overage_intent_id : option string;
}.

Record LedgerEntry := mk_entry {
  le_id : uuid;
  le_payment_id : uuid;
  le_booking_id : uuid;
  le_account : string;
  le_direction : string;
  le_amount_cents : Z;
  le_reason : string;
}.

(** [payments] is keyed by its unique column booking_id. *)
Record PaymentDB := mk_payment_db {
  payments : gmap uuid Payment;
  ledger : list LedgerEntry;
  p_outbox : list OutboxRow;
  p_inbox : gset string;
}.

#[export, refine] Instance payment_outbox : HasOutbox PaymentDB := {|
  get_outbox := p_outbox;
  set_outbox rows db := mk_payment_db (payments db) (ledger db) rows (p_inbox db);
|}.
Proof. done. Defined.
#[export, refine] Instance payment_inbox : HasInbox PaymentDB := {|
  get_inbox := p_inbox;
  set_inbox ids db := mk_payment_db (payments db) (ledger db) (p_outbox db) ids;
|}.
Proof. done. Defined.

Definition set_payments (m : gmap uuid Payment) (db : PaymentDB) : PaymentDB :=
  mk_payment_db m (ledger db) (p_outbox db) (p_inbox db).
Definition set_ledger (l : list LedgerEntry) (db : PaymentDB) : PaymentDB :=
  mk_payment_db (payments db) l (p_outbox db) (p_inbox db).

Definition set_status (status : string) (p : Payment) : Payment :=
  mk_payment (pm_id p) (pm_booking_id p) (pm_renter_id p) (pm_hold_amount_cents p)
    (pm_overage_cents p) status (pm_stripe_payment_intent_id p) (pm_stripe_overage_intent_id p).
Definition set_overage (intent : string) (cents : Z) (p : Payment) : Payment :=
  mk_payment (pm_id p) (pm_booking_id p) (pm_renter_id p) (pm_hold_amount_cents p)
    cents (pm_status p) (pm_stripe_payment_intent_id p) (Some intent).

Definition payment_statuses : list string :=
  ["authorized"; "authorization_failed"; "captured"; "capture_failed"].

Definition payment_types (p : Payment) : Prop :=
  int4 (pm_hold_amount_cents p) ∧ int4 (pm_overage_cents p) ∧ varchar 24 (pm_status p) ∧
  opt_all (varchar 255) (pm_stripe_payment_intent_id p) ∧
  opt_all (varchar 255) (pm_stripe_overage_intent_id p).
#[export] Instance payment_types_dec p : Decision (payment_types p).
Proof. unfold payment_types. apply _. Defined.

(** The column types and CHECK constraints of a ledger row. *)
Definition entry_types (e : LedgerEntry) : Prop :=
  int4 (le_amount_cents e) ∧ varchar 64 (le_account e) ∧ varchar 6 (le_direction e) ∧
  varchar 32 (le_reason e).
#[export] Instance entry_types_dec e : Decision (entry_types e).
Proof. unfold entry_types. apply _. Defined.

Definition entry_checks (e : LedgerEntry) : Prop :=
  le_direction e ∈ ["debit"; "credit"] ∧ (0 < le_amount_cents e)%Z.
#[export] Instance entry_checks_dec e : Decision (entry_checks e).
Proof. unfold entry_checks. apply _. Defined.

(** ** stripe_client.py *)
Record StripeClient (W : Type) := mk_stripe_client {
  authorize : Z → string → W → result string * W;
  capture : option string → Z → string → W → result unit * W;
  authorize_and_capture : Z → string → W → result string * W;
}.
Arguments mk_stripe_client {W}.
Arguments authorize {W}.
Arguments capture {W}.
Arguments authorize_and_capture {W}.

Record IntentParams := mk_intent_params {
  ip_amount : Z;
  ip_currency : string;
  ip_payment_method : string;
  ip_capture_method : string;
  ip_confirm : bool;
}.

(** The Stripe SDK: [payment_intents.create] and [.capture] with an
    idempotency key ([None] is a [stripe.StripeError]), and
    [stripe.Webhook.construct_event] ([None] is a bad payload or signature). *)
Class StripeSdk (W : Type) := {
  payment_intents_create : IntentParams → string → W → option string * W;
  payment_intents_capture : option string → Z → string → W → option unit * W;
  construct_event : string → string → string → option dict;
}.

Definition stripe_result {A W} (r : option A * W) : result A * W :=
  match r with
  | (Some a, w) => (Ok a, w)
  | (None, w) => (Err StripeError, w)
  end.

Definition StripeTestModeClient {W} `{!StripeSdk W} (test_payment_method : string) : StripeClient W :=
  mk_stripe_client
    (λ amount_cents key w, stripe_result (payment_intents_create
      (mk_intent_params amount_cents "usd" test_payment_method "manual" true) key w))
    (λ intent amount_cents key w, stripe_result (payment_intents_capture intent amount_cents key w))
    (λ amount_cents key w, stripe_result (payment_intents_create
      (mk_intent_params amount_cents "usd" test_payment_method "automatic" true) key w)).

Section payment.
Context {W : Type}.
Notation Mp := (M (session PaymentDB W)).

(** ** repository.py *)
Definition get_by_booking_id (booking_id : uuid) : Mp (option Payment) :=
db ← get_db; mret (payments db !! booking_id).

(** [session.flush()] for the payment object. *)
Definition flush_payment (p : Payment) : Mp unit :=
db ← get_db;
if decide (¬ payment_types p) then raise DataError
else if decide (pm_status p ∉ payment_statuses) then raise IntegrityError
else put_db (set_payments (<[pm_booking_id p := p]> (payments db)) db).

Definition create (booking_id renter_id : uuid) (hold_amount_cents : Z) (status : string)
  (intent : option string) : Mp Payment :=
id ← uuid4;
let payment := mk_payment id booking_id renter_id hold_amount_cents 0 status intent None in
db ← get_db;
(if decide (is_Some (payments db !! booking_id)) then raise IntegrityError
 else flush_payment payment);;
mret payment.

Definition save (payment : Payment) : Mp unit := flush_payment payment.

Definition insert_entry (e : LedgerEntry) : Mp unit :=
db ← get_db;
if decide (¬ entry_types e) then raise DataError
else if decide (¬ entry_checks e) then raise IntegrityError
else if decide (map_Forall (λ _ p, pm_id p ≠ le_payment_id e) (payments db))
then raise IntegrityError
else put_db (set_ledger (ledger db ++ [e]) db).

Definition write_ledger_pair (payment_id booking_id : uuid) (debit_account credit_account : string)
  (amount_cents : Z) (reason : string) : Mp unit :=
id1 ← uuid4;
id2 ← uuid4;
insert_entry (mk_entry id1 payment_id booking_id debit_account "debit" amount_cents reason);;
insert_entry (mk_entry id2 payment_id booking_id credit_account "credit" amount_cents reason).

(** ** service.py *)
Variable stripe_client : StripeClient W.

Definition emit (booking_id : uuid) (event_type : string) : Mp unit :=
write_outbox_event "payment" (str_uuid booking_id) event_type
  [("booking_id", PStr (str_uuid booking_id))];;
mret tt.

(** [try: r = client.op() except StripeError: ... else: ...]: [inl] on the error. *)
Definition or_stripe_error {A} (m : Mp A) : Mp (unit + A) :=
try_except (a ← m; mret (inr a)) (λ e,
  match e with StripeError => Some (mret (inl tt)) | _ => None end).

Definition handle_authorize_payment_requested (booking_id renter_id : uuid) (amount_cents : Z) :
  Mp unit :=
existing ← get_by_booking_id booking_id;
match existing with
| Some _ => mret tt
| None =>
    r ← or_stripe_error
      (call (authorize stripe_client amount_cents ("authorize:" +:+ str_uuid booking_id)));
    match r with
    | inl _ =>
        create booking_id renter_id amount_cents "authorization_failed" None;;
        emit booking_id "payment_authorization_failed"
    | inr intent_id =>
        create booking_id renter_id amount_cents "authorized" (Some intent_id);;
        emit booking_id "payment_authorized"
    end
end.

Definition handle_capture_payment_requested (booking_id host_id : uuid)
  (hold_amount_cents overage_cents : Z) : Mp unit :=
payment ← get_by_booking_id booking_id;
match payment with
| None => mret tt
| Some payment =>
    if decide (pm_status payment ≠ "authorized") then mret tt
    else
      r ← or_stripe_error (call (capture stripe_client (pm_stripe_payment_intent_id payment)
        hold_amount_cents ("capture:" +:+ str_uuid booking_id)));
      match r with
      | inl _ =>
          save (set_status "capture_failed" payment);;
          emit booking_id "payment_capture_failed"
      | inr _ =>
          write_ledger_pair (pm_id payment) booking_id
            ("renter:" +:+ str_uuid (pm_renter_id payment)) ("host:" +:+ str_uuid host_id)
            hold_amount_cents "rental";;
          payment ← (if decide (0 < overage_cents)%Z then
              r ← or_stripe_error (call (authorize_and_capture stripe_client overage_cents
                ("overage:" +:+ str_uuid booking_id)));
              match r with
              | inl _ => mret payment
              | inr overage_intent_id =>
                  let payment := set_overage overage_intent_id overage_cents payment in
                  save payment;;
                  write_ledger_pair (pm_id payment) booking_id
                    ("renter:" +:+ str_uuid (pm_renter_id payment))
                    ("host:" +:+ str_uuid host_id) overage_cents "mileage_overage";;
                  mret payment
              end
            else mret payment);
          save (set_status "captured" payment);;
          emit booking_id "payment_captured"
      end
end.

(** ** consumers.py *)
Definition consume_authorize (data : dict) : Mp unit :=
b ← getitem data "booking_id"; booking_id ← to_uuid b;
r ← getitem data "renter_id"; renter_id ← to_uuid r;
a ← getitem data "amount_cents"; amount_cents ← as_int a;
handle_authorize_payment_requested booking_id renter_id amount_cents.

Definition consume_capture (data : dict) : Mp unit :=
b ← getitem data "booking_id"; booking_id ← to_uuid b;
h ← getitem data "host_id"; host_id ← to_uuid h;
a ← getitem data "hold_amount_cents"; hold_amount_cents ← as_int a;
o ← getitem data "overage_cents"; overage_cents ← as_int o;
handle_capture_payment_requested booking_id host_id hold_amount_cents overage_cents.

Definition build_booking_command_handlers : list (string * handler PaymentDB W) :=
[("authorize_payment_requested", consume_authorize);
 ("capture_payment_requested", consume_capture)].
End payment.

(** ** routes.py *)
Definition _payment_response (payment : Payment) : dict :=
  [("booking_id", PStr (str_uuid (pm_booking_id payment)));
   ("renter_id", PStr (str_uuid (pm_renter_id payment)));
   ("status", PStr (pm_status payment));
   ("hold_amount_cents", PInt (pm_hold_amount_cents payment));
   ("overage_cents", PInt (pm_overage_cents payment));
   ("stripe_payment_intent_id", opt_str (pm_stripe_payment_intent_id payment))].

Section routes.
Context {W : Type} `{!Platform} `{!StripeSdk W}.
Notation Mp := (M (session PaymentDB W)).

Definition get_payment (cfg : jwt_settings) (rq : request) (booking_id : input uuid) : Mp Response :=
query cfg rq booking_id (λ claims booking_id,
  require_role claims ["admin"];;
  payment ← get_by_booking_id booking_id;
  match payment with
  | None => raise (HTTPException 404 "payment not found")
  | Some payment => mret (_payment_response payment)
  end).

(** [signature] is the Stripe-Signature header, [body] the raw payload. *)
Definition stripe_webhook (webhook_secret : string) (signature : option string) (body : string) :
  Mp Response :=
match signature with
| None => raise unprocessable
| Some signature =>
    match construct_event body signature webhook_secret with
    | None => raise (HTTPException 400 "invalid webhook signature")
    | Some event =>
        i ← getitem event "id"; event_id ← as_str i;
        claimed ← claim_event event_id;
        (if (claimed : bool) then _ ← getitem event "type"; mret tt else mret tt);;
        commit;;
        mret (mk_response 200 (model_dump_json [("status", PStr "ok")]))
    end
end.
End routes.
