(* ===== verification/PaymentFacts.v ===== *)
(** * PaymentFacts: the payment commands, branch by branch, and the books

    [authorize_Ok] and [capture_Ok] give the exact effect of the two commands
    on the database, the outbox and Stripe, and [ledger_pair], [balance] and
    [charged] how the ledger is read. *)
From S2P Require Import Prelude Python Effects Outbox Inbox Idempotency JwtAuth Http.
From S2P Require Import Columns Payment.

(** ** The ledger *)
Definition entries_of (id : uuid) (db : PaymentDB) : list LedgerEntry :=
  filter (λ e, le_booking_id e = id) (ledger db).

(** The two rows of [write_ledger_pair], with ids from [e]. *)
Definition ledger_pair (e : env) (payment_id booking_id : uuid) (debit credit : string)
    (amount : Z) (reason : string) : list LedgerEntry :=
  [mk_entry (fresh e 0) payment_id booking_id debit "debit" amount reason;
   mk_entry (fresh e 1) payment_id booking_id credit "credit" amount reason].

(** Debits count positive, credits negative. *)
Definition signed (e : LedgerEntry) : Z :=
  if decide (le_direction e = "debit") then le_amount_cents e else (- le_amount_cents e)%Z.
Definition balance (es : list LedgerEntry) : Z := foldr (λ e z, (signed e + z)%Z) 0%Z es.

(** What the debit rows of [es] charge to [account]. *)
Definition charged (account : string) (es : list LedgerEntry) : Z :=
  foldr (λ e z, (if decide (le_direction e = "debit" ∧ le_account e = account)
                 then le_amount_cents e + z else z)%Z) 0%Z es.

Lemma balance_app es es' : balance (es ++ es') = (balance es + balance es')%Z.
Proof. induction es; simpl; lia. Qed.
Lemma charged_app a es es' : charged a (es ++ es') = (charged a es + charged a es')%Z.
Proof. induction es; simpl; [done|]. case_decide; lia. Qed.

Lemma balance_pair e pid bid d c amount reason :
  balance (ledger_pair e pid bid d c amount reason) = 0%Z.
Proof. unfold balance, signed. simpl. lia. Qed.

Lemma charged_pair e pid bid d c amount reason :
  charged d (ledger_pair e pid bid d c amount reason) = amount.
Proof. unfold charged. simpl. repeat case_decide; destruct_ands; try done; try lia. naive_solver. Qed.

Lemma pair_entries e pid bid d c amount reason i :
  filter (λ e, le_booking_id e = i) (ledger_pair e pid bid d c amount reason) =
  if decide (bid = i) then ledger_pair e pid bid d c amount reason else [].
Proof. unfold ledger_pair. rewrite !filter_cons, filter_nil. simpl. by repeat case_decide. Qed.

(** The rows of a pair are accepted. *)
Definition pair_fits (debit credit : string) (amount : Z) (reason : string) : Prop :=
  int4 amount ∧ (0 < amount)%Z ∧ varchar 64 debit ∧ varchar 64 credit ∧ varchar 32 reason.

#[export] Instance pair_fits_dec d c a r : Decision (pair_fits d c a r).
Proof. unfold pair_fits. apply _. Defined.

(** ** One statement at a time *)
Section facts.
Context {W : Type}.
Implicit Types s : session PaymentDB W.

Lemma flush_payment_Ok p s u s' :
flush_payment p s = (Ok u, s') ↔
payment_types p ∧ pm_status p ∈ payment_statuses ∧
s' = with_work (set_payments (<[pm_booking_id p := p]> (payments (work s))) (work s)) s.
Proof.
destruct u. unfold flush_payment. run.
repeat case_decide; try (split; [done | naive_solver]).
split; [intros [= <-]; naive_solver | by intros (_&_&->)].
Qed.

Definition fresh_payment (e : env) (bid renter : uuid) (hold : Z) (st : string) (i : option string) :
  Payment := mk_payment (fresh e 0) bid renter hold 0 st i None.

Lemma create_Ok bid renter hold st i s p s' :
payments (work s) !! bid = None →
create bid renter hold st i s = (Ok p, s') ↔
p = fresh_payment (senv s) bid renter hold st i ∧ payment_types p ∧ st ∈ payment_statuses ∧
s' = mk_session (committed s) (set_payments (<[bid := p]> (payments (work s))) (work s))
  (world s) (shift_env (senv s)).
Proof.
intros Hn. unfold create. run. rewrite Hn. rewrite decide_False by (by intros []).
fold (fresh_payment (senv s) bid renter hold st i).
destruct (flush_payment _ _) as [[[]|e] s1] eqn:Hf; simpl.
- apply flush_payment_Ok in Hf as (Ht & Hs & ->). simpl in *.
  split; [intros [= <- <-]; done | by intros (-> & _ & _ & ->)].
- split; [done|]. intros (-> & Ht & Hs & _).
  pose proof (proj2 (flush_payment_Ok (fresh_payment (senv s) bid renter hold st i)
    (mk_session (committed s) (work s) (world s) (shift_env (senv s))) tt _)
    (conj Ht (conj Hs eq_refl))) as Hok. by rewrite Hf in Hok.
Qed.

Lemma insert_entry_Ok e s u s' :
insert_entry e s = (Ok u, s') ↔
entry_types e ∧ entry_checks e ∧ (∃ i p, payments (work s) !! i = Some p ∧ pm_id p = le_payment_id e) ∧
s' = with_work (set_ledger (ledger (work s) ++ [e]) (work s)) s.
Proof.
destruct u. unfold insert_entry. run.
assert ((∃ i p, payments (work s) !! i = Some p ∧ pm_id p = le_payment_id e) ↔
  ¬ map_Forall (λ _ p, pm_id p ≠ le_payment_id e) (payments (work s))) as ->.
{ split.
  - intros (i & p & Hp & Hid) Hall. by apply (Hall i p Hp).
  - intros Hn. apply map_not_Forall in Hn as (i & p & Hp & Hid); [|apply _].
    exists i, p. split; [done|]. by destruct (decide (pm_id p = le_payment_id e)). }
repeat case_decide; try (split; [done | naive_solver]).
split; [intros [= <-]; naive_solver | by intros (_&_&_&->)].
Qed.

Lemma write_ledger_pair_Ok pid bid d c amount reason s u s' :
(∃ i p, payments (work s) !! i = Some p ∧ pm_id p = pid) →
write_ledger_pair pid bid d c amount reason s = (Ok u, s') ↔
pair_fits d c amount reason ∧
s' = mk_session (committed s)
  (set_ledger (ledger (work s) ++ ledger_pair (senv s) pid bid d c amount reason) (work s))
  (world s) (shift_env_n 2 (senv s)).
Proof.
intros Hfk. destruct u. unfold write_ledger_pair. do 2 (rewrite run_bind; simpl).
rewrite bind_Ok. setoid_rewrite insert_entry_Ok. unfold entry_types, entry_checks, pair_fits. simpl.
assert ("debit" ∈ ["debit"; "credit"]) by set_solver.
assert ("credit" ∈ ["debit"; "credit"]) by set_solver.
assert (varchar 6 "debit" ∧ varchar 6 "credit") as [??] by (unfold varchar; simpl; lia).
unfold with_work, set_ledger. simpl. split.
- intros (u & s1 & (?&?&_&->) & ?&?&_&->). simpl. rewrite <- app_assoc. naive_solver.
- intros ((?&?&?&?&?)&->). eexists tt, _. split_and!; try done.
  simpl. by rewrite <- app_assoc.
Qed.

Lemma or_stripe_error_Ok {A} (f : W → result A * W) s r s' :
or_stripe_error (call f) s = (Ok r, s') ↔
s' = with_world (snd (f (world s))) s ∧
match fst (f (world s)) with
| Ok a => r = inr a
| Err StripeError => r = inl tt
| Err _ => False
end.
Proof.
unfold or_stripe_error, try_except, call. rewrite run_bind.
destruct (f (world s)) as [[a|e] w]; simpl.
- split; [by intros [= <- <-] | by intros [-> ->]].
- destruct e; try (split; [done | by intros [_ []]]).
  split; [by intros [= <- <-] | by intros [-> ->]].
Qed.

Definition event_row (e : env) (bid : uuid) (event_type : string) : OutboxRow :=
outbox_row e "payment" (str_uuid bid) event_type [("booking_id", PStr (str_uuid bid))].

(** *** The authorize command *)
Variable client : StripeClient W.

(** Status, intent and event for Stripe's answer. *)
Definition authorize_outcome (r : result string) : option (string * option string * string) :=
match r with
| Ok intent => Some ("authorized", Some intent, "payment_authorized")
| Err StripeError => Some ("authorization_failed", None, "payment_authorization_failed")
| Err _ => None
end.

Definition authorize_call (bid : uuid) (amount : Z) (w : W) : result string * W :=
authorize client amount ("authorize:" +:+ str_uuid bid) w.

Lemma authorize_new_Ok bid renter amount s s' :
payments (work s) !! bid = None →
handle_authorize_payment_requested client bid renter amount s = (Ok tt, s') ↔
∃ st i et, authorize_outcome (fst (authorize_call bid amount (world s))) = Some (st, i, et) ∧
  let p := fresh_payment (senv s) bid renter amount st i in
  payment_types p ∧
  s' = mk_session (committed s)
    (mk_payment_db (<[bid := p]> (payments (work s))) (ledger (work s))
      (p_outbox (work s) ++ [event_row (shift_env (senv s)) bid et]) (p_inbox (work s)))
    (snd (authorize_call bid amount (world s))) (shift_env (shift_env (senv s))).
Proof.
intros Hn. unfold handle_authorize_payment_requested, get_by_booking_id. rewrite !run_bind. simpl.
rewrite Hn, bind_Ok. setoid_rewrite or_stripe_error_Ok. unfold authorize_call.
destruct (authorize client amount _ (world s)) as [r w]. simpl.
assert (∀ st i et, st ∈ payment_statuses →
  (create bid renter amount st i;; emit bid et) (with_world w s) = (Ok tt, s') ↔
  payment_types (fresh_payment (senv s) bid renter amount st i) ∧
  s' = mk_session (committed s)
    (mk_payment_db (<[bid := fresh_payment (senv s) bid renter amount st i]> (payments (work s)))
      (ledger (work s)) (p_outbox (work s) ++ [event_row (shift_env (senv s)) bid et])
      (p_inbox (work s))) w (shift_env (shift_env (senv s)))) as Hc.
{ intros st i et Hst. rewrite bind_Ok. setoid_rewrite create_Ok; [|done]. split.
  - intros (p & s1 & (-> & Ht & _ & ->) & [= <-]). done.
  - intros (Ht & ->). eexists _, _. split_and!; done. }
assert ("authorized" ∈ payment_statuses ∧ "authorization_failed" ∈ payment_statuses) as [??]
  by (split; apply (bool_decide_eq_true_1 _); done).
split.
- intros (x & s1 & (-> & Hx) & Hr). destruct r as [i|e]; [|destruct e; simpl in Hx; try done];
    simpl in Hx; subst x; apply Hc in Hr; try done; naive_solver.
- intros (st & i & et & Ho & Hr). destruct r as [j|e]; [|destruct e; simpl in Ho; try done];
    simplify_eq/=; eexists _, _; (split; [done|]); by apply Hc.
Qed.

Lemma authorize_known bid renter amount s p :
payments (work s) !! bid = Some p →
handle_authorize_payment_requested client bid renter amount s = (Ok tt, s).
Proof.
intros Hp. unfold handle_authorize_payment_requested, get_by_booking_id. rewrite !run_bind. simpl.
by rewrite Hp.
Qed.

(** *** The capture command *)
Definition capture_call (p : Payment) (bid : uuid) (amount : Z) (w : W) : result unit * W :=
capture client (pm_stripe_payment_intent_id p) amount ("capture:" +:+ str_uuid bid) w.
Definition overage_call (bid : uuid) (cents : Z) (w : W) : result string * W :=
authorize_and_capture client cents ("overage:" +:+ str_uuid bid) w.

Definition renter_account (p : Payment) : string := "renter:" +:+ str_uuid (pm_renter_id p).
Definition host_account (host : uuid) : string := "host:" +:+ str_uuid host.

(** What the overage charge comes to: the payment, the ledger rows, Stripe
  and the environment after it. *)
Definition overage_result (p : Payment) (bid host : uuid) (cents : Z) (w : W) (e : env) :
  Payment * list LedgerEntry * W * env :=
if decide (0 < cents)%Z then
  match overage_call bid cents w with
  | (Ok intent, w') =>
      (set_overage intent cents p,
       ledger_pair e (pm_id p) bid (renter_account p) (host_account host) cents "mileage_overage",
       w', shift_env_n 2 e)
  | (Err _, w') => (p, [], w', e)
  end
else (p, [], w, e).

(** Stripe answered or refused, and the rows of a charge fit. *)
Definition overage_fits (p : Payment) (bid host : uuid) (cents : Z) (w : W) : Prop :=
(0 < cents)%Z →
match fst (overage_call bid cents w) with
| Ok intent => payment_types (set_overage intent cents p) ∧
    pair_fits (renter_account p) (host_account host) cents "mileage_overage"
| Err e => e = StripeError
end.

Definition charge_overage (p : Payment) (bid host : uuid) (cents : Z) :
  M (session PaymentDB W) Payment :=
if decide (0 < cents)%Z then
  r ← or_stripe_error (call (authorize_and_capture client cents ("overage:" +:+ str_uuid bid)));
  match r with
  | inl _ => mret p
  | inr overage_intent_id =>
      let payment := set_overage overage_intent_id cents p in
      save payment;;
      write_ledger_pair (pm_id payment) bid ("renter:" +:+ str_uuid (pm_renter_id payment))
        ("host:" +:+ str_uuid host) cents "mileage_overage";;
      mret payment
  end
else mret p.

Lemma charge_overage_Ok p bid host cents s p' s' :
payments (work s) !! bid = Some p → pm_booking_id p = bid → pm_status p ∈ payment_statuses →
charge_overage p bid host cents s = (Ok p', s') ↔
overage_fits p bid host cents (world s) ∧
let '(p1, es, w1, e1) := overage_result p bid host cents (world s) (senv s) in
p' = p1 ∧
s' = mk_session (committed s)
  (mk_payment_db (<[bid := p1]> (payments (work s))) (ledger (work s) ++ es)
    (p_outbox (work s)) (p_inbox (work s))) w1 e1.
Proof.
intros Hp Hbid Hst. unfold charge_overage, overage_fits, overage_result.
assert (mk_session (committed s) (mk_payment_db (<[bid := p]> (payments (work s)))
  (ledger (work s) ++ []) (p_outbox (work s)) (p_inbox (work s))) (world s) (senv s) = s) as Hs.
{ rewrite insert_id, app_nil_r by done. by destruct s as [? []]. }
case_decide as Hc.
2:{ rewrite Hs. split; [by intros [= <- <-] | by intros (_ & -> & ->)]. }
rewrite bind_Ok. setoid_rewrite or_stripe_error_Ok. unfold overage_call.
destruct (authorize_and_capture client cents _ (world s)) as [r w]. simpl.
destruct r as [i|e].
- assert (∀ s0, s0 = with_world w s →
    (save (set_overage i cents p);;
     write_ledger_pair (pm_id p) bid (renter_account p) (host_account host) cents
       "mileage_overage";; mret (set_overage i cents p)) s0 = (Ok p', s') ↔
    (payment_types (set_overage i cents p) ∧
     pair_fits (renter_account p) (host_account host) cents "mileage_overage") ∧
    p' = set_overage i cents p ∧
    s' = mk_session (committed s)
      (mk_payment_db (<[bid := set_overage i cents p]> (payments (work s)))
        (ledger (work s) ++ ledger_pair (senv s) (pm_id p) bid (renter_account p)
          (host_account host) cents "mileage_overage")
        (p_outbox (work s)) (p_inbox (work s))) w (shift_env_n 2 (senv s))) as H.
  { intros s0 ->. rewrite bind_Ok. unfold save. setoid_rewrite flush_payment_Ok.
    setoid_rewrite bind_Ok. simpl. split.
    - intros (u & s1 & (Ht & _ & ->) & u' & s2 & Hw & [= <- <-]).
      apply write_ledger_pair_Ok in Hw as (Hf & ->).
      + simpl. by rewrite Hbid.
      + exists bid, (set_overage i cents p). simpl. rewrite Hbid. split; [apply lookup_insert_eq|done].
    - intros ((Ht & Hf) & -> & ->). eexists tt, _. split; [done|]. eexists tt, _. split; [|done].
      apply write_ledger_pair_Ok; [|by rewrite Hbid].
      exists bid, (set_overage i cents p). simpl. rewrite Hbid. split; [apply lookup_insert_eq|done]. }
  split.
  + intros (x & s1 & (-> & ->) & Hr). apply H in Hr; [|done].
    destruct Hr as (Hf & Hr). by split.
  + intros (Hf & Hr). eexists _, _. split; [done|]. apply H; [done|]. split; [by apply Hf | done].
- rewrite app_nil_r, insert_id by done. split.
  + intros (x & s1 & (-> & Hx) & Hr). destruct e; simpl in Hx; try done. subst x.
    injection Hr as <- <-. split_and!; [done..|]. by destruct s as [? []].
  + intros (Hf & -> & ->). specialize (Hf Hc). subst e. eexists _, _. split; [done|].
    simpl. by destruct s as [? []].
Qed.

Lemma capture_ignored bid host hold cents s :
(∀ p, payments (work s) !! bid = Some p → pm_status p ≠ "authorized") →
handle_capture_payment_requested client bid host hold cents s = (Ok tt, s).
Proof.
intros Hp. unfold handle_capture_payment_requested, get_by_booking_id. rewrite !run_bind. simpl.
destruct (payments (work s) !! bid) as [p|]; [|done]. rewrite decide_True; [done|]. by apply Hp.
Qed.

Lemma overage_result_id p bid host cents w e :
let '(p1, _, _, _) := overage_result p bid host cents w e in
pm_id p1 = pm_id p ∧ pm_booking_id p1 = pm_booking_id p.
Proof.
unfold overage_result. case_decide; [|done]. by destruct (overage_call bid cents w) as [[]].
Qed.

Lemma save_emit_Ok p bid st et s s' :
pm_booking_id p = bid → st ∈ payment_statuses →
(save (set_status st p);; emit bid et) s = (Ok tt, s') ↔
payment_types (set_status st p) ∧
s' = mk_session (committed s)
  (mk_payment_db (<[bid := set_status st p]> (payments (work s))) (ledger (work s))
    (p_outbox (work s) ++ [event_row (senv s) bid et]) (p_inbox (work s)))
  (world s) (shift_env (senv s)).
Proof.
intros <- Hst. rewrite bind_Ok. unfold save. setoid_rewrite flush_payment_Ok. split.
- intros (u & s1 & (Ht & _ & ->) & [= <-]). done.
- intros (Ht & ->). eexists tt, _. by split.
Qed.

Lemma capture_authorized_Ok bid host hold cents s s' p :
payments (work s) !! bid = Some p → pm_booking_id p = bid → pm_status p = "authorized" →
handle_capture_payment_requested client bid host hold cents s = (Ok tt, s') ↔
match capture_call p bid hold (world s) with
| (Err StripeError, w) =>
    payment_types (set_status "capture_failed" p) ∧
    s' = mk_session (committed s)
      (mk_payment_db (<[bid := set_status "capture_failed" p]> (payments (work s)))
        (ledger (work s)) (p_outbox (work s) ++ [event_row (senv s) bid "payment_capture_failed"])
        (p_inbox (work s))) w (shift_env (senv s))
| (Err _, _) => False
| (Ok _, w) =>
    pair_fits (renter_account p) (host_account host) hold "rental" ∧
    overage_fits p bid host cents w ∧
    let '(p1, es, w1, e1) := overage_result p bid host cents w (shift_env_n 2 (senv s)) in
    payment_types (set_status "captured" p1) ∧
    s' = mk_session (committed s)
      (mk_payment_db (<[bid := set_status "captured" p1]> (payments (work s)))
        (ledger (work s) ++ ledger_pair (senv s) (pm_id p) bid (renter_account p)
           (host_account host) hold "rental" ++ es)
        (p_outbox (work s) ++ [event_row e1 bid "payment_captured"])
        (p_inbox (work s))) w1 (shift_env e1)
end.
Proof.
intros Hp Hbid Hst. unfold handle_capture_payment_requested, get_by_booking_id.
rewrite !run_bind. simpl. rewrite Hp, decide_False by (intros ?; done).
assert (∀ st, st ∈ ["capture_failed"; "captured"] → st ∈ payment_statuses) as Hin.
{ intros st. rewrite !elem_of_cons, elem_of_nil. intros [->|[->|[]]];
    apply (bool_decide_eq_true_1 _); done. }
assert (pm_status p ∈ payment_statuses) as Hstp
  by (rewrite Hst; apply (bool_decide_eq_true_1 _); done).
rewrite bind_Ok. setoid_rewrite or_stripe_error_Ok. unfold capture_call.
destruct (capture client _ hold _ (world s)) as [r w]. simpl.
destruct r as [[]|e].
2:{ destruct e; try (split; [by intros (? & ? & (_ & []) & _) | done]).
    split.
    - intros (x & s1 & (-> & ->) & Hr). by apply save_emit_Ok in Hr; [| |apply Hin; set_solver].
    - intros Hr. eexists _, _. split; [done|]. apply save_emit_Ok; [done|apply Hin; set_solver|done]. }
assert (∀ s0, s0 = with_world w s →
  (write_ledger_pair (pm_id p) bid (renter_account p) (host_account host) hold "rental";;
   payment ← charge_overage p bid host cents;
   save (set_status "captured" payment);; emit bid "payment_captured") s0 = (Ok tt, s') ↔
  pair_fits (renter_account p) (host_account host) hold "rental" ∧
  overage_fits p bid host cents w ∧
  let '(p1, es, w1, e1) := overage_result p bid host cents w (shift_env_n 2 (senv s)) in
  payment_types (set_status "captured" p1) ∧
  s' = mk_session (committed s)
    (mk_payment_db (<[bid := set_status "captured" p1]> (payments (work s)))
      (ledger (work s) ++ ledger_pair (senv s) (pm_id p) bid (renter_account p)
         (host_account host) hold "rental" ++ es)
      (p_outbox (work s) ++ [event_row e1 bid "payment_captured"])
      (p_inbox (work s))) w1 (shift_env e1)) as Htail.
{ intros s0 ->. rewrite bind_Ok. setoid_rewrite write_ledger_pair_Ok; [|by exists bid, p].
  setoid_rewrite bind_Ok. simpl.
  pose proof (overage_result_id p bid host cents w (shift_env (shift_env (senv s)))) as Hid.
  destruct (overage_result p bid host cents w (shift_env (shift_env (senv s)))) as
    [[[p1 es] w1] e1] eqn:Ho. destruct Hid as [_ Hid]. split.
  - intros (u & s1 & (Hf & ->) & p' & s2 & Hc & Hr).
    apply charge_overage_Ok in Hc; [|done..]. simpl in Hc. rewrite Ho in Hc.
    destruct Hc as (Hof & -> & ->). apply save_emit_Ok in Hr as (Ht & ->);
      [|congruence|apply Hin; set_solver]. simpl. rewrite insert_insert_eq, <- app_assoc. done.
  - intros (Hf & Hof & Ht & ->). eexists tt, _. split; [done|]. eexists p1, _. split.
    + apply charge_overage_Ok; [done..|]. simpl. rewrite Ho. done.
    + apply save_emit_Ok; [congruence|apply Hin; set_solver|]. split; [done|].
      simpl. by rewrite insert_insert_eq, <- app_assoc. }
split.
- intros (x & s1 & (-> & ->) & Hr). by apply Htail in Hr.
- intros Hr. eexists _, _. split; [done|]. by apply Htail.
Qed.
End facts.
