(* ===== verification/PaymentBooks.v ===== *)
(** * PaymentBooks: the books of the payment service over its whole history

    [books] is the invariant of the payment database.  [payment_step] is one
    committed transaction, [pay_service_step] everything the running service
    does; the theorems are about every database it reaches: the ledger
    balances, a payment is final once it left "authorized", the renter is
    charged the captured hold and the overage, once; a capture Stripe did not
    answer is booked as failed for good. *)
From S2P Require Import Prelude Python Effects Outbox Inbox Idempotency JwtAuth Http.
From S2P Require Import Columns Payment PaymentFacts.

#[local] Arguments ledger_pair : simpl never.

(** A ledger row without its surrogate key. *)
Definition line (e : LedgerEntry) : uuid * string * string * Z * string :=
  (le_payment_id e, le_account e, le_direction e, le_amount_cents e, le_reason e).

Definition pair_lines (pid : uuid) (debit credit : string) (amount : Z) (reason : string) :
    list (uuid * string * string * Z * string) :=
  [(pid, debit, "debit", amount, reason); (pid, credit, "credit", amount, reason)].

(** The rows of a captured payment: the rental pair, and the overage pair
    when an overage was charged. *)
Definition captured_lines (p : Payment) (host : uuid) (hold : Z) :
    list (uuid * string * string * Z * string) :=
  pair_lines (pm_id p) (renter_account p) (host_account host) hold "rental" ++
  match pm_stripe_overage_intent_id p with
  | Some _ => pair_lines (pm_id p) (renter_account p) (host_account host) (pm_overage_cents p)
                "mileage_overage"
  | None => []
  end.

Definition overage_consistent (p : Payment) : Prop :=
  match pm_stripe_overage_intent_id p with
  | Some _ => (0 < pm_overage_cents p)%Z
  | None => pm_overage_cents p = 0%Z
  end.

Definition booked (p : Payment) (es : list LedgerEntry) : Prop :=
  overage_consistent p ∧
  if decide (pm_status p = "captured")
  then ∃ host hold, (0 < hold)%Z ∧ line <$> es = captured_lines p host hold
  else es = [] ∧ pm_stripe_overage_intent_id p = None.

Record books (db : PaymentDB) : Prop := mk_books {
  books_key : ∀ i p, payments db !! i = Some p → pm_booking_id p = i;
  books_status : ∀ i p, payments db !! i = Some p → pm_status p ∈ payment_statuses;
  books_hold : ∀ i p, payments db !! i = Some p →
    (pm_status p = "authorization_failed" ↔ pm_stripe_payment_intent_id p = None);
  books_booked : ∀ i p, payments db !! i = Some p → booked p (entries_of i db);
  books_orphan : ∀ i, payments db !! i = None → entries_of i db = [];
  books_balance : balance (ledger db) = 0%Z;
}.

Definition same_books (db db' : PaymentDB) : Prop :=
  payments db' = payments db ∧ ledger db' = ledger db ∧ p_outbox db' = p_outbox db.

(** The commands the service obeys. *)
Inductive pay_command :=
| PayAuthorize (booking_id renter_id : uuid) (amount_cents : Z)
| PayCapture (booking_id host_id : uuid) (hold_amount_cents overage_cents : Z).

Section steps.
Context {W : Type} (client : StripeClient W) (Q : pay_command → Prop).
Implicit Types s : session PaymentDB W.

(** One committed transaction; [Q] says which commands are meant. *)
Inductive payment_step_by (db : PaymentDB) : PaymentDB → Prop :=
| pstep_authorize bid renter amount s s' :
  Q (PayAuthorize bid renter amount) → work s = db →
  handle_authorize_payment_requested client bid renter amount s = (Ok tt, s') →
  payment_step_by db (work s')
| pstep_capture bid host hold cents s s' :
  Q (PayCapture bid host hold cents) → work s = db →
  handle_capture_payment_requested client bid host hold cents s = (Ok tt, s') →
  payment_step_by db (work s')
| pstep_bookkeeping db' : same_books db db' → payment_step_by db db'.

Lemma entries_app i db m l o inb es bid :
Forall (λ e, le_booking_id e = bid) es →
l = ledger db ++ es →
entries_of i (mk_payment_db m l o inb) = entries_of i db ++ if decide (bid = i) then es else [].
Proof.
intros Hes ->. unfold entries_of. simpl. rewrite filter_app. f_equal.
induction Hes as [|e es He _ IH]; [by case_decide|].
rewrite filter_cons, IH, He. by repeat case_decide.
Qed.

Lemma books_insert db bid p l es o inb :
books db → pm_booking_id p = bid → pm_status p ∈ payment_statuses →
(pm_status p = "authorization_failed" ↔ pm_stripe_payment_intent_id p = None) →
l = ledger db ++ es → Forall (λ e, le_booking_id e = bid) es → balance es = 0%Z →
booked p (entries_of bid db ++ es) →
books (mk_payment_db (<[bid := p]> (payments db)) l o inb).
Proof.
intros [B1 B2 B3 B4 B5 B6] Hid Hst Hh Hl Hes Hbal Hbk.
pose proof (λ i, entries_app i db (<[bid := p]> (payments db)) l o inb es bid Hes Hl) as He.
split; simpl.
- intros i q [[<- <-]|[_ Hq]]%lookup_insert_Some; [done | by apply B1].
- intros i q [[<- <-]|[_ Hq]]%lookup_insert_Some; [done | by eapply B2].
- intros i q [[<- <-]|[_ Hq]]%lookup_insert_Some; [done | by eapply B3].
- intros i q. rewrite He. intros [[<- <-]|[Hne Hq]]%lookup_insert_Some.
  + by rewrite decide_True.
  + rewrite decide_False, app_nil_r by done. by apply B4.
- intros i [Hi Hne]%lookup_insert_None. rewrite He, decide_False, app_nil_r by done. by apply B5.
- by rewrite Hl, balance_app, B6, Hbal.
Qed.

Lemma pair_booking e pid bid d c a r :
Forall (λ e, le_booking_id e = bid) (ledger_pair e pid bid d c a r).
Proof. unfold ledger_pair. by rewrite !Forall_cons. Qed.

(** The overage leaves the payment and its rows consistent. *)
Lemma overage_result_booked p bid host cents w e :
overage_consistent p → pm_stripe_overage_intent_id p = None →
let '(p1, es, _, _) := overage_result client p bid host cents w e in
Forall (λ e, le_booking_id e = bid) es ∧ balance es = 0%Z ∧ overage_consistent p1 ∧
pm_stripe_payment_intent_id p1 = pm_stripe_payment_intent_id p ∧
pm_status p1 = pm_status p ∧ pm_renter_id p1 = pm_renter_id p ∧
pm_hold_amount_cents p1 = pm_hold_amount_cents p ∧
line <$> es = match pm_stripe_overage_intent_id p1 with
  | Some _ => pair_lines (pm_id p) (renter_account p) (host_account host) (pm_overage_cents p1)
                "mileage_overage"
  | None => [] end.
Proof.
intros Hc Hn. unfold overage_result. case_decide as Hpos; [|by rewrite Hn].
destruct (overage_call client bid cents w) as [[i|x] w']; [|by rewrite Hn].
split; [apply pair_booking|]. split; [apply balance_pair|]. done.
Qed.

Lemma authorized_dec (db : PaymentDB) bid :
(∃ p, payments db !! bid = Some p ∧ pm_status p = "authorized") ∨
(∀ p, payments db !! bid = Some p → pm_status p ≠ "authorized").
Proof.
destruct (payments db !! bid) as [p|]; [|by right].
destruct (decide (pm_status p = "authorized")); [left; eauto|right; naive_solver].
Qed.

Lemma books_authorize db bid renter amount s s' :
books (work s) → work s = db →
handle_authorize_payment_requested client bid renter amount s = (Ok tt, s') →
books (work s').
Proof.
intros HB <- Hr. destruct (payments (work s) !! bid) as [p|] eqn:Ep.
{ rewrite (authorize_known client _ _ _ _ p) in Hr by done. by injection Hr as <-. }
apply authorize_new_Ok in Hr as (st & i & et & Ho & _ & ->); [|done]. simpl.
assert (st ∈ payment_statuses ∧ st ≠ "captured" ∧ (st = "authorization_failed" ↔ i = None))
  as (Hst & Hnc & Hi).
{ destruct (fst _) as [j|x]; [|destruct x; try discriminate Ho]; injection Ho as <- <- <-;
    (split; [apply (bool_decide_eq_true_1 _); done|]; by split). }
eapply (books_insert _ _ _ _ []); try done; [by rewrite app_nil_r|].
unfold booked. simpl. rewrite decide_False, app_nil_r by done.
split; [done|]. split; [by apply (books_orphan _ HB) | done].
Qed.

Lemma books_capture bid host hold cents s s' :
books (work s) → handle_capture_payment_requested client bid host hold cents s = (Ok tt, s') →
books (work s').
Proof.
intros HB Hr.
destruct (authorized_dec (work s) bid) as [(p & Hp & Hst)|Hn].
2:{ rewrite capture_ignored in Hr by done. by injection Hr as <-. }
pose proof (books_key _ HB _ _ Hp) as Hbid.
pose proof (books_booked _ HB _ _ Hp) as [Hcons Hbk]. rewrite Hst in Hbk.
rewrite decide_False in Hbk by done. destruct Hbk as [Hes Hoi].
assert (pm_stripe_payment_intent_id p ≠ None) as Hint.
{ intros Hi. apply (books_hold _ HB _ _ Hp) in Hi. congruence. }
apply (capture_authorized_Ok client _ _ _ _ _ _ p) in Hr; [|done..].
destruct (capture_call client p bid hold (world s)) as [[[]|x] w].
- destruct Hr as (Hfit & Hof & Hr).
  pose proof (overage_result_booked p bid host cents w (shift_env_n 2 (senv s)) Hcons Hoi) as Ho.
  pose proof (overage_result_id client p bid host cents w (shift_env_n 2 (senv s))) as Hid.
  destruct (overage_result client p bid host cents w _) as [[[p1 es] w1] e1].
  destruct Hr as (_ & ->), Hid as [Hid1 Hid2], Ho as (O1 & O2 & O3 & O4 & O5 & O6 & O7 & O8). simpl.
  eapply (books_insert _ bid _ _ (ledger_pair (senv s) (pm_id p) bid (renter_account p)
    (host_account host) hold "rental" ++ es)); [done| |..]; try done.
  + simpl. congruence.
  + apply (bool_decide_eq_true_1 _). done.
  + simpl. rewrite O4. by split.
  + apply Forall_app. split; [apply pair_booking | done].
  + by rewrite balance_app, balance_pair, O2.
  + rewrite Hes, app_nil_l. split; [done|]. rewrite decide_True by done.
    exists host, hold. split; [by destruct Hfit as (_ & ? & _)|]. rewrite fmap_app, O8.
    unfold captured_lines, renter_account. simpl. rewrite Hid1, O6.
    by destruct (pm_stripe_overage_intent_id p1).
- destruct x; try done. destruct Hr as (_ & ->). simpl.
  eapply (books_insert _ _ _ _ []); try done; simpl.
  + apply (bool_decide_eq_true_1 _). done.
  + by rewrite app_nil_r.
  + by rewrite app_nil_r.
Qed.

Lemma books_step db db' : payment_step_by db db' → books db → books db'.
Proof.
intros [bid renter amount s s' _ <- Hr|bid host hold cents s s' _ <- Hr|db'' (H1 & H2 & _)] HB.
- by eapply books_authorize.
- by eapply books_capture.
- destruct HB as [B1 B2 B3 B4 B5 B6]. split; unfold entries_of in *; rewrite ?H1, ?H2; done.
Qed.
End steps.

(** Any command. *)
Abbreviation payment_step client := (payment_step_by client (λ _, True)).

Lemma payment_step_weaken {W} (client : StripeClient W) (Q Q' : pay_command → Prop) db db' :
  (∀ c, Q c → Q' c) → payment_step_by client Q db db' → payment_step_by client Q' db db'.
Proof.
  intros HQ [bid renter amount s s' Hq Hs Hr|bid host hold cents s s' Hq Hs Hr|db'' H].
  - eapply pstep_authorize; eauto.
  - eapply pstep_capture; eauto.
  - by apply pstep_bookkeeping.
Qed.

Definition empty_payments (db : PaymentDB) : Prop := payments db = ∅ ∧ ledger db = [].

Definition pay_reachable {W} (client : StripeClient W) (db : PaymentDB) : Prop :=
  ∃ db0, empty_payments db0 ∧ rtc (payment_step client) db0 db.

Lemma books_reachable {W} (client : StripeClient W) db : pay_reachable client db → books db.
Proof.
  intros (db0 & [H1 H2] & Hs). assert (books db0) as H0.
  { split; unfold entries_of; rewrite ?H1, ?H2; try done; intros *; rewrite lookup_empty; done. }
  clear H1 H2. induction Hs; [done|]. eauto using books_step.
Qed.

(** ** Amounts from the lines *)
Definition charged_lines (account : string) (ls : list (uuid * string * string * Z * string)) : Z :=
  foldr (λ '(_, a, d, z, _) t, (if decide (d = "debit" ∧ a = account) then z + t else t)%Z) 0%Z ls.

Lemma charged_line account es : charged account es = charged_lines account (line <$> es).
Proof. induction es as [|e es IH]; [done|]. simpl. by rewrite IH. Qed.

Lemma charged_captured p host hold :
  charged_lines (renter_account p) (captured_lines p host hold) =
  (hold + match pm_stripe_overage_intent_id p with Some _ => pm_overage_cents p | None => 0 end)%Z.
Proof.
  unfold captured_lines, pair_lines. generalize (renter_account p) as r, (host_account host) as h.
  intros r h.
  destruct (pm_stripe_overage_intent_id p); simpl; repeat case_decide; destruct_ands; try done; tauto || lia.
Qed.

Definition balance_lines (ls : list (uuid * string * string * Z * string)) : Z :=
  foldr (λ '(_, _, d, z, _) t, ((if decide (d = "debit") then z else - z) + t)%Z) 0%Z ls.

Lemma balance_line es : balance es = balance_lines (line <$> es).
Proof. induction es as [|e es IH]; [done|]. simpl. by rewrite IH. Qed.

(** ** The theorems *)

(** C13: the ledger balances: in every reachable database debits equal
    credits, over the whole ledger and for each booking. *)
Theorem ledger_balances {W} (client : StripeClient W) (db : PaymentDB) (id : uuid) :
  pay_reachable client db → balance (ledger db) = 0%Z ∧ balance (entries_of id db) = 0%Z.
Proof.
  intros HB%books_reachable. split; [apply (books_balance _ HB)|].
  destruct (payments db !! id) as [p|] eqn:Ep; [|by rewrite (books_orphan _ HB)].
  destruct (books_booked _ HB _ _ Ep) as [_ Hb]. case_decide as Hs; [|by destruct Hb as [-> _]].
  destruct Hb as (host & hold & _ & Hl). rewrite balance_line, Hl.
  unfold captured_lines, pair_lines. destruct (pm_stripe_overage_intent_id p); simpl; lia.
Qed.

(** A renter pays once.  Nothing is booked for a payment that was not
    captured; a captured one has exactly the rental pair, plus one overage
    pair if an overage was charged, and the renter's debits are the captured
    hold plus the overage. *)
Theorem renter_charged_once {W} (client : StripeClient W) (db : PaymentDB) (id : uuid) (p : Payment) :
  pay_reachable client db → payments db !! id = Some p →
  (pm_status p ≠ "captured" → entries_of id db = []) ∧
  (pm_status p = "captured" → ∃ host hold, (0 < hold)%Z ∧
     line <$> entries_of id db = captured_lines p host hold ∧
     charged (renter_account p) (entries_of id db) = (hold + pm_overage_cents p)%Z).
Proof.
  intros HB%books_reachable Hp. destruct (books_booked _ HB _ _ Hp) as [Hc Hb].
  case_decide as Hs; (split; [try done|]); [|by destruct Hb|done]. intros _.
  destruct Hb as (host & hold & Hpos & Hl). exists host, hold. split_and!; [done..|].
  rewrite charged_line, Hl, charged_captured. unfold overage_consistent in Hc.
  by destruct (pm_stripe_overage_intent_id p); rewrite ?Hc.
Qed.

(** One transaction moves a payment along authorized → captured |
    capture_failed or leaves it, its ledger rows and its terms alone. *)
Lemma payment_step_row {W} (client : StripeClient W) Q db db' i p :
  books db → payment_step_by client Q db db' → payments db !! i = Some p →
  ∃ p', payments db' !! i = Some p' ∧
    (p' = p ∧ entries_of i db' = entries_of i db ∨
     pm_status p = "authorized" ∧ pm_status p' ∈ ["captured"; "capture_failed"] ∧
     pm_id p' = pm_id p ∧ pm_renter_id p' = pm_renter_id p ∧
     pm_hold_amount_cents p' = pm_hold_amount_cents p ∧
     pm_stripe_payment_intent_id p' = pm_stripe_payment_intent_id p).
Proof.
  intros HB Hstep Hi.
  destruct Hstep as [bid renter amount s s' _ <- Hr|bid host hold cents s s' _ <- Hr|db'' (H1 & H2 & _)].
  - exists p. destruct (payments (work s) !! bid) as [q|] eqn:Eq.
    { rewrite (authorize_known client _ _ _ _ q) in Hr by done. injection Hr as <-. eauto. }
    apply authorize_new_Ok in Hr as (st & j & et & _ & _ & ->); [|done].
    simpl. rewrite lookup_insert_ne by (intros ->; congruence). eauto.
  - destruct (authorized_dec (work s) bid) as [(q & Hq & Hst)|Hn].
    2:{ rewrite capture_ignored in Hr by done. injection Hr as <-. eauto. }
    pose proof (books_key _ HB _ _ Hq) as Hbid.
    pose proof (books_booked _ HB _ _ Hq) as [Hcons Hbk]. rewrite Hst in Hbk.
    rewrite decide_False in Hbk by done. destruct Hbk as [_ Hoi].
    apply (capture_authorized_Ok client _ _ _ _ _ _ q) in Hr; [|done..].
    destruct (capture_call client q bid hold (world s)) as [[[]|x] w].
    + destruct Hr as (Hfit & Hof & Hr).
      pose proof (overage_result_booked client q bid host cents w (shift_env_n 2 (senv s)) Hcons Hoi) as Ho.
      pose proof (overage_result_id client q bid host cents w (shift_env_n 2 (senv s))) as Hid.
      destruct (overage_result client q bid host cents w _) as [[[p1 es] w1] e1].
      destruct Hr as (_ & ->), Hid as [Hid1 Hid2], Ho as (O1 & _ & _ & O4 & _ & O6 & O7 & _).
      destruct (decide (bid = i)) as [->|Hne].
      * exists (set_status "captured" p1). simplify_eq. split; [apply lookup_insert_eq|]. right.
        split_and!; try done. simpl. set_solver.
      * exists p. split; [simpl; by rewrite lookup_insert_ne|]. left. split; [done|].
        cbn [work]. erewrite (entries_app _ (work s)) with (bid := bid); [|apply Forall_app; split;
          [apply pair_booking|exact O1]|reflexivity]. by rewrite decide_False, app_nil_r.
    + destruct x; try done. destruct Hr as (_ & ->). destruct (decide (bid = i)) as [->|Hne].
      * eexists. split; [apply lookup_insert_eq|]. simplify_eq. right. split_and!; try done.
        simpl. set_solver.
      * exists p. split; [simpl; by rewrite lookup_insert_ne|]. by left.
  - exists p. unfold entries_of. rewrite H1, H2. eauto.
Qed.

(** A payment that left "authorized" keeps its row and its ledger rows. *)
Lemma payment_frozen {W} (client : StripeClient W) db db' i p :
  books db → rtc (payment_step client) db db' → payments db !! i = Some p →
  pm_status p ≠ "authorized" →
  payments db' !! i = Some p ∧ entries_of i db' = entries_of i db.
Proof.
  intros HB Hsteps. induction Hsteps as [db|db1 db2 db3 H12 _ IH]; intros Hp Hne; [done|].
  destruct (payment_step_row _ _ _ _ _ _ HB H12 Hp) as (p2 & Hp2 & [[-> He]|(? & _)]); [|done].
  rewrite <- He. apply IH; [|done..]. by eapply books_step.
Qed.

(** C14: a payment that left "authorized" is final: no later command changes
    its row or its ledger rows; one that is still authorized keeps its id,
    renter, amount and Stripe intent until it is captured or fails. *)
Theorem payment_final {W} (client : StripeClient W) (db db' : PaymentDB) (i : uuid) (p : Payment) :
  pay_reachable client db → rtc (payment_step client) db db' → payments db !! i = Some p →
  ∃ p', payments db' !! i = Some p' ∧
    (pm_status p ≠ "authorized" → p' = p ∧ entries_of i db' = entries_of i db) ∧
    (pm_status p = "authorized" → p' = p ∨ pm_status p' ∈ ["captured"; "capture_failed"]) ∧
    pm_renter_id p' = pm_renter_id p ∧ pm_hold_amount_cents p' = pm_hold_amount_cents p ∧
    pm_stripe_payment_intent_id p' = pm_stripe_payment_intent_id p.
Proof.
  intros HB%books_reachable Hsteps Hp.
  destruct (decide (pm_status p = "authorized")) as [Hst|Hne].
  2:{ destruct (payment_frozen _ _ _ _ _ HB Hsteps Hp Hne). by exists p. }
  induction Hsteps as [db|db1 db2 db3 H12 H23 IH].
  - exists p. split_and!; try done. by left.
  - pose proof (books_step _ _ _ _ H12 HB) as HB2.
    destruct (payment_step_row _ _ _ _ _ _ HB H12 Hp) as (p2 & Hp2 & Hor).
    destruct Hor as [[-> _]|(_ & Hst2 & _ & E2 & E3 & E4)].
    { destruct (IH HB2 Hp2) as (p3 & ? & _ & ? & ?). by exists p3. }
    assert (pm_status p2 ≠ "authorized") as Hne by (intros E; rewrite E in Hst2; set_solver).
    destruct (payment_frozen _ _ _ _ _ HB2 H23 Hp2 Hne) as [Hp3 _]. exists p2.
    split_and!; try done. by right.
Qed.

(** C15: a capture whose answer never arrives is booked as failed.  The
    Stripe SDK raises the same error for a refusal and for a lost answer, and
    the command takes either for a refusal: it calls Stripe once, publishes
    the failure and books nothing, and whatever the service does afterwards
    the payment stays "capture_failed" without a ledger row, also when
    Stripe did take the money. *)
Theorem unanswered_capture_unbooked {W} (client : StripeClient W) (bid host : uuid) (hold cents : Z)
    (s s' : session PaymentDB W) (p : Payment) (w : W) (db' : PaymentDB) :
  pay_reachable client (work s) → payments (work s) !! bid = Some p → pm_status p = "authorized" →
  capture_call client p bid hold (world s) = (Err StripeError, w) →
  handle_capture_payment_requested client bid host hold cents s = (Ok tt, s') →
  rtc (payment_step client) (work s') db' →
  world s' = w ∧
  p_outbox (work s') = p_outbox (work s) ++ [event_row (senv s) bid "payment_capture_failed"] ∧
  payments db' !! bid = Some (set_status "capture_failed" p) ∧ entries_of bid db' = [].
Proof.
  intros HB%books_reachable Hp Hst Hw Hr Hsteps.
  pose proof (books_capture _ _ _ _ _ _ _ HB Hr) as HB'.
  apply (capture_authorized_Ok client _ _ _ _ _ _ p) in Hr;
    [|done|by apply (books_key _ HB)|done].
  rewrite Hw in Hr. destruct Hr as [_ ->]. cbn [work] in *.
  destruct (payment_frozen client _ db' bid (set_status "capture_failed" p) HB' Hsteps)
    as [Hp' He]; [apply lookup_insert_eq|done|].
  split_and!; [done..|]. rewrite He. unfold entries_of. simpl.
  destruct (books_booked _ HB _ _ Hp) as [_ Hb]. rewrite decide_False in Hb by congruence.
  by destruct Hb.
Qed.
