(* ===== verification/PaymentService.v ===== *)
(** * PaymentService: the payment service as a whole, and Stripe under redelivery

    [pay_service_step] is what the running service does to its node; its
    databases are those [payment_step] reaches.  [StripeLaws] states Stripe's
    documented idempotency: the first answer to a key is kept and repeated.
    Under it, a command whose transaction is lost after Stripe was called is
    safe to run again: Stripe sees nothing new. *)
From S2P Require Import Prelude Python Effects Outbox Inbox Idempotency JwtAuth Http.
From S2P Require Import Columns Payment PaymentFacts PaymentBooks.

Section service.
Context {W : Type}.
Variable client : StripeClient W.
Implicit Types s : session PaymentDB W.

(** The command a record of type [t] with [data] asks for. *)
Definition pay_asked (t : string) (data : dict) (c : pay_command) : Prop :=
match c with
| PayAuthorize bid renter amount =>
    t = "authorize_payment_requested" ∧ uuid_field data "booking_id" bid ∧
    uuid_field data "renter_id" renter ∧ int_field data "amount_cents" amount
| PayCapture bid host hold cents =>
    t = "capture_payment_requested" ∧ uuid_field data "booking_id" bid ∧
    uuid_field data "host_id" host ∧ int_field data "hold_amount_cents" hold ∧
    int_field data "overage_cents" cents
end.

Lemma field_uuid_Ok {B} d k (m : uuid → M (session PaymentDB W) B) s b s' :
(v ← getitem d k; u ← to_uuid v; m u) s = (Ok b, s') →
∃ u, uuid_field d k u ∧ m u s = (Ok b, s').
Proof.
intros (v & Hv & Hr)%bind_pure; [|read_only]. apply bind_pure in Hr as (u & Hu & Hr); [|read_only].
exists u. split; [by eapply getitem_uuid | done].
Qed.
Lemma field_int_Ok {B} d k (m : Z → M (session PaymentDB W) B) s b s' :
(v ← getitem d k; z ← as_int v; m z) s = (Ok b, s') →
∃ z, int_field d k z ∧ m z s = (Ok b, s').
Proof.
intros (v & Hv & Hr)%bind_pure; [|read_only]. apply bind_pure in Hr as (z & Hz & Hr); [|read_only].
exists z. split; [|done]. unfold int_field, getitem in *. destruct (dict_get d k); [|done].
injection Hv as ->. destruct v; try done. by injection Hz as ->.
Qed.

Lemma consume_authorize_Ok d s s' :
consume_authorize client d s = (Ok tt, s') →
∃ bid renter amount, pay_asked "authorize_payment_requested" d (PayAuthorize bid renter amount) ∧
  handle_authorize_payment_requested client bid renter amount s = (Ok tt, s').
Proof.
intros (bid & Hb & (renter & Hn & (amount & Ha & Hr)%field_int_Ok)%field_uuid_Ok)%field_uuid_Ok.
by exists bid, renter, amount.
Qed.

Lemma consume_capture_Ok d s s' :
consume_capture client d s = (Ok tt, s') →
∃ bid host hold cents,
  pay_asked "capture_payment_requested" d (PayCapture bid host hold cents) ∧
  handle_capture_payment_requested client bid host hold cents s = (Ok tt, s').
Proof.
intros (bid & Hb & (host & Hh & (hold & Ha & (cents & Hc & Hr)%field_int_Ok)%field_int_Ok)
  %field_uuid_Ok)%field_uuid_Ok.
by exists bid, host, hold, cents.
Qed.

(** *** Handlers neither commit nor touch the inbox *)
Definition quiet s : PaymentDB * gset string := (committed s, p_inbox (work s)).

Lemma quiet_flush_payment p : preserves quiet (flush_payment (W := W) p).
Proof. intros s. unfold flush_payment. run. by repeat case_decide. Qed.
Lemma quiet_insert_entry e : preserves quiet (insert_entry (W := W) e).
Proof. intros s. unfold insert_entry. run. by repeat case_decide. Qed.
Lemma quiet_call {A} (f : W → result A * W) : preserves quiet (call f).
Proof. intros s. unfold call. by destruct (f (world s)). Qed.
Lemma quiet_emit bid et : preserves quiet (emit (W := W) bid et).
Proof. intros s. done. Qed.
#[local] Hint Resolve quiet_flush_payment quiet_insert_entry quiet_call quiet_emit : preserves.

Lemma quiet_authorize bid renter amount :
preserves quiet (handle_authorize_payment_requested client bid renter amount).
Proof.
unfold handle_authorize_payment_requested, get_by_booking_id, or_stripe_error, create, get_db, uuid4.
preserves.
Qed.
Lemma quiet_capture bid host hold cents :
preserves quiet (handle_capture_payment_requested client bid host hold cents).
Proof.
unfold handle_capture_payment_requested, get_by_booking_id, or_stripe_error, write_ledger_pair,
  save, get_db, uuid4.
preserves.
Qed.
#[local] Hint Resolve quiet_authorize quiet_capture : preserves.

Lemma booking_command_handlers_ok : handlers_ok (build_booking_command_handlers client).
Proof.
assert (∀ h : handler PaymentDB W, (∀ d, preserves quiet (h d)) → inbox_preserving h) as Hh.
{ intros h Hd d s. specialize (Hd d s). unfold quiet in Hd. simpl. split; congruence. }
unfold handlers_ok, build_booking_command_handlers. rewrite !Forall_cons.
split_and!; [| |done]; apply Hh; intros d; unfold consume_authorize, consume_capture; preserves.
Qed.

(** *** The service *)
Context `{!Platform} `{!StripeSdk W}.

Inductive pay_service_step (n : node PaymentDB W) : node PaymentDB W → Prop :=
| pay_record record res n' :
  consume (inbox_process (build_booking_command_handlers client)) record n = (res, n') →
  pay_service_step n n'
| pay_get cfg rq i resp n' : serve (get_payment cfg rq i) n = (resp, n') → pay_service_step n n'
| pay_webhook secret sig body resp n' :
  serve (stripe_webhook secret sig body) n = (resp, n') → pay_service_step n n'
| pay_environment w e : pay_service_step n (n.1.1, w, e).

Lemma get_payment_read_only cfg rq i : read_only (get_payment (W := W) cfg rq i).
Proof.
unfold get_payment, query, refused, validated, get_access_claims, get_by_booking_id, get_db, now.
read_only.
Qed.

Lemma webhook_books secret sig body s res s' :
committed s = work s → stripe_webhook secret sig body s = (res, s') →
same_books (committed s) (committed s').
Proof.
intros Hs. unfold stripe_webhook.
destruct sig as [sig|]; [|by intros [= _ <-]].
destruct (construct_event body sig secret) as [d|]; [|by intros [= _ <-]].
rewrite run_bind. destruct (getitem d "id" s) as [[v|x] s1] eqn:E1;
  pose proof (read_only_getitem d "id" s) as R1; rewrite E1 in R1; simpl in R1; subst s1;
  [|by intros [= _ <-]].
rewrite run_bind. destruct (as_str v s) as [[i|x] s1] eqn:E2;
  pose proof (read_only_as_str v s) as R2; rewrite E2 in R2; simpl in R2; subst s1;
  [|by intros [= _ <-]].
rewrite run_bind. unfold claim_event. rewrite run_bind. simpl. rewrite Hs.
case_decide; simpl.
- intros [= _ <-]. done.
- rewrite run_bind. rewrite run_bind. unfold getitem.
  destruct (dict_get d "type"); simpl; intros [= _ <-]; unfold same_books; simpl; split_and!; congruence.
Qed.

Lemma pay_record_steps i t d n res n' :
inbox_process (build_booking_command_handlers client) i t d n = (res, n') →
rtc (payment_step_by client (pay_asked t d)) n.1.1 n'.1.1.
Proof.
intros Hp. destruct (decide (i ∈ p_inbox n.1.1)) as [Hi|Hi].
{ rewrite inbox_process_claimed in Hp by done. by simplify_eq. }
destruct res as [[]|e].
2:{ pose proof (inbox_process_unclaimed _ i t d n _ n' booking_command_handlers_ok Hi Hp) as ->.
    done. }
assert (same_books n.1.1 (work (claimed_session i n))) as Hclaim by (by destruct n as [[]]).
apply rtc_l with (work (claimed_session i n)); [by apply pstep_bookkeeping|].
destruct (handlers_get (build_booking_command_handlers client) t) as [h|] eqn:Eh.
- rewrite (inbox_process_handled _ _ _ _ _ h) in Hp by done.
  assert (t = "authorize_payment_requested" ∧ h = consume_authorize client ∨
    t = "capture_payment_requested" ∧ h = consume_capture client) as Hh.
  { revert Eh. simpl. repeat case_decide; intros [= <-]; auto. }
  revert Hp. generalize (claimed_session i n) as s. intros s Hp.
  destruct (h d s) as [[[]|x] s1] eqn:Er; [|done]. injection Hp as <-. simpl.
  apply rtc_once. destruct Hh as [[-> ->]|[-> ->]].
  + apply consume_authorize_Ok in Er as (? & ? & ? & Hq & Hr). by eapply pstep_authorize.
  + apply consume_capture_Ok in Er as (? & ? & ? & ? & Hq & Hr). by eapply pstep_capture.
- rewrite inbox_process_ignored in Hp by done. injection Hp as <-. done.
Qed.

Lemma pay_service_steps n n' : pay_service_step n n' → rtc (payment_step client) n.1.1 n'.1.1.
Proof.
intros [record res n1 Hr|cfg rq i resp n1 Hr|secret sig body resp n1 Hr|w e]; [| | |done].
- destruct (record_fields record) as [[[i t] d]|] eqn:Ef.
  + rewrite (consume_fields _ _ _ _ _ _ Ef) in Hr. eapply rtc_subrel, pay_record_steps, Hr.
    intros x y. by apply payment_step_weaken.
  + destruct (consume_malformed (inbox_process (build_booking_command_handlers client))
      record n Ef) as [e He]. rewrite He in Hr. by simplify_eq.
- destruct n as [[db w] e]. unfold serve, run_session in Hr.
  pose proof (get_payment_read_only cfg rq i (mk_session db db w e)) as Hro.
  destruct (get_payment cfg rq i _) as [x s']. simpl in Hro. subst s'. injection Hr as _ <-. done.
- destruct n as [[db w] e]. unfold serve, run_session in Hr.
  destruct (stripe_webhook secret sig body _) as [x s'] eqn:E. simplify_eq.
  apply rtc_once, pstep_bookkeeping. by eapply (webhook_books secret sig body (mk_session db db w e)).
Qed.
End service.

Lemma pay_node_reachable {W} (client : StripeClient W) `{!Platform} `{!StripeSdk W}
    (n0 n : node PaymentDB W) :
  empty_payments n0.1.1 → rtc (pay_service_step client) n0 n → pay_reachable client n.1.1.
Proof.
  intros H0 Hsteps. exists n0.1.1. split; [done|]. clear H0.
  induction Hsteps as [|n1 n2 n3 H12 _ IH]; [done|]. etrans; [by eapply pay_service_steps | done].
Qed.

(** Whatever commands, redeliveries, webhooks and queries the payment
    service processes, in any order, from empty tables, its database is one
    the payment steps reach; [ledger_balances], [renter_charged_once] and
    [payment_final] hold of it. *)
Theorem pay_service_reachable {W} (client : StripeClient W) `{!Platform} `{!StripeSdk W}
    (n0 n : node PaymentDB W) :
  empty_payments n0.1.1 → rtc (pay_service_step client) n0 n → pay_reachable client n.1.1.
Proof. apply pay_node_reachable. Qed.

(** ** What a command does to Stripe *)

(** A computation whose result does not depend on the state. *)
Definition static {S A} (m : M S A) : Prop := ∃ r, ∀ s, m s = (r, s).

Lemma static_bind {S A B} (m : M S A) (k : A → M S B) :
  static m → (∃ e, ∀ s, (m ≫= k) s = (Err e, s)) ∨ (∃ a, ∀ s, (m ≫= k) s = k a s).
Proof.
  intros [[a|e] Hm]; [right; exists a|left; exists e]; intros s; by rewrite run_bind, Hm.
Qed.

Lemma static_getitem {S} d k : static (S := S) (getitem d k).
Proof. unfold static, getitem. destruct (dict_get d k); by eexists. Qed.
Lemma static_as_int {S} v : static (S := S) (as_int v).
Proof. destruct v; by eexists. Qed.
Lemma static_to_uuid {S} v : static (S := S) (to_uuid v).
Proof.
  destruct v as [| | | |t| | |]; try by eexists.
  exists (match UUID t with Some u => Ok u | None => Err ValueError end).
  intros s. unfold to_uuid. rewrite run_bind. simpl. by destruct (UUID t).
Qed.

(** Take the next conversion of a handler's prologue. *)
Ltac static_step :=
  match goal with
  | |- (∃ e, ∀ s, (?m ≫= ?k) s = _) ∨ _ =>
      let Hm := fresh in let a := fresh "a" in
      destruct (static_bind m k) as [Hm|[a Hm]];
        [ first [apply static_getitem | apply static_as_int | apply static_to_uuid] | by left |];
      setoid_rewrite Hm; clear Hm
  end.

Section world.
Context {W : Type}.
Variable client : StripeClient W.
Implicit Types s : session PaymentDB W.

(** What the two commands do to Stripe, errors included. *)
Definition authorize_world (bid : uuid) (amount : Z) (db : PaymentDB) (w : W) : W :=
match payments db !! bid with
| Some _ => w
| None => snd (authorize_call client bid amount w)
end.

Definition capture_world (bid host : uuid) (hold cents : Z) (db : PaymentDB) (w : W) : W :=
match payments db !! bid with
| Some p =>
    if decide (pm_status p = "authorized") then
      match capture_call client p bid hold w with
      | (Ok _, w1) =>
          if decide (0 < cents)%Z then
            if decide (pair_fits (renter_account p) (host_account host) hold "rental")
            then snd (overage_call client bid cents w1) else w1
          else w1
      | (Err _, w1) => w1
      end
    else w
| None => w
end.

Lemma keeps_flush_payment p : preserves world (flush_payment (W := W) p).
Proof. intros s. unfold flush_payment. run. by repeat case_decide. Qed.
Lemma keeps_insert_entry e : preserves world (insert_entry (W := W) e).
Proof. intros s. unfold insert_entry. run. by repeat case_decide. Qed.
Lemma keeps_emit bid et : preserves world (emit (W := W) bid et).
Proof. intros s. done. Qed.
#[local] Hint Resolve keeps_flush_payment keeps_insert_entry keeps_emit : preserves.
Lemma keeps_pair pid bid d c a r : preserves world (write_ledger_pair (W := W) pid bid d c a r).
Proof. unfold write_ledger_pair, uuid4. preserves. Qed.
Lemma keeps_create bid renter a st i : preserves world (create (W := W) bid renter a st i).
Proof. unfold create, get_db, uuid4. preserves. Qed.
#[local] Hint Resolve keeps_pair keeps_create : preserves.

Lemma or_stripe_error_run {A} (f : W → result A * W) s :
or_stripe_error (call f) s =
match f (world s) with
| (Ok a, w) => (Ok (inr a), with_world w s)
| (Err StripeError, w) => (Ok (inl tt), with_world w s)
| (Err e, w) => (Err e, with_world w s)
end.
Proof.
unfold or_stripe_error, try_except, call. rewrite run_bind.
destruct (f (world s)) as [[a|e] w]; [done|]. by destruct e.
Qed.

(** A Stripe call followed by database work. *)
Lemma call_world {A B} (f : W → result A * W) (k : unit + A → M (session PaymentDB W) B) s :
(∀ r, preserves world (k r)) → world (snd ((or_stripe_error (call f) ≫= k) s)) = snd (f (world s)).
Proof.
intros Hk. rewrite run_bind, or_stripe_error_run.
destruct (f (world s)) as [[a|e] w]; [by rewrite Hk|]. destruct e; by rewrite ?Hk.
Qed.

Lemma authorize_world_run bid renter amount s :
world (snd (handle_authorize_payment_requested client bid renter amount s)) =
authorize_world bid amount (work s) (world s).
Proof.
unfold handle_authorize_payment_requested, get_by_booking_id, authorize_world. rewrite !run_bind.
simpl. destruct (payments (work s) !! bid); [done|]. apply call_world. intros []; preserves.
Qed.

Lemma charge_overage_world p bid host cents s :
world (snd (charge_overage client p bid host cents s)) =
if decide (0 < cents)%Z then snd (overage_call client bid cents (world s)) else world s.
Proof.
unfold charge_overage. case_decide; [|done]. apply call_world. intros []; unfold save; preserves.
Qed.

(** The work after a granted capture. *)
Lemma captured_world p bid host hold cents s :
payments (work s) !! bid = Some p →
world (snd ((write_ledger_pair (pm_id p) bid (renter_account p) (host_account host) hold "rental";;
  payment ← charge_overage client p bid host cents;
  save (set_status "captured" payment);; emit bid "payment_captured") s)) =
if decide (0 < cents)%Z then
  if decide (pair_fits (renter_account p) (host_account host) hold "rental")
  then snd (overage_call client bid cents (world s)) else world s
else world s.
Proof.
intros Hp. pose proof (λ u s', write_ledger_pair_Ok (pm_id p) bid (renter_account p)
  (host_account host) hold "rental" s u s' (ex_intro _ bid (ex_intro _ p (conj Hp eq_refl)))) as Hw.
pose proof (keeps_pair (pm_id p) bid (renter_account p) (host_account host) hold "rental" s) as Hk.
rewrite run_bind. destruct (write_ledger_pair _ _ _ _ _ _ s) as [[[]|e] s1]; simpl in Hk.
- destruct (proj1 (Hw tt s1) eq_refl) as [Hf _]. rewrite (decide_True (P := pair_fits _ _ _ _)) by done.
  rewrite run_bind. pose proof (charge_overage_world p bid host cents s1) as Hc. rewrite Hk in Hc.
  destruct (charge_overage client p bid host cents s1) as [[p'|e] s2]; simpl in Hc; [|done].
  assert (preserves world (save (W := W) (set_status "captured" p');; emit bid "payment_captured"))
    as Hpres by (unfold save; preserves). by rewrite Hpres.
- rewrite (decide_False (P := pair_fits _ _ _ _)).
  + simpl. by case_decide.
  + intros Hf. pose proof (proj2 (Hw tt _) (conj Hf eq_refl)). done.
Qed.

Lemma capture_world_run bid host hold cents s :
world (snd (handle_capture_payment_requested client bid host hold cents s)) =
capture_world bid host hold cents (work s) (world s).
Proof.
unfold handle_capture_payment_requested, get_by_booking_id, capture_world. rewrite !run_bind. simpl.
destruct (payments (work s) !! bid) as [p|] eqn:Hp; [|done].
destruct (decide (pm_status p = "authorized")) as [Hs|Hs]; [|by rewrite decide_True].
rewrite decide_False by (intros ?; done). rewrite run_bind, or_stripe_error_run.
change (capture client (pm_stripe_payment_intent_id p) hold ("capture:" +:+ str_uuid bid) (world s))
  with (capture_call client p bid hold (world s)).
destruct (capture_call client p bid hold (world s)) as [[[]|e] w].
- by apply (captured_world p bid host hold cents (with_world w s)).
- destruct e; try done.
  assert (preserves world (save (W := W) (set_status "capture_failed" p);;
    emit bid "payment_capture_failed")) as Hpres by (unfold save; preserves). apply Hpres.
Qed.

(** A handler either fails on its data or is one of the commands. *)
Lemma consume_authorize_cases d :
(∃ e, ∀ s, consume_authorize client d s = (Err e, s)) ∨
(∃ bid renter amount, ∀ s, consume_authorize client d s =
   handle_authorize_payment_requested client bid renter amount s).
Proof.
unfold consume_authorize.
do 6 static_step; right; eauto.
Qed.

Lemma consume_capture_cases d :
(∃ e, ∀ s, consume_capture client d s = (Err e, s)) ∨
(∃ bid host hold cents, ∀ s, consume_capture client d s =
   handle_capture_payment_requested client bid host hold cents s).
Proof.
unfold consume_capture.
do 8 static_step; right; eauto.
Qed.
End world.

(** ** Stripe and redelivery *)

(** Idempotent requests as Stripe documents them: the first answer to a key,
    success or failure, is kept and returned to every later request. *)
Class StripeLaws (W : Type) `{!StripeSdk W} := {
  create_log : W → string → option (option string);
  capture_log : W → string → option (option unit);
  create_again p k w r : create_log w k = Some r → payment_intents_create p k w = (r, w);
  create_logged p k w : let '(r, w') := payment_intents_create p k w in
    create_log w' k = Some r ∧
    (∀ k' r', create_log w k' = Some r' → create_log w' k' = Some r') ∧
    (∀ k' r', capture_log w k' = Some r' → capture_log w' k' = Some r');
  capture_again i a k w r : capture_log w k = Some r → payment_intents_capture i a k w = (r, w);
  capture_logged i a k w : let '(r, w') := payment_intents_capture i a k w in
    capture_log w' k = Some r ∧
    (∀ k' r', create_log w k' = Some r' → create_log w' k' = Some r') ∧
    (∀ k' r', capture_log w k' = Some r' → capture_log w' k' = Some r');
}.

Section retry.
Context {W : Type} `{!StripeSdk W} `{!StripeLaws W}.
Variable pm : string.
Notation client := (StripeTestModeClient (W := W) pm).
Implicit Types s : session PaymentDB W.

(** [w'] remembers everything [w] does. *)
Definition later (w w' : W) : Prop :=
(∀ k r, create_log w k = Some r → create_log w' k = Some r) ∧
(∀ k r, capture_log w k = Some r → capture_log w' k = Some r).

Lemma create_repeat p k w w2 :
later (snd (payment_intents_create p k w)) w2 →
payment_intents_create p k w2 = (fst (payment_intents_create p k w), w2).
Proof.
intros [Hl _]. pose proof (create_logged p k w) as Hc.
destruct (payment_intents_create p k w) as [r w']. simpl in *. destruct Hc as [Hc _].
by eapply create_again, Hl.
Qed.
Lemma capture_repeat i a k w w2 :
later (snd (payment_intents_capture i a k w)) w2 →
payment_intents_capture i a k w2 = (fst (payment_intents_capture i a k w), w2).
Proof.
intros [_ Hl]. pose proof (capture_logged i a k w) as Hc.
destruct (payment_intents_capture i a k w) as [r w']. simpl in *. destruct Hc as [Hc _].
by eapply capture_again, Hl.
Qed.

Lemma stripe_result_repeat {A} (f : W → option A * W) w w2 :
f w2 = (fst (f w), w2) → stripe_result (f w2) = (fst (stripe_result (f w)), w2).
Proof. intros ->. by destruct (f w) as [[a|] w']. Qed.
Lemma stripe_result_world {A} (r : option A * W) : snd (stripe_result r) = snd r.
Proof. by destruct r as [[]]. Qed.

Lemma later_refl w : later w w.
Proof. done. Qed.
Lemma later_create p k w : later w (snd (payment_intents_create p k w)).
Proof.
pose proof (create_logged p k w) as H. destruct (payment_intents_create p k w). by split; apply H.
Qed.

(** Run again on what the first attempt left at Stripe: nothing new. *)
Lemma authorize_world_again bid amount db w :
let w1 := authorize_world client bid amount db w in authorize_world client bid amount db w1 = w1.
Proof.
simpl. unfold authorize_world. destruct (payments db !! bid); [done|].
unfold authorize_call. simpl. rewrite !stripe_result_world.
by rewrite (create_repeat _ _ w) by apply later_refl.
Qed.

Lemma capture_world_again bid host hold cents db w :
let w1 := capture_world client bid host hold cents db w in capture_world client bid host hold cents db w1 = w1.
Proof.
unfold capture_world. destruct (payments db !! bid) as [p|]; [|done].
case_decide; [|done]. unfold capture_call. simpl.
set (key := "capture:" +:+ str_uuid bid). set (i := pm_stripe_payment_intent_id p).
pose proof (capture_repeat i hold key w) as Hrep.
destruct (payment_intents_capture i hold key w) as [[[]|] w1]; simpl in *.
- destruct (decide (0 < cents)%Z).
  + destruct (decide (pair_fits _ _ hold "rental")).
    * unfold overage_call. simpl. rewrite !stripe_result_world.
      rewrite Hrep by apply later_create. simpl. rewrite stripe_result_world.
      by rewrite (create_repeat _ _ w1) by apply later_refl.
    * by rewrite Hrep by apply later_refl.
  + by rewrite Hrep by apply later_refl.
- by rewrite Hrep by apply later_refl.
Qed.

(** The world after a handler depends on the database and Stripe alone. *)
Lemma handler_again h t d s s2 :
handlers_get (build_booking_command_handlers client) t = Some h →
work s2 = work s → world s2 = world (snd (h d s)) →
world (snd (h d s2)) = world s2.
Proof.
simpl. repeat case_decide; intros [= <-] Hw Hs.
- destruct (consume_authorize_cases client d) as [[e He]|(bid & renter & amount & He)];
    rewrite He in *; [done|].
  rewrite authorize_world_run in *. rewrite Hw, Hs. apply authorize_world_again.
- destruct (consume_capture_cases client d) as [[e He]|(bid & host & hold & cents & He)];
    rewrite He in *; [done|].
  rewrite capture_world_run in *. rewrite Hw, Hs. apply capture_world_again.
Qed.
End retry.

