(* ===== verification/Saga.v ===== *)
(** * Saga: the booking and the payment service together

    The two services share no state: they exchange the rows of their
    outboxes, which Debezium puts on Kafka.  [saga_step] lets each service do
    whatever it does alone and lets each consume any row the other has
    published, any number of times and in any order, which covers every
    behaviour of the broker.  [saga_agrees] is what the two databases agree
    on throughout; the theorems about money are read off it. *)
From S2P Require Import Prelude Python Columns Effects Outbox Inbox Idempotency JwtAuth Http.
From S2P Require Import BookingDomain BookingRepo BookingService BookingFacts BookingInvariant.
From S2P Require Import BookingRoutes.
From S2P Require Import Payment PaymentFacts PaymentBooks PaymentService.
Import Payment PaymentFacts PaymentBooks.

(** The price of the days of a booking, the amount held and captured. *)
Definition rental_price (b : Booking) : Z := (bk_daily_price_cents b * booking_days b)%Z.

(** What a booking never changes. *)
Definition terms (b : Booking) : uuid * uuid * uuid * uuid * date * date * Z :=
  (bk_id b, bk_vehicle_id b, bk_host_id b, bk_renter_id b, bk_start_date b, bk_end_date b,
   bk_daily_price_cents b).

Lemma terms_data b b' : terms b' = terms b →
  authorize_data b' = authorize_data b ∧ (∀ o, capture_data b' o = capture_data b o) ∧
  rental_price b' = rental_price b ∧ bk_id b' = bk_id b ∧ bk_renter_id b' = bk_renter_id b ∧
  bk_host_id b' = bk_host_id b.
Proof.
  unfold terms, authorize_data, capture_data, rental_price, booking_days.
  intros [= -> Hv -> -> -> -> ->]. done.
Qed.

Lemma terms_apply_op op b : terms (apply_op op b) = terms b.
Proof. by destruct op. Qed.

(** ** What each service publishes *)

(** A row of the booking outbox: a command carries the booking's terms. *)
Definition booking_row_ok (db : BookingDB) (row : OutboxRow) : Prop :=
  ∃ eid et data tr, payload row = envelope eid et data tr ∧
    (et = "authorize_payment_requested" →
       ∃ b, bookings db !! bk_id b = Some b ∧ data = authorize_data b) ∧
    (et = "capture_payment_requested" →
       ∃ b o, bookings db !! bk_id b = Some b ∧ data = capture_data b o).

(** The payment status an event attests. *)
Definition attests (event_type status : string) : Prop :=
  event_type = "payment_authorized" ∧ status ≠ "authorization_failed" ∨
  event_type = "payment_authorization_failed" ∧ status = "authorization_failed" ∨
  event_type = "payment_captured" ∧ status = "captured" ∨
  event_type = "payment_capture_failed" ∧ status = "capture_failed".

Definition payment_row_ok (db : PaymentDB) (row : OutboxRow) : Prop :=
  ∃ eid et tr id p, payload row = envelope eid et [("booking_id", PStr (str_uuid id))] tr ∧
    payments db !! id = Some p ∧ attests et (pm_status p).

(** *** The booking side of a step *)
Section booking_side.
Context {W : Type}.

Lemma step_terms L Q db db' i b :
wf db → booking_step_by W L Q db db' → bookings db !! i = Some b →
∃ b', bookings db' !! i = Some b' ∧ terms b' = terms b.
Proof.
intros Hwf [listing renter vehicle sd ed tok s s' b0 _ <- Hr | id c s s' b0 _ <- Hr | db'' [Hb _]] Hi.
- apply request_booking_Ok in Hr as (vi & _ & _ & (Hn & _) & _ & ->). exists b.
  split; [|done]. simpl. rewrite lookup_insert_ne; [done|]. intros <-. simpl in *. congruence.
- apply run_command_Ok in Hr as (b1 & Hb1 & Hr).
  apply command_body_Ok in Hr as (_ & _ & _ & _ & ->). simpl.
  pose proof (wf_id _ Hwf _ _ Hb1) as <-. destruct (decide (bk_id b1 = i)) as [<-|Hne].
  + rewrite lookup_insert_eq. eexists. split; [done|]. simplify_eq. apply terms_apply_op.
  + rewrite lookup_insert_ne by done. eauto.
- exists b. rewrite Hb. eauto.
Qed.

Lemma step_status L Q db db' i b' :
wf db → booking_step_by W L Q db db' → bookings db' !! i = Some b' →
match bookings db !! i with
| None => bk_status b' = "requested"
| Some b => bk_status b' = bk_status b ∨
    ∃ c, Q i c ∧ bk_status b = expects (command_op c) ∧ bk_status b' = settles (command_op c)
end.
Proof.
intros Hwf [listing renter vehicle sd ed tok s s' b0 _ <- Hr | id c s s' b0 Hq <- Hr | db'' [Hb _]].
- apply request_booking_Ok in Hr as (vi & _ & _ & (Hn & _) & _ & ->). simpl.
  rewrite lookup_insert_Some. intros [[<- <-]|[_ Hi]].
  + simpl in Hn. by rewrite Hn.
  + rewrite Hi. by left.
- apply run_command_Ok in Hr as (b1 & Hb1 & Hr).
  apply command_body_Ok in Hr as (_ & Hd & _ & _ & ->). simpl.
  pose proof (wf_id _ Hwf _ _ Hb1) as <-. rewrite lookup_insert_Some.
  intros [[<- <-]|[_ Hi]].
  + rewrite Hb1. right. exists c. split; [done|]. split; [|apply apply_op_status].
    destruct (domain_apply _ _) as [t|] eqn:Et; [|done].
    by apply domain_apply_Ok in Et as (? & _).
  + rewrite Hi. by left.
- rewrite Hb. intros ->. by left.
Qed.

Lemma step_outbox L Q db db' row :
wf db → booking_step_by W L Q db db' → row ∈ b_outbox db' →
row ∈ b_outbox db ∨ booking_row_ok db' row.
Proof.
intros Hwf [listing renter vehicle sd ed tok s s' b0 _ <- Hr | id c s s' b0 Hq <- Hr | db'' (_ & _ & Ho)].
- apply request_booking_Ok in Hr as (vi & _ & _ & _ & _ & ->).
  set (b := new_booking _ _ _ _ _ _). unfold created_session. cbn [work b_outbox].
  rewrite elem_of_app. intros [?|Hrow]; [by left|right]. revert Hrow.
  case_decide; simpl; [|by rewrite elem_of_nil]. intros ->%list_elem_of_singleton.
  eexists _, _, _, _. split; [done|]. split; [|done]. intros _.
  exists (set_progress 2 "requested" b). split; [apply lookup_insert_eq | done].
- apply run_command_Ok in Hr as (b1 & Hb1 & Hr).
  apply command_body_Ok in Hr as (_ & _ & _ & _ & ->). simpl.
  rewrite elem_of_app. intros [?|Hrow]; [by left|right].
  set (b2 := apply_op (command_op c) b1).
  assert (bookings (command_db c b1 (senv s) (work s)) !! bk_id b2 = Some b2) as Hb2.
  { unfold b2. rewrite apply_op_id. apply lookup_insert_eq. }
  unfold command_message in Hrow. fold b2 in Hrow.
  destruct c; simpl in Hrow; rewrite ?list_elem_of_singleton, ?elem_of_nil in Hrow; try done;
    subst row; eexists _, _, _, _; (split; [done|]); split; try done; intros _; eauto.
- rewrite Ho. by left.
Qed.
End booking_side.

(** *** The payment side of a step *)
Section payment_side.
Context {W : Type} (client : StripeClient W).

(** What became of a payment row, and by which command. *)
Definition row_history (Q : pay_command → Prop) (db db' : PaymentDB) (i : uuid) (p' : Payment) : Prop :=
(payments db !! i = Some p' ∧ entries_of i db' = entries_of i db) ∨
(payments db !! i = None ∧ pm_status p' ≠ "captured" ∧
   Q (PayAuthorize i (pm_renter_id p') (pm_hold_amount_cents p'))) ∨
(∃ p host hold cents, payments db !! i = Some p ∧ pm_status p = "authorized" ∧
   pm_renter_id p' = pm_renter_id p ∧ pm_hold_amount_cents p' = pm_hold_amount_cents p ∧
   Q (PayCapture i host hold cents) ∧
   (pm_status p' = "captured" → line <$> entries_of i db' = captured_lines p' host hold)).

Lemma pstep_history Q db db' i p' :
books db → payment_step_by client Q db db' → payments db' !! i = Some p' →
row_history Q db db' i p'.
Proof.
intros HB Hstep Hi.
destruct Hstep as [bid renter amount s s' Hq <- Hr|bid host hold cents s s' Hq <- Hr|db'' (H1 & H2 & _)].
- destruct (payments (work s) !! bid) as [q|] eqn:Eq.
  { rewrite (authorize_known client _ _ _ _ q) in Hr by done. injection Hr as <-. by left. }
  apply authorize_new_Ok in Hr as (st & j & et & Ho & _ & ->); [|done]. simpl in *.
  apply lookup_insert_Some in Hi as [[-> <-]|[_ Hi]]; [|by left].
  right; left. split_and!; [done| |done]. simpl.
  destruct (fst _) as [k|x]; [|destruct x; try discriminate Ho]; by injection Ho as <- _ _.
- destruct (authorized_dec (work s) bid) as [(q & Hq' & Hst)|Hn].
  2:{ rewrite capture_ignored in Hr by done. injection Hr as <-. by left. }
  pose proof (books_key _ HB _ _ Hq') as Hbid.
  pose proof (books_booked _ HB _ _ Hq') as [Hcons Hbk]. rewrite Hst in Hbk.
  rewrite decide_False in Hbk by done. destruct Hbk as [Hes Hoi].
  apply (capture_authorized_Ok client _ _ _ _ _ _ q) in Hr; [|done..].
  destruct (capture_call client q bid hold (world s)) as [[[]|x] w].
  + destruct Hr as (Hfit & Hof & Hr).
    pose proof (overage_result_booked client q bid host cents w (shift_env_n 2 (senv s)) Hcons Hoi) as Ho.
    pose proof (overage_result_id client q bid host cents w (shift_env_n 2 (senv s))) as Hid.
    destruct (overage_result client q bid host cents w _) as [[[p1 es] w1] e1].
    destruct Hr as (_ & ->), Hid as [Hid1 Hid2], Ho as (O1 & _ & _ & O4 & _ & O6 & O7 & O8).
    cbn [work payments] in Hi. unfold row_history. cbn [work].
    rewrite (entries_app i (work s) _ _ _ _ (ledger_pair (senv s) (pm_id q) bid (renter_account q)
      (host_account host) hold "rental" ++ es) bid); [|by apply Forall_app; split;
      [apply pair_booking|]|done].
    apply lookup_insert_Some in Hi as [[-> <-]|[Hne Hi]].
    * right; right. exists q, host, hold, cents. split_and!; try done. intros _.
      rewrite decide_True, Hes, app_nil_l, fmap_app, O8 by done.
      unfold captured_lines, renter_account. simpl. rewrite Hid1, O6.
      by destruct (pm_stripe_overage_intent_id p1).
    * left. by rewrite decide_False, app_nil_r.
  + destruct x; try done. destruct Hr as (_ & ->). simpl in Hi.
    apply lookup_insert_Some in Hi as [[-> <-]|[Hne Hi]]; [|by left].
    right; right. exists q, host, hold, cents. split_and!; done.
- left. unfold entries_of. by rewrite H2, <- H1.
Qed.

Lemma pstep_outbox Q db db' row :
books db → payment_step_by client Q db db' → row ∈ p_outbox db' →
row ∈ p_outbox db ∨ payment_row_ok db' row.
Proof.
intros HB Hstep Hrow.
assert (∀ m l inb e id et p, row ∈ p_outbox db ++ [event_row e id et] →
  m !! id = Some p → attests et (pm_status p) →
  row ∈ p_outbox db ∨ payment_row_ok (mk_payment_db m l (p_outbox db ++ [event_row e id et]) inb) row)
  as Hev.
{ intros m l inb e id et p [Hr|Hr]%elem_of_app Hp Ha; [by left|right].
  apply list_elem_of_singleton in Hr as ->. by eexists _, _, _, id, p. }
destruct Hstep as [bid renter amount s s' Hq <- Hr|bid host hold cents s s' Hq <- Hr|db'' (_ & _ & Ho)].
- destruct (payments (work s) !! bid) as [q|] eqn:Eq.
  { rewrite (authorize_known client _ _ _ _ q) in Hr by done. injection Hr as <-. by left. }
  apply authorize_new_Ok in Hr as (st & j & et & Ho & _ & ->); [|done].
  eapply Hev; [exact Hrow|apply lookup_insert_eq|]. simpl. unfold attests.
  destruct (fst _) as [k|x]; [|destruct x; try discriminate Ho]; injection Ho as <- _ <-;
    [by left|right; by left].
- destruct (authorized_dec (work s) bid) as [(q & Hq' & Hst)|Hn].
  2:{ rewrite capture_ignored in Hr by done. injection Hr as <-. by left. }
  pose proof (books_key _ HB _ _ Hq') as Hbid.
  apply (capture_authorized_Ok client _ _ _ _ _ _ q) in Hr; [|done..].
  destruct (capture_call client q bid hold (world s)) as [[[]|x] w].
  + destruct Hr as (_ & _ & Hr).
    destruct (overage_result client q bid host cents w _) as [[[p1 es] w1] e1].
    destruct Hr as (_ & ->). eapply Hev; [exact Hrow|apply lookup_insert_eq|].
    right; right; by left.
  + destruct x; try done. destruct Hr as (_ & ->).
    eapply Hev; [exact Hrow|apply lookup_insert_eq|]. right; right; by right.
- rewrite Ho in Hrow. by left.
Qed.

(** What an old event attests stays true. *)
Lemma attests_step Q db db' row :
books db → payment_step_by client Q db db' → payment_row_ok db row → payment_row_ok db' row.
Proof.
intros HB Hstep (eid & et & tr & id & p & Hpl & Hp & Ha).
destruct (payment_step_row _ _ _ _ _ _ HB Hstep Hp) as (p' & Hp' & Hor).
exists eid, et, tr, id, p'. split_and!; [done..|].
destruct Hor as [[-> _]|(Hst & Hst' & _)]; [done|]. unfold attests in *. rewrite Hst in Ha.
rewrite !elem_of_cons, elem_of_nil in Hst'.
destruct Ha as [[-> _]|[[_ ?]|[[_ ?]|[_ ?]]]]; try done. left. split; [done|].
by destruct Hst' as [E|[E|[]]]; rewrite E.
Qed.
End payment_side.

(** ** The two services together *)

(** The invariant of the pair of databases. *)
Record saga_agrees (bdb : BookingDB) (pdb : PaymentDB) : Prop := mk_agrees {
  ag_wf : wf bdb;
  ag_books : books pdb;
  ag_commands : ∀ row, row ∈ b_outbox bdb → booking_row_ok bdb row;
  ag_events : ∀ row, row ∈ p_outbox pdb → payment_row_ok pdb row;
  ag_payment : ∀ i p, payments pdb !! i = Some p → ∃ b, bookings bdb !! i = Some b ∧
    pm_renter_id p = bk_renter_id b ∧ pm_hold_amount_cents p = rental_price b ∧
    (pm_status p = "captured" →
       line <$> entries_of i pdb = captured_lines p (bk_host_id b) (rental_price b));
  ag_booking : ∀ i b, bookings bdb !! i = Some b →
    (bk_status b ∈ ["confirmed"; "active"] →
       ∃ p, payments pdb !! i = Some p ∧ pm_status p ≠ "authorization_failed") ∧
    (bk_status b = "completed" → ∃ p, payments pdb !! i = Some p ∧ pm_status p = "captured") ∧
    (bk_status b = "cancelled" →
       ∃ p, payments pdb !! i = Some p ∧ pm_status p = "authorization_failed");
}.

(** Fields of the published data. *)
Lemma asked_authorize eid et data tr b bid renter amount :
  data = authorize_data b →
  PaymentService.pay_asked et data (PayAuthorize bid renter amount) →
  record_fields (envelope eid et data tr) = Some (eid, et, data) ∧
  bid = bk_id b ∧ renter = bk_renter_id b ∧ amount = rental_price b.
Proof.
  intros -> (-> & Hb & Hr & Ha). split; [done|]. split_and!.
  - eapply uuid_field_str; [|done]. done.
  - eapply uuid_field_str; [|done]. done.
  - unfold int_field in Ha. simpl in Ha. by injection Ha as <-.
Qed.

Lemma asked_capture et data b o bid host hold cents :
  data = capture_data b o →
  PaymentService.pay_asked et data (PayCapture bid host hold cents) →
  bid = bk_id b ∧ host = bk_host_id b ∧ hold = rental_price b.
Proof.
  intros -> (-> & Hb & Hh & Ha & _). split_and!.
  - eapply uuid_field_str; [|done]. done.
  - eapply uuid_field_str; [|done]. done.
  - unfold int_field in Ha. simpl in Ha. by injection Ha as <-.
Qed.

Section agree.
Context {W1 W2 : Type} (client : StripeClient W2).

(** Commands whose claims the payments back. *)
Definition backed (pdb : PaymentDB) (id : uuid) (c : command) : Prop :=
by_host c ∨
∃ et p, payment_command et = Some c ∧ payments pdb !! id = Some p ∧ attests et (pm_status p).

Lemma agrees_booking_step L bdb bdb' pdb :
booking_step_by W1 L (backed pdb) bdb bdb' → saga_agrees bdb pdb → saga_agrees bdb' pdb.
Proof.
intros Hs [Hwf HB Hc He Hp Hb]. split.
- by eapply wf_step.
- done.
- intros row Hrow. destruct (step_outbox _ _ _ _ _ Hwf Hs Hrow) as [Hold|]; [|done].
  destruct (Hc row Hold) as (eid & et & data & tr & Hpl & Ha & Hcap).
  exists eid, et, data, tr. split; [done|]. split.
  + intros (b & Hi & ->)%Ha. destruct (step_terms _ _ _ _ _ _ Hwf Hs Hi) as (b' & Hi' & Ht).
    apply terms_data in Ht as (Hd & _ & _ & Hid & _). exists b'. by rewrite Hid, Hd.
  + intros (b & o & Hi & ->)%Hcap. destruct (step_terms _ _ _ _ _ _ Hwf Hs Hi) as (b' & Hi' & Ht).
    apply terms_data in Ht as (_ & Hd & _ & Hid & _). exists b', o. by rewrite Hid, Hd.
- done.
- intros i p Hi. destruct (Hp i p Hi) as (b & Hbi & H1 & H2 & H3).
  destruct (step_terms _ _ _ _ _ _ Hwf Hs Hbi) as (b' & Hi' & Ht).
  apply terms_data in Ht as (_ & _ & Hr & _ & Hn & Hh). exists b'. rewrite Hn, Hh, Hr. done.
- intros i b' Hi'. pose proof (step_status _ _ _ _ _ _ Hwf Hs Hi') as Hst.
  destruct (bookings bdb !! i) as [b|] eqn:Hi.
  2:{ rewrite Hst. split; [set_solver|]. done. }
  specialize (Hb i b Hi). destruct Hst as [->|(c & Hq & Hex & Hse)]; [done|].
  rewrite Hse. rewrite Hex in Hb. destruct Hb as (Hb & _).
  destruct Hq as [Hq|(et & p & Het & Hpi & Ha)].
  + destruct c; try done; simpl in *; (split_and!; [|done|done]); try set_solver.
    all: intros _; apply Hb; set_solver.
  + unfold payment_command, attests in *. repeat case_decide; simplify_eq; simpl in *;
      destruct Ha as [[? ?]|[[? ?]|[[? ?]|[? ?]]]]; simplify_eq;
      (split_and!; [|done || eauto|done || eauto]); try set_solver.
    all: intros _; eauto. all: by apply Hb; set_solver.
Qed.

Lemma agrees_payment_step bdb pdb pdb' row eid et data tr :
booking_row_ok bdb row → payload row = envelope eid et data tr →
payment_step_by client (PaymentService.pay_asked et data) pdb pdb' →
saga_agrees bdb pdb → saga_agrees bdb pdb'.
Proof.
intros (eid' & et' & data' & tr' & Hpl & Hauth & Hcap) Hpl' Hs [Hwf HB Hc He Hp Hb].
rewrite Hpl in Hpl'. injection Hpl' as -> -> -> ->. split.
- done.
- by eapply books_step.
- done.
- intros row2 Hrow. destruct (pstep_outbox _ _ _ _ row2 HB Hs Hrow) as [Hold|]; [|done].
  eapply attests_step; eauto.
- intros i p' Hi. destruct (pstep_history _ _ _ _ _ _ HB Hs Hi) as
    [[Hi0 He0]|[(Hi0 & Hnc & Hq)|(p & host & hold & cents & Hi0 & Hst & Hr & Hh & Hq & Hl)]].
  + destruct (Hp i p' Hi0) as (b & H1 & H2 & H3 & H4). exists b. by rewrite He0.
  + destruct (Hauth (proj1 Hq)) as (b & Hbi & Hd).
    destruct (asked_authorize eid et data tr b _ _ _ Hd Hq) as (_ & -> & -> & ->).
    exists b. split_and!; try done.
  + destruct (Hp i p Hi0) as (b & H1 & H2 & H3 & H4).
    destruct (Hcap (proj1 Hq)) as (b2 & o & Hbi & Hd).
    destruct (asked_capture et data b2 o _ _ _ _ Hd Hq) as (-> & -> & ->).
    assert (b2 = b) as -> by congruence.
    exists b. split_and!; try congruence. done.
- intros i b Hi. destruct (Hb i b Hi) as (H1 & H2 & H3).
  assert (∀ p, payments pdb !! i = Some p → ∃ p', payments pdb' !! i = Some p' ∧
    (pm_status p ≠ "authorization_failed" → pm_status p' ≠ "authorization_failed") ∧
    (pm_status p ≠ "authorized" → pm_status p' = pm_status p)) as Hrow.
  { intros p Hpi. destruct (payment_step_row _ _ _ _ _ _ HB Hs Hpi) as (p' & Hp' & Hor).
    exists p'. split; [done|]. destruct Hor as [[-> _]|(Hst & Hst' & _)]; [done|].
    split; [|done]. intros _ E. rewrite E in Hst'. set_solver. }
  split_and!.
  + intros (p & Hpi & Hne)%H1. destruct (Hrow p Hpi) as (p' & ? & ? & _). eauto.
  + intros (p & Hpi & Hne)%H2. destruct (Hrow p Hpi) as (p' & ? & _ & Hk).
    exists p'. split; [done|]. rewrite Hk; [done|]. by rewrite Hne.
  + intros (p & Hpi & Hne)%H3. destruct (Hrow p Hpi) as (p' & ? & _ & Hk).
    exists p'. split; [done|]. rewrite Hk; [done|]. by rewrite Hne.
Qed.

Lemma agrees_payment_bookkeeping bdb pdb pdb' :
same_books pdb pdb' → saga_agrees bdb pdb → saga_agrees bdb pdb'.
Proof.
intros (H1 & H2 & H3) [Hwf HB Hc He Hp Hb].
assert (books pdb') as HB'.
{ eapply (books_step client (λ _, True)); [|exact HB]. by apply pstep_bookkeeping. }
split; try done.
- intros row. rewrite H3. intros (eid & et & tr & id & p & ? & ? & ?)%He.
  exists eid, et, tr, id, p. by rewrite H1.
- intros i p. rewrite H1. unfold entries_of. rewrite H2. apply Hp.
- intros i b. rewrite H1. apply Hb.
Qed.
End agree.

(** *** Every behaviour of the pair *)
Section saga.
Context {W1 W2 : Type} `{!Platform} `{!StripeSdk W2}.
Variable cfg : jwt_settings.
Variable client : StripeClient W2.

Definition saga : Type := node BookingDB W1 * node PaymentDB W2.

(** The topics carry the payloads of the outbox rows; each consumer may be
  given any row published so far. *)
Inductive saga_background : saga → saga → Prop :=
| sg_cleanup nb np older_than res nb' :
  run_session (purge_expired_idempotency_keys older_than) nb = (res, nb') →
  saga_background (nb, np) (nb', np)
| sg_payment_event nb np row res nb' :
  row ∈ p_outbox np.1.1 →
  consume (inbox_process PAYMENT_EVENT_HANDLERS) (payload row) nb = (res, nb') →
  saga_background (nb, np) (nb', np)
| sg_booking_command nb np row res np' :
  row ∈ b_outbox nb.1.1 →
  consume (inbox_process (build_booking_command_handlers client)) (payload row) np = (res, np') →
  saga_background (nb, np) (nb, np')
| sg_query nb np rq i resp np' :
  serve (get_payment cfg rq i) np = (resp, np') → saga_background (nb, np) (nb, np')
| sg_webhook nb np secret sig body resp np' :
  serve (stripe_webhook secret sig body) np = (resp, np') → saga_background (nb, np) (nb, np')
| sg_environment nb np w1 e1 w2 e2 : saga_background (nb, np) ((nb.1.1, w1, e1), (np.1.1, w2, e2)).

(** What the listing service answers may change from one request to the next. *)
Inductive saga_step : saga → saga → Prop :=
| sg_request nb np (listing : listing_http) rq r resp nb' :
  serve (handle cfg listing rq r) nb = (resp, nb') → saga_step (nb, np) (nb', np)
| sg_background st st' : saga_background st st' → saga_step st st'.

Lemma agrees_booking_steps L (Q : uuid → command → Prop) bdb bdb' pdb :
(∀ id c, Q id c → backed pdb id c) →
rtc (booking_step_by W1 L Q) bdb bdb' → saga_agrees bdb pdb → saga_agrees bdb' pdb.
Proof.
intros HQ Hs. induction Hs as [|x y z Hxy _ IH]; [done|]. intros Ha. apply IH.
eapply agrees_booking_step; [|done]. by eapply (booking_step_weaken _ L L).
Qed.

Lemma agrees_step st st' :
saga_step st st' → saga_agrees st.1.1.1 st.2.1.1 → saga_agrees st'.1.1.1 st'.2.1.1.
Proof.
intros [nb np listing rq r resp nb' Hr|st1 st2 [nb np older res nb' Hr|nb np row res nb' Hrow Hr
  |nb np row res np' Hrow Hr|nb np rq i resp np' Hr|nb np secret sig body resp np' Hr|]]; simpl; [..|done].
- destruct nb as [[db w] e]. unfold serve, run_session in Hr.
  destruct (handle cfg listing rq r _) as [x s'] eqn:E. simplify_eq.
  apply (agrees_booking_steps (eq listing) (λ _ c, by_host c)); [by left|].
  by apply (handle_steps cfg listing rq r (mk_session db db w e) x s').
- destruct nb as [[db w] e]. unfold run_session in Hr. simpl in Hr. simplify_eq. simpl.
  apply (agrees_booking_steps (λ _, False) (λ _ c, by_host c)); [by left|].
  by apply rtc_once, step_bookkeeping.
- intros Ha. destruct (ag_events _ _ Ha row Hrow) as (eid & et & tr & id & p & Hpl & Hp & Hat).
  rewrite Hpl in Hr. erewrite consume_fields in Hr by reflexivity.
  revert Ha. eapply agrees_booking_steps; [|by eapply payment_record_steps].
  intros id' c [Hc Hid]. assert (id' = id) as -> by (eapply uuid_field_str; [|exact Hid]; done).
  right. eauto.
- intros Ha. pose proof (ag_commands _ _ Ha row Hrow) as Hok.
  pose proof Hok as (eid & et & data & tr & Hpl & _).
  rewrite Hpl in Hr. erewrite consume_fields in Hr by reflexivity.
  apply PaymentService.pay_record_steps in Hr.
  induction Hr as [|x y z Hxy _ IH]; [done|]. apply IH. by eapply agrees_payment_step.
- destruct np as [[db w] e]. unfold serve, run_session in Hr.
  pose proof (PaymentService.get_payment_read_only cfg rq i (mk_session db db w e)) as Hro.
  destruct (get_payment cfg rq i _) as [x s']. simpl in Hro. subst s'. by injection Hr as _ <-.
- destruct np as [[db w] e]. unfold serve, run_session in Hr.
  destruct (stripe_webhook secret sig body _) as [x s'] eqn:E. injection Hr as _ <-. simpl.
  eapply (agrees_payment_bookkeeping client).
  by eapply (PaymentService.webhook_books secret sig body (mk_session db db w e)).
Qed.

(** Both services started on empty databases. *)
Definition saga_start (st : saga) : Prop :=
empty_bookings st.1.1.1 ∧ b_outbox st.1.1.1 = [] ∧ empty_payments st.2.1.1 ∧ p_outbox st.2.1.1 = [].

Definition saga_reachable (st : saga) : Prop := ∃ st0, saga_start st0 ∧ rtc saga_step st0 st.

Lemma saga_reachable_agrees st : saga_reachable st → saga_agrees st.1.1.1 st.2.1.1.
Proof.
intros (st0 & (Hb & Hbo & Hp & Hpo) & Hs).
assert (saga_agrees st0.1.1.1 st0.2.1.1) as H0.
{ split.
  - by apply wf_empty.
  - apply (books_reachable client). by exists st0.2.1.1.
  - intros row. rewrite Hbo. by intros ?%elem_of_nil.
  - intros row. rewrite Hpo. by intros ?%elem_of_nil.
  - intros i p. destruct Hp as [-> _]. by rewrite lookup_empty.
  - intros i b. destruct Hb as [-> _]. by rewrite lookup_empty. }
clear Hb Hbo Hp Hpo. induction Hs; [done|]. eauto using agrees_step.
Qed.

(** Nothing in the background books a vehicle. *)
Lemma background_booking_steps st st' :
saga_background st st' → rtc (booking_step_by W1 (λ _, False) (λ _ _, True)) st.1.1.1 st'.1.1.1.
Proof.
intros [nb np older res nb' Hr|nb np row res nb' Hrow Hr|?|?|?|]; simpl; try done.
- destruct nb as [[db w] e]. unfold run_session in Hr. simpl in Hr. simplify_eq. simpl.
  by apply rtc_once, step_bookkeeping.
- destruct (record_fields (payload row)) as [[[i t] d]|] eqn:Ef.
  + rewrite (consume_fields _ _ _ _ _ _ Ef) in Hr. apply payment_record_steps in Hr.
    eapply rtc_subrel; [|exact Hr]. intros x y. by apply booking_step_weaken.
  + destruct (consume_malformed (inbox_process PAYMENT_EVENT_HANDLERS) (payload row) nb Ef) as [x He].
    rewrite He in Hr. by simplify_eq.
Qed.

(** Each side of a step is a step of its service. *)
Lemma saga_booking_step st st' : saga_step st st' → rtc (booking_step W1) st.1.1.1 st'.1.1.1.
Proof.
intros [nb np listing rq r resp nb' Hr|st1 st2 [nb np older res nb' Hr|nb np row res nb' Hrow Hr
  |nb np row res np' Hrow Hr|nb np rq i resp np' Hr|nb np secret sig body resp np' Hr|]]; simpl; try done.
- eapply (service_step_steps cfg listing). by eapply svc_request.
- eapply (service_step_steps cfg (λ _ _, Ok (404%Z, []))). by eapply svc_cleanup.
- eapply (service_step_steps cfg (λ _ _, Ok (404%Z, []))). by eapply svc_record.
Qed.

Lemma saga_payment_step st st' : saga_step st st' → rtc (payment_step client) st.2.1.1 st'.2.1.1.
Proof.
intros [nb np listing rq r resp nb' Hr|st1 st2 [nb np older res nb' Hr|nb np row res nb' Hrow Hr
  |nb np row res np' Hrow Hr|nb np rq i resp np' Hr|nb np secret sig body resp np' Hr|]]; simpl; try done.
- eapply PaymentService.pay_service_steps. by eapply PaymentService.pay_record.
- eapply PaymentService.pay_service_steps. by eapply PaymentService.pay_get.
- eapply PaymentService.pay_service_steps. by eapply PaymentService.pay_webhook.
Qed.

Lemma saga_booking_steps st st' : rtc saga_step st st' → rtc (booking_step W1) st.1.1.1 st'.1.1.1.
Proof. induction 1; [done|]. etrans; [by apply saga_booking_step | done]. Qed.

(** The databases of a reachable pair are reachable on their own. *)
Lemma saga_booking_reachable st : saga_reachable st → reachable W1 st.1.1.1.
Proof.
intros (st0 & H0 & Hr). exists st0.1.1.1. split; [apply H0|]. by apply saga_booking_steps.
Qed.

Lemma saga_payment_reachable st : saga_reachable st → pay_reachable client st.2.1.1.
Proof.
intros (st0 & H0 & Hr). exists st0.2.1.1. split; [apply H0|].
clear H0. induction Hr as [|x y z Hxy _ IH]; [done|].
etrans; [by apply saga_payment_step | exact IH].
Qed.
End saga.

(** C4: the booking's status is backed by money.  Whatever order and
    multiplicity the messages are delivered in: a confirmed or active booking
    has a payment that was authorized, a completed one has been captured, a
    cancelled one was refused by Stripe. *)
Theorem saga_status {W1 W2} `{!Platform} `{!StripeSdk W2} (cfg : jwt_settings)
    (client : StripeClient W2) (st : saga (W1 := W1) (W2 := W2))
    (id : uuid) (b : Booking) :
  saga_reachable cfg client st → bookings st.1.1.1 !! id = Some b →
  (bk_status b ∈ ["confirmed"; "active"] → ∃ p, payments st.2.1.1 !! id = Some p ∧
     pm_status p ∈ ["authorized"; "captured"; "capture_failed"]) ∧
  (bk_status b = "completed" → ∃ p, payments st.2.1.1 !! id = Some p ∧ pm_status p = "captured") ∧
  (bk_status b = "cancelled" → ∃ p, payments st.2.1.1 !! id = Some p ∧
     pm_status p = "authorization_failed" ∧ entries_of id st.2.1.1 = []).
Proof.
  intros Ha%saga_reachable_agrees Hb. destruct (ag_booking _ _ Ha id b Hb) as (H1 & H2 & H3).
  split_and!.
  - intros (p & Hp & Hne)%H1. exists p. split; [done|].
    pose proof (books_status _ (ag_books _ _ Ha) _ _ Hp) as Hs. unfold payment_statuses in Hs. set_solver.
  - done.
  - intros (p & Hp & Hs)%H3. exists p. split_and!; [done..|].
    destruct (books_booked _ (ag_books _ _ Ha) _ _ Hp) as [_ Hbk]. rewrite Hs in Hbk.
    by destruct Hbk.
Qed.

(** C3: the renter pays the booking's price to the booking's host.  A payment
    belongs to a booking, its renter and its price; whatever the ledger has
    for a booking is one rental charge of daily price times days from its
    renter to its host, plus at most one overage charge. *)
Theorem saga_money {W1 W2} `{!Platform} `{!StripeSdk W2} (cfg : jwt_settings)
    (client : StripeClient W2) (st : saga (W1 := W1) (W2 := W2))
    (id : uuid) (p : Payment) :
  saga_reachable cfg client st → payments st.2.1.1 !! id = Some p →
  ∃ b, bookings st.1.1.1 !! id = Some b ∧ pm_renter_id p = bk_renter_id b ∧
    pm_hold_amount_cents p = rental_price b ∧
    if decide (pm_status p = "captured") then
      line <$> entries_of id st.2.1.1 = captured_lines p (bk_host_id b) (rental_price b) ∧
      charged (renter_account p) (entries_of id st.2.1.1) = (rental_price b + pm_overage_cents p)%Z
    else entries_of id st.2.1.1 = [].
Proof.
  intros Ha%saga_reachable_agrees Hp. destruct (ag_payment _ _ Ha id p Hp) as (b & Hb & H1 & H2 & H3).
  exists b. split_and!; [done..|].
  destruct (books_booked _ (ag_books _ _ Ha) _ _ Hp) as [Hc Hbk].
  case_decide as Hs; [|by destruct Hbk]. split; [by apply H3|].
  rewrite charged_line, H3, charged_captured by done. unfold overage_consistent in Hc.
  by destruct (pm_stripe_overage_intent_id p); rewrite ?Hc.
Qed.

(** ** A saga that gets stuck *)

Lemma handle_run {W} data id (apply : uuid → M (session BookingDB W) Booking) s :
  dict_get data "booking_id" = Some (PStr (str_uuid id)) →
  _handle data apply s = (apply id;; mret tt) s.
Proof.
  intros Hd. unfold _handle, getitem, to_uuid. rewrite Hd, run_bind. cbn [mret M_ret].
  rewrite run_bind, run_bind. unfold as_str. cbn [mret M_ret]. by rewrite UUID_str.
Qed.

(** The record of a payment_authorized event for booking [id]. *)
Definition authorized_record (event_id : string) (id : uuid) (tr : dict) : dict :=
  envelope event_id "payment_authorized" [("booking_id", PStr (str_uuid id))] tr.

(** C20: the two ends of the saga can disagree for good.  A payment_authorized
    event for a booking that is no longer "requested" (its host rejected it
    while the payment was pending) cannot be processed: the consumer raises
    on it, the database stays as it is and the offset is not committed, so
    the records behind it are not reached. *)
Theorem late_authorization_blocks {W} (n : node BookingDB W) (off : nat) (id : uuid) (b : Booking)
    (event_id : string) (tr : dict) (rest : list dict) :
  bookings n.1.1 !! id = Some b → bk_status b ≠ "requested" → event_id ∉ b_inbox n.1.1 →
  ∃ msg n', n'.1.1 = n.1.1 ∧
    run_consumer (inbox_process PAYMENT_EVENT_HANDLERS)
      (authorized_record event_id id tr :: rest) (n, off)
    = (Err (InvalidBookingTransitionError msg), (n', off)).
Proof.
  intros Hb Hst Hi. unfold run_consumer. fold (run_consumer (St := node BookingDB W)).
  erewrite consume_fields by reflexivity.
  rewrite (inbox_process_handled _ _ _ _ _ handle_payment_authorized) by done.
  assert (bookings (work (claimed_session event_id n)) !! id = Some b ∧
    committed (claimed_session event_id n) = n.1.1) as [Hb' Hc] by (by destruct n as [[]]).
  set (s := claimed_session event_id n) in *.
  assert (∃ msg, handle_payment_authorized [("booking_id", PStr (str_uuid id))] s =
    (Err (InvalidBookingTransitionError msg), s)) as [msg ->].
  { unfold handle_payment_authorized. rewrite (handle_run _ id) by done.
    unfold apply_payment_authorized, with_booking. rewrite run_bind, run_bind.
    unfold get_by_id. rewrite run_bind. cbn [get_db gets mret M_ret]. rewrite Hb'.
    unfold payment_body, lift, confirm_after_payment_authorized. rewrite run_bind.
    unfold _require_status. cbn [st_status _to_state]. rewrite decide_True by done. eexists. reflexivity. }
  exists msg. eexists. split; [|done]. done.
Qed.
