(* ===== verification/Redis.v ===== *)
(** * Redis: the commands the services use, and shared/kill_switch.py

    The Redis server is outside the repository: [Redis] is the client as the
    code calls it, [RedisLaws] the documented effect of each command on the
    keys ([SET], [SET NX EX], [GET], [EXISTS], [DEL]); a [SET] whose reply is
    lost may have been carried out.  A key with a time to live disappears at
    any later moment ([expires]).

    The kill switch is one key per vehicle, written by admin and read by the
    telemetry ingest. *)
From S2P Require Import Prelude Python Effects.

Class Redis (R : Type) := {
  redis_get : string → M R (option string);
  redis_set : string → string → option Z → M R unit;
  redis_set_nx : string → string → Z → M R bool;
  redis_exists : string → M R bool;
  redis_delete : string → M R unit;
}.

Class RedisLaws (R : Type) `{!Redis R} := {
  keys : R → gmap string string;
  redis_get_Ok k r v r' : redis_get k r = (Ok v, r') → v = keys r !! k ∧ keys r' = keys r;
  redis_set_Ok k v ttl r u r' : redis_set k v ttl r = (Ok u, r') → keys r' = <[k := v]> (keys r);
  redis_set_Err k v ttl r x r' : redis_set k v ttl r = (Err x, r') →
    keys r' = keys r ∨ keys r' = <[k := v]> (keys r);
  redis_set_nx_Ok k v ttl r b r' : redis_set_nx k v ttl r = (Ok b, r') →
    match keys r !! k with
    | Some _ => b = false ∧ keys r' = keys r
    | None => b = true ∧ keys r' = <[k := v]> (keys r)
    end;
  redis_exists_Ok k r b r' : redis_exists k r = (Ok b, r') →
    b = bool_decide (is_Some (keys r !! k)) ∧ keys r' = keys r;
  redis_delete_Ok k r u r' : redis_delete k r = (Ok u, r') → keys r' = delete k (keys r);
}.

(** Keys with a time to live go away. *)
Definition expires {R} `{!Redis R} `{!RedisLaws R} (r r' : R) : Prop := keys r' ⊆ keys r.

(** ** shared/kill_switch.py *)
Definition _KEY_PREFIX : string := "kill-switch".

Definition _key (vehicle_id : string) : string := _KEY_PREFIX +:+ ":" +:+ vehicle_id.

Section kill_switch.
Context {R : Type} `{!Redis R}.

Definition activate (vehicle_id : string) : M R unit := redis_set (_key vehicle_id) "1" None.
Definition deactivate (vehicle_id : string) : M R unit := redis_delete (_key vehicle_id).
Definition is_active (vehicle_id : string) : M R bool := redis_exists (_key vehicle_id).
End kill_switch.

#[export] Instance key_inj : Inj (=) (=) _key.
Proof. intros a b H. unfold _key in H. cbv [_KEY_PREFIX String.app] in H. by injection H. Qed.

Section kill_switch_laws.
Context {R : Type} `{!Redis R} `{!RedisLaws R}.
Implicit Types r : R.

Definition killed r (vehicle_id : string) : Prop := is_Some (keys r !! _key vehicle_id).

Lemma activate_Ok v r u r' : activate v r = (Ok u, r') →
∀ w, killed r' w ↔ w = v ∨ killed r w.
Proof.
intros H%redis_set_Ok w. unfold killed. rewrite H, lookup_insert_is_Some.
split; [intros [->%(inj _)|[_ ?]]; auto|]. intros [->|?]; [by left|].
destruct (decide (_key v = _key w)); [by left | by right].
Qed.

Lemma deactivate_Ok v r u r' : deactivate v r = (Ok u, r') →
∀ w, killed r' w ↔ w ≠ v ∧ killed r w.
Proof.
intros H%redis_delete_Ok w. unfold killed. rewrite H, lookup_delete_is_Some.
split; intros [Hne ?]; (split; [|done]).
- by intros ->.
- by intros ->%(inj _).
Qed.

Lemma is_active_Ok v r b r' : is_active v r = (Ok b, r') →
b = bool_decide (killed r v) ∧ keys r' = keys r.
Proof. apply redis_exists_Ok. Qed.
End kill_switch_laws.
