(* ===== verification/Listing.v ===== *)
(** * Listing: services/listing (models, schemas, repository, service, routes)

    The vehicles hosts offer, their approval by an administrator and their
    availability blocks.  Every change of a vehicle that can be visible to
    search is published through the outbox with the full state of the row
    ([_vehicle_snapshot]). *)
From S2P Require Import Prelude Python Columns Effects Outbox Idempotency JwtAuth Http.

(** ** models.py and the two migrations *)
Record Vehicle := mk_vehicle {
  vh_id : uuid;
  vh_host_id : uuid;
  vh_make : string;
  vh_model : string;
  vh_year : Z;
  vh_daily_price_cents : Z;
  vh_daily_mileage_limit : Z;
  vh_booking_mode : string;
  vh_approval_status : string;
  vh_latitude : spec_float;
  vh_longitude : spec_float;
  vh_created_at : Z;
}.

Record AvailabilityBlock := mk_block {
  ab_id : uuid;
  ab_vehicle_id : uuid;
  ab_start_date : date;
  ab_end_date : date;
}.

Record ListingDB := mk_listing_db {
  vehicles : gmap uuid Vehicle;
  blocks : list AvailabilityBlock;
  l_outbox : list OutboxRow;
  l_idem : gmap (string * string) IdemRow;
}.

#[export, refine] Instance listing_outbox : HasOutbox ListingDB := {|
  get_outbox := l_outbox;
  set_outbox rows db := mk_listing_db (vehicles db) (blocks db) rows (l_idem db);
|}.
Proof. done. Defined.
#[export, refine] Instance listing_idem : HasIdem ListingDB := {|
  get_idem := l_idem;
  set_idem m db := mk_listing_db (vehicles db) (blocks db) (l_outbox db) m;
|}.
Proof. done. Defined.

Definition set_vehicles (m : gmap uuid Vehicle) (db : ListingDB) : ListingDB :=
  mk_listing_db m (blocks db) (l_outbox db) (l_idem db).
Definition set_blocks (bs : list AvailabilityBlock) (db : ListingDB) : ListingDB :=
  mk_listing_db (vehicles db) bs (l_outbox db) (l_idem db).

Definition vehicle_types (v : Vehicle) : Prop :=
  varchar 80 (vh_make v) ∧ varchar 80 (vh_model v) ∧ int4 (vh_year v) ∧
  int4 (vh_daily_price_cents v) ∧ int4 (vh_daily_mileage_limit v) ∧
  varchar 16 (vh_booking_mode v) ∧ varchar 16 (vh_approval_status v) ∧
  float8 (vh_latitude v) ∧ float8 (vh_longitude v).
#[export] Instance vehicle_types_dec v : Decision (vehicle_types v).
Proof. unfold vehicle_types. apply _. Defined.

(** The CHECK constraints of the vehicles table. *)
Definition vehicle_checks (v : Vehicle) : Prop :=
  vh_booking_mode v ∈ ["instant"; "request"] ∧
  vh_approval_status v ∈ ["pending"; "approved"; "rejected"].
#[export] Instance vehicle_checks_dec v : Decision (vehicle_checks v).
Proof. unfold vehicle_checks. apply _. Defined.

(** [vehicle_id WITH =, daterange(start_date, end_date, '[]') WITH &&]. *)
Definition blocks_overlap (a b : AvailabilityBlock) : Prop :=
  ab_vehicle_id a = ab_vehicle_id b ∧
  (ab_start_date a ≤ ab_end_date b)%Z ∧ (ab_start_date b ≤ ab_end_date a)%Z.
#[export] Instance blocks_overlap_dec a b : Decision (blocks_overlap a b).
Proof. unfold blocks_overlap. apply _. Defined.

Definition set_approval_status (status : string) (v : Vehicle) : Vehicle :=
  mk_vehicle (vh_id v) (vh_host_id v) (vh_make v) (vh_model v) (vh_year v) (vh_daily_price_cents v)
    (vh_daily_mileage_limit v) (vh_booking_mode v) status (vh_latitude v) (vh_longitude v)
    (vh_created_at v).

(** ** schemas.py *)
Record CreateVehicleRequest := mk_create_vehicle {
  cv_make : string;
  cv_model : string;
  cv_year : Z;
  cv_daily_price_cents : Z;
  cv_daily_mileage_limit : Z;
  cv_booking_mode : string;
  cv_latitude : spec_float;
  cv_longitude : spec_float;
}.

(** A field of the PATCH body that is absent or null is [None]. *)
Record UpdateVehicleRequest := mk_update_vehicle {
  uv_make : option string;
  uv_model : option string;
  uv_year : option Z;
  uv_daily_price_cents : option Z;
  uv_daily_mileage_limit : option Z;
  uv_booking_mode : option string;
  uv_latitude : option spec_float;
  uv_longitude : option spec_float;
}.

(** The integer [z] as a double. *)
Definition float_of_Z (z : Z) : spec_float := binary_normalize 53 1024 z 0 false.

(** [ge=lo, le=hi]; false on NaN. *)
Definition float_in (lo hi : Z) (f : spec_float) : bool :=
  SFleb (float_of_Z lo) f && SFleb f (float_of_Z hi).

Definition name_ok (s : string) : bool := bool_decide (1 ≤ String.length s ≤ 80).
Definition year_ok (z : Z) : bool := bool_decide (1980 ≤ z ≤ 2100)%Z.
Definition positive (z : Z) : bool := bool_decide (0 < z)%Z.
Definition mode_ok (s : string) : bool := bool_decide (s ∈ ["instant"; "request"]).
Definition latitude_ok : spec_float → bool := float_in (-90) 90.
Definition longitude_ok : spec_float → bool := float_in (-180) 180.

Definition create_vehicle_ok (p : CreateVehicleRequest) : bool :=
  name_ok (cv_make p) && name_ok (cv_model p) && year_ok (cv_year p)
  && positive (cv_daily_price_cents p) && positive (cv_daily_mileage_limit p)
  && mode_ok (cv_booking_mode p) && latitude_ok (cv_latitude p) && longitude_ok (cv_longitude p).

Definition opt_ok {A} (ok : A → bool) (o : option A) : bool :=
  match o with Some a => ok a | None => true end.

Definition update_vehicle_ok (p : UpdateVehicleRequest) : bool :=
  opt_ok name_ok (uv_make p) && opt_ok name_ok (uv_model p) && opt_ok year_ok (uv_year p)
  && opt_ok positive (uv_daily_price_cents p) && opt_ok positive (uv_daily_mileage_limit p)
  && opt_ok mode_ok (uv_booking_mode p) && opt_ok latitude_ok (uv_latitude p)
  && opt_ok longitude_ok (uv_longitude p).

Record CreateAvailabilityBlockRequest := mk_create_block {
  cb_start_date : date;
  cb_end_date : date;
}.

Definition create_block_ok (p : CreateAvailabilityBlockRequest) : bool :=
  negb (bool_decide (cb_end_date p < cb_start_date p)%Z).

Section repo.
Context {W : Type}.
Notation Ml := (M (session ListingDB W)).

(** ** repository.py *)

(** [session.flush()] for the vehicle object. *)
Definition flush_vehicle (v : Vehicle) : Ml unit :=
db ← get_db;
if decide (¬ vehicle_types v) then raise DataError
else if decide (¬ vehicle_checks v) then raise IntegrityError
else put_db (set_vehicles (<[vh_id v := v]> (vehicles db)) db).

Definition get_by_id (vehicle_id : uuid) : Ml (option Vehicle) :=
db ← get_db; mret (vehicles db !! vehicle_id).

Definition create_row (host_id : uuid) (p : CreateVehicleRequest) : Ml Vehicle :=
id ← uuid4;
t ← now;
let vehicle := mk_vehicle id host_id (cv_make p) (cv_model p) (cv_year p) (cv_daily_price_cents p)
  (cv_daily_mileage_limit p) (cv_booking_mode p) "pending" (cv_latitude p) (cv_longitude p) t in
db ← get_db;
(if decide (is_Some (vehicles db !! id)) then raise IntegrityError else flush_vehicle vehicle);;
mret vehicle.

Definition save_vehicle (v : Vehicle) : Ml unit := flush_vehicle v.

(** [ORDER BY created_at, id]. *)
Definition vehicle_order (a b : Vehicle) : Prop :=
(vh_created_at a < vh_created_at b)%Z ∨
vh_created_at a = vh_created_at b ∧ (uuid_int (vh_id a) ≤ uuid_int (vh_id b))%N.
#[export] Instance vehicle_order_dec a b : Decision (vehicle_order a b).
Proof. unfold vehicle_order. apply _. Defined.

Definition rows_with_status (approval_status : string) (db : ListingDB) : list Vehicle :=
merge_sort vehicle_order
  (filter (λ v, vh_approval_status v = approval_status) ((map_to_list (vehicles db)).*2)).

Definition list_by_approval_status (approval_status : string) (limit offset : Z) : Ml (list Vehicle) :=
db ← get_db;
if decide (¬ (bigint_nat limit ∧ bigint_nat offset)) then raise DataError
else mret (take (Z.to_nat limit) (drop (Z.to_nat offset) (rows_with_status approval_status db))).

(** The INSERT of a block: foreign key, date CHECK, exclusion constraint. *)
Definition insert_block (b : AvailabilityBlock) : Ml unit :=
db ← get_db;
if decide (vehicles db !! ab_vehicle_id b = None) then raise IntegrityError
else if decide (ab_end_date b < ab_start_date b)%Z then raise IntegrityError
else if decide (Exists (blocks_overlap b) (blocks db)) then raise IntegrityError
else put_db (set_blocks (blocks db ++ [b]) db).

Definition create_block (vehicle_id : uuid) (start_date end_date : date) : Ml AvailabilityBlock :=
id ← uuid4;
let block := mk_block id vehicle_id start_date end_date in
try_except (insert_block block) (λ e,
  match e with
  | IntegrityError => Some (raise (OverlappingAvailabilityBlockError vehicle_id))
  | _ => None
  end);;
mret block.

(** ** service.py *)
Definition _vehicle_snapshot (vehicle : Vehicle) : dict :=
[("vehicle_id", PStr (str_uuid (vh_id vehicle)));
 ("host_id", PStr (str_uuid (vh_host_id vehicle)));
 ("make", PStr (vh_make vehicle));
 ("model", PStr (vh_model vehicle));
 ("year", PInt (vh_year vehicle));
 ("daily_price_cents", PInt (vh_daily_price_cents vehicle));
 ("daily_mileage_limit", PInt (vh_daily_mileage_limit vehicle));
 ("booking_mode", PStr (vh_booking_mode vehicle));
 ("approval_status", PStr (vh_approval_status vehicle));
 ("latitude", PFloat (vh_latitude vehicle));
 ("longitude", PFloat (vh_longitude vehicle))].

Definition create_vehicle (host_id : uuid) (p : CreateVehicleRequest) : Ml Vehicle :=
create_row host_id p.

Definition get_owned_vehicle (vehicle_id host_id : uuid) : Ml Vehicle :=
vehicle ← get_by_id vehicle_id;
match vehicle with
| None => raise (VehicleNotFoundError vehicle_id)
| Some vehicle =>
    if decide (vh_host_id vehicle ≠ host_id) then raise (NotVehicleOwnerError vehicle_id)
    else mret vehicle
end.

Definition get_vehicle_for_viewer (vehicle_id viewer_id : uuid) (viewer_role : pyval) : Ml Vehicle :=
vehicle ← get_by_id vehicle_id;
match vehicle with
| None => raise (VehicleNotFoundError vehicle_id)
| Some vehicle =>
    let is_owner_or_admin := match viewer_role with PStr "admin" => true | _ => false end
      || bool_decide (vh_host_id vehicle = viewer_id) in
    if negb is_owner_or_admin && negb (bool_decide (vh_approval_status vehicle = "approved"))
    then raise (NotVehicleOwnerError vehicle_id)
    else mret vehicle
end.

(** The loop over MUTABLE_VEHICLE_FIELDS. *)
Definition set_fields (f : UpdateVehicleRequest) (v : Vehicle) : Vehicle :=
mk_vehicle (vh_id v) (vh_host_id v) (default (vh_make v) (uv_make f))
  (default (vh_model v) (uv_model f)) (default (vh_year v) (uv_year f))
  (default (vh_daily_price_cents v) (uv_daily_price_cents f))
  (default (vh_daily_mileage_limit v) (uv_daily_mileage_limit f))
  (default (vh_booking_mode v) (uv_booking_mode f)) (vh_approval_status v)
  (default (vh_latitude v) (uv_latitude f)) (default (vh_longitude v) (uv_longitude f))
  (vh_created_at v).

Definition publish (event_type : string) (vehicle : Vehicle) : Ml unit :=
write_outbox_event "vehicle" (str_uuid (vh_id vehicle)) event_type (_vehicle_snapshot vehicle);;
mret tt.

Definition update_vehicle (vehicle_id host_id : uuid) (fields : UpdateVehicleRequest) : Ml Vehicle :=
vehicle ← get_owned_vehicle vehicle_id host_id;
let vehicle := set_fields fields vehicle in
save_vehicle vehicle;;
publish "vehicle_updated" vehicle;;
mret vehicle.

Definition approve_vehicle (vehicle_id : uuid) : Ml Vehicle :=
vehicle ← get_by_id vehicle_id;
match vehicle with
| None => raise (VehicleNotFoundError vehicle_id)
| Some vehicle =>
    if decide (vh_approval_status vehicle ≠ "pending")
    then raise (InvalidApprovalTransitionError (vh_approval_status vehicle))
    else
      let vehicle := set_approval_status "approved" vehicle in
      save_vehicle vehicle;;
      publish "vehicle_approved" vehicle;;
      mret vehicle
end.

Definition reject_vehicle (vehicle_id : uuid) : Ml Vehicle :=
vehicle ← get_by_id vehicle_id;
match vehicle with
| None => raise (VehicleNotFoundError vehicle_id)
| Some vehicle =>
    if decide (vh_approval_status vehicle ≠ "pending")
    then raise (InvalidApprovalTransitionError (vh_approval_status vehicle))
    else
      let vehicle := set_approval_status "rejected" vehicle in
      save_vehicle vehicle;;
      mret vehicle
end.

Definition list_approved_vehicles (limit offset : Z) : Ml (list Vehicle) :=
list_by_approval_status "approved" limit offset.

Definition add_availability_block (vehicle_id host_id : uuid) (start_date end_date : date) :
  Ml AvailabilityBlock :=
get_owned_vehicle vehicle_id host_id;;
create_block vehicle_id start_date end_date.
End repo.

(** ** routes.py *)
Definition _vehicle_response (vehicle : Vehicle) : dict :=
  [("id", PStr (str_uuid (vh_id vehicle)));
   ("host_id", PStr (str_uuid (vh_host_id vehicle)));
   ("make", PStr (vh_make vehicle));
   ("model", PStr (vh_model vehicle));
   ("year", PInt (vh_year vehicle));
   ("daily_price_cents", PInt (vh_daily_price_cents vehicle));
   ("daily_mileage_limit", PInt (vh_daily_mileage_limit vehicle));
   ("booking_mode", PStr (vh_booking_mode vehicle));
   ("approval_status", PStr (vh_approval_status vehicle));
   ("latitude", PFloat (vh_latitude vehicle));
   ("longitude", PFloat (vh_longitude vehicle))].

Definition block_response (block : AvailabilityBlock) : dict :=
  [("id", PStr (str_uuid (ab_id block)));
   ("vehicle_id", PStr (str_uuid (ab_vehicle_id block)));
   ("start_date", PDate (ab_start_date block));
   ("end_date", PDate (ab_end_date block))].

Section routes.
Context {W : Type} `{!Platform}.
Notation Ml := (M (session ListingDB W)).
Variable cfg : jwt_settings.

(** The [except] clauses of [get_vehicle] and [update]. *)
Definition vehicle_errors {A} (m : Ml A) : Ml A :=
try_except m (λ e,
  match e with
  | VehicleNotFoundError _ => Some (raise (HTTPException 404 "vehicle not found"))
  | NotVehicleOwnerError _ => Some (raise (HTTPException 403 "not your vehicle"))
  | _ => None
  end).

(** Those of [approve] and [reject]; [verb] is what could not be done. *)
Definition approval_errors {A} (verb : string) (m : Ml A) : Ml A :=
try_except m (λ e,
  match e with
  | VehicleNotFoundError _ => Some (raise (HTTPException 404 "vehicle not found"))
  | InvalidApprovalTransitionError status =>
      Some (raise (HTTPException 409 ("cannot " +:+ verb +:+ " from status '" +:+ status +:+ "'")))
  | _ => None
  end).

(** Those of [create_availability_block]. *)
Definition block_errors {A} (m : Ml A) : Ml A :=
try_except m (λ e,
  match e with
  | VehicleNotFoundError _ => Some (raise (HTTPException 404 "vehicle not found"))
  | NotVehicleOwnerError _ => Some (raise (HTTPException 403 "not your vehicle"))
  | OverlappingAvailabilityBlockError _ =>
      Some (rollback;; raise (HTTPException 409 "availability block overlaps an existing one"))
  | _ => None
  end).

Definition vehicle_json (m : Ml Vehicle) : Ml string :=
vehicle ← m; mret (model_dump_json (_vehicle_response vehicle)).

(** The [build] closures of the routes. *)
Definition create_build (claims : dict) (payload : CreateVehicleRequest) : Ml string :=
vehicle_json (host_id ← claims_sub claims; create_vehicle host_id payload).

Definition update_build (claims : dict) (i : uuid * UpdateVehicleRequest) : Ml string :=
let '(vehicle_id, payload) := i in
vehicle_json (vehicle_errors (host_id ← claims_sub claims;
  update_vehicle vehicle_id host_id payload)).

Definition approve_build (_ : dict) (vehicle_id : uuid) : Ml string :=
vehicle_json (approval_errors "approve" (approve_vehicle vehicle_id)).

Definition reject_build (_ : dict) (vehicle_id : uuid) : Ml string :=
vehicle_json (approval_errors "reject" (reject_vehicle vehicle_id)).

Definition block_build (claims : dict) (i : uuid * CreateAvailabilityBlockRequest) : Ml string :=
let '(vehicle_id, payload) := i in
block ← block_errors (host_id ← claims_sub claims;
  add_availability_block vehicle_id host_id (cb_start_date payload) (cb_end_date payload));
mret (model_dump_json (block_response block)).

Definition create (rq : request) (payload : input CreateVehicleRequest) : Ml Response :=
mutation cfg rq (constrained create_vehicle_ok payload) ["host"] 201 create_build.

Definition list_vehicles_handler (claims : dict) (approval_status : string) (limit offset : Z) : Ml dict :=
require_role claims ["admin"];;
if decide (approval_status ≠ "approved")
then raise (HTTPException 400 "only approval_status=approved is listable")
else
  vehicles ← list_approved_vehicles (limit + 1) offset;
  let next_offset := if decide (limit < Z.of_nat (length vehicles))%Z
    then PInt (offset + limit) else PNone in
  mret [("items", PList ((λ v, PDict (_vehicle_response v)) <$> slice_to vehicles limit));
        ("next_offset", next_offset)].

Definition list_vehicles (rq : request) (params : input (string * Z * Z)) : Ml Response :=
query cfg rq params (λ claims '(approval_status, limit, offset),
  list_vehicles_handler claims approval_status limit offset).

Definition get_vehicle (rq : request) (vehicle_id : input uuid) : Ml Response :=
query cfg rq vehicle_id (λ claims vehicle_id,
  vehicle ← vehicle_errors (viewer_id ← claims_sub claims;
    get_vehicle_for_viewer vehicle_id viewer_id (claims_role claims));
  mret (_vehicle_response vehicle)).

Definition update_input_ok (p : uuid * UpdateVehicleRequest) : bool := update_vehicle_ok p.2.

Definition update (rq : request) (i : input (uuid * UpdateVehicleRequest)) : Ml Response :=
mutation cfg rq (constrained update_input_ok i) ["host"] 200 update_build.

Definition approve (rq : request) (vehicle_id : input uuid) : Ml Response :=
mutation cfg rq vehicle_id ["admin"] 200 approve_build.

Definition reject (rq : request) (vehicle_id : input uuid) : Ml Response :=
mutation cfg rq vehicle_id ["admin"] 200 reject_build.

Definition block_input_ok (p : uuid * CreateAvailabilityBlockRequest) : bool := create_block_ok p.2.

Definition create_availability_block (rq : request)
  (i : input (uuid * CreateAvailabilityBlockRequest)) : Ml Response :=
mutation cfg rq (constrained block_input_ok i) ["host"] 201 block_build.
End routes.

(** The router. *)
Inductive listing_request :=
| PostVehicles (payload : input CreateVehicleRequest)
| GetVehicles (params : input (string * Z * Z))
| GetVehicle (vehicle_id : input uuid)
| PatchVehicle (i : input (uuid * UpdateVehicleRequest))
| PostApprove (vehicle_id : input uuid)
| PostReject (vehicle_id : input uuid)
| PostBlock (i : input (uuid * CreateAvailabilityBlockRequest)).

Definition handle {W} `{!Platform} (cfg : jwt_settings) (rq : request) (r : listing_request) :
    M (session ListingDB W) Response :=
  match r with
  | PostVehicles p => create cfg rq p
  | GetVehicles p => list_vehicles cfg rq p
  | GetVehicle i => get_vehicle cfg rq i
  | PatchVehicle i => update cfg rq i
  | PostApprove i => approve cfg rq i
  | PostReject i => reject cfg rq i
  | PostBlock i => create_availability_block cfg rq i
  end.
