(* ===== verification/ListingFacts.v ===== *)
(** * ListingFacts: what the listing operations do, and what always holds

    [listing_op] enumerates the operations that write; [effect] says, once,
    what each does to the tables.  [listing_step] is a committed transaction;
    [lwf] is its invariant: every row satisfies the constraints of the
    schemas, blocks of a vehicle are disjoint, and the outbox tells the truth
    about every approved vehicle. *)
From S2P Require Import Prelude Python Columns Effects Outbox Idempotency JwtAuth Http.
From S2P Require Import Pagination.
From S2P Require Import Listing.

(** ** Operations *)
Inductive listing_op :=
| OpCreate (host_id : uuid) (p : CreateVehicleRequest)
| OpUpdate (vehicle_id host_id : uuid) (f : UpdateVehicleRequest)
| OpApprove (vehicle_id : uuid)
| OpReject (vehicle_id : uuid)
| OpBlock (vehicle_id host_id : uuid) (start_date end_date : date).

Definition run_op {W} (op : listing_op) : M (session ListingDB W) unit :=
  match op with
  | OpCreate h p => create_vehicle h p;; mret tt
  | OpUpdate id h f => update_vehicle id h f;; mret tt
  | OpApprove id => approve_vehicle id;; mret tt
  | OpReject id => reject_vehicle id;; mret tt
  | OpBlock id h sd ed => add_availability_block id h sd ed;; mret tt
  end.

(** What the schemas let through. *)
Definition op_ok (op : listing_op) : bool :=
  match op with
  | OpCreate _ p => create_vehicle_ok p
  | OpUpdate _ _ f => update_vehicle_ok f
  | OpApprove _ | OpReject _ => true
  | OpBlock _ _ sd ed => create_block_ok (mk_create_block sd ed)
  end.

(** ** Their effect *)
Definition new_vehicle (e : env) (host_id : uuid) (p : CreateVehicleRequest) : Vehicle :=
  mk_vehicle (fresh e 0) host_id (cv_make p) (cv_model p) (cv_year p) (cv_daily_price_cents p)
    (cv_daily_mileage_limit p) (cv_booking_mode p) "pending" (cv_latitude p) (cv_longitude p)
    (clock e).

Definition put_vehicle (v : Vehicle) (db : ListingDB) : ListingDB :=
  set_vehicles (<[vh_id v := v]> (vehicles db)) db.

Definition add_event (e : env) (event_type : string) (v : Vehicle) (db : ListingDB) : ListingDB :=
  set_outbox (l_outbox db ++
    [outbox_row e "vehicle" (str_uuid (vh_id v)) event_type (_vehicle_snapshot v)]) db.

Definition storable (v : Vehicle) : Prop := vehicle_types v ∧ vehicle_checks v.

Definition effect (op : listing_op) (e : env) (db db' : ListingDB) : Prop :=
  match op with
  | OpCreate h p =>
      let v := new_vehicle e h p in
      vehicles db !! vh_id v = None ∧ storable v ∧ db' = put_vehicle v db
  | OpUpdate id h f => ∃ v,
      vehicles db !! id = Some v ∧ vh_host_id v = h ∧ storable (set_fields f v) ∧
      db' = add_event e "vehicle_updated" (set_fields f v) (put_vehicle (set_fields f v) db)
  | OpApprove id => ∃ v,
      vehicles db !! id = Some v ∧ vh_approval_status v = "pending" ∧
      storable (set_approval_status "approved" v) ∧
      db' = add_event e "vehicle_approved" (set_approval_status "approved" v)
              (put_vehicle (set_approval_status "approved" v) db)
  | OpReject id => ∃ v,
      vehicles db !! id = Some v ∧ vh_approval_status v = "pending" ∧
      storable (set_approval_status "rejected" v) ∧
      db' = put_vehicle (set_approval_status "rejected" v) db
  | OpBlock id h sd ed => ∃ v,
      vehicles db !! id = Some v ∧ vh_host_id v = h ∧ (sd ≤ ed)%Z ∧
      let b := mk_block (fresh e 0) id sd ed in
      Forall (λ b', ¬ blocks_overlap b b') (blocks db) ∧ db' = set_blocks (blocks db ++ [b]) db
  end.

(** Identifiers drawn. *)
Definition op_env (op : listing_op) (e : env) : env :=
  match op with OpReject _ => e | _ => shift_env e end.

Section ops.
Context {W : Type}.
Implicit Types s : session ListingDB W.

Lemma flush_vehicle_Ok v s u s' :
flush_vehicle v s = (Ok u, s') ↔ storable v ∧ s' = with_work (put_vehicle v (work s)) s.
Proof.
destruct u. unfold flush_vehicle, storable, put_vehicle. run.
destruct (decide (¬ vehicle_types v)) as [Ht|Ht].
{ split; [done|]. by intros [[? _] _]. }
apply dec_stable in Ht. destruct (decide (¬ vehicle_checks v)) as [Hc|Hc].
{ split; [done|]. by intros [[_ ?] _]. }
apply dec_stable in Hc. split; [by intros [= <-]|]. by intros [_ ->].
Qed.

Lemma get_owned_vehicle_Ok id h s v s' :
get_owned_vehicle id h s = (Ok v, s') ↔
vehicles (work s) !! id = Some v ∧ vh_host_id v = h ∧ s' = s.
Proof.
unfold get_owned_vehicle, get_by_id. run. destruct (vehicles (work s) !! id) as [v0|].
- case_decide as Hh.
  + split; [done|]. intros (? & ? & ->). by simplify_eq.
  + split; [by intros [= <- <-]|]. intros (? & _ & ->). by simplify_eq.
- split; [done|]. by intros (? & _).
Qed.

Lemma insert_block_Ok b s u s' :
insert_block b s = (Ok u, s') ↔
is_Some (vehicles (work s) !! ab_vehicle_id b) ∧ (ab_start_date b ≤ ab_end_date b)%Z ∧
Forall (λ b', ¬ blocks_overlap b b') (blocks (work s)) ∧
s' = with_work (set_blocks (blocks (work s) ++ [b]) (work s)) s.
Proof.
destruct u. unfold insert_block. run.
destruct (decide (vehicles (work s) !! _ = None)) as [Hn|Hn].
{ split; [done|]. rewrite Hn. by intros ([? ?] & _). }
case_decide as Hd. { split; [done|]. lia. }
case_decide as He.
- split; [done|]. intros (_ & _ & Hf & _). rewrite Exists_exists in He.
  destruct He as (b' & Hin & Ho). rewrite Forall_forall in Hf. by destruct (Hf b').
- split; [|by intros (_ & _ & _ & ->)]. intros [= <-]. split_and!; [|lia| |done].
  + by apply not_eq_None_Some.
  + by apply Forall_Exists_neg.
Qed.

Lemma create_block_Ok id sd ed s b s' :
create_block id sd ed s = (Ok b, s') ↔
b = mk_block (fresh (senv s) 0) id sd ed ∧ is_Some (vehicles (work s) !! id) ∧ (sd ≤ ed)%Z ∧
Forall (λ b', ¬ blocks_overlap b b') (blocks (work s)) ∧
s' = mk_session (committed s) (set_blocks (blocks (work s) ++ [b]) (work s)) (world s)
       (shift_env (senv s)).
Proof.
unfold create_block. rewrite run_bind. simpl. rewrite bind_Ok. setoid_rewrite try_except_Ok.
setoid_rewrite insert_block_Ok. simpl. split.
- intros ([] & s1 & [(?&?&?&->)|(e & ? & k & _ & Hk & Hr)] & [= <- <-]); [done|].
  by destruct e; simplify_eq.
- intros (-> & ? & ? & ? & ->). eexists tt, _. split; [|done]. left. done.
Qed.

Lemma create_vehicle_Ok h p s v s' :
create_vehicle h p s = (Ok v, s') ↔
v = new_vehicle (senv s) h p ∧ vehicles (work s) !! vh_id v = None ∧ storable v ∧
s' = mk_session (committed s) (put_vehicle v (work s)) (world s) (shift_env (senv s)).
Proof.
unfold create_vehicle, create_row. do 3 (rewrite run_bind; simpl). rewrite bind_Ok.
fold (new_vehicle (senv s) h p). setoid_rewrite run_ret. split.
- intros ([] & s1 & Hf & [= <- <-]). case_decide as Hs; [done|].
  apply flush_vehicle_Ok in Hf as [Hst ->]. rewrite <- eq_None_not_Some in Hs. done.
- intros (-> & Hn & Hst & ->). simpl in Hn. rewrite decide_False.
  + eexists tt, _. split; [by apply flush_vehicle_Ok | done].
  + rewrite Hn. by intros [? ?].
Qed.

Lemma save_publish_Ok t v s a s' :
(save_vehicle v;; publish t v;; mret v) s = (Ok a, s') ↔
a = v ∧ storable v ∧
s' = mk_session (committed s) (add_event (senv s) t v (put_vehicle v (work s))) (world s)
       (shift_env (senv s)).
Proof.
rewrite bind_Ok. setoid_rewrite flush_vehicle_Ok. split.
- intros ([] & s1 & [Hst ->] & [= <- <-]). done.
- intros (-> & Hst & ->). by eexists tt, _.
Qed.

Lemma update_vehicle_Ok id h f s v s' :
update_vehicle id h f s = (Ok v, s') ↔
∃ v0, vehicles (work s) !! id = Some v0 ∧ vh_host_id v0 = h ∧ v = set_fields f v0 ∧ storable v ∧
s' = mk_session (committed s) (add_event (senv s) "vehicle_updated" v (put_vehicle v (work s)))
       (world s) (shift_env (senv s)).
Proof.
unfold update_vehicle. rewrite bind_Ok. setoid_rewrite get_owned_vehicle_Ok.
setoid_rewrite save_publish_Ok. naive_solver.
Qed.

Lemma approve_vehicle_Ok id s v s' :
approve_vehicle id s = (Ok v, s') ↔
∃ v0, vehicles (work s) !! id = Some v0 ∧ vh_approval_status v0 = "pending" ∧
v = set_approval_status "approved" v0 ∧ storable v ∧
s' = mk_session (committed s) (add_event (senv s) "vehicle_approved" v (put_vehicle v (work s)))
       (world s) (shift_env (senv s)).
Proof.
unfold approve_vehicle, get_by_id. run.
destruct (vehicles (work s) !! id) as [v0|]; [|split; [done|by intros (? & ? & _)]].
case_decide as Hp; [split; [done|by intros (? & [= ->] & ? & _)]|].
rewrite save_publish_Ok. naive_solver.
Qed.

Lemma reject_vehicle_Ok id s v s' :
reject_vehicle id s = (Ok v, s') ↔
∃ v0, vehicles (work s) !! id = Some v0 ∧ vh_approval_status v0 = "pending" ∧
v = set_approval_status "rejected" v0 ∧ storable v ∧ s' = with_work (put_vehicle v (work s)) s.
Proof.
unfold reject_vehicle, get_by_id. run.
destruct (vehicles (work s) !! id) as [v0|]; [|split; [done|by intros (? & ? & _)]].
case_decide as Hp; [split; [done|by intros (? & [= ->] & ? & _)]|].
rewrite bind_Ok. setoid_rewrite flush_vehicle_Ok. split.
- intros ([] & s1 & [Hst ->] & [= <- <-]). by exists v0.
- intros (? & [= <-] & _ & -> & Hst & ->). by eexists tt, _.
Qed.

Lemma drop_result {A} (m : M (session ListingDB W) A) s s' :
(m;; mret tt) s = (Ok tt, s') ↔ ∃ a, m s = (Ok a, s').
Proof. rewrite bind_Ok. split; [intros (a & s1 & Hm & [= <-]); eauto | intros [a Hm]; eauto]. Qed.

(** Every operation does exactly its effect. *)
Lemma run_op_Ok op s s' :
run_op op s = (Ok tt, s') ↔
∃ db', effect op (senv s) (work s) db' ∧
  s' = mk_session (committed s) db' (world s) (op_env op (senv s)).
Proof.
destruct op; simpl; rewrite drop_result.
- setoid_rewrite create_vehicle_Ok. naive_solver.
- setoid_rewrite update_vehicle_Ok. naive_solver.
- setoid_rewrite approve_vehicle_Ok. naive_solver.
- setoid_rewrite reject_vehicle_Ok. unfold with_work. naive_solver.
- unfold add_availability_block. setoid_rewrite bind_Ok. setoid_rewrite get_owned_vehicle_Ok.
  setoid_rewrite create_block_Ok. split.
  + intros (b & v & s1 & (Hv & Hh & ->) & -> & _ & Hd & Hf & ->). eexists. split; [|done]. eauto 10.
  + intros (db' & (v & Hv & Hh & Hd & Hf & ->) & ->). eexists _, v, s. split; [done|].
    by split_and!.
Qed.
End ops.


(** ** The invariant *)

(** The constraints of the schemas and of the table. *)
Definition vehicle_valid (v : Vehicle) : Prop :=
  name_ok (vh_make v) ∧ name_ok (vh_model v) ∧ year_ok (vh_year v) ∧
  positive (vh_daily_price_cents v) ∧ positive (vh_daily_mileage_limit v) ∧
  mode_ok (vh_booking_mode v) ∧ latitude_ok (vh_latitude v) ∧ longitude_ok (vh_longitude v) ∧
  storable v.

(** The events of a vehicle, and what they say about its approval. *)
Definition row_of (i : uuid) (row : OutboxRow) : bool := bool_decide (aggregateid row = str_uuid i).

Definition row_data (row : OutboxRow) : dict :=
  match dict_get (payload row) "data" with Some (PDict d) => d | _ => [] end.

Definition says_approved (row : OutboxRow) : bool :=
  get_is (row_data row) "approval_status" "approved".

(** The last event of [i] is the current state of the row, or none claims it
    is approved. *)
Definition published (i : uuid) (v : Vehicle) (rows : list OutboxRow) : Prop :=
  if decide (vh_approval_status v = "approved")
  then row_data <$> find_last (row_of i) rows = Some (_vehicle_snapshot v)
  else Forall (λ row, row_of i row = true → says_approved row = false) rows.

Definition disjoint_blocks (bs : list AvailabilityBlock) : Prop :=
  ∀ i j a b, bs !! i = Some a → bs !! j = Some b → i ≠ j → ¬ blocks_overlap a b.

(** The rows the service writes. *)
Definition vehicle_row (row : OutboxRow) : Prop := ∃ e t v,
  t ∈ ["vehicle_approved"; "vehicle_updated"] ∧
  row = outbox_row e "vehicle" (str_uuid (vh_id v)) t (_vehicle_snapshot v).

Record lwf (db : ListingDB) : Prop := mk_lwf {
  lwf_id : ∀ i v, vehicles db !! i = Some v → vh_id v = i;
  lwf_valid : ∀ i v, vehicles db !! i = Some v → vehicle_valid v;
  lwf_published : ∀ i v, vehicles db !! i = Some v → published i v (l_outbox db);
  lwf_orphan : ∀ i, vehicles db !! i = None →
    Forall (λ row, row_of i row = false) (l_outbox db);
  lwf_rows : Forall vehicle_row (l_outbox db);
  lwf_blocks : ∀ b, b ∈ blocks db →
    is_Some (vehicles db !! ab_vehicle_id b) ∧ (ab_start_date b ≤ ab_end_date b)%Z;
  lwf_disjoint : disjoint_blocks (blocks db);
}.

Lemma str_uuid_inj (u v : uuid) : str_uuid u = str_uuid v → u = v.
Proof. intros H. pose proof (UUID_str u) as Hu. rewrite H, UUID_str in Hu. by simplify_eq. Qed.

Lemma row_of_event e i t v :
  row_of i (outbox_row e "vehicle" (str_uuid (vh_id v)) t (_vehicle_snapshot v)) =
  bool_decide (vh_id v = i).
Proof.
  unfold row_of. cbn [aggregateid outbox_row]. apply bool_decide_ext. split; [apply str_uuid_inj|].
  by intros ->.
Qed.

Lemma row_data_event e t v :
  row_data (outbox_row e "vehicle" (str_uuid (vh_id v)) t (_vehicle_snapshot v)) = _vehicle_snapshot v.
Proof. done. Qed.

Lemma says_approved_event e t v :
  says_approved (outbox_row e "vehicle" (str_uuid (vh_id v)) t (_vehicle_snapshot v)) =
  bool_decide (vh_approval_status v = "approved").
Proof. done. Qed.

(** A vehicle whose events are those of before is published as before. *)
Lemma published_other i v rows row :
  row_of i row = false → published i v rows → published i v (rows ++ [row]).
Proof.
  intros Hr. unfold published. case_decide.
  - by rewrite find_last_snoc, Hr.
  - intros Hf. apply Forall_app. split; [done|]. constructor; [congruence|done].
Qed.

(** The event of a change publishes the new state. *)
Lemma published_event e i t v v' rows :
  vh_id v' = i → published i v rows →
  (vh_approval_status v = "approved" → vh_approval_status v' = "approved") →
  published i v' (rows ++ [outbox_row e "vehicle" (str_uuid (vh_id v')) t (_vehicle_snapshot v')]).
Proof.
  intros Hi Hp Hst. unfold published in *.
  destruct (decide (vh_approval_status v' = "approved")) as [Ha|Ha].
  - rewrite find_last_snoc, row_of_event, bool_decide_true by done. cbn [fmap option_fmap option_map].
    by rewrite row_data_event.
  - rewrite decide_False in Hp by auto. apply Forall_app. split; [done|]. constructor; [|done].
    intros _. rewrite says_approved_event. by rewrite bool_decide_false.
Qed.

(** Histories: committed transactions of the service. *)
Definition same_listing (db db' : ListingDB) : Prop :=
  vehicles db' = vehicles db ∧ blocks db' = blocks db ∧ l_outbox db' = l_outbox db.

Inductive listing_step (W : Type) (db : ListingDB) : ListingDB → Prop :=
| step_op op (s s' : session ListingDB W) :
    op_ok op = true → work s = db → run_op op s = (Ok tt, s') → listing_step W db (work s')
| step_other db' : same_listing db db' → listing_step W db db'.

Definition empty_listing (db : ListingDB) : Prop :=
  vehicles db = ∅ ∧ blocks db = [] ∧ l_outbox db = [].

Definition listing_reachable (W : Type) (db : ListingDB) : Prop :=
  ∃ db0, empty_listing db0 ∧ rtc (listing_step W) db0 db.

Lemma lwf_empty db : empty_listing db → lwf db.
Proof.
  intros (Hv & Hb & Ho). split; rewrite ?Hv, ?Hb, ?Ho; try done.
  intros b Hin. by apply not_elem_of_nil in Hin.
Qed.

Lemma lwf_same db db' : same_listing db db' → lwf db → lwf db'.
Proof. intros (Hv & Hb & Ho) []. split; rewrite ?Hv, ?Hb, ?Ho; done. Qed.

(** ** Preservation *)
Lemma valid_new e h p :
  create_vehicle_ok p = true → storable (new_vehicle e h p) → vehicle_valid (new_vehicle e h p).
Proof.
  unfold create_vehicle_ok. rewrite !andb_true_iff, <- !Is_true_true. intros. destruct_ands.
  by split_and!.
Qed.

Lemma default_ok {A} (ok : A → bool) (o : option A) (a : A) :
  opt_ok ok o = true → ok a → ok (default a o).
Proof. destruct o; simpl; [|done]. by intros ->. Qed.

Lemma valid_set_fields f v :
  update_vehicle_ok f = true → vehicle_valid v → storable (set_fields f v) →
  vehicle_valid (set_fields f v).
Proof.
  unfold update_vehicle_ok. rewrite !andb_true_iff. intros Hf Hv Hs. unfold vehicle_valid in *.
  destruct_ands. split_and!; try done; by apply default_ok.
Qed.

Lemma valid_set_status st v :
  vehicle_valid v → storable (set_approval_status st v) → vehicle_valid (set_approval_status st v).
Proof. unfold vehicle_valid. intros (?&?&?&?&?&?&?&?&_) Hs. by split_and!. Qed.

(** Replacing a row by one with the same identifier keeps every other fact. *)
Lemma lwf_put db v v' rows :
  lwf db → vehicles db !! vh_id v = Some v → vh_id v' = vh_id v → vehicle_valid v' →
  published (vh_id v) v' (l_outbox db ++ rows) →
  Forall (λ row, ∀ i, i ≠ vh_id v → row_of i row = false) rows → Forall vehicle_row rows →
  lwf (set_outbox (l_outbox db ++ rows) (put_vehicle v' db)).
Proof.
  intros [Hid Hval Hpub Horph Hvr Hbl Hdis] Hv Hi Hvalid Hp Hrows Hnew.
  split; unfold put_vehicle; cbn [vehicles blocks l_outbox set_outbox listing_outbox set_vehicles];
    rewrite ?Hi.
  - intros i x. rewrite lookup_insert_Some. intros [[<- <-]|[_ ?]]; [done|by apply Hid].
  - intros i x. rewrite lookup_insert_Some. intros [[<- <-]|[_ ?]]; [done|by apply (Hval i)].
  - intros i x. rewrite lookup_insert_Some. intros [[<- <-]|[Hne Hx]]; [done|].
    specialize (Hpub i x Hx). clear Hp Hnew. revert Hpub. generalize (l_outbox db). revert Hrows.
    induction rows as [|r rows IH]; [by intros; rewrite app_nil_r|].
    intros [Hr Hrows]%Forall_cons_1 l Hl. rewrite cons_middle, app_assoc. apply IH; [done|].
    apply published_other; [by apply Hr | done].
  - intros i. rewrite lookup_insert_None. intros [Hn Hne]. apply Forall_app. split; [by apply Horph|].
    eapply Forall_impl; [exact Hrows|]. intros r Hr. by apply Hr.
  - by apply Forall_app.
  - intros b Hb. destruct (Hbl b Hb) as [[x Hx] ?]. split; [|done].
    destruct (decide (vh_id v = ab_vehicle_id b)) as [->|].
    + by rewrite lookup_insert_eq.
    + rewrite lookup_insert_ne by done. by exists x.
  - done.
Qed.

Lemma event_rows e t v' i :
  Forall (λ row, ∀ j, j ≠ i → row_of j row = false)
    [outbox_row e "vehicle" (str_uuid (vh_id v')) t (_vehicle_snapshot v')] ∨ vh_id v' ≠ i.
Proof.
  destruct (decide (vh_id v' = i)) as [<-|]; [left|by right]. constructor; [|done].
  intros j Hj. rewrite row_of_event. by rewrite bool_decide_false.
Qed.

Lemma lwf_publish db e t v v' :
  t ∈ ["vehicle_approved"; "vehicle_updated"] → lwf db → vehicles db !! vh_id v = Some v → vh_id v' = vh_id v → vehicle_valid v' →
  (vh_approval_status v = "approved" → vh_approval_status v' = "approved") →
  lwf (add_event e t v' (put_vehicle v' db)).
Proof.
  intros Ht Hwf Hv Hi Hvalid Hst. apply (lwf_put db v v'); try done.
  - by apply (published_event e _ t v v'), Hst; [|apply (lwf_published _ Hwf)].
  - destruct (event_rows e t v' (vh_id v)); done.
  - apply Forall_singleton. by exists e, t, v'.
Qed.

Lemma set_outbox_same (db : ListingDB) : set_outbox (l_outbox db ++ []) db = db.
Proof. rewrite app_nil_r. by destruct db. Qed.

Lemma lwf_reject db v :
  lwf db → vehicles db !! vh_id v = Some v → vh_approval_status v = "pending" →
  storable (set_approval_status "rejected" v) →
  lwf (put_vehicle (set_approval_status "rejected" v) db).
Proof.
  intros Hwf Hv Hst Hs. pose proof (lwf_published _ Hwf _ _ Hv) as Hp.
  rewrite <- (set_outbox_same (put_vehicle (set_approval_status "rejected" v) db)).
  apply (lwf_put db v _ []); try done.
  - apply valid_set_status; [by apply (lwf_valid _ Hwf (vh_id v)) | done].
  - rewrite app_nil_r. unfold published in *. rewrite Hst in Hp. done.
Qed.

Lemma lwf_create db v :
  lwf db → vehicles db !! vh_id v = None → vehicle_valid v → vh_approval_status v = "pending" →
  lwf (put_vehicle v db).
Proof.
  intros [Hid Hval Hpub Horph Hvr Hbl Hdis] Hn Hv Hst.
  split; unfold put_vehicle; cbn [vehicles blocks l_outbox set_vehicles].
  - intros i x. rewrite lookup_insert_Some. intros [[<- <-]|[_ ?]]; [done|by apply Hid].
  - intros i x. rewrite lookup_insert_Some. intros [[<- <-]|[_ ?]]; [done|by apply (Hval i)].
  - intros i x. rewrite lookup_insert_Some. intros [[<- <-]|[_ ?]]; [|by apply Hpub].
    unfold published. rewrite Hst. simpl. eapply Forall_impl; [by apply Horph|].
    intros r -> [=].
  - intros i. rewrite lookup_insert_None. intros [? _]. by apply Horph.
  - done.
  - intros b Hb. destruct (Hbl b Hb) as [[x Hx] ?]. split; [|done].
    rewrite lookup_insert_ne by (intros E; congruence). by exists x.
  - done.
Qed.

Lemma blocks_overlap_sym a b : blocks_overlap a b → blocks_overlap b a.
Proof. unfold blocks_overlap. naive_solver. Qed.

Lemma lwf_block db b :
  lwf db → is_Some (vehicles db !! ab_vehicle_id b) → (ab_start_date b ≤ ab_end_date b)%Z →
  Forall (λ b', ¬ blocks_overlap b b') (blocks db) → lwf (set_blocks (blocks db ++ [b]) db).
Proof.
  intros [Hid Hval Hpub Horph Hvr Hbl Hdis] Hv Hd Hf. rewrite Forall_forall in Hf.
  split; cbn [vehicles blocks l_outbox set_blocks]; try done.
  - intros b' [Hb|Hb]%elem_of_app; [by apply Hbl|]. apply list_elem_of_singleton in Hb as ->. done.
  - intros i j x y. rewrite !lookup_app_Some. intros [Hx|[Hi Hx]] [Hy|[Hj Hy]] Hij.
    + by apply (Hdis i j).
    + apply list_lookup_singleton_Some in Hy as [_ <-]. intros Ho%blocks_overlap_sym.
      apply (Hf x); [|done]. by eapply list_elem_of_lookup_2.
    + apply list_lookup_singleton_Some in Hx as [_ <-].
      apply (Hf y). by eapply list_elem_of_lookup_2.
    + apply list_lookup_singleton_Some in Hx as [? _], Hy as [? _]. lia.
Qed.

Lemma effect_lwf op e db db' :
  op_ok op = true → lwf db → effect op e db db' → lwf db'.
Proof.
  intros Hok Hwf. destruct op as [h p|id h f|id|id|id h sd ed]; simpl in *.
  - intros (Hn & Hs & ->). apply lwf_create; try done. by apply valid_new.
  - intros (v & Hv & _ & Hs & ->). pose proof (lwf_id _ Hwf _ _ Hv) as <-.
    apply (lwf_publish _ _ _ v); try done; [by apply (bool_decide_eq_true_1 _)|].
    apply valid_set_fields; [done| |done]. by apply (lwf_valid _ Hwf (vh_id v)).
  - intros (v & Hv & _ & Hs & ->). pose proof (lwf_id _ Hwf _ _ Hv) as <-.
    apply (lwf_publish _ _ _ v); try done; [by apply (bool_decide_eq_true_1 _)|].
    apply valid_set_status; [|done]. by apply (lwf_valid _ Hwf (vh_id v)).
  - intros (v & Hv & Hp & Hs & ->). pose proof (lwf_id _ Hwf _ _ Hv) as <-. by apply lwf_reject.
  - intros (v & Hv & _ & Hd & Hf & ->). by apply lwf_block; [| | |].
Qed.

Lemma step_lwf W db db' : listing_step W db db' → lwf db → lwf db'.
Proof.
  intros [op s s' Hok <- Hr|db'' Hs] Hwf; [|by eapply lwf_same].
  apply run_op_Ok in Hr as (db1 & He & ->). by eapply effect_lwf.
Qed.

Lemma reachable_lwf W db : listing_reachable W db → lwf db.
Proof.
  intros (db0 & H0 & Hs). apply lwf_empty in H0.
  induction Hs; [done|]. eauto using step_lwf.
Qed.
