(* ===== verification/ListingService.v ===== *)
(** * ListingService: what holds of the listing service

    The HTTP endpoints make listing steps ([listing_service_step]), so the
    invariant of ListingFacts holds of the running service; the history of a
    vehicle ([later]), the pagination the search backfill relies on, and what
    two overlapping transactions can do ([update_resumed]). *)
From S2P Require Import Prelude Python Columns Effects Outbox Idempotency JwtAuth Http.
From S2P Require Import Pagination.
From S2P Require Import Listing ListingFacts.

(** ** The HTTP service *)
Section service.
Context {W : Type} `{!Platform}.
Implicit Types (s : session ListingDB W) (n : node ListingDB W).
Variable cfg : jwt_settings.

Lemma no_commit_flush v : no_commit (flush_vehicle (W := W) v).
Proof. unfold flush_vehicle. no_commit. Qed.
Lemma no_commit_insert_block b : no_commit (insert_block (W := W) b).
Proof. unfold insert_block. no_commit. Qed.
Lemma no_commit_publish t v : no_commit (publish (W := W) t v).
Proof. unfold publish. no_commit. Qed.
#[local] Hint Resolve no_commit_flush no_commit_insert_block no_commit_publish : effects.

Lemma vehicle_errors_Ok {A} (m : M (session ListingDB W) A) s a s' :
vehicle_errors m s = (Ok a, s') → m s = (Ok a, s').
Proof.
unfold vehicle_errors. rewrite try_except_Ok. intros [?|(e & ? & k & _ & Hk & Hr)]; [done|].
by destruct e; simplify_eq.
Qed.
Lemma approval_errors_Ok {A} verb (m : M (session ListingDB W) A) s a s' :
approval_errors verb m s = (Ok a, s') → m s = (Ok a, s').
Proof.
unfold approval_errors. rewrite try_except_Ok. intros [?|(e & ? & k & _ & Hk & Hr)]; [done|].
by destruct e; simplify_eq.
Qed.
Lemma block_errors_Ok {A} (m : M (session ListingDB W) A) s a s' :
block_errors m s = (Ok a, s') → m s = (Ok a, s').
Proof.
unfold block_errors. rewrite try_except_Ok. intros [?|(e & ? & k & _ & Hk & Hr)]; [done|].
by destruct e; simplify_eq.
Qed.

Lemma vehicle_json_Ok (m : M (session ListingDB W) Vehicle) s j s' :
vehicle_json m s = (Ok j, s') → ∃ v, m s = (Ok v, s').
Proof. unfold vehicle_json. rewrite bind_Ok. intros (v & s1 & Hm & [= _ <-]). eauto. Qed.

Lemma claims_host (claims : dict) {A} (k : uuid → M (session ListingDB W) A) s a s' :
(h ← claims_sub claims; k h) s = (Ok a, s') → ∃ h, k h s = (Ok a, s').
Proof.
rewrite bind_Ok. intros (h & s1 & Hc & Hk). pose proof (read_only_claims_sub claims s) as Hr.
rewrite Hc in Hr. simpl in Hr. subst. eauto.
Qed.

Lemma list_vehicles_read_only rq p : read_only (list_vehicles (W := W) cfg rq p).
Proof.
apply query_read_only.
unfold list_vehicles_handler, list_approved_vehicles, list_by_approval_status, get_db. read_only.
Qed.

Lemma get_vehicle_read_only rq i : read_only (get_vehicle (W := W) cfg rq i).
Proof.
apply query_read_only. unfold vehicle_errors, get_vehicle_for_viewer, get_by_id, get_db. read_only.
Qed.

Lemma vehicle_build_no_commit claims p : no_commit (W := W) (create_build claims p).
Proof. unfold create_build, vehicle_json, create_vehicle, create_row. no_commit. Qed.
Lemma update_build_no_commit claims i : no_commit (W := W) (update_build claims i).
Proof.
destruct i. unfold update_build, vehicle_json, vehicle_errors, update_vehicle, get_owned_vehicle,
  get_by_id, save_vehicle. no_commit.
Qed.
Lemma approve_build_no_commit claims id : no_commit (W := W) (approve_build claims id).
Proof.
unfold approve_build, vehicle_json, approval_errors, approve_vehicle, get_by_id, save_vehicle.
no_commit.
Qed.
Lemma reject_build_no_commit claims id : no_commit (W := W) (reject_build claims id).
Proof.
unfold reject_build, vehicle_json, approval_errors, reject_vehicle, get_by_id, save_vehicle.
no_commit.
Qed.
Lemma block_build_no_commit claims i : no_commit (W := W) (block_build claims i).
Proof.
destruct i. unfold block_build, block_errors, add_availability_block, create_block,
  get_owned_vehicle, get_by_id. no_commit.
Qed.

Lemma step_of_op op s s' :
op_ok op = true → run_op op s = (Ok tt, s') → listing_step W (work s) (work s').
Proof. intros. by eapply step_op. Qed.

Lemma create_build_step claims p s j s' :
create_vehicle_ok p = true → create_build claims p s = (Ok j, s') →
listing_step W (work s) (work s').
Proof.
intros Hok [v [h Hr]%claims_host]%vehicle_json_Ok.
apply (step_of_op (OpCreate h p)); [done|]. apply drop_result. eauto.
Qed.
Lemma update_build_step claims i s j s' :
update_input_ok i = true → update_build claims i s = (Ok j, s') →
listing_step W (work s) (work s').
Proof.
destruct i as [id f]. intros Hok [v [h Hr]%vehicle_errors_Ok%claims_host]%vehicle_json_Ok.
apply (step_of_op (OpUpdate id h f)); [exact Hok|]. apply drop_result. eauto.
Qed.
Lemma approve_build_step claims id s j s' :
approve_build claims id s = (Ok j, s') → listing_step W (work s) (work s').
Proof.
intros [v Hr%approval_errors_Ok]%vehicle_json_Ok.
apply (step_of_op (OpApprove id)); [done|]. apply drop_result. eauto.
Qed.
Lemma reject_build_step claims id s j s' :
reject_build claims id s = (Ok j, s') → listing_step W (work s) (work s').
Proof.
intros [v Hr%approval_errors_Ok]%vehicle_json_Ok.
apply (step_of_op (OpReject id)); [done|]. apply drop_result. eauto.
Qed.
Lemma block_build_step claims i s j s' :
block_input_ok i = true → block_build claims i s = (Ok j, s') →
listing_step W (work s) (work s').
Proof.
destruct i as [id [sd ed]]. unfold block_build. rewrite bind_Ok.
intros Hok (b & s1 & [h Hr]%block_errors_Ok%claims_host & [= _ <-]).
apply (step_of_op (OpBlock id h sd ed)); [exact Hok|]. apply drop_result. eauto.
Qed.

Lemma listing_handle_steps rq r s res s' :
committed s = work s → handle cfg rq r s = (res, s') →
rtc (listing_step W) (committed s) (committed s').
Proof.
assert (∀ db m, listing_step W db (set_idem m db)) as Hidem by (intros; by apply step_other).
intros Hs. destruct r as [p|p|i|i|i|i|i]; simpl.
- apply mutation_rtc; [apply vehicle_build_no_commit| |done..].
  intros claims q s1 j s2 Hi%constrained_Valid. by apply create_build_step.
- intros Hr. pose proof (list_vehicles_read_only rq p s) as Hro. rewrite Hr in Hro.
  by simpl in Hro; subst.
- intros Hr. pose proof (get_vehicle_read_only rq i s) as Hro. rewrite Hr in Hro.
  by simpl in Hro; subst.
- apply mutation_rtc; [apply update_build_no_commit| |done..].
  intros claims q s1 j s2 Hi%constrained_Valid. by apply update_build_step.
- apply mutation_rtc; [apply approve_build_no_commit| |done..].
  intros claims id s1 j s2 _. apply approve_build_step.
- apply mutation_rtc; [apply reject_build_no_commit| |done..].
  intros claims id s1 j s2 _. apply reject_build_step.
- apply mutation_rtc; [apply block_build_no_commit| |done..].
  intros claims q s1 j s2 Hi%constrained_Valid. by apply block_build_step.
Qed.

Lemma listing_handle_Err rq r s e s' : handle cfg rq r s = (Err e, s') → committed s' = committed s.
Proof.
destruct r as [p|p|i|i|i|i|i]; simpl.
- apply mutation_Err, vehicle_build_no_commit.
- intros Hr. pose proof (list_vehicles_read_only rq p s) as Hro. rewrite Hr in Hro.
  by simpl in Hro; subst.
- intros Hr. pose proof (get_vehicle_read_only rq i s) as Hro. rewrite Hr in Hro.
  by simpl in Hro; subst.
- apply mutation_Err, update_build_no_commit.
- apply mutation_Err, approve_build_no_commit.
- apply mutation_Err, reject_build_no_commit.
- apply mutation_Err, block_build_no_commit.
Qed.

(** Everything that happens to a node of the service. *)
Inductive listing_service_step n : node ListingDB W → Prop :=
| lsvc_request rq r resp n' :
  serve (handle cfg rq r) n = (resp, n') → listing_service_step n n'
| lsvc_cleanup older_than res n' :
  run_session (purge_expired_idempotency_keys older_than) n = (res, n') → listing_service_step n n'
| lsvc_environment w e : listing_service_step n (n.1.1, w, e).

Lemma listing_service_step_steps n n' :
listing_service_step n n' → rtc (listing_step W) n.1.1 n'.1.1.
Proof.
intros [rq r resp n1 Hr|older res n1 Hr|w e]; [| |done].
- destruct n as [[db w] e]. unfold serve, run_session in Hr.
  destruct (handle cfg rq r _) as [x s'] eqn:E. simplify_eq. simpl.
  by apply (listing_handle_steps rq r (mk_session db db w e) x s').
- destruct n as [[db w] e]. unfold run_session in Hr. simpl in Hr. simplify_eq. simpl.
  by apply rtc_once, step_other.
Qed.
End service.

Lemma listing_service_steps {W} `{!Platform} cfg (n n' : node ListingDB W) :
  rtc (listing_service_step cfg) n n' → rtc (listing_step W) n.1.1 n'.1.1.
Proof. induction 1; [done|]. etrans; [by eapply listing_service_step_steps | done]. Qed.

Lemma listing_node_reachable {W} `{!Platform} cfg (n0 n : node ListingDB W) :
  empty_listing n0.1.1 → rtc (listing_service_step cfg) n0 n → listing_reachable W n.1.1.
Proof.
  intros H0 Hsteps. exists n0.1.1. split; [done|]. by eapply listing_service_steps.
Qed.

(** ** Histories *)
Definition approval_step (a b : string) : Prop :=
  a = b ∨ a = "pending" ∧ (b = "approved" ∨ b = "rejected").

(** [v'] is a later state of the vehicle [v]. *)
Definition later (v v' : Vehicle) : Prop :=
  vh_id v' = vh_id v ∧ vh_host_id v' = vh_host_id v ∧ vh_created_at v' = vh_created_at v ∧
  approval_step (vh_approval_status v) (vh_approval_status v').

#[export] Instance later_preorder : PreOrder later.
Proof.
  split.
  - intros v. unfold later, approval_step. eauto.
  - intros v1 v2 v3 (?&?&?&H12) (?&?&?&H23). unfold later. split_and!; try congruence.
    unfold approval_step in *.
    destruct H12 as [->|[-> H12]]; [done|]. right. split; [done|].
    destruct H23 as [<-|[E _]]; [done|]. rewrite E in H12. by destruct H12.
Qed.

Lemma effect_later op e db db' i v :
  lwf db → effect op e db db' → vehicles db !! i = Some v →
  ∃ v', vehicles db' !! i = Some v' ∧ later v v'.
Proof.
  intros Hwf He Hv.
  assert (∀ w w' db1, vehicles db !! vh_id w = Some w → vh_id w' = vh_id w → later w w' →
    vehicles db1 = <[vh_id w' := w']> (vehicles db) →
    ∃ v', vehicles db1 !! i = Some v' ∧ later v v') as Hput.
  { intros w w' db1 Hw Hid Hl ->. rewrite Hid. destruct (decide (vh_id w = i)) as [<-|].
    - rewrite lookup_insert_eq. simplify_eq. eauto.
    - rewrite lookup_insert_ne by done. exists v. by split. }
  pose proof (lwf_id _ Hwf) as Hids.
  destruct op as [h p|id h f|id|id|id h sd ed]; simpl in He.
  - destruct He as (Hn & _ & ->). exists v. split; [|done]. unfold put_vehicle. simpl.
    rewrite lookup_insert_ne; [done|]. intros E. simpl in Hn. congruence.
  - destruct He as (w & Hw & _ & _ & ->). pose proof (Hids _ _ Hw) as <-.
    apply (Hput w (set_fields f w)); try done. unfold later, approval_step. simpl. eauto.
  - destruct He as (w & Hw & Hp & _ & ->). pose proof (Hids _ _ Hw) as <-.
    apply (Hput w (set_approval_status "approved" w)); try done.
    unfold later, approval_step. simpl. eauto 10.
  - destruct He as (w & Hw & Hp & _ & ->). pose proof (Hids _ _ Hw) as <-.
    apply (Hput w (set_approval_status "rejected" w)); try done.
    unfold later, approval_step. simpl. eauto 10.
  - destruct He as (w & _ & _ & _ & _ & ->). exists v. by split.
Qed.

Lemma step_later W db db' i v :
  lwf db → listing_step W db db' → vehicles db !! i = Some v →
  ∃ v', vehicles db' !! i = Some v' ∧ later v v'.
Proof.
  intros Hwf [op s s' Hok <- Hr|db2 (Hs & _)] Hv; [|exists v; by rewrite Hs].
  apply run_op_Ok in Hr as (db2 & He & ->). by eapply effect_later.
Qed.


(** The outbox tells the truth about approval.  The last event of an
    approved vehicle carries its current state, whatever updates followed
    the approval; no event of a pending or rejected one says approved. *)
Theorem published_truth {W} (db : ListingDB) (i : uuid) (v : Vehicle) :
  listing_reachable W db → vehicles db !! i = Some v → published i v (l_outbox db).
Proof. intros Hr%reachable_lwf. by apply (lwf_published _ Hr). Qed.

(** The availability blocks of a vehicle never overlap, each starts no
    later than it ends, and it belongs to a vehicle that exists. *)
Theorem blocks_disjoint {W} (db : ListingDB) :
  listing_reachable W db →
  disjoint_blocks (blocks db) ∧
  ∀ b, b ∈ blocks db →
    is_Some (vehicles db !! ab_vehicle_id b) ∧ (ab_start_date b ≤ ab_end_date b)%Z.
Proof. intros Hr%reachable_lwf. split; [by apply lwf_disjoint | by apply lwf_blocks]. Qed.

(** Whatever requests and cleanups the listing service processes, its
    database is one the listing steps reach, so that every vehicle satisfies
    the constraints of the schemas. *)
Theorem listing_service_sound {W} `{!Platform} (cfg : jwt_settings) (n0 n : node ListingDB W) :
  empty_listing n0.1.1 → rtc (listing_service_step cfg) n0 n →
  listing_reachable W n.1.1 ∧
  ∀ i v, vehicles n.1.1 !! i = Some v → vh_id v = i ∧ vehicle_valid v.
Proof.
  intros H0 Hs. pose proof (listing_node_reachable cfg n0 n H0 Hs) as Hr.
  split; [done|]. apply reachable_lwf in Hr. intros i v Hv.
  split; [by apply (lwf_id _ Hr) | by apply (lwf_valid _ Hr i)].
Qed.

(** An error response to a listing request means that nothing happened. *)
Theorem listing_errors_change_nothing {W} `{!Platform} (cfg : jwt_settings) (rq : request)
    (r : listing_request) (n n' : node ListingDB W) (e : exn) :
  run_session (handle cfg rq r) n = (Err e, n') → n'.1.1 = n.1.1.
Proof.
  destruct n as [[db w] env]. unfold run_session.
  destruct (handle cfg rq r _) as [res s'] eqn:E. intros [= -> <-]. simpl.
  by apply listing_handle_Err in E.
Qed.

(** ** Two transactions at once *)

(** An UPDATE of SQLAlchemy names the columns whose attribute changed since
    the object was loaded as [old]; [row] is what the table holds when the
    statement runs. *)
Definition changed {A} `{!EqDecision A} (old new row : A) : A :=
  if decide (new = old) then row else new.

#[export] Instance spec_float_eq_dec : EqDecision spec_float.
Proof. solve_decision. Defined.

Definition dirty_columns (old new row : Vehicle) : Vehicle :=
  mk_vehicle (vh_id row) (vh_host_id row)
    (changed (vh_make old) (vh_make new) (vh_make row))
    (changed (vh_model old) (vh_model new) (vh_model row))
    (changed (vh_year old) (vh_year new) (vh_year row))
    (changed (vh_daily_price_cents old) (vh_daily_price_cents new) (vh_daily_price_cents row))
    (changed (vh_daily_mileage_limit old) (vh_daily_mileage_limit new) (vh_daily_mileage_limit row))
    (changed (vh_booking_mode old) (vh_booking_mode new) (vh_booking_mode row))
    (changed (vh_approval_status old) (vh_approval_status new) (vh_approval_status row))
    (changed (vh_latitude old) (vh_latitude new) (vh_latitude row))
    (changed (vh_longitude old) (vh_longitude new) (vh_longitude row))
    (vh_created_at row).

(** The rest of [update_vehicle] in a session that loaded [old]. *)
Definition update_resumed {W} (old : Vehicle) (fields : UpdateVehicleRequest) :
    M (session ListingDB W) Vehicle :=
  let vehicle := set_fields fields old in
  db ← get_db;
  match vehicles db !! vh_id old with
  | None => mret tt
  | Some row => flush_vehicle (dirty_columns old vehicle row)
  end;;
  publish "vehicle_updated" vehicle;;
  mret vehicle.

Lemma changed_same {A} `{!EqDecision A} (old new : A) : changed old new old = new.
Proof. unfold changed. by case_decide. Qed.

(** Alone, it is what [update_vehicle] does. *)
Lemma update_resumed_alone {W} id h f (s : session ListingDB W) :
  lwf (work s) →
  update_vehicle id h f s = (vehicle ← get_owned_vehicle id h; update_resumed vehicle f) s.
Proof.
  intros Hwf. unfold update_vehicle. rewrite !run_bind.
  destruct (get_owned_vehicle id h s) as [[v|e] s1] eqn:E; [|done].
  apply get_owned_vehicle_Ok in E as (Hv & _ & ->).
  pose proof (lwf_id _ Hwf _ _ Hv) as Hid.
  unfold update_resumed, save_vehicle. rewrite (run_bind get_db). simpl (get_db _). cbn [fst snd].
  unfold get_db, gets. rewrite Hid, Hv.
  replace (dirty_columns v (set_fields f v) v) with (set_fields f v); [done|].
  unfold dirty_columns. rewrite !changed_same. by destruct v.
Qed.

(** C40: an update that loaded a vehicle before its approval and commits after
    it leaves an approved row whose last event says it is pending. *)
Theorem stale_update_unpublishes {W} (db : ListingDB) (id h : uuid) (v : Vehicle)
    (f : UpdateVehicleRequest) (s : session ListingDB W) :
  listing_reachable W db → vehicles db !! id = Some v → vh_host_id v = h →
  vh_approval_status v = "pending" → storable (set_fields f v) →
  effect (OpApprove id) (senv s) db (work s) →
  ∃ s', update_resumed v f s = (Ok (set_fields f v), s') ∧
    vehicles (work s') !! id = Some (set_approval_status "approved" (set_fields f v)) ∧
    row_data <$> find_last (row_of id) (l_outbox (work s')) = Some (_vehicle_snapshot (set_fields f v)) ∧
    ¬ published id (set_approval_status "approved" (set_fields f v)) (l_outbox (work s')).
Proof.
  intros Hr%reachable_lwf Hv Hh Hst Hs (v1 & Hw0 & _ & Hs0 & Hw). simplify_eq.
  pose proof (lwf_id _ Hr _ _ Hv) as <-.
  set (new := set_approval_status "approved" (set_fields f v)).
  assert (dirty_columns v (set_fields f v) (set_approval_status "approved" v) = new) as Hd.
  { unfold dirty_columns. simpl. rewrite !changed_same. unfold changed. by rewrite decide_True. }
  assert (storable new) as Hn.
  { destruct Hs as [(?&?&?&?&?&?&?&?&?) [? ?]], Hs0 as [(_&_&_&_&_&_&Hv7&_) [_ ?]]. done. }
  unfold update_resumed. rewrite run_bind. unfold get_db at 1, gets. rewrite Hw.
  cbn [vehicles add_event put_vehicle set_outbox listing_outbox set_vehicles].
  rewrite (lookup_insert_eq (vehicles db) (vh_id v)), Hd.
  eexists. rewrite run_bind.
  match goal with |- context [flush_vehicle new s] =>
    rewrite (proj2 (flush_vehicle_Ok new s tt _) (conj Hn eq_refl)) end.
  split; [reflexivity|]. cbn [work].
  assert (∀ rows, row_data <$> find_last (row_of (vh_id v)) (rows ++ [outbox_row
    (senv (with_work (put_vehicle new (work s)) s)) "vehicle" (str_uuid (vh_id (set_fields f v)))
    "vehicle_updated" (_vehicle_snapshot (set_fields f v))]) = Some (_vehicle_snapshot (set_fields f v)))
    as Hlast.
  { intros rows. rewrite find_last_snoc, row_of_event, bool_decide_true by done.
    cbn [fmap option_fmap option_map]. by rewrite row_data_event. }
  split; [apply lookup_insert_eq|]. split; [apply Hlast|].
  unfold published. rewrite decide_True by done. intros Hp.
  match type of Hp with ?a = _ => assert (a = Some (_vehicle_snapshot (set_fields f v))) as Hq
    by apply Hlast end.
  rewrite Hp in Hq. injection Hq as Hq. by rewrite Hst in Hq.
Qed.

(** ** Listing for the backfill *)
Definition fetch_page {W} (claims : dict) (limit : Z) (s : session ListingDB W) (offset : Z) : option dict :=
  match list_vehicles_handler claims "approved" limit offset s with
  | (Ok d, _) => Some d
  | (Err _, _) => None
  end.

Lemma fetch_page_eq {W} claims limit offset (s : session ListingDB W) :
  dict_get claims "role" = Some (PStr "admin") →
  (0 ≤ limit < 2 ^ 62)%Z → (0 ≤ offset < 2 ^ 62)%Z →
  fetch_page claims limit s offset =
    Some (page_response _vehicle_response
            (limit_offset (limit + 1) offset (rows_with_status "approved" (work s))) limit offset).
Proof.
  intros Hrole Hl Ho. unfold fetch_page, list_vehicles_handler. rewrite run_bind.
  destruct (require_role claims ["admin"] s) as [[[]|e] s1] eqn:Er.
  2:{ revert Er. unfold require_role. rewrite Hrole. by rewrite decide_True by set_solver. }
  apply require_role_Ok in Er as [-> _].
  rewrite decide_False by (intros H; by apply H).
  rewrite run_bind. unfold list_approved_vehicles, list_by_approval_status. rewrite run_bind. simpl.
  rewrite decide_False by (unfold bigint_nat; lia). done.
Qed.

Lemma rows_with_status_spec st (db : ListingDB) :
  rows_with_status st db ≡ₚ filter (λ v, vh_approval_status v = st) ((map_to_list (vehicles db)).*2) ∧
  StronglySorted vehicle_order (rows_with_status st db).
Proof.
  split; [apply merge_sort_Permutation|]. apply StronglySorted_merge_sort.
  - intros a b c. unfold vehicle_order. lia.
  - intros a b. unfold vehicle_order. lia.
Qed.

Lemma rows_with_status_length st (db : ListingDB) :
  length (rows_with_status st db) ≤ size (vehicles db).
Proof.
  rewrite (Permutation_length (proj1 (rows_with_status_spec st db))).
  etrans; [apply length_filter|]. by rewrite length_fmap, length_map_to_list.
Qed.

(** An administrator who follows [next_offset] from 0 gets every approved
    vehicle exactly once, oldest first, and the crawl ends. *)
Theorem list_vehicles_complete {W} (claims : dict) (limit : Z) (s : session ListingDB W) :
  dict_get claims "role" = Some (PStr "admin") →
  (1 ≤ limit < 2 ^ 62)%Z → (Z.of_nat (size (vehicles (work s))) < 2 ^ 62)%Z →
  let rows := rows_with_status "approved" (work s) in
  rows ≡ₚ filter (λ v, vh_approval_status v = "approved") ((map_to_list (vehicles (work s))).*2) ∧
  StronglySorted vehicle_order rows ∧
  crawl (fetch_page claims limit s) (S (length rows)) 0 =
    Some ((λ v, PDict (_vehicle_response v)) <$> rows).
Proof.
  intros Hrole Hlimit Hsize rows.
  pose proof (rows_with_status_spec "approved" (work s)) as [Hp Hs].
  split; [exact Hp|]. split; [exact Hs|].
  pose proof (rows_with_status_length "approved" (work s)).
  apply (crawl_complete _ rows limit); [lia|]. intros offset Hoff.
  apply fetch_page_eq; [done|lia|]. unfold rows in Hoff. lia.
Qed.
