(* ===== verification/Search.v ===== *)
(** * Search: services/search (documents, repository, service, consumers, redis_inbox, routes, schemas)

    The read model of approved vehicles: an Elasticsearch index fed by the
    listing events.  Elasticsearch is outside the repository: [Elasticsearch]
    is the client as the code calls it (its laws are in SearchFacts).  The
    consumer's state is the pair of Elasticsearch and Redis: there is no
    database, and no transaction spans the two. *)
From S2P Require Import Prelude Python Effects Redis Json.
From S2P Require Import Listing.

(** [index], [delete], [search] and [indices.exists]/[create] of the client. *)
Class Elasticsearch (E : Type) := {
  es_index : string → string → dict → M E unit;
  es_delete : string → string → M E unit;
  es_search : string → dict → list dict → Z → Z → M E dict;
  es_indices_exists : string → M E bool;
  es_indices_create : string → dict → M E unit;
}.

(** Act on one of the two stores. *)
Definition on_es {E R A} (m : M E A) : M (E * R) A := λ '(e, r), let '(a, e') := m e in (a, (e', r)).
Definition on_redis {E R A} (m : M R A) : M (E * R) A := λ '(e, r), let '(a, r') := m r in (a, (e, r')).

(** ** es_client.py *)
Definition INDEX_MAPPING : dict :=
  let field (t : string) := PDict [("type", PStr t)] in
  [("properties", PDict
     [("vehicle_id", field "keyword"); ("host_id", field "keyword"); ("make", field "keyword");
      ("model", field "keyword"); ("year", field "integer"); ("daily_price_cents", field "integer");
      ("daily_mileage_limit", field "integer"); ("booking_mode", field "keyword");
      ("location", field "geo_point")])].

Section es_client.
Context {E : Type} `{!Elasticsearch E}.

Definition ensure_index (index_name : string) : M E unit :=
there ← es_indices_exists index_name;
if (there : bool) then mret tt else es_indices_create index_name INDEX_MAPPING.
End es_client.

(** ** documents.py *)
Definition vehicle_to_document {S} (data : dict) : M S dict :=
  vehicle_id ← getitem data "vehicle_id";
  host_id ← getitem data "host_id";
  make ← getitem data "make";
  model ← getitem data "model";
  year ← getitem data "year";
  daily_price_cents ← getitem data "daily_price_cents";
  daily_mileage_limit ← getitem data "daily_mileage_limit";
  booking_mode ← getitem data "booking_mode";
  latitude ← getitem data "latitude";
  longitude ← getitem data "longitude";
  mret [("vehicle_id", vehicle_id); ("host_id", host_id); ("make", make); ("model", model);
        ("year", year); ("daily_price_cents", daily_price_cents);
        ("daily_mileage_limit", daily_mileage_limit); ("booking_mode", booking_mode);
        ("location", PDict [("lat", latitude); ("lon", longitude)])].

(** ** schemas.py: a field of [VehicleSearchResult] of the wrong type is a
    ValidationError, a ValueError. *)
Definition str_value {S} (v : pyval) : M S pyval :=
  match v with PStr _ => mret v | _ => raise ValueError end.
Definition int_value {S} (v : pyval) : M S pyval :=
  match v with PInt _ => mret v | _ => raise ValueError end.
Definition float_value {S} (v : pyval) : M S pyval :=
  match v with PFloat _ => mret v | PInt z => mret (PFloat (float_of_Z z)) | _ => raise ValueError end.
Definition as_dict {S} (v : pyval) : M S dict :=
  match v with PDict d => mret d | _ => raise TypeError end.
Definition as_list {S} (v : pyval) : M S (list pyval) :=
  match v with PList l => mret l | _ => raise TypeError end.

Definition document_to_result {S} (document : dict) : M S dict :=
  vehicle_id ← getitem document "vehicle_id";
  host_id ← getitem document "host_id";
  make ← getitem document "make";
  model ← getitem document "model";
  year ← getitem document "year";
  price ← getitem document "daily_price_cents";
  limit ← getitem document "daily_mileage_limit";
  mode ← getitem document "booking_mode";
  loc ← getitem document "location"; loc ← as_dict loc; latitude ← getitem loc "lat";
  loc ← getitem document "location"; loc ← as_dict loc; longitude ← getitem loc "lon";
  vehicle_id ← str_value vehicle_id; host_id ← str_value host_id; make ← str_value make;
  model ← str_value model; year ← int_value year; price ← int_value price; limit ← int_value limit;
  mode ← str_value mode; latitude ← float_value latitude; longitude ← float_value longitude;
  mret [("vehicle_id", vehicle_id); ("host_id", host_id); ("make", make); ("model", model);
        ("year", year); ("daily_price_cents", price); ("daily_mileage_limit", limit);
        ("booking_mode", mode); ("latitude", latitude); ("longitude", longitude)].

(** ** The query parameters of a search *)
Record search_params := mk_search {
  sp_make : option string;
  sp_booking_mode : option string;
  sp_min_price_cents : option Z;
  sp_max_price_cents : option Z;
  sp_lat : option spec_float;
  sp_lon : option spec_float;
  sp_radius_km : option spec_float;
  sp_sort : string;
  sp_limit : Z;
  sp_offset : Z;
}.

Definition opt_float (o : option spec_float) : pyval :=
  match o with Some f => PFloat f | None => PNone end.

(** The [Query] constraints. *)
Definition params_ok (p : search_params) : bool :=
  let non_negative z := bool_decide (0 ≤ z)%Z in
  opt_ok non_negative (sp_min_price_cents p) && opt_ok non_negative (sp_max_price_cents p)
  && opt_ok latitude_ok (sp_lat p) && opt_ok longitude_ok (sp_lon p)
  && opt_ok (SFltb (float_of_Z 0)) (sp_radius_km p)
  && bool_decide (0 < sp_limit p ≤ 100)%Z && non_negative (sp_offset p).

Section search.
Context {E R : Type} `{!Elasticsearch E} `{!Redis R} `{!FloatText}.

(** ** repository.py *)
Section repository.
Variable index : string.

Definition upsert_vehicle (vehicle_id : string) (document : dict) : M E unit :=
es_index index vehicle_id document.

Definition delete_vehicle (vehicle_id : string) : M E unit :=
try_except (es_delete index vehicle_id) (λ e,
  match e with NotFoundError => Some (mret tt) | _ => None end).

(** A clause for a criterion that was given. *)
Definition clause {A} (o : option A) (f : A → dict) : list dict :=
match o with Some a => [f a] | None => [] end.

Definition price_range (p : search_params) : dict :=
match sp_min_price_cents p with Some z => [("gte", PInt z)] | None => [] end ++
match sp_max_price_cents p with Some z => [("lte", PInt z)] | None => [] end.

Definition point (p : search_params) : pyval :=
PDict [("lat", opt_float (sp_lat p)); ("lon", opt_float (sp_lon p))].

Definition filters (p : search_params) : list dict :=
clause (sp_make p) (λ make, [("term", PDict [("make", PStr make)])]) ++
clause (sp_booking_mode p) (λ mode, [("term", PDict [("booking_mode", PStr mode)])]) ++
match price_range p with
| [] => []
| r => [[("range", PDict [("daily_price_cents", PDict r)])]]
end ++
match sp_lat p, sp_lon p, sp_radius_km p with
| Some _, Some _, Some radius_km =>
    [[("geo_distance", PDict [("distance", PStr (float_repr radius_km +:+ "km"));
                              ("location", point p)])]]
| _, _, _ => []
end.

Definition query_of (p : search_params) : dict :=
match filters p with
| [] => [("match_all", PDict [])]
| fs => [("bool", PDict [("filter", PList (PDict <$> fs))])]
end.

Definition sort_clause (p : search_params) : list dict :=
if decide (sp_sort p = "distance") then
  [[("_geo_distance", PDict [("location", point p); ("order", PStr "asc"); ("unit", PStr "km")])]]
else if decide (sp_sort p = "price_desc") then [[("daily_price_cents", PStr "desc")]]
else [[("daily_price_cents", PStr "asc")]].

(** [[hit["_source"] for hit in result["hits"]["hits"]]]. *)
Fixpoint sources {S} (hits : list pyval) : M S (list dict) :=
match hits with
| [] => mret []
| hit :: hits =>
    hit ← as_dict hit; source ← getitem hit "_source"; source ← as_dict source;
    rest ← sources hits;
    mret (source :: rest)
end.

Definition hits_of {S} (result : dict) : M S (list dict) :=
hits ← getitem result "hits"; hits ← as_dict hits;
hits ← getitem hits "hits"; hits ← as_list hits;
sources hits.

Definition repo_search (p : search_params) : M E (list dict) :=
result ← try_except
  (r ← es_search index (query_of p) (sort_clause p) (sp_offset p) (sp_limit p); mret (Some r))
  (λ e, match e with NotFoundError => Some (mret None) | _ => None end);
match result with
| None => mret []
| Some result => hits_of result
end.

(** ** service.py *)
Definition handle_vehicle_event (data : dict) : M E unit :=
if get_is data "approval_status" "approved" then
  v ← getitem data "vehicle_id"; vehicle_id ← as_str v;
  document ← vehicle_to_document data;
  upsert_vehicle vehicle_id document
else
  v ← getitem data "vehicle_id"; vehicle_id ← as_str v;
  delete_vehicle vehicle_id.

Definition search_vehicles (p : search_params) : M E (list dict) :=
if decide (sp_sort p = "distance" ∧ (sp_lat p = None ∨ sp_lon p = None))
then raise (InvalidSearchQueryError "sort=distance requires lat and lon")
else if decide (is_Some (sp_radius_km p) ∧ (sp_lat p = None ∨ sp_lon p = None))
then raise (InvalidSearchQueryError "radius_km requires lat and lon")
else repo_search p.
End repository.

(** ** redis_inbox.py *)
Definition event_key (event_id : string) : string := "processed-event:" +:+ event_id.

Definition claim_event (event_id : string) (ttl_seconds : Z) : M R bool :=
redis_set_nx (event_key event_id) "1" ttl_seconds.

(** ** consumers.py *)
Definition LISTING_EVENT_TYPES : list string := ["vehicle_approved"; "vehicle_updated"].

Definition dedup_ttl_seconds : Z := 86400.

Definition listing_event_processor (index event_id event_type : string) (data : dict) :
  M (E * R) unit :=
if decide (event_type ∉ LISTING_EVENT_TYPES) then mret tt
else
  claimed ← on_redis (claim_event event_id dedup_ttl_seconds);
  if (claimed : bool) then on_es (handle_vehicle_event index data) else mret tt.
End search.
