(* ===== verification/SearchApp.v ===== *)
(** * SearchApp: services/search (routes with the query cache, backfill)

    The one HTTP endpoint of search, with its Redis cache of responses, and
    the operational tool that fills the index from the listing service. *)
From S2P Require Import Prelude Python Effects Redis Json Auth JwtAuth Http Idempotency.
From S2P Require Import Listing Search.

(** ** routes.py *)

(** [SearchResponse.model_validate_json]. *)
Class SearchJson := model_validate_json : string → option dict.

Definition search_dict (p : search_params) : dict :=
  [("make", opt_str (sp_make p)); ("booking_mode", opt_str (sp_booking_mode p));
   ("min_price_cents", opt_int (sp_min_price_cents p));
   ("max_price_cents", opt_int (sp_max_price_cents p));
   ("lat", opt_float (sp_lat p)); ("lon", opt_float (sp_lon p));
   ("radius_km", opt_float (sp_radius_km p)); ("sort", PStr (sp_sort p));
   ("limit", PInt (sp_limit p)); ("offset", PInt (sp_offset p))].

(** [sort_keys=True]. *)
Definition key_le (a b : string * pyval) : Prop := String.leb a.1 b.1 = true.
#[export] Instance key_le_dec a b : Decision (key_le a b).
Proof. unfold key_le. apply _. Defined.

Definition sort_keys (d : dict) : dict := merge_sort key_le d.

Section search_route.
Context {E R : Type} `{!Elasticsearch E} `{!Redis R} `{!FloatText} `{!Platform} `{!SearchJson}.
Variable index : string.
Variable query_cache_ttl_seconds : Z.

Definition _cache_key (p : search_params) : string :=
"search-query:" +:+ sha256_hexdigest (json_dumps (PDict (sort_keys (search_dict p)))).

Definition search (p : search_params) : M (E * R) dict :=
let cache_key := _cache_key p in
cached ← on_redis (redis_get cache_key);
match cached with
| Some cached =>
    match model_validate_json cached with Some r => mret r | None => raise ValueError end
| None =>
    documents ← try_except (on_es (search_vehicles index p)) (λ e,
      match e with
      | InvalidSearchQueryError msg => Some (raise (HTTPException 400 msg))
      | _ => None
      end);
    items ← mapM document_to_result documents;
    let response := [("items", PList (PDict <$> items))] in
    on_redis (redis_set cache_key (model_dump_json response) (Some query_cache_ttl_seconds));;
    mret response
end.

Definition search_endpoint (i : input search_params) : M (E * R) Response :=
match constrained params_ok i with
| Valid p => response ← search p; mret (mk_response 200 (model_dump_json response))
| _ => raise unprocessable
end.
End search_route.

(** ** backfill.py *)
Definition PAGE_SIZE : Z := 100.

Definition _event_data {S} (vehicle : dict) : M S dict :=
  vehicle_id ← getitem vehicle "id";
  host_id ← getitem vehicle "host_id";
  make ← getitem vehicle "make";
  model ← getitem vehicle "model";
  year ← getitem vehicle "year";
  daily_price_cents ← getitem vehicle "daily_price_cents";
  daily_mileage_limit ← getitem vehicle "daily_mileage_limit";
  booking_mode ← getitem vehicle "booking_mode";
  approval_status ← getitem vehicle "approval_status";
  latitude ← getitem vehicle "latitude";
  longitude ← getitem vehicle "longitude";
  mret [("vehicle_id", vehicle_id); ("host_id", host_id); ("make", make); ("model", model);
        ("year", year); ("daily_price_cents", daily_price_cents);
        ("daily_mileage_limit", daily_mileage_limit); ("booking_mode", booking_mode);
        ("approval_status", approval_status); ("latitude", latitude); ("longitude", longitude)].

(** [GET {listing_base_url}/listing/vehicles?approval_status=approved] with a
    bearer token, a limit and an offset: status and JSON body, or the
    exception httpx raises when no answer comes. *)
Definition list_http : Type := string → Z → Z → result (Z * dict).

Section backfill.
Context {E : Type} `{!Elasticsearch E} `{!Platform}.
Notation Mf := (M (session unit E)).
Variable index : string.
Variable listing : list_http.

(** The inner loop: the count so far is [indexed]. *)
Fixpoint index_items (items : list pyval) (indexed : nat) : Mf nat :=
match items with
| [] => mret indexed
| vehicle :: items =>
    vehicle ← as_dict vehicle;
    data ← _event_data vehicle;
    call (handle_vehicle_event index data);;
    index_items items (S indexed)
end.

(** [while True], one page per unit of fuel; [None] is out of fuel. *)
Fixpoint backfill_pages (fuel : nat) (token : string) (offset : Z) (indexed : nat) : Mf (option nat) :=
match fuel with
| O => mret None
| S fuel =>
    response ← match listing token PAGE_SIZE offset with Ok r => mret r | Err e => raise e end;
    let '(status, body) := response in
    if decide (¬ (200 ≤ status < 300)%Z) then raise (HTTPStatusError status)
    else
      items ← getitem body "items"; items ← as_list items;
      indexed ← index_items items indexed;
      next_offset ← getitem body "next_offset";
      match next_offset with
      | PNone => mret (Some indexed)
      | next_offset => offset ← as_int next_offset; backfill_pages fuel token offset indexed
      end
end.

Definition run_backfill (fuel : nat) (cfg : jwt_settings) : Mf (option nat) :=
call (ensure_index index);;
user_id ← uuid4;
token ← create_token user_id "admin" "access" cfg 300;
backfill_pages fuel token 0 0.
End backfill.
