(* ===== verification/SearchFacts.v ===== *)
(** * SearchFacts: the search index is the set of approved vehicles

    [ElasticsearchLaws] states what the code relies on of Elasticsearch.  A
    consumer that has caught up with the outbox of the listing service, under
    redelivery, crashes before the offset commit and expiry of the
    deduplication keys ([search_delivery]), leaves exactly the documents of
    the approved vehicles ([is_index]); a backfill over the listing endpoint
    leaves them too, and ends; one that is interrupted has written documents
    of listed vehicles only ([backfill_interrupted]). *)
From S2P Require Import Prelude Python Effects Outbox Inbox Redis Json JwtAuth Auth AuthFacts.
From S2P Require Import Pagination Idempotency Http Listing ListingFacts ListingService Search.
From S2P Require Import SearchApp.

(** ** What Elasticsearch promises *)
Class ElasticsearchLaws (E : Type) `{!Elasticsearch E} := {
  (** the documents, by index and identifier *)
  docs : E → gmap (string * string) dict;
  es_index_Ok ix i d e u e' :
    es_index ix i d e = (Ok u, e') → docs e' = <[(ix, i) := d]> (docs e);
  es_delete_Ok ix i e u e' :
    es_delete ix i e = (Ok u, e') → docs e' = delete (ix, i) (docs e);
  es_delete_NotFound ix i e e' :
    es_delete ix i e = (Err NotFoundError, e') → docs e !! (ix, i) = None ∧ docs e' = docs e;
  es_search_docs ix q s from size e r e' : es_search ix q s from size e = (r, e') → docs e' = docs e;
  es_exists_docs ix e r e' : es_indices_exists ix e = (r, e') → docs e' = docs e;
  es_create_docs ix m e r e' : es_indices_create ix m e = (r, e') → docs e' = docs e;
}.

(** A call that failed may have taken effect or not. *)
Class ElasticsearchFailures (E : Type) `{!Elasticsearch E, !ElasticsearchLaws E} := {
  es_index_any ix i d e r e' :
    es_index ix i d e = (r, e') → docs e' = docs e ∨ docs e' = <[(ix, i) := d]> (docs e);
  es_delete_any ix i e r e' :
    es_delete ix i e = (r, e') → docs e' = docs e ∨ docs e' = delete (ix, i) (docs e);
}.

(** ** The document of a vehicle *)
Definition vehicle_document (v : Vehicle) : dict :=
  [("vehicle_id", PStr (str_uuid (vh_id v))); ("host_id", PStr (str_uuid (vh_host_id v)));
   ("make", PStr (vh_make v)); ("model", PStr (vh_model v)); ("year", PInt (vh_year v));
   ("daily_price_cents", PInt (vh_daily_price_cents v));
   ("daily_mileage_limit", PInt (vh_daily_mileage_limit v));
   ("booking_mode", PStr (vh_booking_mode v));
   ("location", PDict [("lat", PFloat (vh_latitude v)); ("lon", PFloat (vh_longitude v))])].

Lemma vehicle_to_document_run {S} v (s : S) :
  vehicle_to_document (_vehicle_snapshot v) s = (Ok (vehicle_document v), s).
Proof. reflexivity. Qed.

(** The index of the approved vehicles among [vs]. *)
Definition approved_document (v : Vehicle) : option dict :=
  if decide (vh_approval_status v = "approved") then Some (vehicle_document v) else None.

Definition is_index (ix : string) (vs : gmap uuid Vehicle) (m : gmap (string * string) dict) : Prop :=
  (∀ i, m !! (ix, str_uuid i) = vs !! i ≫= approved_document) ∧
  ∀ k, is_Some (m !! (ix, k)) → ∃ i, k = str_uuid i.

(** ** One event *)
Definition apply_vehicle (ix : string) (v : Vehicle) (m : gmap (string * string) dict) :
    gmap (string * string) dict :=
  if decide (vh_approval_status v = "approved")
  then <[(ix, str_uuid (vh_id v)) := vehicle_document v]> m
  else delete (ix, str_uuid (vh_id v)) m.

Lemma apply_vehicle_idemp ix v m : apply_vehicle ix v (apply_vehicle ix v m) = apply_vehicle ix v m.
Proof.
  unfold apply_vehicle. case_decide; [apply insert_insert_eq|].
  apply delete_id. apply lookup_delete_eq.
Qed.

(** The vehicle a row of the listing outbox carries. *)
Definition carries (row : OutboxRow) (v : Vehicle) : Prop := ∃ e t,
  t ∈ LISTING_EVENT_TYPES ∧ row = outbox_row e "vehicle" (str_uuid (vh_id v)) t (_vehicle_snapshot v).

Lemma vehicle_rows_carry rows :
  Forall vehicle_row rows → ∃ vs, Forall2 carries rows vs.
Proof.
  induction 1 as [|row rows (e & t & v & Ht & ->) _ [vs IH]]; [by exists []|].
  exists (v :: vs). constructor; [|done]. by exists e, t.
Qed.

Section event.
Context {E R : Type} `{!Elasticsearch E} `{!Redis R} `{!ElasticsearchLaws E} `{!RedisLaws R}.
Variable ix : string.
Implicit Types (e : E) (r : R).

Lemma delete_vehicle_Ok i e u e' :
delete_vehicle ix i e = (Ok u, e') → docs e' = delete (ix, i) (docs e).
Proof.
unfold delete_vehicle. rewrite try_except_Ok. intros [?%es_delete_Ok|(x & e1 & k & Hd & Hk & Hr)]; [done|].
destruct x; simplify_eq. injection Hr as _ <-.
apply es_delete_NotFound in Hd as [Hn ->]. by rewrite delete_id.
Qed.

Lemma handle_vehicle_event_Ok v e u e' :
handle_vehicle_event ix (_vehicle_snapshot v) e = (Ok u, e') → docs e' = apply_vehicle ix v (docs e).
Proof.
unfold handle_vehicle_event, apply_vehicle.
replace (get_is (_vehicle_snapshot v) "approval_status" "approved")
  with (bool_decide (vh_approval_status v = "approved")) by done.
case_bool_decide as Ha; [rewrite decide_True by done|rewrite decide_False by done].
- apply es_index_Ok.
- apply delete_vehicle_Ok.
Qed.

(** Processing the event of [v]: nothing when it was claimed, otherwise the
  claim and the effect. *)
Lemma consume_row_Ok row v e r e' r' :
carries row v →
consume (listing_event_processor ix) (payload row) (e, r) = (Ok tt, (e', r')) →
match keys r !! event_key (ob_id row) with
| Some _ => docs e' = docs e ∧ keys r' = keys r
| None => docs e' = apply_vehicle ix v (docs e) ∧ keys r' = <[event_key (ob_id row) := "1"]> (keys r)
end.
Proof.
intros (env & t & Ht & ->).
rewrite (consume_fields _ _ (str_uuid (fresh env 0)) t (_vehicle_snapshot v)) by done.
cbn [ob_id outbox_row]. generalize (str_uuid (fresh env 0)) as i. intros i.
unfold listing_event_processor. rewrite decide_False by (intros Hn; by apply Hn).
rewrite bind_Ok. intros ([] & [e1 r1] & Hc & Hk).
- unfold on_redis, claim_event in Hc. destruct (redis_set_nx _ _ _ r) as [[b|x] r2] eqn:Hs; [|done].
  simplify_eq. apply redis_set_nx_Ok in Hs. destruct (keys r !! _); [by destruct Hs|].
  destruct Hs as [_ Hs]. unfold on_es in Hk.
  destruct (handle_vehicle_event ix _ e1) as [[[]|x] e2] eqn:Hh; [|done]. simplify_eq.
  split; [by eapply handle_vehicle_event_Ok | done].
- injection Hk as <- <-.
  unfold on_redis, claim_event in Hc. destruct (redis_set_nx _ _ _ r) as [[b|x] r2] eqn:Hs; [|done].
  simplify_eq. apply redis_set_nx_Ok in Hs. by destruct (keys r !! _); destruct Hs.
Qed.

(** Handling it whatever the outcome. *)
Lemma handle_vehicle_event_any `{!ElasticsearchFailures E} v e res e' :
handle_vehicle_event ix (_vehicle_snapshot v) e = (res, e') →
docs e' = docs e ∨ docs e' = apply_vehicle ix v (docs e).
Proof.
unfold handle_vehicle_event, apply_vehicle.
replace (get_is (_vehicle_snapshot v) "approval_status" "approved")
  with (bool_decide (vh_approval_status v = "approved")) by done.
case_bool_decide; [rewrite decide_True by done|rewrite decide_False by done].
- apply es_index_any.
- intros Eh. change (delete_vehicle ix (str_uuid (vh_id v)) e = (res, e')) in Eh.
  unfold delete_vehicle, try_except in Eh.
  destruct (es_delete ix (str_uuid (vh_id v)) e) as [[u|x] e2] eqn:Ed;
    apply es_delete_any in Ed; [by injection Eh as _ <-|].
  destruct x; injection Eh as _ <-; done.
Qed.

(** Processing it whatever the outcome. *)
Lemma consume_row_any `{!ElasticsearchFailures E} row v e r res e' r' :
carries row v →
consume (listing_event_processor ix) (payload row) (e, r) = (res, (e', r')) →
docs e' = docs e ∨ docs e' = apply_vehicle ix v (docs e).
Proof.
intros (env & t & Ht & ->).
rewrite (consume_fields _ _ (str_uuid (fresh env 0)) t (_vehicle_snapshot v)) by done.
generalize (str_uuid (fresh env 0)) as i. intros i.
unfold listing_event_processor. rewrite decide_False by (intros Hn; by apply Hn).
rewrite run_bind. unfold on_redis. destruct (claim_event i dedup_ttl_seconds r) as [[[]|x] r1];
  [|intros [= _ <- _]; by left|intros [= _ <- _]; by left].
unfold on_es. destruct (handle_vehicle_event ix (_vehicle_snapshot v) e) as [y e1] eqn:Eh.
intros [= _ <- _]. by eapply handle_vehicle_event_any.
Qed.
End event.

#[export] Instance event_key_inj : Inj (=) (=) event_key.
Proof. intros a b H. unfold event_key in H. cbv [String.app] in H. by injection H. Qed.

(** ** The consumer under redelivery *)
Section delivery.
Context {E R : Type} `{!Elasticsearch E} `{!Redis R} `{!ElasticsearchLaws E} `{!RedisLaws R}.
Variable ix : string.
Variable topic : list OutboxRow.
Implicit Types n : E * R.

(** What a search query, the expiry of a key or another client of the two
  servers does: the documents stay, and no event becomes claimed. *)
Definition quiet_for_search n n' : Prop :=
docs n'.1 = docs n.1 ∧
∀ i, is_Some (keys n'.2 !! event_key i) → is_Some (keys n.2 !! event_key i).

(** The committed offset is the second component; [sd_crash] stops between
  the return of [process] and the commit of the offset. *)
Inductive search_delivery : (E * R) * nat → (E * R) * nat → Prop :=
| sd_commit n n' off row :
  topic !! off = Some row →
  consume (listing_event_processor ix) (payload row) n = (Ok tt, n') →
  search_delivery (n, off) (n', S off)
| sd_crash n n' off row :
  topic !! off = Some row →
  consume (listing_event_processor ix) (payload row) n = (Ok tt, n') →
  search_delivery (n, off) (n', off)
| sd_other n n' off : quiet_for_search n n' → search_delivery (n, off) (n', off).

Variable vs : list Vehicle.
Hypothesis topic_carries : Forall2 carries topic vs.
Hypothesis topic_ids : NoDup (ob_id <$> topic).

(** The effect of the first [k] events, in order. *)
Definition applied (k : nat) (m : gmap (string * string) dict) : gmap (string * string) dict :=
foldl (λ m v, apply_vehicle ix v m) m (take k vs).

Lemma applied_S k v m : vs !! k = Some v → applied (S k) m = apply_vehicle ix v (applied k m).
Proof. intros Hv. unfold applied. by rewrite (take_S_r _ _ _ Hv), foldl_app. Qed.

(** [k] events have taken effect and no later one is claimed. *)
Record progress (m0 : gmap (string * string) dict) n (off k : nat) : Prop := mk_progress {
pg_docs : docs n.1 = applied k m0;
pg_unclaimed : ∀ j row, topic !! j = Some row → k ≤ j → keys n.2 !! event_key (ob_id row) = None;
pg_offset : k = off ∨ k = S off;
}.

Lemma topic_id_inj i j r r' :
topic !! i = Some r → topic !! j = Some r' → ob_id r = ob_id r' → i = j.
Proof.
intros Hi Hj Hid. eapply (NoDup_lookup _ _ _ (ob_id r) topic_ids); rewrite list_lookup_fmap.
- by rewrite Hi.
- by rewrite Hj, Hid.
Qed.

(** Handling the record at the offset, first time or again. *)
Lemma progress_consume m0 n n' off k row :
progress m0 n off k → topic !! off = Some row →
consume (listing_event_processor ix) (payload row) n = (Ok tt, n') →
progress m0 n' off (S off).
Proof.
destruct n as [e r], n' as [e' r']. intros [Hd Hc Ho] Hrow Hcons. cbn [fst snd] in *.
destruct (Forall2_lookup_l _ _ _ _ _ topic_carries Hrow) as (v & Hv & Hcar).
pose proof (consume_row_Ok ix row v e r e' r' Hcar Hcons) as Heff.
assert (applied (S off) m0 = apply_vehicle ix v (applied k m0)) as Happ.
{ destruct Ho as [->| ->]; [by apply applied_S|].
  by rewrite (applied_S _ _ _ Hv), apply_vehicle_idemp. }
assert (∀ j row', topic !! j = Some row' → S off ≤ j →
  keys r !! event_key (ob_id row') = None) as Hlater.
{ intros j row' Hj Hle. apply (Hc j); [done|]. destruct Ho; lia. }
destruct (keys r !! event_key (ob_id row)) as [x|] eqn:Ek.
- destruct Heff as [Hdocs Hkeys]. split; cbn [fst snd]; [|by rewrite Hkeys|by right].
  destruct Ho as [->| ->].
  + by rewrite (Hc off row Hrow) in Ek by lia.
  + by rewrite Hdocs.
- destruct Heff as [Hdocs Hkeys]. split; cbn [fst snd]; [|  |by right].
  + by rewrite Hdocs, Hd, Happ.
  + intros j row' Hj Hle. rewrite Hkeys, lookup_insert_ne; [by eapply Hlater|].
    intros Heq%(inj _). assert (off = j) by (by eapply topic_id_inj). lia.
Qed.

Lemma progress_step m0 n off k n' off' :
progress m0 n off k → search_delivery (n, off) (n', off') → ∃ k', progress m0 n' off' k'.
Proof.
intros Hp Hs. inversion Hs as [? ? ? row Hr Hc|? ? ? row Hr Hc|? ? ? [Hd Hk]]; subst.
- exists (S off). destruct (progress_consume _ _ _ _ _ _ Hp Hr Hc). split; [done..|by left].
- exists (S off'). by eapply progress_consume.
- exists k. destruct Hp as [Hdocs Hc Ho]. split; [congruence| |done].
  intros j row Hj Hle. destruct (keys n'.2 !! event_key (ob_id row)) eqn:En; [|done].
  destruct (Hk (ob_id row)) as [x Hx]; [by rewrite En|]. by rewrite (Hc j) in Hx.
Qed.

Lemma progress_steps m0 st st' :
rtc search_delivery st st' → ∀ k, progress m0 st.1 st.2 k → ∃ k', progress m0 st'.1 st'.2 k'.
Proof.
induction 1 as [st|[n1 o1] [n2 o2] [n3 o3] Hstep _ IH]; intros k Hk; [eauto|].
destruct (progress_step _ _ _ _ _ _ Hk Hstep) as [k' Hk']. by eapply IH.
Qed.

(** The documents once the offset reached the end. *)
Lemma progress_end m0 n k : progress m0 n (length topic) k → docs n.1 = applied (length vs) m0.
Proof.
intros [Hd _ Ho]. rewrite Hd. unfold applied.
rewrite !take_ge; [done|lia|]. rewrite <- (Forall2_length _ _ _ topic_carries).
destruct Ho; lia.
Qed.
End delivery.

(** ** The events of the listing service, applied in order *)
Section fold.
Variable ix : string.

Lemma apply_vehicle_lookup v m k :
apply_vehicle ix v m !! (ix, k) =
if decide (k = str_uuid (vh_id v)) then approved_document v else m !! (ix, k).
Proof.
unfold apply_vehicle, approved_document. case_decide as Ha; case_decide as Hk; subst.
- by rewrite lookup_insert_eq.
- by rewrite lookup_insert_ne by congruence.
- by rewrite lookup_delete_eq.
- by rewrite lookup_delete_ne by congruence.
Qed.

(** What the last event of a vehicle says decides. *)
Lemma fold_lookup m k rows vs :
Forall2 carries rows vs →
foldl (λ m v, apply_vehicle ix v m) m vs !! (ix, k) =
match find_last (λ v, bool_decide (k = str_uuid (vh_id v))) vs with
| Some v => approved_document v
| None => m !! (ix, k)
end.
Proof.
intros _. induction vs as [|v vs IH] using rev_ind; [done|].
rewrite foldl_app, find_last_snoc. simpl. rewrite apply_vehicle_lookup, IH.
case_decide; case_bool_decide; done.
Qed.

(** The last row of [i] and the last carried state of [i] are the same. *)
Lemma find_last_carried rows vs i :
Forall2 carries rows vs →
row_data <$> find_last (row_of i) rows =
  _vehicle_snapshot <$> find_last (λ v, bool_decide (str_uuid i = str_uuid (vh_id v))) vs.
Proof.
intros H. induction H as [|row v rows vs (e & t & Ht & ->) _ IH]; [done|]. cbn [find_last].
destruct (find_last (row_of i) rows) as [x|], (find_last _ vs) as [y|]; try done.
rewrite row_of_event. clear IH.
destruct (decide (vh_id v = i)) as [<-|Hne].
- by rewrite !bool_decide_true.
- rewrite !bool_decide_false; [done| |done]. by intros Heq%str_uuid_inj.
Qed.

(** The document is a function of the snapshot. *)
Definition snapshot_to_document (d : dict) : option dict :=
if get_is d "approval_status" "approved"
then match vehicle_to_document d tt with (Ok x, _) => Some x | (Err _, _) => None end
else None.

Lemma approved_document_snapshot v : approved_document v = snapshot_to_document (_vehicle_snapshot v).
Proof.
unfold approved_document, snapshot_to_document.
replace (get_is (_vehicle_snapshot v) "approval_status" "approved")
  with (bool_decide (vh_approval_status v = "approved")) by done.
rewrite vehicle_to_document_run. by case_decide; case_bool_decide.
Qed.

Lemma snapshot_document v v' :
_vehicle_snapshot v = _vehicle_snapshot v' → approved_document v = approved_document v'.
Proof. intros Heq. by rewrite !approved_document_snapshot, Heq. Qed.

Lemma find_last_Some {A} (P : A → bool) l x : find_last P l = Some x → x ∈ l ∧ P x = true.
Proof.
induction l as [|y l IH]; simpl; [done|]. destruct (find_last P l) as [z|].
- intros [= ->]. destruct IH; [done|]. split; [by right|done].
- destruct (P y) eqn:E; [|done]. intros [= ->]. split; [by left|done].
Qed.

(** Applying the outbox of a reachable listing database to an empty index
  gives the index of its approved vehicles. *)
Lemma fold_index db vs m :
lwf db → Forall2 carries (l_outbox db) vs → (∀ k, m !! (ix, k) = None) →
is_index ix (vehicles db) (foldl (λ m v, apply_vehicle ix v m) m vs).
Proof.
intros Hwf Hcar Hempty. split.
- intros i. rewrite (fold_lookup _ _ _ _ Hcar), Hempty.
  pose proof (find_last_carried _ _ i Hcar) as Hlast.
  destruct (vehicles db !! i) as [v|] eqn:Hv; cbn [mbind option_bind].
  + pose proof (lwf_published _ Hwf i v Hv) as Hp. unfold published in Hp.
    destruct (find_last _ vs) as [w|] eqn:Ew.
    * unfold approved_document at 2. case_decide as Ha.
      -- rewrite Hp in Hlast. apply (inj Some) in Hlast as Hs. rewrite <- (snapshot_document _ _ Hs).
         unfold approved_document. by rewrite decide_True.
      -- destruct (find_last (row_of i) (l_outbox db)) as [row|] eqn:Er; [|done].
         apply (inj Some) in Hlast as Hs. apply find_last_Some in Er as [Hin Hro].
         rewrite Forall_forall in Hp. specialize (Hp row Hin Hro).
         unfold says_approved in Hp. rewrite Hs in Hp.
         change (bool_decide (vh_approval_status w = "approved") = false) in Hp.
         apply bool_decide_eq_false in Hp. unfold approved_document. by rewrite decide_False.
    * unfold approved_document. case_decide; [|done]. by rewrite Hp in Hlast.
  + destruct (find_last _ vs) as [w|] eqn:Ew; [|done].
    pose proof (lwf_orphan _ Hwf i Hv) as Ho.
    destruct (find_last (row_of i) (l_outbox db)) as [row|] eqn:Er; [|done].
    apply find_last_Some in Er as [Hin Hro]. rewrite Forall_forall in Ho.
    by rewrite (Ho row Hin) in Hro.
- intros k. rewrite (fold_lookup _ _ _ _ Hcar), Hempty.
  destruct (find_last _ vs) as [w|] eqn:Ew; [|by intros [? ?]].
  apply find_last_Some in Ew as [_ Hk%bool_decide_eq_true]. eauto.
Qed.
End fold.


(** The claim is taken before the effect and outlives it, so that an
    event whose Elasticsearch call failed is skipped when it is delivered
    again: the offset moves past it and the index never gets it. *)
Theorem failed_effect_is_lost {E R : Type} `{!Elasticsearch E} `{!Redis R} `{!RedisLaws R}
    (ix : string) (row : OutboxRow) (v : Vehicle) (e e1 : E) (r r1 : R) (x : exn) :
  carries row v →
  redis_set_nx (event_key (ob_id row)) "1" dedup_ttl_seconds r = (Ok true, r1) →
  handle_vehicle_event ix (_vehicle_snapshot v) e = (Err x, e1) →
  (∃ b r2, redis_set_nx (event_key (ob_id row)) "1" dedup_ttl_seconds r1 = (Ok b, r2)) →
  run_consumer (listing_event_processor ix) [payload row] ((e, r), 0) = (Err x, ((e1, r1), 0)) ∧
  ∃ r2, run_consumer (listing_event_processor ix) [payload row] ((e1, r1), 0) =
    (Ok tt, ((e1, r2), 1)).
Proof.
  intros (env & t & Ht & ->) Hclaim Heff (b & r2 & Hagain).
  assert (∀ st, consume (listing_event_processor ix)
      (payload (outbox_row env "vehicle" (str_uuid (vh_id v)) t (_vehicle_snapshot v))) st =
    listing_event_processor ix (str_uuid (fresh env 0)) t (_vehicle_snapshot v) st) as Hc.
  { intros st. by rewrite (consume_fields _ _ (str_uuid (fresh env 0)) t (_vehicle_snapshot v)) by done. }
  cbn [run_consumer]. rewrite !Hc. revert Hclaim Hagain. cbn [ob_id outbox_row].
  generalize (str_uuid (fresh env 0)) as i. intros i Hclaim Hagain. clear Hc.
  unfold listing_event_processor. rewrite !decide_False by (intros Hn; by apply Hn).
  split.
  - rewrite run_bind. unfold on_redis, claim_event. rewrite Hclaim. unfold on_es. by rewrite Heff.
  - exists r2. rewrite run_bind. unfold on_redis, claim_event. rewrite Hagain.
    apply redis_set_nx_Ok in Hclaim, Hagain.
    destruct (keys r !! event_key i); [by destruct Hclaim|]. destruct Hclaim as [_ Hk].
    rewrite Hk, lookup_insert_eq in Hagain. by destruct Hagain as [-> _].
Qed.

(** ** The backfill *)

(** The listing endpoint as the backfill reaches it: the token is checked,
    the page is read in the session [s]. *)
Definition listing_api {W} `{!Platform} (cfg : jwt_settings) (s : session ListingDB W) : list_http :=
  λ token limit offset,
    match (t ← now; claims ← claims_dependency cfg "access" t (Some ("Bearer " +:+ token));
           list_vehicles_handler claims "approved" limit offset) s with
    | (Ok d, _) => Ok (200%Z, d)
    | (Err (HTTPException st _), _) => Ok (st, [])
    | (Err _, _) => Ok (500%Z, [])
    end.

Lemma event_data_run {S} v (s : S) :
  _event_data (_vehicle_response v) s = (Ok (_vehicle_snapshot v), s).
Proof. reflexivity. Qed.

Section backfill.
Context {E : Type} `{!Elasticsearch E} `{!ElasticsearchLaws E} `{!Platform}.
Variable ix : string.
(** Elasticsearch answers. *)
Hypothesis es_up : ∀ i d e, ∃ e', es_index ix i d e = (Ok tt, e').
Implicit Types s : session unit E.

(** The effect of indexing approved vehicles, in order. *)
Definition indexed (vs : list Vehicle) (m : gmap (string * string) dict) :=
foldl (λ m v, apply_vehicle ix v m) m vs.

Lemma index_items_run vs n s :
Forall (λ v, vh_approval_status v = "approved") vs →
∃ e', index_items ix ((λ v, PDict (_vehicle_response v)) <$> vs) n s =
    (Ok (n + length vs), with_world e' s) ∧ docs e' = indexed vs (docs (world s)).
Proof.
intros Hvs. revert n s. induction Hvs as [|v vs Hv _ IH]; intros n s.
{ exists (world s). simpl. rewrite Nat.add_0_r. by destruct s. }
destruct (es_up (str_uuid (vh_id v)) (vehicle_document v) (world s)) as [e1 He1].
assert (handle_vehicle_event ix (_vehicle_snapshot v) (world s) = (Ok tt, e1)) as Hh.
{ unfold handle_vehicle_event.
  replace (get_is (_vehicle_snapshot v) "approval_status" "approved") with true; [exact He1|].
  symmetry. by apply bool_decide_eq_true. }
destruct (IH (S n) (with_world e1 s)) as (e2 & Hr & Hd).
exists e2. split.
- cbn [index_items fmap list_fmap]. rewrite run_bind. cbn [as_dict mret M_ret].
  rewrite run_bind, event_data_run, run_bind. unfold call at 1. rewrite Hh, Hr.
  simpl. by rewrite Nat.add_succ_r.
- rewrite Hd. cbn [world with_world]. by rewrite (handle_vehicle_event_Ok _ _ _ _ _ Hh).
Qed.

(** One page, and the rest. *)
Variable listing : list_http.
Variable token : string.
Variable rows : list Vehicle.
Hypothesis rows_approved : Forall (λ v, vh_approval_status v = "approved") rows.
Hypothesis listing_pages : ∀ offset, (0 ≤ offset ≤ Z.of_nat (length rows))%Z →
listing token PAGE_SIZE offset =
  Ok (200%Z, page_response _vehicle_response (limit_offset (PAGE_SIZE + 1) offset rows) PAGE_SIZE offset).

Lemma backfill_pages_run fuel k s :
k ≤ length rows → length rows - k < fuel →
∃ e', backfill_pages ix listing fuel token (Z.of_nat k) k s =
    (Ok (Some (length rows)), with_world e' s) ∧
  docs e' = indexed (drop k rows) (docs (world s)).
Proof.
revert k s. induction fuel as [|fuel IH]; intros k s Hk Hf; [lia|].
cbn [backfill_pages]. rewrite listing_pages, run_bind, run_ret by lia.
rewrite decide_False by (intros Hn; apply Hn; lia).
unfold page_response, limit_offset, slice_to. change (Z.to_nat (PAGE_SIZE + 1)) with 101.
rewrite Nat2Z.id, (decide_False (P := (PAGE_SIZE < 0)%Z)) by done.
rewrite take_take. change (Z.to_nat PAGE_SIZE `min` 101) with 100.
assert (Forall (λ v, vh_approval_status v = "approved") (take 100 (drop k rows))) as Hpage
  by (by apply Forall_take, Forall_drop).
destruct (index_items_run _ k s Hpage) as (e1 & Hitems & Hd1).
rewrite length_take, length_drop in Hitems |- *.
assert (∀ next st, (items ← getitem [("items", PList ((λ x, PDict (_vehicle_response x)) <$>
    take 100 (drop k rows))); ("next_offset", next)] "items"; items ← as_list items;
    indexed ← index_items ix items k;
    next_offset ← getitem [("items", PList ((λ x, PDict (_vehicle_response x)) <$>
      take 100 (drop k rows))); ("next_offset", next)] "next_offset";
    match next_offset with
    | PNone => mret (Some indexed)
    | next_offset => offset ← as_int next_offset; backfill_pages ix listing fuel token offset indexed
    end) st =
  (indexed ← index_items ix ((λ x, PDict (_vehicle_response x)) <$> take 100 (drop k rows)) k;
   match next with
    | PNone => mret (Some indexed)
    | next_offset => offset ← as_int next_offset; backfill_pages ix listing fuel token offset indexed
    end) st) as Hbody by done.
rewrite Hbody, run_bind, Hitems. clear Hbody. case_decide as Hn; unfold PAGE_SIZE in Hn.
- cbn [as_int]. rewrite run_bind, run_ret, Nat.min_l by lia.
  replace (Z.of_nat k + PAGE_SIZE)%Z with (Z.of_nat (k + 100)) by (unfold PAGE_SIZE; lia).
  destruct (IH (k + 100) (with_world e1 s)) as (e2 & Hr & Hd2); [lia..|].
  exists e2. split; [exact Hr|]. rewrite Hd2. cbn [world with_world]. rewrite Hd1.
  unfold indexed. rewrite <- foldl_app, <- (drop_drop rows 100 k), take_drop. done.
- exists e1. rewrite Nat.min_r by lia.
  split; [rewrite run_ret; repeat f_equal; lia|].
  rewrite Hd1, take_ge; [done|]. rewrite length_drop. lia.
Qed.
End backfill.

(** The token the backfill mints opens the listing endpoint. *)
Lemma listing_api_page {W} `{!Platform} `{!JwtLaws} cfg (s : session ListingDB W) uid t0 limit offset :
  (t0 ≤ clock (senv s) < t0 + 300)%Z → (0 ≤ limit < 2 ^ 62)%Z → (0 ≤ offset < 2 ^ 62)%Z →
  listing_api cfg s (jwt_encode (token_claims uid "admin" "access" (jwt_issuer cfg) t0 300) (jwt_secret cfg))
    limit offset =
  Ok (200%Z, page_response _vehicle_response
     (limit_offset (limit + 1) offset (rows_with_status "approved" (work s))) limit offset).
Proof.
  intros Ht Hl Ho. unfold listing_api. rewrite run_bind. cbn [now gets].
  set (token := jwt_encode _ _).
  set (claims := token_claims uid "admin" "access" (jwt_issuer cfg) t0 300).
  assert (claims_dependency cfg "access" (clock (senv s)) (Some ("Bearer " +:+ token)) s = (Ok claims, s))
    as Hd.
  { unfold claims_dependency. rewrite run_bind, bearer_token_run, run_bind.
    unfold try_except, decode_token, token.
    rewrite (jwt_decode_encode _ _ _ _ t0 (t0 + 300)) by (apply token_claims_json || done). by rewrite decide_True by done. }
  rewrite run_bind, Hd. pose proof (fetch_page_eq claims limit offset s eq_refl Hl Ho) as Hf.
  unfold fetch_page in Hf. destruct (list_vehicles_handler claims _ _ _ s) as [[d|x] s1]; [|done].
  by injection Hf as ->.
Qed.

(** Indexing a list touches the keys of its vehicles only. *)
Lemma indexed_other ix vs m k :
  (∀ v, v ∈ vs → k ≠ (ix, str_uuid (vh_id v))) → indexed ix vs m !! k = m !! k.
Proof.
  revert m. induction vs as [|w vs IH]; intros m Hk; [done|].
  change (indexed ix (w :: vs) m) with (indexed ix vs (apply_vehicle ix w m)). rewrite IH.
  - assert (k ≠ (ix, str_uuid (vh_id w))) by (apply Hk; by left). unfold apply_vehicle.
    case_decide; [by rewrite lookup_insert_ne | by rewrite lookup_delete_ne].
  - intros v Hv. apply Hk. by right.
Qed.

Lemma indexed_in ix vs m v :
  NoDup (vh_id <$> vs) → v ∈ vs → indexed ix vs m !! (ix, str_uuid (vh_id v)) = approved_document v.
Proof.
  revert m. induction vs as [|w vs IH]; intros m; [by intros _ Hv%not_elem_of_nil|].
  rewrite fmap_cons. intros [Hw Hnd]%NoDup_cons.
  change (indexed ix (w :: vs) m) with (indexed ix vs (apply_vehicle ix w m)).
  intros [->|Hv]%elem_of_cons; [|by apply IH].
  rewrite indexed_other; [by rewrite apply_vehicle_lookup, decide_True|].
  intros v' Hv' [_ Heq%str_uuid_inj]%pair_eq. apply Hw. rewrite Heq. by apply list_elem_of_fmap_2.
Qed.

(** The listed vehicles, by identifier. *)
Lemma approved_rows db i v :
  lwf db → vehicles db !! i = Some v → vh_approval_status v = "approved" →
  v ∈ rows_with_status "approved" db.
Proof.
  intros Hwf Hv Ha. rewrite (proj1 (rows_with_status_spec "approved" db)).
  apply list_elem_of_filter. split; [done|]. apply list_elem_of_fmap.
  exists (i, v). split; [done|]. by apply elem_of_map_to_list.
Qed.

Lemma approved_rows_inv db v :
  lwf db → v ∈ rows_with_status "approved" db →
  vehicles db !! vh_id v = Some v ∧ vh_approval_status v = "approved".
Proof.
  intros Hwf. rewrite (proj1 (rows_with_status_spec "approved" db)).
  intros [Ha ([i x] & -> & Hin)%list_elem_of_fmap]%list_elem_of_filter.
  apply elem_of_map_to_list in Hin. cbn [snd] in *. by rewrite (lwf_id _ Hwf _ _ Hin).
Qed.

Lemma approved_rows_NoDup db : lwf db → NoDup (vh_id <$> rows_with_status "approved" db).
Proof.
  intros Hwf. rewrite (proj1 (rows_with_status_spec "approved" db)).
  assert ((map_to_list (vehicles db)).*1 = vh_id <$> (map_to_list (vehicles db)).*2) as Hids.
  { rewrite <- list_fmap_compose. apply list_fmap_ext. intros j [i v] Hj. simpl.
    apply list_elem_of_lookup_2, elem_of_map_to_list in Hj. symmetry. by apply (lwf_id _ Hwf). }
  pose proof (NoDup_fst_map_to_list (vehicles db)) as Hnd. rewrite Hids in Hnd.
  eapply sublist_NoDup; [exact Hnd|]. apply fmap_sublist, sublist_filter.
Qed.

(** ** A backfill that is interrupted *)
Section interrupted.
Context {E : Type} `{!Elasticsearch E} `{!ElasticsearchLaws E} `{!ElasticsearchFailures E} `{!Platform}.
Variable ix : string.
Variable listed : Vehicle → Prop.   (* the rows the listing service has shown *)

(** What became of the index: a document is as it was, or that of a listed row. *)
Definition filled (s s' : session unit E) : Prop :=
∀ k, docs (world s') !! k = docs (world s) !! k ∨
  ∃ v, listed v ∧ k = (ix, str_uuid (vh_id v)) ∧ docs (world s') !! k = Some (vehicle_document v).
#[global] Instance filled_preorder : PreOrder filled.
Proof.
split; [by left|]. intros s1 s2 s3 H1 H2 k. destruct (H2 k) as [->|?]; [apply H1|by right].
Qed.

(** An answer that is no failure is a page of listed rows, approved ones. *)
Definition shows (listing : list_http) : Prop :=
∀ token offset status body, listing token PAGE_SIZE offset = Ok (status, body) → (200 ≤ status < 300)%Z →
  ∃ vs, dict_get body "items" = Some (PList ((λ v, PDict (_vehicle_response v)) <$> vs)) ∧
    Forall (λ v, listed v ∧ vh_approval_status v = "approved") vs.

Lemma filled_event v :
listed v → vh_approval_status v = "approved" →
moves filled (call (handle_vehicle_event ix (_vehicle_snapshot v))).
Proof.
intros Hv Ha s. unfold call. destruct (handle_vehicle_event ix _ (world s)) as [r e'] eqn:Eh.
pose proof (handle_vehicle_event_any ix v (world s) r e' Eh) as Hd. intros k. cbn [snd world with_world].
destruct Hd as [->| ->]; [by left|]. unfold apply_vehicle. rewrite decide_True by done.
destruct (decide (k = (ix, str_uuid (vh_id v)))) as [->|]; [right|left; by rewrite lookup_insert_ne].
exists v. by rewrite lookup_insert_eq.
Qed.

Lemma filled_items vs n :
Forall (λ v, listed v ∧ vh_approval_status v = "approved") vs →
moves filled (index_items ix ((λ v, PDict (_vehicle_response v)) <$> vs) n).
Proof.
intros Hvs. revert n. induction Hvs as [|v vs [Hv Ha] _ IH]; intros n; [by intros s|].
cbn [index_items fmap list_fmap as_dict]. intros s. rewrite run_bind, run_ret, run_bind, event_data_run.
apply (moves_bind filled); [by apply filled_event|]. intros _. apply IH.
Qed.

Lemma filled_pages listing fuel token offset n :
shows listing → moves filled (backfill_pages ix listing fuel token offset n).
Proof.
intros Hl. revert offset n. induction fuel as [|fuel IH]; intros offset n; [by intros s|].
cbn [backfill_pages]. destruct (listing token PAGE_SIZE offset) as [[status body]|x] eqn:El; [|by intros s].
intros s. rewrite run_bind, run_ret. case_decide as Hst; [by intros k; left|].
destruct (Hl _ _ _ _ El Hst) as (vs & Hi & Hvs).
assert (getitem body "items" s = (Ok (PList ((λ v, PDict (_vehicle_response v)) <$> vs)), s)) as Hg
  by (unfold getitem; by rewrite Hi).
rewrite run_bind, Hg, run_bind. cbn [as_list mret M_ret].
apply (moves_bind filled); [by apply filled_items|]. intros m. moves.
Qed.
End interrupted.

(** A backfill that fails half-way does no harm.  Whatever the listing
    service and Elasticsearch do (a listing answer that is no failure being a
    page of approved rows), and whether it ends, raises or is stopped, every
    document of the index afterwards is the one that was there or that of a
    row the listing service showed: so running it again, as
    [backfill_complete] has it, completes it. *)
Theorem backfill_interrupted {E : Type} `{!Elasticsearch E} `{!ElasticsearchLaws E}
    `{!ElasticsearchFailures E} `{!Platform} (ix : string) (listed : Vehicle → Prop) (listing : list_http)
    (cfg : jwt_settings) (fuel : nat) (s : session unit E) :
  shows listed listing → filled ix listed s (run_backfill ix listing fuel cfg s).2.
Proof.
  intros Hl. revert s. change (moves (filled ix listed) (run_backfill ix listing fuel cfg)).
  unfold run_backfill. apply moves_bind; [apply _| |intros _; apply moves_bind; [apply _| |intros u]].
  - intros s k. left. unfold call, ensure_index. rewrite run_bind.
    destruct (es_indices_exists ix (world s)) as [[[]|x] e2] eqn:Ex; apply es_exists_docs in Ex;
      [by cbn; rewrite Ex| |by cbn; rewrite Ex].
    destruct (es_indices_create ix _ e2) as [r e3] eqn:Ec. apply es_create_docs in Ec. cbn. by rewrite Ec, Ex.
  - intros s k. by left.
  - apply moves_bind; [apply _|intros s k; by left|]. intros token. by apply filled_pages.
Qed.

(** C37: while Elasticsearch answers, the backfill ends, with one unit of fuel
    per vehicle more than enough pages; it reports the number of approved
    vehicles, and every one of them is in the index with its current data,
    the other documents as they were. *)
Theorem backfill_complete {W E : Type} `{!Platform} `{!JwtLaws} `{!Elasticsearch E}
    `{!ElasticsearchLaws E} (ix : string) (cfg : jwt_settings) (sl : session ListingDB W)
    (s : session unit E) :
  (∀ i d e, ∃ e', es_index ix i d e = (Ok tt, e')) →
  (∀ e, ∃ e', ensure_index ix e = (Ok tt, e')) →
  listing_reachable W (work sl) → (Z.of_nat (size (vehicles (work sl))) < 2 ^ 62)%Z →
  (clock (senv s) ≤ clock (senv sl) < clock (senv s) + 300)%Z →
  let rows := rows_with_status "approved" (work sl) in
  ∃ s', run_backfill ix (listing_api cfg sl) (S (length rows)) cfg s = (Ok (Some (length rows)), s') ∧
    (∀ i v, vehicles (work sl) !! i = Some v → vh_approval_status v = "approved" →
       docs (world s') !! (ix, str_uuid i) = Some (vehicle_document v)) ∧
    (∀ k, (∀ i v, vehicles (work sl) !! i = Some v → vh_approval_status v = "approved" →
       k ≠ (ix, str_uuid i)) → docs (world s') !! k = docs (world s) !! k).
Proof.
  intros Hup Hens Hwf%reachable_lwf Hsize Hclock rows.
  destruct (Hens (world s)) as [e1 He1].
  assert (docs e1 = docs (world s)) as Hd1.
  { revert He1. unfold ensure_index. rewrite run_bind.
    destruct (es_indices_exists ix (world s)) as [[b|x] e2] eqn:Ex; [|done].
    apply es_exists_docs in Ex. destruct b; [by intros [= <-]|].
    intros Hc%es_create_docs. congruence. }
  set (t0 := clock (senv s)) in *.
  set (token := jwt_encode (token_claims (fresh (senv s) 0) "admin" "access" (jwt_issuer cfg) t0 300)
    (jwt_secret cfg)).
  set (s1 := mk_session (committed s) (work s) e1 (shift_env (senv s))).
  pose proof (rows_with_status_length "approved" (work sl)) as Hlen. fold rows in Hlen.
  assert (Forall (λ v, vh_approval_status v = "approved") rows) as Happ.
  { apply Forall_forall. intros v Hv. by apply (approved_rows_inv _ _ Hwf). }
  destruct (backfill_pages_run ix Hup (listing_api cfg sl) token rows Happ) with
    (fuel := S (length rows)) (k := 0) (s := s1) as (e' & Hr & Hd); [|lia|lia|].
  { intros offset Hoff. apply listing_api_page; [done|done|lia]. }
  change (world s1) with e1 in Hd. exists (with_world e' s1). split; [|split].
  - unfold run_backfill. rewrite run_bind. unfold call at 1. rewrite He1.
    rewrite run_bind. cbn [uuid4]. rewrite run_bind. exact Hr.
  - intros i v Hv Ha. cbn [world with_world]. rewrite Hd, drop_0, <- (lwf_id _ Hwf _ _ Hv).
    rewrite indexed_in; [unfold approved_document; by rewrite decide_True| |].
    + by apply approved_rows_NoDup.
    + by eapply approved_rows.
  - intros k Hk. cbn [world with_world]. rewrite Hd, drop_0, indexed_other; [by rewrite Hd1|].
    intros v Hv. apply (approved_rows_inv _ _ Hwf) in Hv as [Hv Ha]. by eapply Hk.
Qed.
