(* ===== verification/SearchQuery.v ===== *)
(** * SearchQuery: what a search returns

    [ElasticsearchQueryLaws] states the documented meaning of the clauses the
    repository builds (match_all, bool/filter, term, range, sort by a field)
    and of paging; distance clauses stay uninterpreted.  [search_exact]: the
    documents returned are the page asked for of the documents that satisfy
    every criterion given, in the order asked for. *)
From S2P Require Import Prelude Python Effects Redis Json Pagination Listing ListingFacts.
From S2P Require Import Search SearchFacts.

(** The documents of an index. *)
Definition index_docs (ix : string) (m : gmap (string * string) dict) : list dict :=
  (map_to_list (filter (λ p, p.1.1 = ix) m)).*2.

(** A range clause's bounds. *)
Definition in_range (r : dict) (z : Z) : bool :=
  match dict_get r "gte" with Some (PInt lo) => bool_decide (lo ≤ z)%Z | _ => true end &&
  match dict_get r "lte" with Some (PInt hi) => bool_decide (z ≤ hi)%Z | _ => true end.

Class ElasticsearchQueryLaws (E : Type) `{!Elasticsearch E} `{!ElasticsearchLaws E} := {
  es_matches : dict → dict → bool;
  es_order : list dict → dict → dict → Prop;
  es_search_Ok ix q sort from size e r e' : es_search ix q sort from size e = (Ok r, e') →
    ∃ rows, rows ≡ₚ filter (λ d, es_matches q d = true) (index_docs ix (docs e)) ∧
      StronglySorted (es_order sort) rows ∧
      ∀ S (s : S), hits_of r s = (Ok (limit_offset size from rows), s);
  es_search_NotFound ix q sort from size e e' :
    es_search ix q sort from size e = (Err NotFoundError, e') → index_docs ix (docs e) = [];
  matches_all d : es_matches [("match_all", PDict [])] d = true;
  matches_filter fs d :
    es_matches [("bool", PDict [("filter", PList (PDict <$> fs))])] d = forallb (λ q, es_matches q d) fs;
  matches_term f v d : es_matches [("term", PDict [(f, PStr v)])] d = get_is d f v;
  matches_range f r z d : dict_get d f = Some (PInt z) →
    es_matches [("range", PDict [(f, PDict r)])] d = in_range r z;
  order_asc f a b x y : es_order [[(f, PStr "asc")]] a b →
    dict_get a f = Some (PInt x) → dict_get b f = Some (PInt y) → (x ≤ y)%Z;
  order_desc f a b x y : es_order [[(f, PStr "desc")]] a b →
    dict_get a f = Some (PInt x) → dict_get b f = Some (PInt y) → (y ≤ x)%Z;
}.

(** ** What was asked for *)
Definition price_of (d : dict) : Z :=
  match dict_get d "daily_price_cents" with Some (PInt z) => z | _ => 0%Z end.

Definition priced (d : dict) : Prop := dict_get d "daily_price_cents" = Some (PInt (price_of d)).

Section query.
Context {E : Type} `{!Elasticsearch E} `{!ElasticsearchLaws E} `{!ElasticsearchQueryLaws E}.
Context `{!FloatText}.

(** Within the radius, when a point and a radius were given. *)
Definition near (p : search_params) (d : dict) : bool :=
match sp_lat p, sp_lon p, sp_radius_km p with
| Some _, Some _, Some radius_km =>
    es_matches [("geo_distance", PDict [("distance", PStr (float_repr radius_km +:+ "km"));
                                        ("location", point p)])] d
| _, _, _ => true
end.

Definition wanted (p : search_params) (d : dict) : bool :=
opt_ok (get_is d "make") (sp_make p) && opt_ok (get_is d "booking_mode") (sp_booking_mode p)
&& opt_ok (λ lo, bool_decide (lo ≤ price_of d)%Z) (sp_min_price_cents p)
&& opt_ok (λ hi, bool_decide (price_of d ≤ hi)%Z) (sp_max_price_cents p)
&& near p d.

Definition in_order (p : search_params) (a b : dict) : Prop :=
if decide (sp_sort p = "distance") then True
else if decide (sp_sort p = "price_desc") then (price_of b ≤ price_of a)%Z
else (price_of a ≤ price_of b)%Z.

(** The query built is the criteria asked for. *)
Lemma range_matches p d : priced d →
forallb (λ q, es_matches q d)
  (match price_range p with
   | [] => []
   | r => [[("range", PDict [("daily_price_cents", PDict r)])]]
   end) =
opt_ok (λ lo, bool_decide (lo ≤ price_of d)%Z) (sp_min_price_cents p)
&& opt_ok (λ hi, bool_decide (price_of d ≤ hi)%Z) (sp_max_price_cents p).
Proof.
intros Hd. unfold price_range.
destruct (sp_min_price_cents p), (sp_max_price_cents p); simpl;
  try rewrite (matches_range _ _ _ _ Hd); unfold in_range; simpl; by rewrite ?andb_true_r.
Qed.

Lemma near_matches p d :
forallb (λ q, es_matches q d)
  (match sp_lat p, sp_lon p, sp_radius_km p with
   | Some _, Some _, Some radius_km =>
       [[("geo_distance", PDict [("distance", PStr (float_repr radius_km +:+ "km"));
                                 ("location", point p)])]]
   | _, _, _ => []
   end) = near p d.
Proof.
unfold near. destruct (sp_lat p), (sp_lon p), (sp_radius_km p); simpl; by rewrite ?andb_true_r.
Qed.

Lemma clause_matches {A} (o : option A) f (ok : A → bool) d :
(∀ a, es_matches (f a) d = ok a) →
forallb (λ q, es_matches q d) (clause o f) = opt_ok ok o.
Proof. intros Hok. destruct o; simpl; [by rewrite Hok, andb_true_r | done]. Qed.

Lemma filters_match p d : priced d → forallb (λ q, es_matches q d) (filters p) = wanted p d.
Proof.
intros Hd. unfold filters, wanted. rewrite !forallb_app, range_matches, near_matches by done.
rewrite (clause_matches _ _ (get_is d "make")), (clause_matches _ _ (get_is d "booking_mode"))
  by (intros; apply matches_term).
by rewrite !andb_assoc.
Qed.

Lemma query_matches p d : priced d → es_matches (query_of p) d = wanted p d.
Proof.
intros Hd. unfold query_of. pose proof (filters_match p d Hd) as Hf.
destruct (filters p) as [|f fs]; [|by rewrite matches_filter]. by rewrite matches_all, <- Hf.
Qed.

Lemma order_meant p a b : priced a → priced b → es_order (sort_clause p) a b → in_order p a b.
Proof.
intros Ha Hb. unfold sort_clause, in_order. case_decide; [done|]. case_decide; intros Ho.
- by apply (order_desc _ _ _ _ _ Ho).
- by apply (order_asc _ _ _ _ _ Ho).
Qed.

Lemma sorted_meant p rows :
Forall priced rows → StronglySorted (es_order (sort_clause p)) rows →
StronglySorted (in_order p) rows.
Proof.
intros Hp Hs. induction Hs as [|a rows _ IH Ha]; [constructor|].
apply Forall_cons_1 in Hp as [Hpa Hp]. constructor; [by apply IH|].
apply Forall_forall. intros b Hb. rewrite Forall_forall in Hp, Ha.
apply order_meant; [done|by apply Hp|by apply Ha].
Qed.

(** Every document of the vehicles index has a price. *)
Lemma is_index_priced ix vs m : is_index ix vs m → Forall priced (index_docs ix m).
Proof.
intros [Hi Hk]. apply Forall_forall. unfold index_docs.
intros d ([[ix' k] d'] & -> & Hin)%list_elem_of_fmap.
apply elem_of_map_to_list, map_lookup_filter_Some in Hin as [Hd Hix]. cbn [fst snd] in *. subst.
destruct (Hk k) as [i ->]; [by exists d'|]. rewrite Hi in Hd.
apply bind_Some in Hd as (v & _ & Hv). unfold approved_document in Hv. case_decide; [|done].
apply (inj Some) in Hv as <-. done.
Qed.

Lemma repo_search_Ok ix p e ds e' :
Forall priced (index_docs ix (docs e)) → repo_search ix p e = (Ok ds, e') →
docs e' = docs e ∧ ∃ rows, rows ≡ₚ filter (λ d, wanted p d = true) (index_docs ix (docs e)) ∧
  StronglySorted (in_order p) rows ∧ ds = limit_offset (sp_limit p) (sp_offset p) rows.
Proof.
intros Hp. unfold repo_search. rewrite bind_Ok. intros (o & e1 & Ho & Hr).
assert (filter (λ d, es_matches (query_of p) d = true) (index_docs ix (docs e)) =
  filter (λ d, wanted p d = true) (index_docs ix (docs e))) as Hfilter.
{ revert Hp. generalize (index_docs ix (docs e)) as l. induction l as [|d l IH]; [done|].
  intros [Hd Hl]%Forall_cons_1. rewrite !filter_cons, IH by done.
  by rewrite (query_matches p d Hd). }
apply try_except_Ok in Ho as [Hs|(x & e2 & k & Hs & Hk & Ho)].
- apply bind_Ok in Hs as (r & e2 & Hs & [= <- <-]).
  pose proof (es_search_docs _ _ _ _ _ _ _ _ Hs) as Hd.
  apply es_search_Ok in Hs as (rows & Hrows & Hsort & Hhits).
  rewrite Hhits in Hr. injection Hr as <- <-. split; [done|].
  exists rows. rewrite Hfilter in Hrows. split; [done|]. split; [|done].
  apply sorted_meant; [|done]. rewrite Hrows. apply Forall_forall.
  rewrite Forall_forall in Hp. intros d [_ Hd']%list_elem_of_filter. by apply Hp.
- destruct x; simplify_eq. injection Ho as <- <-.
  rewrite run_bind in Hs. destruct (es_search _ _ _ _ _ e) as [[r|x] e3] eqn:Es; [done|].
  injection Hs as -> ->. pose proof (es_search_docs _ _ _ _ _ _ _ _ Es) as Hd.
  apply es_search_NotFound in Es. injection Hr as <- <-. split; [done|].
  exists []. rewrite Es. split; [done|]. split; [constructor|]. unfold limit_offset. by rewrite drop_nil, take_nil.
Qed.
End query.

