(* ===== verification/SearchCache.v ===== *)
(** * SearchCache: the cache of search responses, and the search endpoint

    The cache key is the SHA-256 of the JSON text of the parameters, sorted
    by name: two searches share a key only when they ask for the same thing
    (or SHA-256 collides), so a cached answer is an earlier answer to the
    same search.  A search leaves the consumer's claims alone. *)
From S2P Require Import Prelude Python Effects Redis Json JsonFacts Auth JwtAuth Http.
From S2P Require Import Idempotency.
From S2P Require Import Listing ListingFacts Search SearchApp SearchFacts.

(** The floats of a query are doubles. *)
Definition params_floats (p : search_params) : Prop :=
  let float_ok o := match o with Some f => json_ok (PFloat f) | None => True end in
  float_ok (sp_lat p) ∧ float_ok (sp_lon p) ∧ float_ok (sp_radius_km p).

Lemma sort_keys_search p :
  sort_keys (search_dict p) =
  [("booking_mode", opt_str (sp_booking_mode p)); ("lat", opt_float (sp_lat p));
   ("limit", PInt (sp_limit p)); ("lon", opt_float (sp_lon p)); ("make", opt_str (sp_make p));
   ("max_price_cents", opt_int (sp_max_price_cents p));
   ("min_price_cents", opt_int (sp_min_price_cents p)); ("offset", PInt (sp_offset p));
   ("radius_km", opt_float (sp_radius_km p)); ("sort", PStr (sp_sort p))].
Proof. reflexivity. Qed.

#[export] Instance opt_int_inj : Inj (=) (=) opt_int.
Proof. intros [x|] [y|]; simpl; congruence. Qed.
#[export] Instance opt_str_inj : Inj (=) (=) opt_str.
Proof. intros [x|] [y|]; simpl; congruence. Qed.
#[export] Instance opt_float_inj : Inj (=) (=) opt_float.
Proof. intros [x|] [y|]; simpl; congruence. Qed.

Lemma search_dict_ok p : params_floats p → json_ok (PDict (sort_keys (search_dict p))).
Proof.
  intros (H1 & H2 & H3). rewrite sort_keys_search. cbn [json_ok foldr snd]. split.
  - cbn [fmap list_fmap fst]. by apply (bool_decide_eq_true_1 _).
  - split_and!; try done; [by destruct (sp_booking_mode p)|by destruct (sp_lat p)
      |by destruct (sp_lon p)|by destruct (sp_make p)|by destruct (sp_max_price_cents p)
      |by destruct (sp_min_price_cents p)|by destruct (sp_radius_km p)].
Qed.

Lemma search_dict_inj p q : sort_keys (search_dict p) = sort_keys (search_dict q) → p = q.
Proof.
  rewrite !sort_keys_search. destruct p, q. simpl. intros Heq.
  injection Heq as ?%(inj _) ?%(inj _) ? ?%(inj _) ?%(inj _) ?%(inj _) ?%(inj _) ? ?%(inj _) ?.
  congruence.
Qed.

Section cache.
Context {E R : Type} `{!Elasticsearch E} `{!Redis R} `{!FloatText} `{!Platform} `{!SearchJson}.

(** Two different texts with one SHA-256. *)
Definition sha256_collision : Prop :=
∃ a b : string, a ≠ b ∧ sha256_hexdigest a = sha256_hexdigest b.

Lemma cache_key_text p q :
_cache_key p = _cache_key q →
json_dumps (PDict (sort_keys (search_dict p))) = json_dumps (PDict (sort_keys (search_dict q))) ∨
sha256_collision.
Proof.
intros Heq%(inj (String.append "search-query:")).
destruct (decide (json_dumps (PDict (sort_keys (search_dict p))) =
                  json_dumps (PDict (sort_keys (search_dict q))))); [by left|right].
by eexists _, _.
Qed.

Context `{!ElasticsearchLaws E} `{!RedisLaws R}.

Lemma on_redis_Ok {A} (m : M R A) (e : E) r a st :
on_redis m (e, r) = (Ok a, st) → ∃ r', m r = (Ok a, r') ∧ st = (e, r').
Proof. unfold on_redis. destruct (m r) as [x r']. intros [= -> <-]. eauto. Qed.

(** A search without a cached answer stores the one it gives. *)
Lemma search_miss ix ttl p e r resp e' r' :
keys r !! _cache_key p = None → search ix ttl p (e, r) = (Ok resp, (e', r')) →
keys r' = <[_cache_key p := model_dump_json resp]> (keys r).
Proof.
intros Hmiss. unfold search. rewrite bind_Ok.
intros (cached & st & (r1 & [-> Hk1]%redis_get_Ok & ->)%on_redis_Ok & Hr). rewrite Hmiss in Hr.
apply bind_Ok in Hr as (ds & [e2 r2] & Hds & Hr).
assert (r2 = r1) as ->.
{ apply try_except_Ok in Hds as [Hs|(x & st & k & _ & Hk & Hr')].
  - unfold on_es in Hs. destruct (search_vehicles ix p e). by injection Hs.
  - by destruct x; simplify_eq. }
apply bind_Ok in Hr as (items & [e3 r3] & Hit & Hr).
assert (r3 = r1) as ->.
{ revert items e2 Hit Hr Hds. clear. intros items e2 Hit _ _.
  assert (∀ ds items st st', mapM (M := M (E * R)) document_to_result ds st = (Ok items, st') → st' = st)
    as Hro.
  { clear. induction ds as [|d ds IH]; intros items st st'; [by intros [= _ <-]|].
    cbn [mapM]. rewrite bind_Ok. intros (x & s1 & Hx & Hr).
    apply bind_Ok in Hr as (y & s2 & Hy%IH & [= _ <-]). subst s2.
    assert (read_only (S := E * R) (document_to_result d)) as Hro.
    { unfold document_to_result, str_value, int_value, float_value, as_dict. read_only. }
    specialize (Hro st). by rewrite Hx in Hro. }
  apply Hro in Hit. by injection Hit. }
apply bind_Ok in Hr as ([] & st & (r4 & Hset%redis_set_Ok & ->)%on_redis_Ok & [= <- <- <-]).
by rewrite Hset, Hk1.
Qed.

Lemma search_hit ix ttl p e r text resp :
keys r !! _cache_key p = Some text → model_validate_json text = Some resp →
∀ resp' st, search ix ttl p (e, r) = (Ok resp', st) → resp' = resp ∧ st.1 = e ∧ keys st.2 = keys r.
Proof.
intros Hhit Hv resp' st. unfold search. rewrite bind_Ok.
intros (cached & st1 & (r1 & [-> Hk1]%redis_get_Ok & ->)%on_redis_Ok & Hr).
rewrite Hhit, Hv in Hr. by injection Hr as <- <-.
Qed.
End cache.

(** A cached answer is an earlier answer to the same search: while the
    entry a search left is there, a search that finds it gets the same
    response without reading the index, and it asked for the same
    parameters unless SHA-256 collides. *)
Theorem cached_answer_same_query {E R : Type} `{!Elasticsearch E} `{!Redis R} `{!FloatText}
    `{!FloatLaws} `{!Platform} `{!SearchJson} `{!RedisLaws R} (ix : string) (ttl : Z)
    (p q : search_params) (e e1 e2 : E) (r r1 r2 : R) (resp resp' : dict) (st : E * R) :
  params_floats p → params_floats q →
  model_validate_json (model_dump_json resp) = Some resp →
  keys r !! _cache_key p = None → search ix ttl p (e, r) = (Ok resp, (e1, r1)) →
  keys r2 !! _cache_key p = keys r1 !! _cache_key p → _cache_key q = _cache_key p →
  search ix ttl q (e2, r2) = (Ok resp', st) →
  resp' = resp ∧ st.1 = e2 ∧ (q = p ∨ sha256_collision).
Proof.
  intros Hp Hq Hjson Hmiss Hfirst Hkept Hkey Hsecond.
  apply search_miss in Hfirst; [|done]. rewrite Hfirst, lookup_insert_eq, <- Hkey in Hkept.
  destruct (search_hit _ _ _ _ _ _ _ Hkept Hjson _ _ Hsecond) as (-> & Hst & _).
  split; [done|]. split; [done|].
  destruct (cache_key_text q p Hkey) as [Htext|?]; [left|by right].
  apply json_dumps_inj in Htext; [|by apply search_dict_ok..].
  assert (∀ a b, PDict a = PDict b → a = b) as Hd by (by intros a b [= ->]).
  by apply Hd, search_dict_inj in Htext.
Qed.
