(* ===== verification/Telemetry.v ===== *)
(** * Telemetry: services/telemetry (schemas, ingest, consumer, repository, routes, app)

    Devices stream packets over a websocket; the ingest overrides the speed
    of a vehicle under the kill switch and publishes to Kafka; the consumer
    writes batches to Mongo and the latest position of each vehicle to Redis,
    where the location endpoint reads it.

    Kafka is the list of records of the raw topic, Mongo the list of
    documents of the packets collection (both append-only for this code). *)
From S2P Require Import Prelude Python Effects Redis Json JwtAuth Http Idempotency Listing.

(** ** schemas.py: [recorded_at] is kept as its [isoformat()] *)
Record TelemetryPacket := mk_packet {
  tp_lat : spec_float;
  tp_lng : spec_float;
  tp_speed_kph : spec_float;
  tp_recorded_at : string;
}.

(** The [Field] constraints. *)
Definition packet_ok (p : TelemetryPacket) : bool :=
  latitude_ok (tp_lat p) && longitude_ok (tp_lng p) && float_in 0 400 (tp_speed_kph p).

(** pydantic: the fields of a JSON text when they have their types, and the
    text of the ValidationError. *)
Class PacketJson := {
  packet_fields : string → option TelemetryPacket;
  packet_error : string → string;
}.

(** ** ingest.py *)
Definition parse_packet {S} `{!PacketJson} (raw : string) : M S TelemetryPacket :=
  match packet_fields raw with
  | Some p => if packet_ok p then mret p else raise (InvalidPacketError (packet_error raw))
  | None => raise (InvalidPacketError (packet_error raw))
  end.

Definition float_zero : spec_float := S754_zero false.

Definition apply_kill_switch (packet : TelemetryPacket) (active : bool) : TelemetryPacket :=
  if active
  then mk_packet (tp_lat packet) (tp_lng packet) float_zero (tp_recorded_at packet)
  else packet.

Definition packet_message (vehicle_id : string) (packet : TelemetryPacket) : dict :=
  [("vehicle_id", PStr vehicle_id); ("lat", PFloat (tp_lat packet)); ("lng", PFloat (tp_lng packet));
   ("speed_kph", PFloat (tp_speed_kph packet)); ("recorded_at", PStr (tp_recorded_at packet))].

(** A Kafka record: key and value. *)
Definition record : Type := string * string.

(** The state of an ingest connection: Redis, the topic, the frames sent
    back ([close(code)] included), and metrics.py: the counter
    TELEMETRY_PACKETS_INGESTED under the label of the service. *)
Inductive frame :=
| FrameOk
| FrameRejected (detail : string)
| FrameClose (code : Z).

Record ingest_state (R : Type) := mk_ingest {
  in_redis : R;
  in_topic : list record;
  in_sent : list frame;
  in_ingested : nat;
}.
Arguments mk_ingest {R}.
Arguments in_redis {R}.
Arguments in_topic {R}.
Arguments in_sent {R}.
Arguments in_ingested {R}.

Section ingest.
Context {R : Type} `{!Redis R} `{!FloatText} `{!PacketJson} `{!Platform}.
Notation Mi := (M (ingest_state R)).

(** [send_and_wait] to the raw topic. *)
Definition publish_packet (vehicle_id : string) (packet : TelemetryPacket) : Mi unit :=
modify (λ s, mk_ingest (in_redis s)
(in_topic s ++ [(vehicle_id, json_dumps (PDict (packet_message vehicle_id packet)))]) (in_sent s) (in_ingested s)).

Definition send_frame (f : frame) : Mi unit :=
modify (λ s, mk_ingest (in_redis s) (in_topic s) (in_sent s ++ [f]) (in_ingested s)).

(** [TELEMETRY_PACKETS_INGESTED.labels(service_name).inc()]. *)
Definition count_packet : Mi unit :=
modify (λ s, mk_ingest (in_redis s) (in_topic s) (in_sent s) (S (in_ingested s))).

Definition redis_call {A} (m : M R A) : Mi A := λ s,
let '(a, r) := m (in_redis s) in (a, mk_ingest r (in_topic s) (in_sent s) (in_ingested s)).

(** One text frame of the device. *)
Definition ingest_frame (vehicle_id raw : string) : Mi unit :=
packet ← try_except (p ← parse_packet raw; mret (Some p)) (λ e,
match e with
| InvalidPacketError detail => Some (send_frame (FrameRejected detail);; mret None)
| _ => None
end);
match packet with
| None => mret tt
| Some packet =>
  active ← redis_call (is_active vehicle_id);
  publish_packet vehicle_id (apply_kill_switch packet active);;
  count_packet;;
  send_frame FrameOk
end.

(** The frames received until the device disconnects. *)
Fixpoint ingest_frames (vehicle_id : string) (frames : list string) : Mi unit :=
match frames with
| [] => mret tt
| raw :: frames => ingest_frame vehicle_id raw;; ingest_frames vehicle_id frames
end.

(** ** app.py: the websocket endpoint.  Any valid token opens it. *)
Definition ingest (cfg : jwt_settings) (now : Z) (token vehicle_id : string) (frames : list string) :
Mi unit :=
opened ← try_except (decode_token cfg now token;; mret true) (λ e,
match e with
| InvalidTokenError => Some (send_frame (FrameClose 4401);; mret false)
| _ => None
end);
if (opened : bool) then ingest_frames vehicle_id frames else mret tt.
End ingest.

(** ** repository.py and consumer.py *)

(** [json.loads] in a computation. *)
Definition loads {S} `{!FloatText} (raw : string) : M S pyval :=
  match json_loads raw with Some v => mret v | None => raise ValueError end.

(** [packet["vehicle_id"]] of a decoded record. *)
Definition item {S} (v : pyval) (k : string) : M S pyval :=
  match v with PDict d => getitem d k | _ => raise TypeError end.

Definition location_key (vehicle_id : string) : string := "vehicle-location:" +:+ vehicle_id.

Record consumer_state (R : Type) := mk_consumer {
  co_mongo : list pyval;
  co_redis : R;
}.
Arguments mk_consumer {R}.
Arguments co_mongo {R}.
Arguments co_redis {R}.

Section consumer.
Context {R : Type} `{!Redis R} `{!FloatText}.
Notation Mc := (M (consumer_state R)).

Fixpoint build_batch_from (raw_records : list string) (documents : list pyval) (latest : dict) :
Mc (list pyval * dict) :=
match raw_records with
| [] => mret (documents, latest)
| raw :: raw_records =>
  packet ← loads raw;
  i ← item packet "vehicle_id"; vehicle_id ← as_str i;
  build_batch_from raw_records (documents ++ [packet]) (dict_set latest vehicle_id packet)
end.

Definition build_batch (raw_records : list string) : Mc (list pyval * dict) :=
build_batch_from raw_records [] [].

Definition write_batch (documents : list pyval) : Mc unit :=
match documents with
| [] => mret tt
| _ => modify (λ s, mk_consumer (co_mongo s ++ documents) (co_redis s))
end.

Definition on_redis {A} (m : M R A) : Mc A := λ s,
let '(a, r) := m (co_redis s) in (a, mk_consumer (co_mongo s) r).

Definition position (lat lng recorded_at : pyval) : dict :=
[("lat", lat); ("lng", lng); ("recorded_at", recorded_at)].

Definition write_latest_position (vehicle_id : string) (lat lng recorded_at : pyval) (ttl : Z) : Mc unit :=
on_redis (redis_set (location_key vehicle_id)
(json_dumps (PDict (position lat lng recorded_at))) (Some ttl)).

Fixpoint write_positions (latest : dict) (ttl : Z) : Mc unit :=
match latest with
| [] => mret tt
| (vehicle_id, packet) :: latest =>
  lat ← item packet "lat"; lng ← item packet "lng"; recorded_at ← item packet "recorded_at";
  write_latest_position vehicle_id lat lng recorded_at ttl;;
  write_positions latest ttl
end.

(** One turn of the loop, up to the commit of the offsets. *)
Definition consume_batch (ttl : Z) (raw_records : list string) : Mc unit :=
match raw_records with
| [] => mret tt
| _ =>
  '(documents, latest) ← build_batch raw_records;
  write_batch documents;;
  write_positions latest ttl
end.

(** The loop over what [getmany] returns, with the committed offset. *)
Fixpoint run_telemetry_consumer (ttl : Z) (batches : list (list string)) :
M (consumer_state R * nat) unit := λ '(s, off),
match batches with
| [] => (Ok tt, (s, off))
| batch :: batches =>
  match consume_batch ttl batch s with
  | (Ok _, s') => run_telemetry_consumer ttl batches (s', off + length batch)
  | (Err e, s') => (Err e, (s', off))
  end
end.

(** ** routes.py *)
Definition get_latest_position (vehicle_id : string) : Mc (option pyval) :=
raw ← on_redis (redis_get (location_key vehicle_id));
match raw with
| Some raw => v ← loads raw; mret (Some v)
| None => mret None
end.

(** [VehicleLocationResponse(vehicle_id=vehicle_id, **position)]. *)
Definition get_location (vehicle_id : string) : Mc dict :=
position ← get_latest_position vehicle_id;
match position with
| None => raise (HTTPException 404 "no recent location for this vehicle")
| Some (PDict d) =>
  lat ← getitem d "lat"; lng ← getitem d "lng"; recorded_at ← getitem d "recorded_at";
  mret [("vehicle_id", PStr vehicle_id); ("lat", lat); ("lng", lng); ("recorded_at", recorded_at)]
| Some _ => raise TypeError
end.
End consumer.
