(* ===== verification/TelemetryFacts.v ===== *)
(** * TelemetryFacts: what the ingest publishes and what the location endpoint answers

    [ingest_publishes]: every valid packet of a device is published, with
    speed zero while its vehicle is under the kill switch.  The consumer
    delivers at least once, batch by batch ([telemetry_delivery]); the
    location endpoint never answers with an older position than the last one
    consumed, and every consumed packet is in Mongo. *)
From S2P Require Import Prelude Python Effects Redis Json JsonFacts JwtAuth Http Idempotency.
From S2P Require Import Listing.
From S2P Require Import Telemetry.

(** ** The ingest *)
Section ingest.
Context {R : Type} `{!Redis R} `{!RedisLaws R} `{!FloatText} `{!PacketJson} `{!Platform}.
Implicit Types s : ingest_state R.

(** The packet of a frame that is accepted. *)
Definition accepted (raw : string) : option TelemetryPacket :=
p ← packet_fields raw; if packet_ok p then Some p else None.

Definition answer (raw : string) : frame :=
match accepted raw with Some _ => FrameOk | None => FrameRejected (packet_error raw) end.

(** The record published for [p] when the switch of the vehicle is [active]. *)
Definition published_record (vehicle_id : string) (active : bool) (p : TelemetryPacket) : record :=
(vehicle_id, json_dumps (PDict (packet_message vehicle_id (apply_kill_switch p active)))).

Lemma ingest_frame_Ok v raw s u s' :
ingest_frame v raw s = (Ok u, s') →
keys (in_redis s') = keys (in_redis s) ∧ in_sent s' = in_sent s ++ [answer raw] ∧
in_topic s' = in_topic s ++
(published_record v (bool_decide (killed (in_redis s) v)) <$> omap accepted [raw]) ∧
in_ingested s' = in_ingested s + length (omap accepted [raw]).
Proof.
unfold ingest_frame, answer. cbn [omap list_omap].
assert (try_except (p ← parse_packet raw; mret (Some p)) (λ e,
match e with
| InvalidPacketError detail => Some (send_frame (FrameRejected detail);; mret None)
| _ => None
end) s = match accepted raw with
         | Some p => (Ok (Some p), s)
         | None => (Ok None, mk_ingest (in_redis s) (in_topic s)
             (in_sent s ++ [FrameRejected (packet_error raw)]) (in_ingested s))
         end) as Hp.
{ unfold try_except, parse_packet, accepted. rewrite run_bind.
destruct (packet_fields raw) as [p|]; [|done]. cbn [mbind option_bind].
by destruct (packet_ok p). }
rewrite run_bind, Hp. destruct (accepted raw) as [p|].
- rewrite bind_Ok. intros (b & s1 & Ha & Hr).
unfold redis_call in Ha. destruct (is_active v (in_redis s)) as [[b'|x] r] eqn:E; [|done].
injection Ha as <- <-. apply is_active_Ok in E as [-> Hk].
injection Hr as _ <-. cbn [in_redis in_topic in_sent in_ingested fmap list_fmap length]. by rewrite Hk, Nat.add_1_r.
- intros [= _ <-]. cbn [in_redis in_topic in_sent in_ingested fmap list_fmap length]. by rewrite app_nil_r, Nat.add_0_r.
Qed.

Lemma ingest_frames_Ok v frames s u s' :
ingest_frames v frames s = (Ok u, s') →
in_topic s' = in_topic s ++
(published_record v (bool_decide (killed (in_redis s) v)) <$> omap accepted frames) ∧
in_sent s' = in_sent s ++ (answer <$> frames) ∧ keys (in_redis s') = keys (in_redis s) ∧
in_ingested s' = in_ingested s + length (omap accepted frames).
Proof.
revert s. induction frames as [|raw frames IH]; intros s.
{ intros [= _ <-]. cbn. by rewrite !app_nil_r, Nat.add_0_r. }
cbn [ingest_frames]. rewrite bind_Ok. intros ([] & s1 & (Hk & Hs & Ht & Hn)%ingest_frame_Ok & Hr).
apply IH in Hr as (Ht' & Hs' & Hk' & Hn').
assert (bool_decide (killed (in_redis s1) v) = bool_decide (killed (in_redis s) v)) as Hkill.
{ apply bool_decide_ext. unfold killed. by rewrite Hk. }
rewrite Ht', Ht, Hs', Hs, Hkill. split_and!; [|by rewrite <- app_assoc|congruence|].
2:{ rewrite Hn', Hn, <- Nat.add_assoc, <- length_app. by rewrite <- (omap_app accepted [raw]). }
rewrite <- app_assoc, <- fmap_app. by rewrite <- (omap_app accepted [raw]).
Qed.

(** A valid token opens the connection. *)
Lemma ingest_opened cfg t token v frames s c :
fst (decode_token cfg t token tt) = Ok c →
ingest cfg t token v frames s = ingest_frames v frames s.
Proof.
unfold ingest, try_except, decode_token. intros Hc. rewrite run_bind.
by destruct (jwt_decode _ _ _ _).
Qed.
End ingest.

(** A device with a valid token streams packets: of its frames exactly
    the valid ones are published, in order, under the vehicle's identifier,
    as reported or, when the kill switch of the vehicle is on, with speed
    zero, counted one by one, and every frame is answered.  Without a valid token the connection
    is closed and nothing is published. *)
Theorem ingest_publishes {R : Type} `{!Redis R} `{!RedisLaws R} `{!FloatText} `{!PacketJson}
    `{!Platform} (cfg : jwt_settings) (now : Z) (token v : string) (frames : list string)
    (s s' : ingest_state R) (u : unit) :
  ingest cfg now token v frames s = (Ok u, s') →
  match fst (decode_token cfg now token tt) with
  | Ok _ =>
      in_topic s' = in_topic s ++
        (published_record v (bool_decide (killed (in_redis s) v)) <$> omap accepted frames) ∧
      in_sent s' = in_sent s ++ (answer <$> frames) ∧
      in_ingested s' = in_ingested s + length (omap accepted frames)
  | Err _ => in_topic s' = in_topic s ∧ in_ingested s' = in_ingested s ∧ in_sent s' = in_sent s ++ [FrameClose 4401]
  end.
Proof.
  destruct (fst (decode_token cfg now token tt)) as [c|e] eqn:Hc.
  - rewrite (ingest_opened _ _ _ _ _ _ c) by done. by intros (Ht & Hs & _ & Hn)%ingest_frames_Ok.
  - revert Hc. unfold ingest, try_except, decode_token. rewrite run_bind.
    destruct (jwt_decode _ _ _ _); [done|]. intros _ [= _ <-]. done.
Qed.

#[export] Instance location_key_inj : Inj (=) (=) location_key.
Proof. intros a b H. unfold location_key in H. cbv [String.app] in H. by injection H. Qed.

(** ** The consumer: at-least-once delivery of batches

    [log] is what was published, in order; a vehicle's records go to one
    partition (the key is the vehicle), so one list is what its consumer
    sees. *)
Abbreviation log := (list (string * TelemetryPacket)).

Section delivery.
Context {R : Type} `{!Redis R} `{!RedisLaws R} `{!FloatText} `{!FloatLaws}.
Variable ttl : Z.
Implicit Types s : consumer_state R.

(** The floats of the packet are doubles. *)
Definition packet_doubles (p : TelemetryPacket) : Prop :=
json_ok (PFloat (tp_lat p)) ∧ json_ok (PFloat (tp_lng p)) ∧ json_ok (PFloat (tp_speed_kph p)).

Definition packet_value (r : string * TelemetryPacket) : pyval := PDict (packet_message r.1 r.2).
Definition raw_record (r : string * TelemetryPacket) : string := json_dumps (packet_value r).

#[local] Instance packet_value_inj : Inj (=) (=) packet_value.
Proof. intros [v []] [w []] Heq. cbv [packet_value packet_message] in Heq. cbn in Heq. by simplify_eq. Qed.

Definition packet_position (p : TelemetryPacket) : dict :=
position (PFloat (tp_lat p)) (PFloat (tp_lng p)) (PStr (tp_recorded_at p)).

Lemma loads_raw_record {S} r (s : S) :
packet_doubles r.2 → loads (raw_record r) s = (Ok (packet_value r), s).
Proof.
intros (Hlat & Hlng & Hspeed). unfold loads, raw_record. rewrite json_loads_dumps; [done|].
split; [by apply (bool_decide_unpack _)|]. by split_and!.
Qed.

(** The last packet of each vehicle of a batch. *)
Definition latest_of (batch : log) (latest : dict) : dict :=
foldl (λ d r, dict_set d r.1 (packet_value r)) latest batch.

Lemma build_batch_run batch docs latest s :
Forall (λ r, packet_doubles r.2) batch →
build_batch_from (raw_record <$> batch) docs latest s =
(Ok (docs ++ (packet_value <$> batch), latest_of batch latest), s).
Proof.
revert docs latest. induction batch as [|r batch IH]; intros docs latest.
{ by rewrite app_nil_r. }
intros [Hr Hb]%Forall_cons. cbn [fmap list_fmap build_batch_from].
rewrite run_bind, loads_raw_record by done.
transitivity (build_batch_from (raw_record <$> batch) (docs ++ [packet_value r])
(dict_set latest r.1 (packet_value r)) s); [done|].
rewrite IH by done. by rewrite <- app_assoc.
Qed.

(** Record [i] is the last one of vehicle [v] in the first [n]. *)
Definition last_record (l : log) (n i : nat) (v : string) (p : TelemetryPacket) : Prop :=
l !! i = Some (v, p) ∧ ∀ j p', i < j < n → l !! j ≠ Some (v, p').

Lemma latest_of_spec batch :
NoDup (latest_of batch []).*1 ∧
(∀ v, v ∈ (latest_of batch []).*1 ↔ ∃ p, (v, p) ∈ batch) ∧
∀ v x, (v, x) ∈ latest_of batch [] →
∃ i p, x = packet_value (v, p) ∧ last_record batch (length batch) i v p.
Proof.
induction batch as [|[w q] batch (Hnd & Hk & Hl)] using rev_ind.
{ split_and!; [constructor|set_solver|set_solver]. }
unfold latest_of in *. rewrite foldl_app. cbn [foldl fst]. split_and!.
- by apply dict_set_NoDup.
- intros v. rewrite dict_set_keys, Hk. set_solver.
- intros v x [[-> ->]|[Hne Hin]]%elem_of_dict_set; [| |done].
+ exists (length batch), q. split; [done|]. split; [by rewrite lookup_snoc_Some; right|].
  rewrite length_app. cbn. lia.
+ apply Hl in Hin as (i & p & -> & Hi & Hlast). exists i, p. split; [done|].
  split; [by apply lookup_app_l_Some|]. rewrite length_app. cbn. intros j p' Hj.
  rewrite lookup_snoc_Some. intros [[? Hj']|[_ [= ? ?]]]; [|done].
  by apply (Hlast j p'); [lia|].
Qed.

Lemma write_positions_cons w q l s :
write_positions ((w, packet_value (w, q)) :: l) ttl s =
match redis_set (location_key w) (json_dumps (PDict (packet_position q))) (Some ttl) (co_redis s) with
| (Ok _, r) => write_positions l ttl (mk_consumer (co_mongo s) r)
| (Err e, r) => (Err e, mk_consumer (co_mongo s) r)
end.
Proof.
transitivity ((write_latest_position w (PFloat (tp_lat q)) (PFloat (tp_lng q))
(PStr (tp_recorded_at q)) ttl ≫= λ _, write_positions l ttl) s); [reflexivity|].
unfold write_latest_position, on_redis. rewrite run_bind. unfold packet_position.
by destruct (redis_set _ _ _ _) as [[]].
Qed.

(** Writing positions, whether or not it completes: a key either keeps its
value or takes a position of the batch. *)
Lemma write_positions_run l s r s' :
(∀ v x, (v, x) ∈ l → ∃ p, x = packet_value (v, p)) →
write_positions l ttl s = (r, s') →
co_mongo s' = co_mongo s ∧ ∀ v,
(keys (co_redis s') !! location_key v = keys (co_redis s) !! location_key v ∧
  (is_Ok r → v ∉ l.*1)) ∨
(∃ p, (v, packet_value (v, p)) ∈ l ∧
  keys (co_redis s') !! location_key v = Some (json_dumps (PDict (packet_position p)))).
Proof.
revert s. induction l as [|[w x] l IH]; intros s Hl.
{ intros [= <- <-]. split; [done|]. intros v. left. split; [done|]. set_solver. }
destruct (Hl w x ltac:(by left)) as [q ->]. rewrite write_positions_cons.
destruct (redis_set _ _ _ (co_redis s)) as [[[]|e] r1] eqn:E.
- apply redis_set_Ok in E. intros Hr. apply IH in Hr as [Hm Hk]; [|intros; apply Hl; by right].
split; [done|]. cbn [co_redis] in Hk. intros v.
destruct (Hk v) as [[Heq Hout]|(p & Hp & Heq)]; [|right; exists p; split; [by right|done]].
destruct (decide (v = w)) as [->|Hne].
+ right. exists q. split; [by left|]. by rewrite Heq, E, lookup_insert_eq.
+ left. rewrite Heq, E, lookup_insert_ne by (by intros ?%(inj location_key)).
  split; [done|]. intros Hok. cbn. rewrite not_elem_of_cons. auto.
- apply redis_set_Err in E. intros [= <- <-]. split; [done|]. cbn [co_redis]. intros v.
destruct E as [->| ->]; [by left|]. destruct (decide (v = w)) as [->|Hne].
+ right. exists q. split; [by left|]. by rewrite lookup_insert_eq.
+ left. by rewrite lookup_insert_ne by (by intros ?%(inj location_key)).
Qed.

(** What one turn of the loop does up to a crash: the documents are written,
and the positions of the first [k] vehicles of the batch. *)
Definition consume_prefix (k : nat) (raw_records : list string) : M (consumer_state R) unit :=
'(documents, latest) ← build_batch raw_records;
write_batch documents;;
write_positions (take k latest) ttl.

(** *** The consumer over the topic: (what was published, the state, the
committed offset) *)
Inductive telemetry_delivery :
log * consumer_state R * nat → log * consumer_state R * nat → Prop :=
| delivery_publish l s off v p :
packet_doubles p → telemetry_delivery (l, s, off) (l ++ [(v, p)], s, off)
| delivery_commit l s off n s' :
consume_batch ttl (raw_record <$> take n (drop off l)) s = (Ok tt, s') →
telemetry_delivery (l, s, off) (l, s', off + length (take n (drop off l)))
| delivery_raised l s off n e s' :
consume_batch ttl (raw_record <$> take n (drop off l)) s = (Err e, s') →
telemetry_delivery (l, s, off) (l, s', off)
| delivery_crashed l s off n k r s' :
consume_prefix k (raw_record <$> take n (drop off l)) s = (r, s') →
telemetry_delivery (l, s, off) (l, s', off)
| delivery_expiry l s off r :
expires (co_redis s) r → telemetry_delivery (l, s, off) (l, mk_consumer (co_mongo s) r, off).

(** What holds of a reachable consumer. *)
Definition delivery_inv (st : log * consumer_state R * nat) : Prop :=
let '(l, s, off) := st in
off ≤ length l ∧ Forall (λ r, packet_doubles r.2) l ∧
(∀ r, r ∈ take off l → packet_value r ∈ co_mongo s) ∧
∀ v raw, keys (co_redis s) !! location_key v = Some raw →
∃ i p, raw = json_dumps (PDict (packet_position p)) ∧ last_record l off i v p.

Lemma write_batch_run docs s :
write_batch docs s = (Ok tt, mk_consumer (co_mongo s ++ docs) (co_redis s)).
Proof. destruct s, docs; [|done]. cbn. by rewrite app_nil_r. Qed.

Lemma consume_prefix_eq k b s :
Forall (λ r, packet_doubles r.2) b →
consume_prefix k (raw_record <$> b) s =
write_positions (take k (latest_of b [])) ttl
(mk_consumer (co_mongo s ++ (packet_value <$> b)) (co_redis s)).
Proof.
intros Hb. unfold consume_prefix, build_batch. rewrite run_bind, build_batch_run by done.
cbn [app]. by rewrite run_bind, write_batch_run.
Qed.

Lemma consume_batch_prefix b s :
Forall (λ r, packet_doubles r.2) b →
consume_batch ttl (raw_record <$> b) s =
consume_prefix (length (latest_of b [])) (raw_record <$> b) s.
Proof.
intros Hb. rewrite consume_prefix_eq, take_ge by done.
destruct b as [|r b]; [destruct s; cbn; by rewrite app_nil_r|].
unfold consume_batch. cbn [fmap list_fmap]. unfold build_batch.
rewrite run_bind, (build_batch_run (r :: b)) by done. by rewrite run_bind, write_batch_run.
Qed.

Lemma consume_prefix_run k b s r s' :
Forall (λ r, packet_doubles r.2) b →
consume_prefix k (raw_record <$> b) s = (r, s') →
co_mongo s' = co_mongo s ++ (packet_value <$> b) ∧ ∀ v,
(keys (co_redis s') !! location_key v = keys (co_redis s) !! location_key v ∧
  (is_Ok r → length (latest_of b []) ≤ k → ∀ p, (v, p) ∉ b)) ∨
(∃ i p, last_record b (length b) i v p ∧
  keys (co_redis s') !! location_key v = Some (json_dumps (PDict (packet_position p)))).
Proof.
intros Hb. rewrite consume_prefix_eq by done. destruct (latest_of_spec b) as (_ & Hk & Hl).
intros [Hm Hr]%write_positions_run.
- split; [done|]. intros v. destruct (Hr v) as [[Heq Hv]|(p & Hin & Heq)].
+ left. split; [done|]. intros Hok Hle p Hp. apply (Hv Hok).
  rewrite take_ge by done. apply Hk. by exists p.
+ right. apply elem_of_take in Hin as (j & Hin & _). apply list_elem_of_lookup_2 in Hin.
  apply Hl in Hin as (i & p' & [= <-]%(inj packet_value) & Hi). by exists i, p.
- intros v x (j & Hin & _)%elem_of_take. apply list_elem_of_lookup_2, Hl in Hin as (i & p & -> & _).
by exists p.
Qed.

Lemma last_record_drop l off n m i v p :
last_record (take n (drop off l)) (length (take n (drop off l))) i v p →
m ≤ off + length (take n (drop off l)) → last_record l m (off + i) v p.
Proof.
assert (∀ j, j < length (take n (drop off l)) → take n (drop off l) !! j = l !! (off + j)) as Hlook.
{ intros j Hj. rewrite length_take in Hj. rewrite lookup_take_lt by lia. apply lookup_drop. }
intros [Hi Hlast] Hm. split.
- rewrite <- Hlook; [done|]. by apply lookup_lt_Some in Hi.
- intros j p' Hj. replace j with (off + (j - off)) by lia. rewrite <- Hlook by lia.
apply Hlast. lia.
Qed.

(** One delivery of a batch, complete or not. *)
Lemma delivery_inv_batch l s off n k r s' :
delivery_inv (l, s, off) → consume_prefix k (raw_record <$> take n (drop off l)) s = (r, s') →
delivery_inv (l, s', off) ∧
(is_Ok r → length (latest_of (take n (drop off l)) []) ≤ k →
delivery_inv (l, s', off + length (take n (drop off l)))).
Proof.
intros (Hoff & Hd & Hm & Hk) Hr.
apply consume_prefix_run in Hr as [Hm' Hv]; [|by apply Forall_take, Forall_drop].
set (b := take n (drop off l)) in *. split; [split; [done|split; [done|split]]|].
- intros x Hx. rewrite Hm'. apply elem_of_app. left. by apply Hm.
- intros v raw Hraw. destruct (Hv v) as [[Heq _]|(i & p & Hi & Heq)].
  + apply Hk. by rewrite <- Heq.
  + rewrite Heq in Hraw. injection Hraw as <-. exists (off + i), p. split; [done|].
    eapply last_record_drop; [exact Hi|]. lia.
- intros Hok Hle. split; [|split; [done|split]].
+ unfold b. rewrite length_take, length_drop. lia.
+ intros x Hx. rewrite Hm'.
  assert (take (length b) (drop off l) = b) as Htake.
  { unfold b. rewrite length_take. rewrite <- take_take. by rewrite (take_ge (drop off l)). }
  rewrite <- take_take_drop, Htake in Hx.
  apply elem_of_app in Hx as [Hx|Hx]; apply elem_of_app; [left; by apply Hm|right].
  by apply list_elem_of_fmap_2.
+ intros v raw Hraw. destruct (Hv v) as [[Heq Hnot]|(i & p & Hi & Heq)].
  * rewrite Heq in Hraw. apply Hk in Hraw as (i & p & -> & Hi & Hlast).
    exists i, p. split; [done|]. split; [done|]. intros j p' Hj Hj'.
    destruct (decide (j < off)) as [Hlt|Hge]; [by apply (Hlast j p'); [lia|]|].
    apply (Hnot Hok Hle p'), list_elem_of_lookup. exists (j - off). unfold b in *.
    rewrite length_take in Hj. rewrite lookup_take_lt, lookup_drop by lia.
    by replace (off + (j - off)) with j by lia.
  * rewrite Heq in Hraw. injection Hraw as <-. exists (off + i), p. split; [done|].
    by eapply last_record_drop.
Qed.

Lemma delivery_inv_step st st' : delivery_inv st → telemetry_delivery st st' → delivery_inv st'.
Proof.
intros Hinv Hstep. destruct Hstep as [l s off v p Hp|l s off n s' Hr|l s off n e s' Hr
|l s off n k r s' Hr|l s off r Hr].
- destruct Hinv as (Hoff & Hd & Hm & Hk). split; [|split; [|split]].
+ rewrite length_app. cbn. lia.
+ by apply Forall_app_2, Forall_singleton.
+ intros x. rewrite take_app_le by done. apply Hm.
+ intros w raw (i & q & Hraw & Hi & Hlast)%Hk. exists i, q. split; [done|].
  split; [by apply lookup_app_l_Some|]. intros j p' Hj. rewrite lookup_app_l by lia. by apply Hlast.
- rewrite consume_batch_prefix in Hr by (apply Forall_take, Forall_drop, Hinv).
eapply delivery_inv_batch in Hr as [_ Hc]; [|done]. by apply Hc.
- rewrite consume_batch_prefix in Hr by (apply Forall_take, Forall_drop, Hinv).
by eapply delivery_inv_batch in Hr as [? _].
- by eapply delivery_inv_batch in Hr as [? _].
- destruct Hinv as (Hoff & Hd & Hm & Hk). split; [done|split; [done|split; [done|]]].
intros w raw Hraw. apply (Hk w). by eapply lookup_weaken.
Qed.

Definition delivery_start (s : consumer_state R) : Prop :=
∀ v, keys (co_redis s) !! location_key v = None.

Lemma delivery_inv_reachable s st :
delivery_start s → rtc telemetry_delivery ([], s, 0) st → delivery_inv st.
Proof.
intros Hs. apply (rtc_ind_r (λ st, delivery_inv st)).
- split; [done|]. split; [constructor|]. split; [intros x Hx; by apply not_elem_of_nil in Hx|].
intros v raw Hraw. by rewrite Hs in Hraw.
- intros st1 st2 _ Hstep Hinv. by eapply delivery_inv_step.
Qed.

Lemma loads_position {S} p (s : S) :
packet_doubles p →
loads (json_dumps (PDict (packet_position p))) s = (Ok (PDict (packet_position p)), s).
Proof.
intros (Hlat & Hlng & _). unfold loads. rewrite json_loads_dumps; [done|].
split; [by apply (bool_decide_unpack _)|]. by split_and!.
Qed.

(** The answer about a vehicle whose latest position is [p]'s. *)
Definition location_response (vehicle_id : string) (p : TelemetryPacket) : dict :=
("vehicle_id", PStr vehicle_id) :: packet_position p.

Lemma get_location_run v s :
get_location v s =
match redis_get (location_key v) (co_redis s) with
| (Ok (Some raw), r) =>
  (position ← loads raw;
   match position with
   | PDict d =>
       lat ← getitem d "lat"; lng ← getitem d "lng"; recorded_at ← getitem d "recorded_at";
       mret (("vehicle_id", PStr v) :: Telemetry.position lat lng recorded_at)
   | _ => raise TypeError
   end) (mk_consumer (co_mongo s) r)
| (Ok None, r) =>
  (Err (HTTPException 404 "no recent location for this vehicle"), mk_consumer (co_mongo s) r)
| (Err e, r) => (Err e, mk_consumer (co_mongo s) r)
end.
Proof.
unfold get_location, get_latest_position, on_redis. rewrite bind_assoc, run_bind.
destruct (redis_get _ _) as [[[raw|]|e] r]; [|done..]. rewrite bind_assoc.
unfold loads. by destruct (json_loads raw).
Qed.
End delivery.

(** C35: whatever was redelivered, lost in a crash or expired, the location
    endpoint answers for a vehicle with the position of one of its packets,
    never one older than the last of its packets below the committed offset;
    once the consumer has caught up that is the last packet published.  Every
    packet below the offset is in Mongo. *)
Theorem location_is_latest {R : Type} `{!Redis R} `{!RedisLaws R} `{!FloatText} `{!FloatLaws}
    (ttl : Z) (s0 s s' : consumer_state R) (l : log) (off : nat) (v : string) (d : dict) :
  delivery_start s0 → rtc (telemetry_delivery ttl) ([], s0, 0) (l, s, off) →
  get_location v s = (Ok d, s') →
  (∃ i p, last_record l off i v p ∧ d = location_response v p) ∧
  ∀ r, r ∈ take off l → packet_value r ∈ co_mongo s.
Proof.
  intros Hstart (Hoff & Hd & Hm & Hk)%delivery_inv_reachable; [|done]. intros Hr. split; [|done].
  rewrite get_location_run in Hr.
  destruct (redis_get _ _) as [[[raw|]|e] r] eqn:E; [|done..].
  apply redis_get_Ok in E as [Hraw _]. symmetry in Hraw.
  apply Hk in Hraw as (i & p & -> & Hi). exists i, p. split; [done|].
  rewrite run_bind, loads_position in Hr; [by injection Hr|].
  eapply Forall_lookup_1 in Hd; [|apply Hi]. done.
Qed.
