(* ===== verification/Simulator.v ===== *)
(** * Simulator: services/telemetry/simulator.py and deploy/loadtest/telemetry_load.py

    The two device clients of the ingest endpoint, over a WebSocket
    ([WebSocket]); [service_socket] is the WebSocket that the telemetry
    service answers, with the handler of Telemetry behind it.  A client loop
    reads a clock, draws random numbers and reads the date at every turn:
    these readings are its [tick]s, so that a loop is a recursion over them,
    and [None] is a loop that has not seen its deadline yet.

    [simulator_drives_ingest]: the conversation of the client with the
    service, frame by frame, is the run of [Telemetry.ingest] over the frames
    it sent, and the count it reports is their number.  [load_accounts]: the
    load generator accounts for every packet it tried. *)
From S2P Require Import Prelude Python Effects Redis Json JsonFacts JwtAuth Idempotency.
From S2P Require Import Auth AuthFacts Listing Telemetry TelemetryFacts.

(** ** Floats *)
Definition fadd : spec_float → spec_float → spec_float := SFadd 53 1024.
Definition float_zerop (f : spec_float) : bool := match f with S754_zero _ => true | _ => false end.

(** [1 / rate_hz], when only whether it raises matters. *)
Definition reciprocal {S} (rate_hz : spec_float) : M S unit :=
  if float_zerop rate_hz then raise ZeroDivisionError else mret tt.

(** [40.7128] and [-74.0060]. *)
Definition start_lat : spec_float := S754_finite false 5729817215912798 (-47).
Definition start_lng : spec_float := S754_finite true 5207709281612202 (-46).

(** ** The WebSocket *)

(** [f"{base_url}/telemetry/ingest/{vehicle_id}?token={token}"], by its parts. *)
Record ingest_uri := mk_uri { uri_base : string; uri_vehicle_id : string; uri_token : string }.

Class WebSocket (W : Type) := {
  ws_connect : ingest_uri → M W unit;
  ws_send : string → M W unit;
  ws_recv : M W string;
}.

Record tick := mk_tick {
  tk_time : spec_float;      (* the clock, at the test of the loop *)
  tk_dlat : spec_float;
  tk_dlng : spec_float;
  tk_speed : spec_float;
  tk_now : string;           (* dt.datetime.now(dt.UTC).isoformat() *)
}.

(** The packet both clients send. *)
Definition device_packet (lat lng speed : spec_float) (recorded_at : string) : dict :=
  [("lat", PFloat lat); ("lng", PFloat lng); ("speed_kph", PFloat speed);
   ("recorded_at", PStr recorded_at)].

(** The frames of a stream: those before the deadline, along the walk. *)
Fixpoint frames `{!FloatText} (deadline : spec_float) (ticks : list tick) (lat lng : spec_float) : list string :=
match ticks with
| [] => []
| t :: ticks =>
    if SFltb (tk_time t) deadline then
      let lat := fadd lat (tk_dlat t) in
      let lng := fadd lng (tk_dlng t) in
      json_dumps (PDict (device_packet lat lng (tk_speed t) (tk_now t))) :: frames deadline ticks lat lng
    else []
end.

(** The loop sees its deadline. *)
Definition ends (deadline : spec_float) (ticks : list tick) : Prop :=
Exists (λ t, SFltb (tk_time t) deadline = false) ticks.

(** ** simulator.py *)
Section simulator.
Context {W : Type} `{!WebSocket W} `{!FloatText}.
Notation Mw := (M W).

(** [while loop.time() < deadline]. *)
Fixpoint stream_loop (deadline : spec_float) (ticks : list tick) (lat lng : spec_float) (sent : Z) :
  Mw (option Z) :=
match ticks with
| [] => mret None
| t :: ticks =>
    if SFltb (tk_time t) deadline then
      let lat := fadd lat (tk_dlat t) in
      let lng := fadd lng (tk_dlng t) in
      ws_send (json_dumps (PDict (device_packet lat lng (tk_speed t) (tk_now t))));;
      _ ← ws_recv;
      stream_loop deadline ticks lat lng (sent + 1)
    else mret (Some sent)
end.

Definition _stream_one_vehicle (base_url vehicle_id token : string)
  (rate_hz start_time duration_seconds : spec_float) (ticks : list tick) : Mw (option Z) :=
reciprocal rate_hz;;
let deadline := fadd start_time duration_seconds in
ws_connect (mk_uri base_url vehicle_id token);;
stream_loop deadline ticks start_lat start_lng 0.
End simulator.

(** [_mint_token]. *)
Definition _mint_token {DB W} `{!Platform} (cfg : jwt_settings) : M (session DB W) string :=
  user_id ← uuid4;
  create_token user_id "host" "access" cfg 3600.

(** [sum(await asyncio.gather( *tasks ))], the results of the tasks given in
    the order the tasks ended: the exception of the first that raised, if any
    did, or the total. *)
Fixpoint total (results : list (result Z)) : result Z :=
  match results with
  | [] => Ok 0%Z
  | Err e :: _ => Err e
  | Ok n :: rest => match total rest with Ok m => Ok (n + m)%Z | Err e => Err e end
  end.
Definition run_simulation (results : list (result Z)) : result Z := total results.

(** ** telemetry_load.py *)

(** [raise_open_file_limit]: the soft limit afterwards, and whether the
    warning is printed. *)
Definition raise_open_file_limit (soft hard : Z) : Z * bool :=
  let target := Z.min hard 65536 in
  (if decide (soft < target)%Z then target else soft, bool_decide (target < 65536)%Z).

Lemma open_file_limit_bounds soft hard :
  (soft ≤ hard → let '(limit, warned) := raise_open_file_limit soft hard in
    soft ≤ limit ≤ hard ∧ (warned = false → 65536 ≤ limit))%Z.
Proof. intros H. unfold raise_open_file_limit. split; [case_decide; lia|]. intros Hw%bool_decide_eq_false. case_decide; lia. Qed.

(** An entry of [results]. *)
Record stream_result := mk_stream_result {
  sr_sent : Z;
  sr_errors : Z;
  sr_fatal : option string;
}.

Section load.
Context {W : Type} `{!WebSocket W} `{!FloatText}.
Notation Mw := (M W).
Variable str_exn : exn → string.   (* [str(exc)] *)

(** The inner [try]: whether the packet got its answer. *)
Definition exchange (frame : string) : Mw bool :=
try_except (ws_send frame;; _ ← ws_recv; mret true) (λ _, Some (mret false)).

Fixpoint load_loop (rate_hz deadline : spec_float) (ticks : list tick) (lat lng : spec_float)
  (sent errors : Z) : Mw (option stream_result) :=
match ticks with
| [] => mret None
| t :: ticks =>
    if SFltb (tk_time t) deadline then
      let lat := fadd lat (tk_dlat t) in
      let lng := fadd lng (tk_dlng t) in
      answered ← exchange (json_dumps (PDict (device_packet lat lng (tk_speed t) (tk_now t))));
      let sent := (if answered : bool then sent + 1 else sent)%Z in
      let errors := (if answered : bool then errors else errors + 1)%Z in
      if float_zerop rate_hz
      then mret (Some (mk_stream_result sent errors (Some (str_exn ZeroDivisionError))))
      else load_loop rate_hz deadline ticks lat lng sent errors
    else mret (Some (mk_stream_result sent errors None))
end.

(** [dlat] and [dlng] are the draws that place the vehicle. *)
Definition stream_vehicle (ws_url token vehicle_id : string)
  (rate_hz start_time duration_seconds dlat dlng : spec_float) (ticks : list tick) :
  Mw (option stream_result) :=
let deadline := fadd start_time duration_seconds in
connected ← try_except (ws_connect (mk_uri ws_url vehicle_id token);; mret None)
  (λ e, Some (mret (Some (str_exn e))));
match connected with
| Some message => mret (Some (mk_stream_result 0 0 (Some message)))
| None => load_loop rate_hz deadline ticks (fadd start_lat dlat) (fadd start_lng dlng) 0 0
end.

(** [(i / max(len(vehicle_ids), 1)) * args.ramp_seconds]. *)
Definition start_delay (i vehicles ramp_seconds : Z) : spec_float :=
SFmul 53 1024 (SFdiv 53 1024 (float_of_Z i) (float_of_Z (Z.max vehicles 1))) (float_of_Z ramp_seconds).

(** The report of [main]: packets, errors, and the vehicles whose connection
    died early, by the truth value of the message. *)
Definition report (results : list (string * stream_result)) : Z * Z * list string :=
(foldr Z.add 0 (sr_sent <$> results.*2), foldr Z.add 0 (sr_errors <$> results.*2),
 (filter (λ r, default "" (sr_fatal r.2) ≠ "") results).*1)%Z.
End load.

(** ** The service behind the socket *)
Record connection (R : Type) := mk_connection {
  cn_vehicle : option string;      (* of the open connection *)
  cn_ingest : ingest_state R;
  cn_read : nat;                   (* frames the client has received *)
}.
Arguments mk_connection {R}.
Arguments cn_vehicle {R}.
Arguments cn_ingest {R}.
Arguments cn_read {R}.

Section service.
Context {R : Type} `{!Redis R} `{!FloatText} `{!PacketJson} `{!Platform}.
Variables (cfg : jwt_settings) (now : Z).

(** What [websocket.send_json] sends. *)
Definition frame_text (f : frame) : string :=
match f with
| FrameOk => json_dumps (PDict [("status", PStr "ok")])
| FrameRejected detail => json_dumps (PDict [("status", PStr "rejected"); ("detail", PStr detail)])
| FrameClose _ => ""
end.

(** The connection opens when the token is valid; the handler of an open
    connection runs on every frame, and an exception in it closes it. *)
Instance service_socket : WebSocket (connection R) := {|
ws_connect uri := λ c,
  match fst (decode_token cfg now (uri_token uri) tt) with
  | Ok _ => (Ok tt, mk_connection (Some (uri_vehicle_id uri)) (cn_ingest c) (length (in_sent (cn_ingest c))))
  | Err _ => (Err ConnectionClosed, c)
  end;
ws_send raw := λ c,
  match cn_vehicle c with
  | None => (Err ConnectionClosed, c)
  | Some v =>
      match ingest_frame v raw (cn_ingest c) with
      | (Ok _, s) => (Ok tt, mk_connection (Some v) s (cn_read c))
      | (Err _, s) => (Ok tt, mk_connection None s (cn_read c))
      end
  end;
ws_recv := λ c,
  match in_sent (cn_ingest c) !! cn_read c with
  | Some f => (Ok (frame_text f), mk_connection (cn_vehicle c) (cn_ingest c) (S (cn_read c)))
  | None => (Err ConnectionClosed, c)
  end;
|}.

(** A connection whose client has received every frame. *)
Definition served (v : string) (s : ingest_state R) : connection R :=
mk_connection (Some v) s (length (in_sent s)).

Context `{!RedisLaws R}.

(** One turn of either client against the service: the handler runs once, and
    the client has its answer; an exception in the handler answers nothing. *)
Lemma ws_exchange v raw s s' :
ingest_frame v raw s = (Ok tt, s') →
(ws_send raw;; ws_recv) (served v s) = (Ok (frame_text (answer raw)), served v s').
Proof.
intros Hf. pose proof Hf as (_ & Hs & _)%ingest_frame_Ok.
rewrite run_bind. cbn [ws_send service_socket served cn_vehicle cn_ingest]. rewrite Hf.
cbn [ws_recv service_socket cn_ingest cn_read cn_vehicle]. rewrite Hs.
rewrite lookup_app_r, Nat.sub_diag by done. unfold served. by rewrite Hs, length_app, Nat.add_comm.
Qed.

Lemma ingest_frame_Err v raw s e s' : ingest_frame v raw s = (Err e, s') → in_sent s' = in_sent s.
Proof.
unfold ingest_frame. rewrite run_bind. unfold try_except, parse_packet. rewrite run_bind.
assert (∀ p, (active ← redis_call (is_active v); publish_packet v (apply_kill_switch p active);;
  count_packet;; send_frame FrameOk) s = (Err e, s') → in_sent s' = in_sent s) as Hp.
{ intros p. rewrite run_bind. unfold redis_call at 1.
  destruct (is_active v (in_redis s)) as [[b|x] r]; [done|]. by intros [= _ <-]. }
destruct (packet_fields raw) as [p|]; [destruct (packet_ok p)|]; [by apply Hp|done..].
Qed.

Lemma ws_exchange_fails v raw s e s' :
ingest_frame v raw s = (Err e, s') →
(ws_send raw;; ws_recv) (served v s) = (Err ConnectionClosed, mk_connection None s' (length (in_sent s'))).
Proof.
intros Hf. pose proof (ingest_frame_Err _ _ _ _ _ Hf) as Hs.
rewrite run_bind. cbn [ws_send service_socket served cn_vehicle cn_ingest]. rewrite Hf.
cbn [ws_recv service_socket cn_ingest cn_read cn_vehicle]. by rewrite Hs, lookup_ge_None_2.
Qed.

(** The loop of the simulator is the loop of the handler. *)
Lemma stream_loop_frames deadline v ticks lat lng sent s :
ends deadline ticks →
stream_loop deadline ticks lat lng sent (served v s) =
  match ingest_frames v (frames deadline ticks lat lng) s with
  | (Ok _, s') => (Ok (Some (sent + Z.of_nat (length (frames deadline ticks lat lng)))%Z), served v s')
  | (Err _, s') => (Err ConnectionClosed, mk_connection None s' (length (in_sent s')))
  end.
Proof.
intros He. revert lat lng sent s. induction ticks as [|t ticks IH]; intros lat lng sent s; [by inversion He|].
cbn [stream_loop frames]. destruct (SFltb (tk_time t) deadline) eqn:Et.
2:{ cbn [ingest_frames length mret M_ret]. by rewrite Z.add_0_r. }
assert (ends deadline ticks) as He' by (inversion He; [congruence|done]).
cbn [ingest_frames length]. set (raw := json_dumps _). rewrite (run_bind (ingest_frame v raw)).
destruct (ingest_frame v raw s) as [[[]|e] s1] eqn:Ef.
- pose proof (ws_exchange v raw s s1 Ef) as Hx. rewrite run_bind in Hx. rewrite run_bind.
  destruct (ws_send raw (served v s)) as [[u|x] c]; [|done]. rewrite run_bind, Hx, (IH He').
  destruct (ingest_frames _ _ s1) as [[u'|x] s']; [|done].
  rewrite <- Z.add_assoc, Nat2Z.inj_succ, Z.add_1_l. reflexivity.
- pose proof (ws_exchange_fails v raw s e s1 Ef) as Hx. rewrite run_bind in Hx. rewrite run_bind.
  destruct (ws_send raw (served v s)) as [[u|x] c]; [|by injection Hx as -> ->]. by rewrite run_bind, Hx.
Qed.
End service.

(** The token of the simulator opens the ingest for the hour it is valid. *)
Lemma mint_token_Ok {DB W} `{!Platform} `{!JwtLaws} (cfg : jwt_settings) now token (s0 s1 : session DB W) :
  _mint_token cfg s0 = (Ok token, s1) → (clock (senv s0) ≤ now < clock (senv s0) + 3600)%Z →
  ∃ claims, fst (decode_token cfg now token tt) = Ok claims.
Proof.
  intros [= <- _] Ht. unfold decode_token. erewrite jwt_decode_encode; [|apply token_claims_json|done..].
  rewrite decide_True by done. by eexists.
Qed.

(** The simulator is a client of the ingest.  With a token it minted less
    than an hour ago from the secret and the issuer of the service, a stream
    that sees its deadline is, packet by packet, the run of the ingest over
    the frames it sent: when the ingest gets through, the stream ends with
    their number and has received an answer to each; when the ingest fails on
    one (Redis does not answer), the client sees its connection close. *)
Theorem simulator_drives_ingest {DB W R : Type} `{!Redis R} `{!RedisLaws R} `{!FloatText} `{!PacketJson}
    `{!Platform} `{!JwtLaws} (cfg : jwt_settings) (now : Z) (base v token : string)
    (rate start duration : spec_float) (ticks : list tick) (s0 s1 : session DB W) (s : ingest_state R)
    (r : nat) :
  _mint_token cfg s0 = (Ok token, s1) → (clock (senv s0) ≤ now < clock (senv s0) + 3600)%Z →
  float_zerop rate = false → ends (fadd start duration) ticks →
  let sent := frames (fadd start duration) ticks start_lat start_lng in
  _stream_one_vehicle (WebSocket0 := service_socket cfg now) base v token rate start duration ticks
      (mk_connection None s r) =
    match ingest cfg now token v sent s with
    | (Ok _, s') => (Ok (Some (Z.of_nat (length sent))), served v s')
    | (Err _, s') => (Err ConnectionClosed, mk_connection None s' (length (in_sent s')))
    end.
Proof.
  intros Hm Ht Hrate He sent. destruct (mint_token_Ok _ _ _ _ _ Hm Ht) as [claims Hc].
  rewrite (ingest_opened _ _ _ _ _ _ claims Hc). unfold _stream_one_vehicle, reciprocal.
  rewrite Hrate, !run_bind. cbn [mret M_ret ws_connect service_socket uri_token uri_vehicle_id]. rewrite Hc.
  exact (stream_loop_frames cfg now _ v ticks start_lat start_lng 0 s He).
Qed.

(** The load generator never raises, ends when it sees its deadline, and its
    entry accounts for every packet it tried: all of them when the connection
    lasted. *)
Theorem load_accounts {W : Type} `{!WebSocket W} `{!FloatText} (str_exn : exn → string)
    (ws_url token v : string) (rate start duration dlat dlng : spec_float) (ticks : list tick)
    (w w' : W) (res : result (option stream_result)) :
  stream_vehicle str_exn ws_url token v rate start duration dlat dlng ticks w = (res, w') →
  let tried := length (frames (fadd start duration) ticks (fadd start_lat dlat) (fadd start_lng dlng)) in
  ∃ entry, res = Ok entry ∧ (ends (fadd start duration) ticks → is_Some entry) ∧
    ∀ e, entry = Some e → (0 ≤ sr_sent e ∧ 0 ≤ sr_errors e ∧ sr_sent e + sr_errors e ≤ Z.of_nat tried)%Z ∧
      (sr_fatal e = None → sr_sent e + sr_errors e = Z.of_nat tried)%Z.
Proof.
  unfold stream_vehicle. rewrite run_bind. unfold try_except. rewrite run_bind.
  destruct (ws_connect _ w) as [[u|x] w1]; cbn [mret M_ret].
  2:{ intros [= <- _]. eexists. split; [done|]. split; [done|]. intros e [= <-]. cbn [sr_sent sr_errors sr_fatal]. split; [lia|done]. }
  set (deadline := fadd start duration).
  enough (∀ lat lng sent errors w1, load_loop str_exn rate deadline ticks lat lng sent errors w1 = (res, w') →
    ∃ entry, res = Ok entry ∧ (ends deadline ticks → is_Some entry) ∧ ∀ e, entry = Some e →
      (sent ≤ sr_sent e ∧ errors ≤ sr_errors e ∧
       sr_sent e + sr_errors e ≤ sent + errors + Z.of_nat (length (frames deadline ticks lat lng)))%Z ∧
      (sr_fatal e = None →
       sr_sent e + sr_errors e = sent + errors + Z.of_nat (length (frames deadline ticks lat lng)))%Z) as He
    by (intros Hl; exact (He _ _ 0 0 _ Hl)%Z).
  clear w1. induction ticks as [|t ticks IH]; intros lat lng sent errors w1; cbn [load_loop frames].
  { intros [= <- _]. eexists. split; [done|]. split; [by inversion 1|done]. }
  destruct (SFltb (tk_time t) deadline) eqn:Et.
  2:{ intros [= <- _]. eexists. split; [done|]. split; [done|]. intros e [= <-]. cbn. lia. }
  set (raw := json_dumps _). rewrite run_bind. unfold exchange at 1, try_except.
  destruct ((ws_send raw;; _ ← ws_recv; mret true) w1) as [[[]|x] w2]; cbn [mret M_ret].
  all: destruct (float_zerop rate);
    [intros [= <- _]; eexists; split; [done|]; split; [done|]; intros e [= <-]; cbn [sr_sent sr_errors sr_fatal length]; split; [lia|done]|].
  all: intros (entry & -> & Hends & Hacc)%IH; exists entry; split; [done|]; split;
    [intros Hx; apply Hends; inversion Hx; [congruence|done]|];
    intros e He%Hacc; cbn [length]; split; [lia|intros Hf%He; lia].
Qed.
