(* ===== verification/LoadTest.v ===== *)
(** * LoadTest: deploy/loadtest/seed_vehicles.py and locustfile.py

    The clients that seed a deployment and put it under load, over the
    gateway in front of the services ([Gateway]): Kong may answer a POST with
    a 429 of its own, and [_post_with_retry] posts again until it does not.
    The random draws of a function are its argument, and its dates.

    [retry_reaches_once]: a POST that is retried reaches the services once;
    [retry_ends]: and it is answered as soon as the rate limiter lets it
    through.  [main_seeds]: what a seed run that ends has written.
    [seed_payload_valid] and [booking_payload_valid]: the bodies they post are
    ones the services accept. *)
From S2P Require Import Prelude Python Effects Json Idempotency.
From S2P Require Import Auth BookingRoutes Listing Search Telemetry Simulator.

(** ** The gateway *)
Record gw_response := mk_gw_response {
  gr_status : Z;
  gr_headers : dict;
  gr_text : string;
}.

Class Gateway (W : Type) := {
  gw_post : string → option dict → dict → M W gw_response;  (* url, json, headers *)
  gw_get : string → dict → dict → M W gw_response;          (* url, params, headers *)
  pg_user_exists : string → M W bool;                       (* SELECT 1 FROM users WHERE email *)
  pg_insert_user : uuid → string → string → string → string → M W unit;
}.

(** The option a loop out of attempts leaves, through the code after it. *)
Definition otherwise {S A B} (m : M S (option A)) (k : A → M S (option B)) : M S (option B) :=
  o ← m; match o with Some a => k a | None => mret None end.
Notation "x '←?' m ; k" := (otherwise m (λ x, k))
  (at level 20, m at level 100, k at level 200, right associativity).

Lemma otherwise_Some {S A B} (m : M S (option A)) (k : A → M S (option B)) s b s' :
  (x ←? m; k x) s = (Ok (Some b), s') ↔ ∃ a s1, m s = (Ok (Some a), s1) ∧ k a s1 = (Ok (Some b), s').
Proof. unfold otherwise. rewrite bind_Ok. split; [intros ([a|] & s1 & ? & ?)|]; naive_solver. Qed.

(** httpx: [response.raise_for_status()]. *)
Definition raise_for_status {S} (r : gw_response) : M S unit :=
  if decide (200 ≤ gr_status r < 300)%Z then mret tt else raise (HTTPStatusError (gr_status r)).

Definition PASSWORD : string := "supersecret123".
Definition ADMIN_EMAIL : string := "loadtest-admin@example.com".
Definition ADMIN_PASSWORD : string := "adminpassword123".

(** The draws of [create_and_approve_vehicle]; the positions are those the
    coordinates come to. *)
Record vehicle_draws := mk_vehicle_draws {
  vd_make : nat;
  vd_model : nat;
  vd_year : Z;
  vd_daily_price_cents : Z;
  vd_daily_mileage_limit : nat;
  vd_dlat : spec_float;
  vd_dlng : spec_float;
}.

Definition makes : list string := ["Toyota"; "Honda"; "Mazda"; "Ford"; "Tesla"].
Definition models : list string := ["Corolla"; "Civic"; "3"; "Focus"; "Model 3"].
Definition mileage_limits : list Z := [150; 200; 250]%Z.

(** [random.choice(l)], by its index. *)
Definition choice {A} (d : A) (l : list A) (i : nat) : A := default d (l !! i).

(** What [random] promises of the draws. *)
Definition draws_ok (r : vehicle_draws) : Prop :=
  vd_make r < length makes ∧ vd_model r < length models ∧ (2018 ≤ vd_year r ≤ 2024)%Z ∧
  (3000 ≤ vd_daily_price_cents r ≤ 9000)%Z ∧ vd_daily_mileage_limit r < length mileage_limits.

Definition seed_request (r : vehicle_draws) : CreateVehicleRequest := {|
  cv_make := choice "" makes (vd_make r);
  cv_model := choice "" models (vd_model r);
  cv_year := vd_year r;
  cv_daily_price_cents := vd_daily_price_cents r;
  cv_daily_mileage_limit := choice 0%Z mileage_limits (vd_daily_mileage_limit r);
  cv_booking_mode := "instant";
  cv_latitude := fadd start_lat (vd_dlat r);
  cv_longitude := fadd start_lng (vd_dlng r);
|}.

(** [payload]. *)
Definition seed_payload (r : vehicle_draws) : dict :=
  let p := seed_request r in
  [("make", PStr (cv_make p)); ("model", PStr (cv_model p)); ("year", PInt (cv_year p));
   ("daily_price_cents", PInt (cv_daily_price_cents p));
   ("daily_mileage_limit", PInt (cv_daily_mileage_limit p));
   ("booking_mode", PStr (cv_booking_mode p)); ("latitude", PFloat (cv_latitude p));
   ("longitude", PFloat (cv_longitude p))].

(** ** seed_vehicles.py *)
Section seed.
Context {W : Type} `{!Gateway W} `{!FloatText} `{!Platform} `{!Argon2}.
Notation Mg := (M (session unit W)).
Variable attempts : nat.   (* of one POST *)

Definition _idempotency_headers (token : string) : Mg dict :=
key ← uuid4;
mret [("Authorization", PStr ("Bearer " +:+ token)); ("Idempotency-Key", PStr (str_uuid key))].

(** [float(response.headers.get("retry-after", 2))]: whether it raises. *)
Definition retry_after (response : gw_response) : Mg unit :=
match dict_get (gr_headers response) "retry-after" with
| None => mret tt
| Some v =>
    text ← as_str v;
    match float_of_string text with Some _ => mret tt | None => raise ValueError end
end.

(** [while True]: one attempt per unit of fuel; [None] is out of fuel. *)
Fixpoint post_attempts (n : nat) (url : string) (json : option dict) (headers : dict) :
  Mg (option gw_response) :=
match n with
| O => mret None
| S n =>
    response ← call (gw_post url json headers);
    if decide (gr_status response ≠ 429%Z) then mret (Some response)
    else
      retry_after response;;
      post_attempts n url json headers
end.
Definition _post_with_retry (url : string) (json : option dict) (headers : dict) :
  Mg (option gw_response) := post_attempts attempts url json headers.

Definition json_body (r : gw_response) : Mg dict :=
v ← loads (gr_text r); as_dict v.

(** [f"loadtest-{role}-{uuid.uuid4().hex[:10]}@example.com"]. *)
Definition loadtest_email (role : string) (u : uuid) : string :=
"loadtest-" +:+ role +:+ "-" +:+ String.substring 0 10 (str_remove "-" 0 (str_uuid u)) +:+ "@example.com".

(** [role.capitalize()], of an ASCII string. *)
Definition ascii_upper (c : ascii) : ascii :=
let n := N_of_ascii c in if decide (97 ≤ n ≤ 122)%N then ascii_of_N (n - 32) else c.
Definition ascii_lower (c : ascii) : ascii :=
let n := N_of_ascii c in if decide (65 ≤ n ≤ 90)%N then ascii_of_N (n + 32) else c.
Fixpoint lower (s : string) : string :=
match s with "" => "" | String c s => String (ascii_lower c) (lower s) end.
Definition capitalize (role : string) : string :=
match role with "" => "" | String c s => String (ascii_upper c) (lower s) end.

Definition credentials (email password : string) : dict :=
[("email", PStr email); ("password", PStr password)].

Definition register_and_login (kong_url role : string) : Mg (option dict) :=
u ← uuid4;
let email := loadtest_email role u in
key ← uuid4;
_ ←? _post_with_retry (kong_url +:+ "/auth/register")
  (Some [("name", PStr (capitalize role)); ("email", PStr email); ("password", PStr PASSWORD);
         ("role", PStr role)]) [("Idempotency-Key", PStr (str_uuid key))];
response ←? _post_with_retry (kong_url +:+ "/auth/login") (Some (credentials email PASSWORD)) [];
raise_for_status response;;
body ← json_body response;
token ← getitem body "access_token";
mret (Some [("email", PStr email); ("password", PStr PASSWORD); ("token", token)]).

Definition ensure_admin (kong_url : string) : Mg (option pyval) :=
exists_ ← call (pg_user_exists ADMIN_EMAIL);
(if exists_ : bool then mret tt
 else
   password_hash ← hash_password ADMIN_PASSWORD;
   id ← uuid4;
   call (pg_insert_user id ADMIN_EMAIL "Loadtest Admin" password_hash "admin"));;
response ←? _post_with_retry (kong_url +:+ "/auth/login") (Some (credentials ADMIN_EMAIL ADMIN_PASSWORD)) [];
raise_for_status response;;
body ← json_body response;
token ← getitem body "access_token";
mret (Some token).

Definition create_and_approve_vehicle (kong_url host_token admin_token : string) (r : vehicle_draws) :
  Mg (option pyval) :=
headers ← _idempotency_headers host_token;
response ←? _post_with_retry (kong_url +:+ "/listing/vehicles") (Some (seed_payload r)) headers;
created ← json_body response;
id ← getitem created "id";
id_text ← as_str id;
headers ← _idempotency_headers admin_token;
_ ←? _post_with_retry (kong_url +:+ "/listing/vehicles/" +:+ id_text +:+ "/approve") None headers;
mret (Some id).

(** The loops of [main]: the vehicles of a host, the hosts, the renters. *)
Fixpoint seed_vehicles (kong_url host_token admin_token : string) (rs : list vehicle_draws)
  (vehicle_ids : list pyval) : Mg (option (list pyval)) :=
match rs with
| [] => mret (Some vehicle_ids)
| r :: rs =>
    id ←? create_and_approve_vehicle kong_url host_token admin_token r;
    seed_vehicles kong_url host_token admin_token rs (vehicle_ids ++ [id])
end.

Fixpoint seed_hosts (kong_url admin_token : string) (hosts : list (list vehicle_draws))
  (vehicle_ids : list pyval) : Mg (option (list pyval)) :=
match hosts with
| [] => mret (Some vehicle_ids)
| rs :: hosts =>
    host ←? register_and_login kong_url "host";
    t ← getitem host "token"; token ← as_str t;
    vehicle_ids ←? seed_vehicles kong_url token admin_token rs vehicle_ids;
    seed_hosts kong_url admin_token hosts vehicle_ids
end.

Fixpoint seed_renters (kong_url : string) (n : nat) (renters : list pyval) : Mg (option (list pyval)) :=
match n with
| O => mret (Some renters)
| S n =>
    r ←? register_and_login kong_url "renter";
    email ← getitem r "email"; password ← getitem r "password";
    seed_renters kong_url n (renters ++ [PDict [("email", email); ("password", password)]])
end.

(** telemetry_load.py: [get_any_token], which does not retry. *)
Definition get_any_token (kong_url : string) : Mg pyval :=
u ← uuid4;
let email := loadtest_email "telemetry" u in
key ← uuid4;
_ ← call (gw_post (kong_url +:+ "/auth/register")
  (Some [("name", PStr "Telemetry Loadgen"); ("email", PStr email); ("password", PStr PASSWORD);
         ("role", PStr "host")]) [("Idempotency-Key", PStr (str_uuid key))]);
response ← call (gw_post (kong_url +:+ "/auth/login") (Some (credentials email PASSWORD)) []);
raise_for_status response;;
body ← json_body response;
getitem body "access_token".

(** [main]: what is dumped into seed_data.json. *)
Definition main (kong_url : string) (hosts : list (list vehicle_draws)) (renters : nat) : Mg (option dict) :=
admin ←? ensure_admin kong_url;
admin_token ← as_str admin;
vehicle_ids ←? seed_hosts kong_url admin_token hosts [];
renters ←? seed_renters kong_url renters [];
mret (Some [("vehicle_ids", PList vehicle_ids); ("renters", PList renters)]).
End seed.

(** ** locustfile.py *)

(** A BookingUser. *)
Record booking_user := mk_booking_user { bu_token : string; bu_last_booking_id : option pyval }.

(** The draws of [create_booking]. *)
Record booking_draws := mk_booking_draws { bd_lead : Z; bd_length : Z; bd_vehicle : nat }.
Definition booking_draws_ok (vehicle_ids : list string) (r : booking_draws) : Prop :=
  (10 ≤ bd_lead r ≤ 90)%Z ∧ (2 ≤ bd_length r ≤ 5)%Z ∧ bd_vehicle r < length vehicle_ids.

Section locust.
Context {W : Type} `{!Gateway W} `{!FloatText} `{!Platform}.
Notation Mg := (M (session unit W)).
Variables (VEHICLE_IDS : list string) (RENTERS : list dict).

(** SearchUser. *)
Definition search_vehicles (sort : nat) : Mg unit :=
_ ← call (gw_get "/search/vehicles" [("sort", PStr (choice "" ["price_asc"; "price_desc"] sort))] []);
mret tt.

Definition on_start (renter_index : nat) : Mg booking_user :=
let renter := choice [] RENTERS renter_index in
email ← getitem renter "email"; password ← getitem renter "password";
response ← call (gw_post "/auth/login" (Some [("email", email); ("password", password)]) []);
body ← json_body response;
t ← getitem body "access_token"; token ← as_str t;
mret (mk_booking_user token None).

Definition _auth_headers (user : booking_user) : Mg dict := _idempotency_headers (bu_token user).

(** The dates, as [str(date)] sends them. *)
Definition booking_payload (today : date) (r : booking_draws) : dict :=
let start := (today + bd_lead r)%Z in
let end_ := (start + bd_length r)%Z in
[("vehicle_id", PStr (choice "" VEHICLE_IDS (bd_vehicle r))); ("start_date", PDate start);
 ("end_date", PDate end_)].

Definition create_booking (today : date) (r : booking_draws) (user : booking_user) : Mg booking_user :=
headers ← _auth_headers user;
response ← call (gw_post "/booking/bookings" (Some (booking_payload today r)) headers);
if decide (gr_status response = 201%Z) then
  body ← json_body response;
  id ← getitem body "id";
  mret (mk_booking_user (bu_token user) (Some id))
else mret user.

Definition get_own_booking (user : booking_user) : Mg unit :=
match bu_last_booking_id user with
| None => mret tt
| Some id =>
    headers ← _auth_headers user;
    id ← as_str id;
    _ ← call (gw_get ("/booking/bookings/" +:+ id) [] headers);
    mret tt
end.
End locust.

(** ** What they do *)

(** One POST and its retries: whatever the gateway answered by itself left the
    services ([view]) as they were, so they saw the one request that was
    answered. *)
Theorem retry_reaches_once {W V : Type} `{!Gateway W} `{!FloatText} (view : W → V) (n : nat) (url : string)
    (json : option dict) (headers : dict) (s s' : session unit W) (response : gw_response) :
  (∀ w r w', gw_post url json headers w = (Ok r, w') → gr_status r = 429%Z → view w' = view w) →
  post_attempts n url json headers s = (Ok (Some response), s') →
  gr_status response ≠ 429%Z ∧
  ∃ w, view w = view (world s) ∧ gw_post url json headers w = (Ok response, world s').
Proof.
  intros Hv. revert s. induction n as [|n IH]; intros s; cbn [post_attempts]; [done|].
  rewrite run_bind. unfold call at 1. destruct (gw_post url json headers (world s)) as [[r|e] w] eqn:Ep; [|done].
  case_decide as Hst.
  - intros [= <- <-]. split; [done|]. by exists (world s).
  - rewrite bind_Ok. intros ([] & s1 & Hr & Hrest).
    assert (s1 = with_world w s) as ->.
    { revert Hr. unfold retry_after. destruct (dict_get (gr_headers r) "retry-after") as [v|]; [|by intros [= <-]].
      rewrite bind_Ok. intros (text & s2 & Ht & Hf).
      assert (s2 = with_world w s) as -> by (destruct v; try discriminate Ht; by injection Ht).
      destruct (float_of_string text); [by injection Hf|done]. }
    apply IH in Hrest as (Hne & w' & Hw & Hpost). split; [done|]. exists w'. split; [|done].
    rewrite Hw. cbn [world with_world]. by eapply Hv.
Qed.

(** The loop ends: with more attempts than the limiter has refusals left
    ([refusals], which every 429 uses up) a POST is answered, or raises what
    the gateway or a malformed Retry-After raises. *)
Theorem retry_ends {W : Type} `{!Gateway W} `{!FloatText} (refusals : W → nat) (n : nat) (url : string)
    (json : option dict) (headers : dict) (s : session unit W) :
  (∀ w r w', gw_post url json headers w = (Ok r, w') → gr_status r = 429%Z → refusals w' < refusals w) →
  refusals (world s) < n → (post_attempts n url json headers s).1 ≠ Ok None.
Proof.
  intros Hv. revert s. induction n as [|n IH]; intros s Hn; [lia|]. cbn [post_attempts].
  rewrite run_bind. unfold call at 1. destruct (gw_post url json headers (world s)) as [[r|e] w] eqn:Ep; [|done].
  case_decide as Hst; [done|]. rewrite run_bind.
  pose proof (Hv _ _ _ Ep Hst) as Hlt. unfold retry_after.
  destruct (dict_get (gr_headers r) "retry-after") as [v|].
  2:{ apply IH. cbn [world with_world]. lia. }
  rewrite run_bind. destruct v; try done. cbn [as_str mret M_ret].
  destruct (float_of_string s0); [|done]. apply IH. cbn [world with_world]. lia.
Qed.

(** The vehicles of the seed are ones the listing service accepts, as far as
    their positions are on the globe. *)
Theorem seed_payload_valid (r : vehicle_draws) :
  draws_ok r → latitude_ok (fadd start_lat (vd_dlat r)) = true →
  longitude_ok (fadd start_lng (vd_dlng r)) = true → create_vehicle_ok (seed_request r) = true.
Proof.
  intros (Hmk & Hmd & Hy & Hp & Hl) Hlat Hlng. unfold create_vehicle_ok, seed_request.
  cbn [cv_make cv_model cv_year cv_daily_price_cents cv_daily_mileage_limit cv_booking_mode cv_latitude cv_longitude].
  rewrite Hlat, Hlng, !andb_true_r. repeat (apply andb_true_intro; split); apply bool_decide_eq_true.
  - unfold choice. destruct (lookup_lt_is_Some_2 _ _ Hmk) as [x Hx]. rewrite Hx.
    apply list_elem_of_lookup_2 in Hx. revert Hx. unfold makes.
    rewrite !elem_of_cons, elem_of_nil. intros [->|[->|[->|[->|[->|[]]]]]]; simpl; lia.
  - unfold choice. destruct (lookup_lt_is_Some_2 _ _ Hmd) as [x Hx]. rewrite Hx.
    apply list_elem_of_lookup_2 in Hx. revert Hx. unfold models.
    rewrite !elem_of_cons, elem_of_nil. intros [->|[->|[->|[->|[->|[]]]]]]; simpl; lia.
  - lia.
  - lia.
  - unfold choice. destruct (lookup_lt_is_Some_2 _ _ Hl) as [x Hx]. rewrite Hx.
    apply list_elem_of_lookup_2 in Hx. revert Hx. unfold mileage_limits.
    rewrite !elem_of_cons, elem_of_nil. intros [->|[->|[->|[]]]]; simpl; lia.
Qed.

(** The bookings of the load test are ones the booking service accepts: of a
    seeded vehicle, over dates in order. *)
Theorem booking_payload_valid (vehicle_ids : list string) (today : date) (r : booking_draws) (id : uuid) :
  booking_draws_ok vehicle_ids r → dict_get (booking_payload vehicle_ids today r) "vehicle_id" = Some (PStr (str_uuid id)) →
  ∃ start end_, dict_get (booking_payload vehicle_ids today r) "start_date" = Some (PDate start) ∧
    dict_get (booking_payload vehicle_ids today r) "end_date" = Some (PDate end_) ∧
    str_uuid id ∈ vehicle_ids ∧ create_request_ok (mk_create_request id start end_) = true.
Proof.
  intros (Hlead & Hlen & Hv) [= Hid]. eexists _, _. split; [done|]. split; [done|]. split.
  - rewrite <- Hid. unfold choice. destruct (lookup_lt_is_Some_2 _ _ Hv) as [x Hx]. rewrite Hx.
    by eapply list_elem_of_lookup_2.
  - unfold create_request_ok. rewrite bool_decide_eq_false_2; [done|]. simpl. lia.
Qed.

(** ** What a seed run leaves *)
Section seeded.
Context {W : Type} `{!Gateway W} `{!FloatText} `{!Platform} `{!Argon2}.
Variable attempts : nat.

Lemma seed_vehicles_count url host admin rs ids (s s' : session unit W) ids' :
seed_vehicles attempts url host admin rs ids s = (Ok (Some ids'), s') → length ids' = length ids + length rs.
Proof.
revert ids s. induction rs as [|r rs IH]; intros ids s; cbn [seed_vehicles].
- intros [= <- _]. by rewrite Nat.add_0_r.
- rewrite otherwise_Some. intros (id & s1 & _ & ->%IH). rewrite length_app. simpl. lia.
Qed.

Lemma seed_hosts_count url admin hosts ids (s s' : session unit W) ids' :
seed_hosts attempts url admin hosts ids s = (Ok (Some ids'), s') →
length ids' = length ids + sum_list (length <$> hosts).
Proof.
revert ids s. induction hosts as [|rs hosts IH]; intros ids s; cbn [seed_hosts].
- intros [= <- _]. by rewrite Nat.add_0_r.
- rewrite otherwise_Some. intros (host & s1 & _ & Hr).
  apply bind_Ok in Hr as (t & s2 & _ & (token & s3 & _ & Hr)%bind_Ok).
  apply otherwise_Some in Hr as (ids1 & s4 & Hv%seed_vehicles_count & ->%IH). rewrite Hv. csimpl. unfold sum_list. simpl. lia.
Qed.

(** A renter as the seed file has it. *)
Definition seeded_renter (v : pyval) : Prop :=
∃ u, v = PDict (credentials (loadtest_email "renter" u) PASSWORD).

Lemma register_and_login_Ok url role (s s' : session unit W) d :
register_and_login attempts url role s = (Ok (Some d), s') →
∃ u token, d = [("email", PStr (loadtest_email role u)); ("password", PStr PASSWORD); ("token", token)].
Proof.
unfold register_and_login. intros (u & s1 & _ & (key & s2 & _ & Hr)%bind_Ok)%bind_Ok.
apply otherwise_Some in Hr as (r1 & s3 & _ & (r2 & s4 & _ & Hr)%otherwise_Some).
apply bind_Ok in Hr as (v & s5 & _ & (body & s6 & _ & (token & s7 & _ & [= <- _])%bind_Ok)%bind_Ok).
by exists u, token.
Qed.

Lemma seed_renters_count url n rs (s s' : session unit W) rs' :
Forall seeded_renter rs → seed_renters attempts url n rs s = (Ok (Some rs'), s') →
length rs' = length rs + n ∧ Forall seeded_renter rs'.
Proof.
revert rs s. induction n as [|n IH]; intros rs s Hrs; cbn [seed_renters].
- intros [= <- _]. by rewrite Nat.add_0_r.
- rewrite otherwise_Some. intros (r & s1 & (u & token & ->)%register_and_login_Ok & Hr).
  apply bind_Ok in Hr as (e & s2 & [= <- _] & (q & s3 & [= <- _] & Hr)%bind_Ok).
  apply IH in Hr as [-> Hf].
  + split; [|done]. rewrite length_app. simpl. lia.
  + apply Forall_app. split; [done|]. apply Forall_singleton. by exists u.
Qed.
End seeded.

(** A seed run that ends has written one identifier per vehicle that was asked
    for, and the credentials of as many renters as were asked for. *)
Theorem main_seeds {W : Type} `{!Gateway W} `{!FloatText} `{!Platform} `{!Argon2} (attempts : nat)
    (url : string) (hosts : list (list vehicle_draws)) (n : nat) (s s' : session unit W) (seed : dict) :
  main attempts url hosts n s = (Ok (Some seed), s') →
  ∃ vehicle_ids renters,
    seed = [("vehicle_ids", PList vehicle_ids); ("renters", PList renters)] ∧
    length vehicle_ids = sum_list (length <$> hosts) ∧ length renters = n ∧ Forall seeded_renter renters.
Proof.
  unfold main. intros (admin & s1 & _ & Hr)%otherwise_Some. apply bind_Ok in Hr as (token & s2 & _ & Hr).
  apply otherwise_Some in Hr as (ids & s3 & Hids & (rs & s4 & Hrs & [= <- _])%otherwise_Some).
  apply seed_hosts_count in Hids. apply seed_renters_count in Hrs as [Hn Hf]; [|done].
  by exists ids, rs.
Qed.
