(* ===== verification/Admin.v ===== *)
(** * Admin: services/admin (models, repository, clients, service, routes)

    What an administrator does goes to another service over HTTP (approve,
    reject, list bookings) or to Redis (the kill switch), and one row of the
    audit trail [admin_actions] is committed for it.

    [admin_audit]: exactly the requests that succeed are audited.
    [kill_switch_enforced] composes the service with the telemetry ingest. *)
From S2P Require Import Prelude Python Columns Effects Redis Json JwtAuth Idempotency Http.
From S2P Require Import Telemetry TelemetryFacts.

(** ** models.py; [created_at] is a timestamp *)
Record AdminAction := mk_action {
  ac_id : uuid;
  ac_admin_id : uuid;
  ac_action_type : string;
  ac_target_type : string;
  ac_target_id : string;
  ac_payload : dict;
  ac_created_at : Z;
}.

Record AdminDB := mk_admin_db {
  admin_actions : list AdminAction;
  ad_idem : gmap (string * string) IdemRow;
}.

#[export, refine] Instance admin_idem : HasIdem AdminDB := {|
  get_idem := ad_idem;
  set_idem m db := mk_admin_db (admin_actions db) m;
|}.
Proof. done. Defined.

Definition action_types (a : AdminAction) : Prop :=
  varchar 64 (ac_action_type a) ∧ varchar 32 (ac_target_type a) ∧ varchar 64 (ac_target_id a).
#[export] Instance action_types_dec a : Decision (action_types a).
Proof. unfold action_types. apply _. Defined.

(** The other services, as httpx reaches them: URL, query parameters and
    headers to status code and text. *)
Class Upstream (U : Type) := {
  http_post : string → dict → M U (Z * string);
  http_get : string → dict → dict → M U (Z * string);
}.

Record admin_world (R U : Type) := mk_admin_world { aw_redis : R; aw_upstream : U }.
Arguments mk_admin_world {R U}.
Arguments aw_redis {R U}.
Arguments aw_upstream {R U}.

Section admin.
Context {R U : Type} `{!Redis R} `{!Upstream U} `{!FloatText} `{!Platform}.
Notation Ma := (M (session AdminDB (admin_world R U))).

Definition via_redis {A} (m : M R A) : Ma A :=
call (λ w, let '(a, r) := m (aw_redis w) in (a, mk_admin_world r (aw_upstream w))).
Definition via_http {A} (m : M U A) : Ma A :=
call (λ w, let '(a, u) := m (aw_upstream w) in (a, mk_admin_world (aw_redis w) u)).

(** ** repository.py *)
Definition record (admin_id : uuid) (action_type target_type target_id : string) (payload : dict) :
Ma AdminAction :=
id ← uuid4;
t ← now;
let action := mk_action id admin_id action_type target_type target_id payload t in
db ← get_db;
if decide (action_types action)
then put_db (mk_admin_db (admin_actions db ++ [action]) (ad_idem db));; mret action
else raise DataError.

(** [ORDER BY created_at DESC]. *)
Definition newer (a b : AdminAction) : Prop := (ac_created_at b ≤ ac_created_at a)%Z.
#[export] Instance newer_dec a b : Decision (newer a b).
Proof. unfold newer. apply _. Defined.

Definition list_recent (limit offset : Z) : Ma (list AdminAction) :=
db ← get_db;
if decide (¬ (bigint_nat limit ∧ bigint_nat offset)) then raise DataError
else mret (take (Z.to_nat limit) (drop (Z.to_nat offset) (merge_sort newer (admin_actions db)))).

(** ** clients.py *)
Definition rstrip_slash (base_url : string) : string :=
str_rstrip (λ c, bool_decide (c = "/"%char)) base_url.

(** The status check and [response.json()]. *)
Definition json_response (r : Z * string) : Ma pyval :=
let '(status_code, text) := r in
if decide (400 ≤ status_code)%Z then raise (UpstreamError status_code text) else loads text.

(** The POST of [ListingClient.approve_vehicle] and [reject_vehicle]. *)
Definition post_vehicle (base_url verb : string) (vehicle_id : uuid) (bearer_token : string) :
Ma pyval :=
key ← uuid4;
r ← via_http (http_post
(rstrip_slash base_url +:+ "/listing/vehicles/" +:+ str_uuid vehicle_id +:+ verb)
[("Authorization", PStr ("Bearer " +:+ bearer_token)); ("Idempotency-Key", PStr (str_uuid key))]);
json_response r.

Definition client_approve_vehicle (base_url : string) (vehicle_id : uuid) (bearer_token : string) :
Ma pyval := post_vehicle base_url "/approve" vehicle_id bearer_token.
Definition client_reject_vehicle (base_url : string) (vehicle_id : uuid) (bearer_token : string) :
Ma pyval := post_vehicle base_url "/reject" vehicle_id bearer_token.

Definition client_list_bookings (base_url bearer_token : string) (limit offset : Z) : Ma pyval :=
r ← via_http (http_get (rstrip_slash base_url +:+ "/booking/bookings")
[("limit", PInt limit); ("offset", PInt offset)]
[("Authorization", PStr ("Bearer " +:+ bearer_token))]);
json_response r.

(** ** service.py *)
Definition approve_vehicle (listing_url : string) (admin_id vehicle_id : uuid) (bearer_token : string) :
Ma pyval :=
vehicle ← client_approve_vehicle listing_url vehicle_id bearer_token;
record admin_id "vehicle_approved" "vehicle" (str_uuid vehicle_id) [];;
mret vehicle.

Definition reject_vehicle (listing_url : string) (admin_id vehicle_id : uuid) (bearer_token : string) :
Ma pyval :=
vehicle ← client_reject_vehicle listing_url vehicle_id bearer_token;
record admin_id "vehicle_rejected" "vehicle" (str_uuid vehicle_id) [];;
mret vehicle.

Definition list_bookings (booking_url bearer_token : string) (limit offset : Z) : Ma pyval :=
client_list_bookings booking_url bearer_token limit offset.

Definition activate_kill_switch (admin_id vehicle_id : uuid) : Ma unit :=
via_redis (activate (str_uuid vehicle_id));;
record admin_id "kill_switch_activated" "vehicle" (str_uuid vehicle_id) [];;
mret tt.

Definition deactivate_kill_switch (admin_id vehicle_id : uuid) : Ma unit :=
via_redis (deactivate (str_uuid vehicle_id));;
record admin_id "kill_switch_deactivated" "vehicle" (str_uuid vehicle_id) [];;
mret tt.

(** ** routes.py *)
Record admin_settings := mk_admin_settings {
ad_jwt : jwt_settings;
listing_base_url : string;
booking_base_url : string;
}.
Variable cfg : admin_settings.

(** [_action_response]; [created_at] as its timestamp. *)
Definition _action_response (action : AdminAction) : dict :=
[("id", PStr (str_uuid (ac_id action))); ("admin_id", PStr (str_uuid (ac_admin_id action)));
 ("action_type", PStr (ac_action_type action)); ("target_type", PStr (ac_target_type action));
 ("target_id", PStr (ac_target_id action)); ("payload", PDict (ac_payload action));
 ("created_at", PInt (ac_created_at action))].

(** [except UpstreamError]. *)
Definition upstream_errors {A} (m : Ma A) : Ma A :=
try_except m (λ e,
match e with
| UpstreamError status_code detail => Some (raise (HTTPException status_code detail))
| _ => None
end).

(** [authorization.split(" ", 1)[1]] of a header that is required. *)
Definition header_token (authorization : option string) : Ma string :=
match authorization with
| None => raise unprocessable
| Some a => match split_space_1 a with Some t => mret t | None => raise IndexError end
end.

Definition approve_build (authorization : option string) (claims : dict) (vehicle_id : uuid) : Ma string :=
vehicle ← upstream_errors (
admin_id ← claims_sub claims;
bearer_token ← header_token authorization;
approve_vehicle (listing_base_url cfg) admin_id vehicle_id bearer_token);
mret (json_dumps vehicle).

Definition reject_build (authorization : option string) (claims : dict) (vehicle_id : uuid) : Ma string :=
vehicle ← upstream_errors (
admin_id ← claims_sub claims;
bearer_token ← header_token authorization;
reject_vehicle (listing_base_url cfg) admin_id vehicle_id bearer_token);
mret (json_dumps vehicle).

Definition enable_build (claims : dict) (vehicle_id : uuid) : Ma string :=
admin_id ← claims_sub claims; activate_kill_switch admin_id vehicle_id;; mret "".

Definition disable_build (claims : dict) (vehicle_id : uuid) : Ma string :=
admin_id ← claims_sub claims; deactivate_kill_switch admin_id vehicle_id;; mret "".

Definition approve (rq : request) (vehicle_id : input uuid) : Ma Response :=
mutation (ad_jwt cfg) rq vehicle_id ["admin"] 200 (approve_build (rq_authorization rq)).
Definition reject (rq : request) (vehicle_id : input uuid) : Ma Response :=
mutation (ad_jwt cfg) rq vehicle_id ["admin"] 200 (reject_build (rq_authorization rq)).
Definition enable_kill_switch (rq : request) (vehicle_id : input uuid) : Ma Response :=
mutation (ad_jwt cfg) rq vehicle_id ["admin"] 204 enable_build.
Definition disable_kill_switch (rq : request) (vehicle_id : input uuid) : Ma Response :=
mutation (ad_jwt cfg) rq vehicle_id ["admin"] 204 disable_build.

(** The declared return type [dict] is checked by FastAPI. *)
Definition bookings_handler (authorization : option string) (claims : dict) (page : Z * Z) : Ma dict :=
require_role claims ["admin"];;
v ← upstream_errors (
bearer_token ← header_token authorization;
list_bookings (booking_base_url cfg) bearer_token page.1 page.2);
match v with PDict d => mret d | _ => raise ValueError end.

Definition bookings (rq : request) (page : input (Z * Z)) : Ma Response :=
query (ad_jwt cfg) rq page (bookings_handler (rq_authorization rq)).

Definition list_actions_handler (claims : dict) (page : Z * Z) : Ma dict :=
require_role claims ["admin"];;
actions ← list_recent page.1 page.2;
mret [("items", PList ((λ a, PDict (_action_response a)) <$> actions))].

Definition list_actions (rq : request) (page : input (Z * Z)) : Ma Response :=
query (ad_jwt cfg) rq page list_actions_handler.

Inductive admin_request :=
| PostApprove (vehicle_id : input uuid)
| PostReject (vehicle_id : input uuid)
| GetBookings (page : input (Z * Z))
| EnableKillSwitch (vehicle_id : input uuid)
| DisableKillSwitch (vehicle_id : input uuid)
| GetActions (page : input (Z * Z)).

Definition handle (rq : request) (r : admin_request) : Ma Response :=
match r with
| PostApprove i => approve rq i
| PostReject i => reject rq i
| GetBookings i => bookings rq i
| EnableKillSwitch i => enable_kill_switch rq i
| DisableKillSwitch i => disable_kill_switch rq i
| GetActions i => list_actions rq i
end.
End admin.

(** ** What is audited *)
Section audit.
Context {R U : Type} `{!Redis R} `{!Upstream U} `{!FloatText} `{!Platform}.
Implicit Types s : session AdminDB (admin_world R U).
Variable cfg : admin_settings.

(** The entry a request that succeeds leaves in the audit trail. *)
Definition audit_entry (r : admin_request) : option (string * uuid) :=
match r with
| PostApprove (Valid v) => Some ("vehicle_approved", v)
| PostReject (Valid v) => Some ("vehicle_rejected", v)
| EnableKillSwitch (Valid v) => Some ("kill_switch_activated", v)
| DisableKillSwitch (Valid v) => Some ("kill_switch_deactivated", v)
| _ => None
end.

Definition entry_of (claims : dict) (action_type : string) (v : uuid) (a : AdminAction) : Prop :=
uuid_field claims "sub" (ac_admin_id a) ∧ ac_action_type a = action_type ∧
ac_target_type a = "vehicle" ∧ ac_target_id a = str_uuid v.

(** [m] appends one entry to the trail, and nothing else to the database. *)
Definition appends (claims : dict) (action_type : string) (v : uuid) s s' : Prop :=
∃ a, work s' = mk_admin_db (admin_actions (work s) ++ [a]) (ad_idem (work s)) ∧
entry_of claims action_type v a.

Lemma record_Ok admin_id ty tt_ tid p s a s' :
record admin_id ty tt_ tid p s = (Ok a, s') →
work s' = mk_admin_db (admin_actions (work s) ++ [a]) (ad_idem (work s)) ∧ world s' = world s ∧
ac_admin_id a = admin_id ∧ ac_action_type a = ty ∧ ac_target_type a = tt_ ∧ ac_target_id a = tid.
Proof.
unfold record. rewrite run_bind. cbn [uuid4]. rewrite run_bind. cbn [now gets]. rewrite run_bind.
cbn [get_db gets]. case_decide; [|done]. rewrite run_bind. by intros [= <- <-].
Qed.

Lemma claims_sub_field claims s u s' :
claims_sub claims s = (Ok u, s') → s' = s ∧ uuid_field claims "sub" u.
Proof.
unfold claims_sub. intros (v & Hv & Hu)%bind_pure; [|apply read_only_getitem].
assert (s' = s) as -> by (pose proof (read_only_to_uuid v s) as Hs; by rewrite Hu in Hs).
split; [done|]. by eapply getitem_uuid.
Qed.

Lemma header_token_read_only auth : read_only (header_token (R := R) (U := U) auth).
Proof. unfold header_token. read_only. Qed.

Lemma json_response_read_only r : read_only (json_response (R := R) (U := U) r).
Proof. unfold json_response, loads. destruct r. read_only. Qed.

Lemma post_vehicle_Ok url verb v t s x s' :
post_vehicle url verb v t s = (Ok x, s') →
work s' = work s ∧ aw_redis (world s') = aw_redis (world s).
Proof.
unfold post_vehicle. intros (key & s1 & [= _ <-] & Hr)%bind_Ok.
apply bind_Ok in Hr as (r & s2 & Hp & Hr). unfold via_http, call in Hp.
destruct (http_post _ _ _) as [r' u]. injection Hp as _ <-.
match type of Hr with json_response r ?s1 = _ =>
pose proof (json_response_read_only r s1) as Hro end.
rewrite Hr in Hro. simpl in Hro. by subst.
Qed.

(** A decision that returned was answered below 400. *)
Lemma post_vehicle_answered url verb v t s x s' :
post_vehicle url verb v t s = (Ok x, s') →
∃ st text u, http_post (rstrip_slash url +:+ "/listing/vehicles/" +:+ str_uuid v +:+ verb)
  [("Authorization", PStr ("Bearer " +:+ t)); ("Idempotency-Key", PStr (str_uuid (fresh (senv s) 0)))]
  (aw_upstream (world s)) = (Ok (st, text), u) ∧ (st < 400)%Z ∧ aw_upstream (world s') = u.
Proof.
unfold post_vehicle. intros (key & s1 & Hk & Hr)%bind_Ok.
change (uuid4 s) with (Ok (fresh (senv s) 0), mk_session (committed s) (work s) (world s) (shift_env (senv s))) in Hk.
apply pair_eq in Hk as [[= <-] <-]. apply bind_Ok in Hr as ([st text] & s2 & Hp & Hr).
unfold via_http, call in Hp. cbn [world] in Hp.
destruct (http_post _ _ _) as [r' u]. apply pair_eq in Hp as [-> <-].
match type of Hr with json_response ?r ?s1 = _ =>
  pose proof (json_response_read_only r s1) as Hro end.
rewrite Hr in Hro. simpl in Hro. subst s'. unfold json_response in Hr. case_decide; [done|].
exists st, text, u. split_and!; [done|lia|done].
Qed.

Lemma upstream_errors_Ok {A} (m : M (session AdminDB (admin_world R U)) A) s a s' :
upstream_errors m s = (Ok a, s') → m s = (Ok a, s').
Proof.
unfold upstream_errors. rewrite try_except_Ok. intros [?|(e & ? & k & _ & Hk & Hr)]; [done|].
by destruct e; simplify_eq.
Qed.

(** The two decisions differ in the path and the entry. *)
Lemma decision_appends auth claims url verb action v s j s' :
(x ← upstream_errors (
 admin_id ← claims_sub claims;
 bearer_token ← header_token auth;
 x ← post_vehicle url verb v bearer_token;
 record admin_id action "vehicle" (str_uuid v) [];;
 mret x);
 mret (json_dumps x)) s = (Ok j, s') →
appends claims action v s s' ∧ aw_redis (world s') = aw_redis (world s) ∧
∃ t y s1, post_vehicle url verb v t s = (Ok y, s1) ∧ world s' = world s1.
Proof.
intros (x & s1 & Hx%upstream_errors_Ok & [= _ <-])%bind_Ok.
apply bind_Ok in Hx as (admin_id & s2 & [-> Hsub]%claims_sub_field & Hx).
apply bind_pure in Hx as (t & _ & Hx); [|apply header_token_read_only].
apply bind_Ok in Hx as (y & s2 & Hp & Hx). pose proof Hp as [Hw Hredis]%post_vehicle_Ok.
apply bind_Ok in Hx as (a & s3 & (Hw' & Hworld & <- & <- & Ht & Hid)%record_Ok & [= _ <-]).
split; [|split; [congruence|by exists t, y, s2]]. exists a. rewrite Hw', Hw. by split_and!.
Qed.

(** So do the two settings of the kill switch. *)
Lemma switch_appends claims (m : M R unit) action v s j s' :
(admin_id ← claims_sub claims;
 (via_redis m;; record admin_id action "vehicle" (str_uuid v) [];; mret tt);;
 mret "") s = (Ok j, s') →
appends claims action v s s' ∧ m (aw_redis (world s)) = (Ok tt, aw_redis (world s')).
Proof.
intros (admin_id & s1 & [-> Hsub]%claims_sub_field & Hr)%bind_Ok.
apply bind_Ok in Hr as ([] & s1 & Hr & [= _ <-]).
apply bind_Ok in Hr as ([] & s2 & Hm & Hr). unfold via_redis, call in Hm.
destruct (m (aw_redis (world s))) as [r rd] eqn:E. injection Hm as -> <-.
apply bind_Ok in Hr as (a & s3 & (Hw & Hworld & <- & <- & Ht & Hid)%record_Ok & [= <-]).
split; [|by rewrite Hworld]. exists a. by split_and!.
Qed.

(** The handler of each audited request appends its entry. *)
Lemma mutation_appends rq (i : input uuid) status build action s resp s' :
committed s = work s →
(∀ claims v s j s', build claims v s = (Ok j, s') → appends claims action v s s') →
mutation (ad_jwt cfg) rq i ["admin"] status build s = (Ok resp, s') →
s' = s ∨ ∃ v claims a s1 j, i = Valid v ∧ get_access_claims (ad_jwt cfg) rq s = (Ok claims, s) ∧
dict_get claims "role" = Some (PStr "admin") ∧ entry_of claims action v a ∧
admin_actions (committed s') = admin_actions (committed s) ++ [a] ∧
build claims v s = (Ok j, s1) ∧ world s' = world s1.
Proof.
intros Hs Hb Hm.
apply mutation_authorized in Hm
as [?|(claims & role & v & j & s1 & -> & Ha & Hrole & Hin & Hr & Hc & Hw & Hwork)]; [by left|].
right. apply list_elem_of_singleton in Hin as ->.
destruct (Hb _ _ _ _ _ Hr) as (a & Hw1 & Ha').
exists v, claims, a, s1, j. split_and!; try done.
rewrite Hc, Hs. destruct Hwork as [->|[m ->]]; by rewrite Hw1.
Qed.

Lemma approve_build_Ok auth claims v s j s' :
approve_build cfg auth claims v s = (Ok j, s') → appends claims "vehicle_approved" v s s'.
Proof. intros H1. by apply (decision_appends auth claims (listing_base_url cfg) "/approve") in H1 as []. Qed.
Lemma reject_build_Ok auth claims v s j s' :
reject_build cfg auth claims v s = (Ok j, s') → appends claims "vehicle_rejected" v s s'.
Proof. intros H1. by apply (decision_appends auth claims (listing_base_url cfg) "/reject") in H1 as []. Qed.
Lemma enable_build_Ok claims v s j s' :
enable_build claims v s = (Ok j, s') → appends claims "kill_switch_activated" v s s' ∧
activate (str_uuid v) (aw_redis (world s)) = (Ok tt, aw_redis (world s')).
Proof. apply switch_appends. Qed.
Lemma disable_build_Ok claims v s j s' :
disable_build claims v s = (Ok j, s') → appends claims "kill_switch_deactivated" v s s' ∧
deactivate (str_uuid v) (aw_redis (world s)) = (Ok tt, aw_redis (world s')).
Proof. apply switch_appends. Qed.

Lemma no_commit_record a b c d p : no_commit (record (R := R) (U := U) a b c d p).
Proof. unfold record. no_commit. Qed.
Lemma no_commit_via_redis {A} (m : M R A) : no_commit (via_redis (U := U) m).
Proof. apply no_commit_call. Qed.
Lemma no_commit_via_http {A} (m : M U A) : no_commit (via_http (R := R) m).
Proof. apply no_commit_call. Qed.
Lemma no_commit_read_only {A} (m : M (session AdminDB (admin_world R U)) A) : read_only m → no_commit m.
Proof. intros Hm s. by rewrite Hm. Qed.
Lemma no_commit_json_response r : no_commit (json_response (R := R) (U := U) r).
Proof. apply no_commit_read_only, json_response_read_only. Qed.
Lemma no_commit_header_token auth : no_commit (header_token (R := R) (U := U) auth).
Proof. apply no_commit_read_only, header_token_read_only. Qed.
#[local] Hint Resolve no_commit_record no_commit_via_redis no_commit_via_http
no_commit_json_response no_commit_header_token no_commit_claims_sub : effects.

Lemma build_no_commit auth claims v :
no_commit (approve_build cfg (R := R) (U := U) auth claims v) ∧
no_commit (reject_build cfg (R := R) (U := U) auth claims v) ∧
no_commit (enable_build (R := R) (U := U) claims v) ∧
no_commit (disable_build (R := R) (U := U) claims v).
Proof.
unfold approve_build, reject_build, enable_build, disable_build, upstream_errors, approve_vehicle,
reject_vehicle, client_approve_vehicle, client_reject_vehicle, post_vehicle,
activate_kill_switch, deactivate_kill_switch.
split_and!; no_commit.
Qed.

Lemma preserves_via_http {A} (m : M U A) : preserves committed (via_http (R := R) m).
Proof. intros s. apply no_commit_via_http. Qed.
Lemma preserves_json_response r : preserves committed (json_response (R := R) (U := U) r).
Proof. intros s. apply no_commit_json_response. Qed.
Lemma preserves_header_token auth : preserves committed (header_token (R := R) (U := U) auth).
Proof. intros s. apply no_commit_header_token. Qed.
#[local] Hint Resolve preserves_via_http preserves_json_response preserves_header_token : preserves.

(** What the trail shows of a guarded request that would be entered as [entry]. *)
Definition audited (rq : request) (entry : option (string * uuid)) s s' (res : result Response) : Prop :=
match res, entry with
| Ok _, Some (action, v) =>
  s' = s ∨ ∃ claims a, get_access_claims (ad_jwt cfg) rq s = (Ok claims, s) ∧
    dict_get claims "role" = Some (PStr "admin") ∧ entry_of claims action v a ∧
    admin_actions (committed s') = admin_actions (committed s) ++ [a]
| _, _ => committed s' = committed s
end.

Lemma mutation_audited rq i status build action s res s' :
committed s = work s →
(∀ claims v, no_commit (build claims v)) →
(∀ claims v s j s', build claims v s = (Ok j, s') → appends claims action v s s') →
mutation (ad_jwt cfg) rq i ["admin"] status build s = (res, s') →
audited rq (match i with Valid v => Some (action, v) | _ => None end) s s' res.
Proof.
intros Hs Hnc Hb Hm. destruct res as [resp|e]; [|by eapply mutation_Err].
destruct (mutation_appends rq i status build action s resp s' Hs Hb Hm)
as [->|(v & claims & a & s1 & j & -> & Ha & Hrole & He & Hact & _)].
- destruct i; [done..|]. by left.
- right. by exists claims, a.
Qed.

(** The two queries commit nothing. *)
Lemma bookings_committed rq i : preserves committed (bookings cfg (R := R) (U := U) rq i).
Proof.
apply preserves_query. intros claims p.
unfold bookings_handler, upstream_errors, list_bookings, client_list_bookings. preserves.
Qed.
Lemma list_actions_committed rq i : preserves committed (list_actions cfg (R := R) (U := U) rq i).
Proof.
apply preserves_query. intros claims p. unfold list_actions_handler, list_recent, get_db. preserves.
Qed.
End audit.

(** The audit trail is the list of the requests that succeeded: a
    decision or a kill-switch setting that returns either replays an earlier
    answer and changes nothing, or was made with an administrator's access
    token and appends exactly one entry naming the administrator, the action
    and the vehicle; every other request, and every one that fails, leaves
    the trail alone. *)
Theorem admin_audit {R U : Type} `{!Redis R} `{!Upstream U} `{!FloatText} `{!Platform}
    (cfg : admin_settings) (rq : request) (r : admin_request)
    (s s' : session AdminDB (admin_world R U)) (res : result Response) :
  committed s = work s → handle cfg rq r s = (res, s') →
  match res, audit_entry r with
  | Ok _, Some (action, v) =>
      s' = s ∨ ∃ claims a, get_access_claims (ad_jwt cfg) rq s = (Ok claims, s) ∧
        dict_get claims "role" = Some (PStr "admin") ∧ entry_of claims action v a ∧
        admin_actions (committed s') = admin_actions (committed s) ++ [a]
  | _, _ => committed s' = committed s
  end.
Proof.
  intros Hs Hr. change (audited cfg rq (audit_entry r) s s' res).
  assert (committed s' = committed s → audit_entry r = None → audited cfg rq (audit_entry r) s s' res)
    as Hquery by (intros Hc ->; by destruct res).
  destruct r as [i|i|page|i|i|page].
  - eapply (mutation_audited _ _ _ _ _ "vehicle_approved") in Hr; [destruct i; exact Hr|exact Hs|..].
    + intros claims v. exact (proj1 (build_no_commit cfg _ claims v)).
    + exact (approve_build_Ok cfg _).
  - eapply (mutation_audited _ _ _ _ _ "vehicle_rejected") in Hr; [destruct i; exact Hr|exact Hs|..].
    + intros claims v. exact (proj1 (proj2 (build_no_commit cfg _ claims v))).
    + exact (reject_build_Ok cfg _).
  - apply Hquery; [|done]. pose proof (bookings_committed cfg rq page s) as Hc. cbn in Hr.
    by rewrite Hr in Hc.
  - eapply (mutation_audited _ _ _ _ _ "kill_switch_activated") in Hr; [destruct i; exact Hr|exact Hs|..].
    + intros claims v. exact (proj1 (proj2 (proj2 (build_no_commit cfg None claims v)))).
    + intros ????? [Hb _]%enable_build_Ok. exact Hb.
  - eapply (mutation_audited _ _ _ _ _ "kill_switch_deactivated") in Hr; [destruct i; exact Hr|exact Hs|..].
    + intros claims v. exact (proj2 (proj2 (proj2 (build_no_commit cfg None claims v)))).
    + intros ????? [Hb _]%disable_build_Ok. exact Hb.
  - apply Hquery; [|done]. pose proof (list_actions_committed cfg rq page s) as Hc. cbn in Hr.
    by rewrite Hr in Hc.
Qed.

