(* ===== verification/Tables.v ===== *)
(** * Tables: the repositories against the migrated tables

    The repositories of the services are modelled on maps and lists of
    records, and refuse what the columns and constraints of the tables
    refuse.  Here both are put side by side: a record is a row of the table
    the migrations made ([booking_row], [payment_row], ...), a database of
    records is represented by tables that hold its rows ([booking_rep], ...),
    and a write of a repository [agrees] with the SQL statement: the same
    result, the same exception, and again represented. *)
From S2P Require Import Prelude Python Columns Effects Outbox Inbox Idempotency JwtAuth Http Settings.
From S2P Require Import Schema Migrations Auth AuthFacts Admin BookingDomain BookingRepo Payment Listing.

Definition schema_of (ss : list script) (name : string) : table :=
  default (mk_table [] [] []) (tables (snd (upgrade_all ss empty_database)) !! name).

Definition opt_int (o : option Z) : cell := match o with Some z => CInt z | None => NULL end.
Definition opt_text (o : option string) : cell := match o with Some s => CText s | None => NULL end.

(** ** Records and the rows that hold them; [t] are the timestamps the
    record leaves out. *)
Record stored {T A} (f : T → A → row) (key : string) (P : A → Prop) (rs : list row) : Prop := mk_stored {
  st_out : ∀ a, P a → ∃ t, f t a ∈ rs;
  st_in : ∀ r, r ∈ rs → ∃ a t, P a ∧ r = f t a;
  st_key : NoDup ((λ r, row_get r key) <$> rs);
}.

Section stored.
Context {T A : Type} (f : T → A → row) (key : string) (kof : A → uuid).
Hypothesis Hkey : ∀ t a, row_get (f t a) key = CUuid (kof a).

Lemma stored_iff P P' rs : (∀ a, P a ↔ P' a) → stored f key P rs → stored f key P' rs.
Proof.
intros HP [H1 H2 H3]. split; [|intros r Hr|done].
- intros a Ha. by apply H1, HP.
- destruct (H2 r Hr) as (a & t & ? & ?). exists a, t. by rewrite <- HP.
Qed.

Lemma stored_Exists P rs (Q : row → Prop) (Q' : A → Prop) :
stored f key P rs → (∀ t a, P a → Q (f t a) ↔ Q' a) → Exists Q rs ↔ ∃ a, P a ∧ Q' a.
Proof.
intros [H1 H2 _] HQ. rewrite Exists_exists. split.
- intros (r & Hr & Hq). destruct (H2 r Hr) as (a & t & Ha & ->). exists a. by rewrite <- (HQ t).
- intros (a & Ha & Hq). destruct (H1 a Ha) as (t & Ht). exists (f t a). by rewrite HQ.
Qed.

Lemma same_key t a t' a' : same (row_get (f t a) key) (row_get (f t' a') key) ↔ kof a = kof a'.
Proof. by rewrite !Hkey. Qed.

(** The rows but for the one with this key. *)
Lemma stored_others P rs t a :
stored f key P rs →
stored f key (λ a', P a' ∧ kof a ≠ kof a')
  (filter (λ r', ¬ same (row_get (f t a) key) (row_get r' key)) rs).
Proof.
intros [H1 H2 H3]. split.
- intros a' [Ha' Hne]. destruct (H1 a' Ha') as (t' & Ht'). exists t'. apply list_elem_of_filter.
  by rewrite same_key.
- intros r [Hne Hr]%list_elem_of_filter. destruct (H2 r Hr) as (a' & t' & Ha' & ->).
  exists a', t'. by rewrite same_key in Hne.
- eapply sublist_NoDup; [exact H3|]. apply fmap_sublist, sublist_filter.
Qed.

Lemma stored_snoc P rs t a :
stored f key P rs → (∀ a', P a' → kof a ≠ kof a') →
stored f key (λ a', a' = a ∨ P a') (rs ++ [f t a]).
Proof.
intros [H1 H2 H3] Hne. split.
- intros a' [->|Ha']; [exists t; set_solver|]. destruct (H1 a' Ha') as (t' & Ht'). exists t'. set_solver.
- intros r [Hr| ->%list_elem_of_singleton]%elem_of_app; [|exists a, t; by split; [left|]].
  destruct (H2 r Hr) as (a' & t' & Ha' & ->). exists a', t'. by split; [right|].
- rewrite fmap_app. apply NoDup_app. split_and!; [done| |apply NoDup_singleton].
  intros c (r & -> & Hr)%list_elem_of_fmap. destruct (H2 r Hr) as (a' & t' & Ha' & ->). simpl.
  rewrite !Hkey, list_elem_of_singleton. intros [= E]. by apply (Hne a' Ha').
Qed.
End stored.

Lemma filter_id {A} (P : A → Prop) `{!∀ x, Decision (P x)} l : Forall P l → filter P l = l.
Proof. induction 1; [done|]. rewrite filter_cons_True by done. by f_equal. Qed.

(** A constraint none of the other rows conflicts with. *)
Lemma index_free r others k :
  match k with ExcludeUsingGist _ _ _ _ => False | _ => True end →
  ¬ Exists (conflict k r) others → index_error r others k = None.
Proof. intros Hk Hn. by destruct k; [..|done]; unfold index_error; rewrite decide_False. Qed.

(** A CHECK or a foreign key has no index. *)
Lemma index_none r others k :
  match k with CheckConstraint _ | ForeignKeyConstraint _ _ _ => True | _ => False end →
  index_error r others k = None.
Proof.
  intros Hk. apply index_free; [by destruct k|]. rewrite Exists_exists. intros (r' & _ & Hc). by destruct k.
Qed.

(** [session.flush()] of an object: an INSERT when it is new, an UPDATE of its
    row when it was read. *)
Definition flush_row (name key : string) (r : row) : Md unit :=
  t ← get_table name;
  if decide (Exists (λ r', same (row_get r key) (row_get r' key)) (t_rows t))
  then update_row name key r else insert_row name r.

Definition agrees {DB W} (rep : DB → database → Prop) (m : M (session DB W) unit) (stmt : Md unit)
    (s : session DB W) (db : database) : Prop :=
  ∃ r s' db', m s = (r, s') ∧ stmt db = (r, db') ∧ rep (work s') db'.

(** The flush of a stored record is one write beside the other rows. *)
Lemma flush_row_run {T A} (f : T → A → row) key kof P (t : table) db name rs u a :
  (∀ t a, row_get (f t a) key = CUuid (kof a)) →
  tables db !! name = Some (set_rows rs t) → stored f key P rs →
  ∃ others, stored f key (λ a', P a' ∧ kof a ≠ kof a') others ∧
    flush_row name key (f u a) db = write name (set_rows rs t) (f u a) others db.
Proof.
  intros Hkey Ht Hs. exists (filter (λ r', ¬ same (row_get (f u a) key) (row_get r' key)) rs).
  split; [by apply stored_others|]. unfold flush_row, update_row, insert_row.
  rewrite run_get_table, Ht. simpl. case_decide as He; rewrite run_get_table, Ht; simpl.
  - by rewrite decide_True.
  - f_equal. symmetry. apply filter_id. by apply Forall_Exists_neg.
Qed.

(** An INSERT is one write beside the rows there are. *)
Lemma insert_row_run db name rs t r :
  tables db !! name = Some (set_rows rs t) →
  insert_row name r db = write name (set_rows rs t) r rs db.
Proof. intros Ht. unfold insert_row. by rewrite run_get_table, Ht. Qed.

(** The index of a key no other row has. *)
Lemma index_key {T A} (f : T → A → row) key kof P rs u a :
  (∀ t a, row_get (f t a) key = CUuid (kof a)) →
  stored f key P rs → (∀ a', P a' → kof a ≠ kof a') →
  index_error (f u a) rs (PrimaryKeyConstraint [key]) = None.
Proof.
  intros Hkey Hs Hne. apply index_free; [done|].
  rewrite (stored_Exists _ _ _ _ _ (λ a', kof a = kof a') Hs); [naive_solver|].
  intros t a' _. simpl. rewrite Forall_singleton. by rewrite !Hkey.
Qed.

(** The next check refuses the write on both sides. *)
Ltac refused := case_decide; [do 3 eexists; split; [done|]; by split_and!; [|split; eauto]|].

(** ** services/booking *)
Definition bookings_table : table := Eval vm_compute in schema_of booking_scripts "bookings".
Definition booking_events_table : table := Eval vm_compute in schema_of booking_scripts "booking_events".

Definition booking_row (updated_at : Z) (b : Booking) : row :=
  [("id", CUuid (bk_id b)); ("vehicle_id", CUuid (bk_vehicle_id b)); ("host_id", CUuid (bk_host_id b));
   ("renter_id", CUuid (bk_renter_id b)); ("start_date", CDate (bk_start_date b));
   ("end_date", CDate (bk_end_date b)); ("daily_price_cents", CInt (bk_daily_price_cents b));
   ("daily_mileage_limit", CInt (bk_daily_mileage_limit b)); ("booking_mode", CText (bk_booking_mode b));
   ("status", CText (bk_status b)); ("version", CInt (bk_version b));
   ("start_odometer", opt_int (bk_start_odometer b)); ("end_odometer", opt_int (bk_end_odometer b));
   ("start_fuel_percent", opt_int (bk_start_fuel_percent b));
   ("end_fuel_percent", opt_int (bk_end_fuel_percent b));
   ("start_photo_url", opt_text (bk_start_photo_url b)); ("end_photo_url", opt_text (bk_end_photo_url b));
   ("overage_cents", CInt (bk_overage_cents b)); ("created_at", CTime (bk_created_at b));
   ("updated_at", CTime updated_at)].

Definition booking_event_row (created_at : Z) (ev : BookingEvent) : row :=
  [("id", CUuid (ev_id ev)); ("booking_id", CUuid (ev_booking_id ev)); ("version", CInt (ev_version ev));
   ("event_type", CText (ev_type ev)); ("payload", CJson (PDict (ev_payload ev)));
   ("created_at", CTime created_at)].

Record booking_rep (bdb : BookingDB) (db : database) : Prop := mk_booking_rep {
  br_bookings : ∃ rs, tables db !! "bookings" = Some (set_rows rs bookings_table) ∧
    stored booking_row "id" (λ b, bookings bdb !! bk_id b = Some b) rs;
  br_events : ∃ rs, tables db !! "booking_events" = Some (set_rows rs booking_events_table) ∧
    stored booking_event_row "id" (.∈ booking_events bdb) rs;
  br_key : ∀ i b, bookings bdb !! i = Some b → bk_id b = i;
  br_dates : ∀ i b, bookings bdb !! i = Some b → (bk_start_date b ≤ bk_end_date b)%Z;
}.

Lemma fits_int o : type_fits Integer_ (opt_int o) ↔ opt_all int4 o.
Proof. by destruct o. Qed.
Lemma fits_text n o : type_fits (String_ (Some n)) (opt_text o) ↔ opt_all (varchar n) o.
Proof. by destruct o. Qed.

Lemma booking_row_fits rs u b :
  row_fits (set_rows rs bookings_table) (booking_row u b) ∧ (bk_start_date b ≤ bk_end_date b)%Z ↔
  row_types b.
Proof.
  unfold row_fits, bookings_table, booking_row, row_types. cbn [set_rows t_columns].
  rewrite !Forall2_cons, Forall2_nil. cbn [fst snd c_name c_type]. rewrite !fits_int, !fits_text.
  cbn [type_fits]. naive_solver.
Qed.

Lemma not_null_row cols ks rs r :
  forallb (λ c, c_nullable c || bool_decide (¬ null (row_get r (c_name c)))) cols = true →
  not_null (mk_table cols ks rs) r.
Proof.
  unfold not_null. simpl. rewrite forallb_forall, Forall_forall. intros H c Hc Hn.
  apply list_elem_of_In, H in Hc. rewrite Hn in Hc. by apply bool_decide_eq_true in Hc.
Qed.

(** The exclusion constraint on two rows whose ranges can be formed. *)
Lemma booking_conflict u b u' b' :
  (bk_start_date b ≤ bk_end_date b)%Z → (bk_start_date b' ≤ bk_end_date b')%Z →
  conflict (ExcludeUsingGist "vehicle_id" "start_date" "end_date" (Some ("status", ["cancelled"; "rejected"])))
    (booking_row u b) (booking_row u' b') ↔ clash b b'.
Proof.
  intros Hb Hb'. unfold conflict, excluded, daterange, clash, holds_dates. simpl.
  rewrite !decide_True by done. unfold range_overlap. naive_solver.
Qed.

(** What a write of a booking raises, next to the rows of other bookings. *)
Lemma booking_write_error db bdb rs others u b :
  (∀ i b, bookings bdb !! i = Some b → bk_id b = i) →
  (∀ i b, bookings bdb !! i = Some b → (bk_start_date b ≤ bk_end_date b)%Z) →
  stored booking_row "id" (λ b', bookings bdb !! bk_id b' = Some b' ∧ bk_id b ≠ bk_id b') others →
  (bk_start_date b ≤ bk_end_date b)%Z →
  write_error db (set_rows rs bookings_table) (booking_row u b) others =
  if decide (¬ row_types b) then Some DataError
  else if decide (bk_status b ∉ booking_statuses) then Some IntegrityError
  else if decide (¬ no_clash b (bookings bdb)) then Some IntegrityError else None.
Proof.
  intros Hk Hd Hs Hb. unfold write_error.
  rewrite (decide_ext _ (¬ row_types b)) by (rewrite <- (booking_row_fits rs u b); tauto).
  case_decide; [done|].
  assert (not_null (set_rows rs bookings_table) (booking_row u b)) as Hn by by apply not_null_row.
  assert (checks_hold (set_rows rs bookings_table) (booking_row u b) ↔ bk_status b ∈ booking_statuses) as Hc.
  { unfold checks_hold, bookings_table. cbn [set_rows t_constraints].
    rewrite !Forall_cons, Forall_nil. cbn. unfold booking_statuses. tauto. }
  rewrite (decide_ext _ (bk_status b ∉ booking_statuses)) by tauto. case_decide; [done|].
  unfold bookings_table. cbn [set_rows t_constraints first_error]. rewrite (index_key booking_row "id" bk_id _ _ _ _ (λ _ _, eq_refl) Hs) by naive_solver.
  rewrite index_none by done.
  assert (Exists (conflict (ExcludeUsingGist "vehicle_id" "start_date" "end_date"
    (Some ("status", ["cancelled"; "rejected"]))) (booking_row u b)) others ↔ ¬ no_clash b (bookings bdb)) as Hx.
  { rewrite (stored_Exists _ _ _ _ _ (clash b) Hs).
    2:{ intros t b' [Hb' _]. apply booking_conflict; [done|]. by eapply Hd. }
    unfold no_clash. split.
    - intros (b' & [Hb' Hne] & Hcl) Hno. destruct (Hno _ _ Hb'); naive_solver.
    - intros (i & b' & Hb' & Hno)%map_not_Forall; [|apply _]. exists b'.
      pose proof (Hk _ _ Hb') as <-. apply Decidable.not_or in Hno as [Hne Hcl].
      split; [by split|]. by apply dec_stable. }
  cbn [index_error]. rewrite decide_False.
  2:{ intros [_ Hr]. revert Hr. unfold daterange. simpl. by rewrite decide_True. }
  rewrite (decide_ext _ _ _ _ Hx). case_decide; [done|]. rewrite decide_True; [done|].
  by repeat constructor.
Qed.

(** The map of the repository after a write, as the rows see it. *)
Lemma insert_stored {A} (kof : A → uuid) (m : gmap uuid A) a a' :
  (a' = a ∨ m !! kof a' = Some a' ∧ kof a ≠ kof a') ↔ <[kof a := a]> m !! kof a' = Some a'.
Proof.
  rewrite lookup_insert_Some. destruct (decide (kof a = kof a')) as [He|He]; [|naive_solver].
  split; [intros [->|[_ ?]]; [by left|done] | intros [[_ ->]|[? _]]; [by left|done]].
Qed.

Lemma flush_booking_agrees {W} (s : session BookingDB W) db u b :
  booking_rep (work s) db → (bk_start_date b ≤ bk_end_date b)%Z →
  agrees booking_rep (flush_booking b) (flush_row "bookings" "id" (booking_row u b)) s db.
Proof.
  intros [(rs & Ht & Hs) He Hk Hd] Hb.
  destruct (flush_row_run booking_row "id" bk_id _ _ db "bookings" rs u b (λ _ _, eq_refl) Ht Hs)
    as (others & Ho & Hr).
  unfold agrees. rewrite Hr. unfold write, flush_booking, get_db. rewrite run_gets, run_bind. simpl.
  rewrite (booking_write_error _ (work s)) by done.
  refused.
  refused.
  refused.
  do 3 eexists. split_and!; [done..|]. split; simpl.
  - exists (others ++ [booking_row u b]). split; [apply lookup_insert_eq|].
    eapply stored_iff; [|apply stored_snoc with (kof := bk_id); [done|exact Ho|naive_solver]].
    intros b'. apply insert_stored.
  - destruct He as (es & Het & Hes). exists es. split; [|done]. by rewrite lookup_insert_ne.
  - intros i b' [[<- <-]|[_ Hi]]%lookup_insert_Some; [done|by apply Hk].
  - intros i b' [[<- <-]|[_ Hi]]%lookup_insert_Some; [done|by eapply Hd].
Qed.

(** The write of a row with a new key, of a list of records. *)
Lemma stored_append {T A} (f : T → A → row) key kof l rs u a :
  (∀ t a, row_get (f t a) key = CUuid (kof a)) →
  stored f key (.∈ l) rs → (∀ a', a' ∈ l → kof a ≠ kof a') →
  stored f key (.∈ l ++ [a]) (rs ++ [f u a]).
Proof.
  intros Hkey Hs Hne. eapply stored_iff; [|by apply stored_snoc with (kof := kof)].
  intros a'. simpl. rewrite elem_of_app, list_elem_of_singleton. tauto.
Qed.

Lemma insert_event_agrees {W} (s : session BookingDB W) db u id v t d :
  booking_rep (work s) db → (∀ ev, ev ∈ booking_events (work s) → fresh (senv s) 0 ≠ ev_id ev) →
  agrees booking_rep (insert_event id v t d)
    (insert_row "booking_events" (booking_event_row u (mk_event (fresh (senv s) 0) id v t d))) s db.
Proof.
  intros [Hb (es & Ht & Hs) Hk Hd] Hf. set (ev := mk_event _ _ _ _ _).
  unfold agrees. rewrite (insert_row_run _ _ _ _ _ Ht). unfold write, insert_event, get_db, uuid4.
  rewrite run_gets, run_bind, run_bind. simpl. fold ev.
  assert (write_error db (set_rows es booking_events_table) (booking_event_row u ev) es =
    if decide (¬ (int4 v ∧ varchar 64 t)) then Some DataError
    else if decide (Exists (λ ev, ev_booking_id ev = id ∧ ev_version ev = v) (booking_events (work s)))
    then Some IntegrityError else None) as ->.
  { unfold write_error.
    rewrite (decide_ext _ (¬ (int4 v ∧ varchar 64 t))).
    2:{ unfold row_fits, booking_events_table, booking_event_row. cbn [set_rows t_columns].
      rewrite !Forall2_cons, Forall2_nil. cbn. naive_solver. }
    case_decide; [done|]. rewrite decide_False.
    2:{ intros Hn. apply Hn. split; [by apply not_null_row|]. by repeat constructor. }
    unfold booking_events_table. cbn [set_rows t_constraints first_error].
    rewrite (index_key booking_event_row "id" ev_id _ _ _ _ (λ _ _, eq_refl) Hs) by done.
    cbn [index_error].
    rewrite (decide_ext _ (Exists (λ ev, ev_booking_id ev = id ∧ ev_version ev = v) (booking_events (work s)))).
    2:{ rewrite (stored_Exists _ _ _ _ _ (λ ev, ev_booking_id ev = id ∧ ev_version ev = v) Hs).
      - by rewrite Exists_exists.
      - intros t' ev' _. cbn. rewrite !Forall_cons, Forall_nil. cbn. naive_solver. }
    case_decide; [done|]. rewrite decide_True; [done|]. by repeat constructor. }
  refused.
  refused.
  do 3 eexists. split_and!; [done..|]. split; simpl; [|..|done|done].
  - destruct Hb as (rs & Hbt & Hbs). exists rs. split; [|done]. by rewrite lookup_insert_ne.
  - exists (es ++ [booking_event_row u ev]). split; [apply lookup_insert_eq|].
    by apply stored_append with (kof := ev_id).
Qed.

(** ** services/payment *)
Definition payments_table : table := Eval vm_compute in schema_of payment_scripts "payments".
Definition ledger_entries_table : table := Eval vm_compute in schema_of payment_scripts "ledger_entries".

Definition payment_row (times : Z * Z) (p : Payment) : row :=
  [("id", CUuid (pm_id p)); ("booking_id", CUuid (pm_booking_id p)); ("renter_id", CUuid (pm_renter_id p));
   ("hold_amount_cents", CInt (pm_hold_amount_cents p)); ("overage_cents", CInt (pm_overage_cents p));
   ("status", CText (pm_status p));
   ("stripe_payment_intent_id", opt_text (pm_stripe_payment_intent_id p));
   ("stripe_overage_intent_id", opt_text (pm_stripe_overage_intent_id p));
   ("created_at", CTime times.1); ("updated_at", CTime times.2)].
Definition ledger_row (created_at : Z) (e : LedgerEntry) : row :=
  [("id", CUuid (le_id e)); ("payment_id", CUuid (le_payment_id e)); ("booking_id", CUuid (le_booking_id e));
   ("account", CText (le_account e)); ("direction", CText (le_direction e));
   ("amount_cents", CInt (le_amount_cents e)); ("reason", CText (le_reason e));
   ("created_at", CTime created_at)].

(** Two payments differ in their id and in their booking. *)
Record payment_rep (pdb : PaymentDB) (db : database) : Prop := mk_payment_rep {
  pr_payments : ∃ rs, tables db !! "payments" = Some (set_rows rs payments_table) ∧
    stored payment_row "id" (λ p, payments pdb !! pm_booking_id p = Some p) rs;
  pr_ledger : ∃ rs, tables db !! "ledger_entries" = Some (set_rows rs ledger_entries_table) ∧
    stored ledger_row "id" (.∈ ledger pdb) rs;
  pr_key : ∀ i p, payments pdb !! i = Some p → pm_booking_id p = i;
  pr_id : ∀ i j p q, payments pdb !! i = Some p → payments pdb !! j = Some q → pm_id p = pm_id q → i = j;
}.

(** The object [p] is new, or was read for its booking. *)
Definition loaded_or_new (p : Payment) (pdb : PaymentDB) : Prop :=
  match payments pdb !! pm_booking_id p with
  | Some q => pm_id q = pm_id p
  | None => ∀ i q, payments pdb !! i = Some q → pm_id q ≠ pm_id p
  end.

Lemma payment_row_fits rs u p : row_fits (set_rows rs payments_table) (payment_row u p) ↔ payment_types p.
Proof.
  unfold row_fits, payments_table, payment_row, payment_types. cbn [set_rows t_columns].
  rewrite !Forall2_cons, Forall2_nil. cbn [fst snd c_name c_type]. rewrite !fits_text.
  cbn [type_fits]. naive_solver.
Qed.

Lemma flush_payment_agrees {W} (s : session PaymentDB W) db u p :
  payment_rep (work s) db → loaded_or_new p (work s) →
  agrees payment_rep (flush_payment p) (flush_row "payments" "id" (payment_row u p)) s db.
Proof.
  intros [(rs & Ht & Hs) (ls & Htl & Hl) Hk Hi] Hp.
  assert (∀ q, payments (work s) !! pm_booking_id q = Some q → pm_id p = pm_id q ↔ pm_booking_id p = pm_booking_id q)
    as Hid.
  { unfold loaded_or_new in Hp. intros q Hq. destruct (payments (work s) !! pm_booking_id p) as [q'|] eqn:E.
    - split; [intros He; eapply Hi; [exact E|exact Hq|congruence]|]. intros He. rewrite He in E. congruence.
    - split; [intros He; exfalso; by eapply Hp|]. intros He. congruence. }
  destruct (flush_row_run payment_row "id" pm_id _ _ db "payments" rs u p (λ _ _, eq_refl) Ht Hs)
    as (others & Ho & Hr).
  unfold agrees. rewrite Hr. unfold write, flush_payment, get_db. rewrite run_gets, run_bind. simpl.
  assert (write_error db (set_rows rs payments_table) (payment_row u p) others =
    if decide (¬ payment_types p) then Some DataError
    else if decide (pm_status p ∉ payment_statuses) then Some IntegrityError else None) as ->.
  { unfold write_error. rewrite (decide_ext _ (¬ payment_types p)) by by rewrite payment_row_fits.
    case_decide; [done|]. rewrite (decide_ext _ (pm_status p ∉ payment_statuses)).
    2:{ assert (not_null (set_rows rs payments_table) (payment_row u p)) by by apply not_null_row.
      assert (checks_hold (set_rows rs payments_table) (payment_row u p) ↔ pm_status p ∈ payment_statuses).
      { unfold checks_hold, payments_table. cbn [set_rows t_constraints].
        rewrite !Forall_cons, Forall_nil. cbn. unfold payment_statuses. tauto. }
      tauto. }
    case_decide; [done|]. unfold payments_table. cbn [set_rows t_constraints first_error].
    rewrite (index_key payment_row "id" pm_id _ _ _ _ (λ _ _, eq_refl) Ho) by naive_solver.
    rewrite index_free; [|done|].
    2:{ rewrite (stored_Exists _ _ _ _ _ (λ q, pm_booking_id p = pm_booking_id q) Ho).
      - intros (q & [Hq Hne] & He). apply Hne. by apply Hid.
      - intros t q _. cbn. by rewrite Forall_singleton. }
    rewrite index_none by done. rewrite decide_True; [done|]. by repeat constructor. }
  refused.
  refused.
  do 3 eexists. split_and!; [done..|]. split; simpl.
  - exists (others ++ [payment_row u p]). split; [apply lookup_insert_eq|].
    eapply stored_iff; [|apply stored_snoc with (kof := pm_id); [done|exact Ho|naive_solver]].
    intros q. rewrite <- insert_stored. naive_solver.
  - exists ls. split; [|done]. by rewrite lookup_insert_ne.
  - intros i q [[<- <-]|[_ Hq]]%lookup_insert_Some; [done|by apply Hk].
  - intros i j q q' [[<- <-]|[Hne Hq]]%lookup_insert_Some [[<- <-]|[Hne' Hq']]%lookup_insert_Some He;
      [done| | |by eapply Hi].
    + pose proof (Hk _ _ Hq'). subst j. by apply Hid.
    + pose proof (Hk _ _ Hq). subst i. symmetry. by apply Hid.
Qed.

Lemma insert_entry_agrees {W} (s : session PaymentDB W) db u e :
  payment_rep (work s) db → (∀ e', e' ∈ ledger (work s) → le_id e ≠ le_id e') →
  agrees payment_rep (insert_entry e) (insert_row "ledger_entries" (ledger_row u e)) s db.
Proof.
  intros [(rs & Htp & Hp) (ls & Ht & Hs) Hk Hi] Hf.
  unfold agrees. rewrite (insert_row_run _ _ _ _ _ Ht). unfold write, insert_entry, get_db.
  rewrite run_gets, run_bind. simpl.
  assert (write_error db (set_rows ls ledger_entries_table) (ledger_row u e) ls =
    if decide (¬ entry_types e) then Some DataError
    else if decide (¬ entry_checks e) then Some IntegrityError
    else if decide (map_Forall (λ _ p, pm_id p ≠ le_payment_id e) (payments (work s)))
    then Some IntegrityError else None) as ->.
  { unfold write_error. rewrite (decide_ext _ (¬ entry_types e)).
    2:{ unfold row_fits, ledger_entries_table, ledger_row, entry_types. cbn [set_rows t_columns].
      rewrite !Forall2_cons, Forall2_nil. cbn. naive_solver. }
    case_decide; [done|]. rewrite (decide_ext _ (¬ entry_checks e)).
    2:{ assert (not_null (set_rows ls ledger_entries_table) (ledger_row u e)) by by apply not_null_row.
      assert (checks_hold (set_rows ls ledger_entries_table) (ledger_row u e) ↔ entry_checks e).
      { unfold checks_hold, ledger_entries_table, entry_checks. cbn [set_rows t_constraints].
        rewrite !Forall_cons, Forall_nil. cbn. tauto. }
      tauto. }
    case_decide; [done|]. unfold ledger_entries_table. cbn [set_rows t_constraints first_error].
    rewrite (index_key ledger_row "id" le_id _ _ _ _ (λ _ _, eq_refl) Hs) by done.
    rewrite !index_none by done.
    assert (referenced db (set_rows ls ledger_entries_table) (ledger_row u e) ↔
      ¬ map_Forall (λ _ p, pm_id p ≠ le_payment_id e) (payments (work s))) as Hr.
    { unfold referenced, ledger_entries_table. cbn [set_rows t_constraints].
      rewrite !Forall_cons, Forall_nil, Htp. cbn [set_rows t_rows].
      rewrite (stored_Exists _ _ _ _ _ (λ p, le_payment_id e = pm_id p) Hp) by done. split.
      - intros (_ & [[]|(p & Hp' & He)] & _) Hn. by apply (Hn _ _ Hp').
      - intros (i & p & Hi' & Hn)%map_not_Forall; [|apply _]. split_and!; try done. right. exists p.
        rewrite (Hk _ _ Hi'). split; [done|]. symmetry. by apply dec_stable. }
    unfold ledger_entries_table in Hr. repeat case_decide; tauto || done. }
  refused.
  refused.
  refused.
  do 3 eexists. split_and!; [done..|]. split; simpl; [| |done|done].
  - exists rs. split; [|done]. by rewrite lookup_insert_ne.
  - exists (ls ++ [ledger_row u e]). split; [apply lookup_insert_eq|].
    by apply stored_append with (kof := le_id).
Qed.

(** ** services/listing, at the second revision *)
Definition vehicles_table : table := Eval vm_compute in schema_of listing_scripts "vehicles".
Definition availability_blocks_table : table :=
  Eval vm_compute in schema_of listing_scripts "availability_blocks".

Definition vehicle_row (updated_at : Z) (v : Vehicle) : row :=
  [("id", CUuid (vh_id v)); ("host_id", CUuid (vh_host_id v)); ("make", CText (vh_make v));
   ("model", CText (vh_model v)); ("year", CInt (vh_year v));
   ("daily_price_cents", CInt (vh_daily_price_cents v));
   ("daily_mileage_limit", CInt (vh_daily_mileage_limit v));
   ("booking_mode", CText (vh_booking_mode v)); ("approval_status", CText (vh_approval_status v));
   ("created_at", CTime (vh_created_at v)); ("updated_at", CTime updated_at);
   ("latitude", CFloat (vh_latitude v)); ("longitude", CFloat (vh_longitude v))].
Definition block_row (created_at : Z) (b : AvailabilityBlock) : row :=
  [("id", CUuid (ab_id b)); ("vehicle_id", CUuid (ab_vehicle_id b)); ("start_date", CDate (ab_start_date b));
   ("end_date", CDate (ab_end_date b)); ("created_at", CTime created_at)].

Record listing_rep (ldb : ListingDB) (db : database) : Prop := mk_listing_rep {
  lr_vehicles : ∃ rs, tables db !! "vehicles" = Some (set_rows rs vehicles_table) ∧
    stored vehicle_row "id" (λ v, vehicles ldb !! vh_id v = Some v) rs;
  lr_blocks : ∃ rs, tables db !! "availability_blocks" = Some (set_rows rs availability_blocks_table) ∧
    stored block_row "id" (.∈ blocks ldb) rs;
  lr_key : ∀ i v, vehicles ldb !! i = Some v → vh_id v = i;
  lr_dates : ∀ b, b ∈ blocks ldb → (ab_start_date b ≤ ab_end_date b)%Z;
}.

Lemma flush_vehicle_agrees {W} (s : session ListingDB W) db u v :
  listing_rep (work s) db →
  agrees listing_rep (flush_vehicle v) (flush_row "vehicles" "id" (vehicle_row u v)) s db.
Proof.
  intros [(rs & Ht & Hs) (bs & Htb & Hb) Hk Hd].
  destruct (flush_row_run vehicle_row "id" vh_id _ _ db "vehicles" rs u v (λ _ _, eq_refl) Ht Hs)
    as (others & Ho & Hr).
  unfold agrees. rewrite Hr. unfold write, flush_vehicle, get_db. rewrite run_gets, run_bind. simpl.
  assert (write_error db (set_rows rs vehicles_table) (vehicle_row u v) others =
    if decide (¬ vehicle_types v) then Some DataError
    else if decide (¬ vehicle_checks v) then Some IntegrityError else None) as ->.
  { unfold write_error. rewrite (decide_ext _ (¬ vehicle_types v)).
    2:{ unfold row_fits, vehicles_table, vehicle_row, vehicle_types. cbn [set_rows t_columns].
      rewrite !Forall2_cons, Forall2_nil. cbn. naive_solver. }
    case_decide; [done|]. rewrite (decide_ext _ (¬ vehicle_checks v)).
    2:{ assert (not_null (set_rows rs vehicles_table) (vehicle_row u v)) by by apply not_null_row.
      assert (checks_hold (set_rows rs vehicles_table) (vehicle_row u v) ↔ vehicle_checks v).
      { unfold checks_hold, vehicles_table, vehicle_checks. cbn [set_rows t_constraints].
        rewrite !Forall_cons, Forall_nil. cbn. tauto. }
      tauto. }
    case_decide; [done|]. unfold vehicles_table. cbn [set_rows t_constraints first_error].
    rewrite (index_key vehicle_row "id" vh_id _ _ _ _ (λ _ _, eq_refl) Ho) by naive_solver.
    rewrite !index_none by done. rewrite decide_True; [done|]. by repeat constructor. }
  refused. refused.
  do 3 eexists. split_and!; [done..|]. split; simpl; [| | |done].
  - exists (others ++ [vehicle_row u v]). split; [apply lookup_insert_eq|].
    eapply stored_iff; [|apply stored_snoc with (kof := vh_id); [done|exact Ho|naive_solver]].
    intros v'. apply insert_stored.
  - exists bs. split; [|done]. by rewrite lookup_insert_ne.
  - intros i v' [[<- <-]|[_ Hi]]%lookup_insert_Some; [done|by apply Hk].
Qed.

Lemma block_conflict t b t' b' :
  (ab_start_date b ≤ ab_end_date b)%Z → (ab_start_date b' ≤ ab_end_date b')%Z →
  conflict (ExcludeUsingGist "vehicle_id" "start_date" "end_date" None) (block_row t b) (block_row t' b') ↔
  blocks_overlap b b'.
Proof.
  intros Hb Hb'. unfold conflict, excluded, daterange, blocks_overlap. simpl.
  rewrite !decide_True by done. unfold range_overlap. naive_solver.
Qed.

Lemma insert_block_agrees {W} (s : session ListingDB W) db u b :
  listing_rep (work s) db → (∀ b', b' ∈ blocks (work s) → ab_id b ≠ ab_id b') →
  agrees listing_rep (insert_block b) (insert_row "availability_blocks" (block_row u b)) s db.
Proof.
  intros [(rs & Htv & Hv) (bs & Ht & Hs) Hk Hd] Hf.
  unfold agrees. rewrite (insert_row_run _ _ _ _ _ Ht). unfold write, insert_block, get_db.
  rewrite run_gets, run_bind. simpl.
  assert (write_error db (set_rows bs availability_blocks_table) (block_row u b) bs =
    if decide (ab_end_date b < ab_start_date b)%Z then Some IntegrityError
    else if decide (Exists (blocks_overlap b) (blocks (work s))) then Some IntegrityError
    else if decide (vehicles (work s) !! ab_vehicle_id b = None) then Some IntegrityError else None) as ->.
  { unfold write_error. rewrite decide_False.
    2:{ intros Hn. apply Hn. unfold row_fits, availability_blocks_table, block_row. cbn [set_rows t_columns].
      by rewrite !Forall2_cons, Forall2_nil. }
    rewrite (decide_ext _ (ab_end_date b < ab_start_date b)%Z).
    2:{ assert (not_null (set_rows bs availability_blocks_table) (block_row u b)) by by apply not_null_row.
      assert (checks_hold (set_rows bs availability_blocks_table) (block_row u b) ↔
        (ab_start_date b ≤ ab_end_date b)%Z).
      { unfold checks_hold, availability_blocks_table. cbn [set_rows t_constraints].
        rewrite !Forall_cons, Forall_nil. cbn. tauto. }
      rewrite <- Z.nle_gt. tauto. }
    case_decide as Hdate; [done|]. apply Z.nlt_ge in Hdate.
    unfold availability_blocks_table. cbn [set_rows t_constraints first_error].
    rewrite (index_key block_row "id" ab_id _ _ _ _ (λ _ _, eq_refl) Hs) by done.
    rewrite !index_none by done. cbn [index_error].
    rewrite decide_False.
    2:{ intros [_ Hr]. revert Hr. unfold daterange. simpl. by rewrite decide_True. }
    rewrite (decide_ext _ (Exists (blocks_overlap b) (blocks (work s)))).
    2:{ rewrite (stored_Exists _ _ _ _ _ (blocks_overlap b) Hs); [by rewrite Exists_exists|].
      intros t b' Hb'. apply block_conflict; auto. }
    case_decide; [done|].
    assert (referenced db (set_rows bs availability_blocks_table) (block_row u b) ↔
      vehicles (work s) !! ab_vehicle_id b ≠ None) as Hr.
    { unfold referenced, availability_blocks_table. cbn [set_rows t_constraints].
      rewrite !Forall_cons, Forall_nil, Htv. cbn [set_rows t_rows].
      rewrite (stored_Exists _ _ _ _ _ (λ v, ab_vehicle_id b = vh_id v) Hv) by done. split.
      - intros (_ & [[]|(v & Hv' & He)] & _) Hn. congruence.
      - intros [v Hv']%not_eq_None_Some. split_and!; try done. right. exists v.
        by rewrite (Hk _ _ Hv'). }
    unfold availability_blocks_table in Hr. repeat case_decide; tauto || done. }
  repeat case_decide; try (do 3 eexists; split; [done|]; by split_and!; [|split; eauto]).
  do 3 eexists. split_and!; [done..|]. split; simpl; [| |done|].
  - exists rs. split; [|done]. by rewrite lookup_insert_ne.
  - exists (bs ++ [block_row u b]). split; [apply lookup_insert_eq|].
    by apply stored_append with (kof := ab_id).
  - intros b' [Hb'| ->%list_elem_of_singleton]%elem_of_app; [by apply Hd|lia].
Qed.

(** ** services/auth *)
Definition users_table : table := Eval vm_compute in schema_of auth_scripts "users".
Definition roles_table : table := Eval vm_compute in schema_of auth_scripts "roles".

Definition user_row (_ : unit) (u : User) : row :=
  [("id", CUuid (us_id u)); ("email", CText (us_email u)); ("name", CText (us_name u));
   ("password_hash", CText (us_password_hash u)); ("role", CText (us_role u));
   ("created_at", CTime (us_created_at u))].

Record auth_rep (adb : AuthDB) (db : database) : Prop := mk_auth_rep {
  ar_roles : tables db !! "roles" = Some roles_table;
  ar_users : ∃ rs, tables db !! "users" = Some (set_rows rs users_table) ∧
    stored user_row "id" (λ u, users adb !! us_id u = Some u) rs;
  ar_key : ∀ i u, users adb !! i = Some u → us_id u = i;
}.

Lemma insert_user_agrees {W} (s : session AuthDB W) db u :
  auth_rep (work s) db →
  agrees auth_rep (insert_user u) (insert_row "users" (user_row tt u)) s db.
Proof.
  intros [Hr (rs & Ht & Hs) Hk].
  unfold agrees. rewrite (insert_row_run _ _ _ _ _ Ht). unfold write, insert_user, get_db.
  rewrite run_gets, run_bind. simpl.
  assert (∀ x, (∃ v, users (work s) !! us_id v = Some v ∧ us_email v = x) ↔ is_Some (find_email x (work s)))
    as Hem.
  { intros x. split.
    - intros (v & Hv & He). apply not_eq_None_Some. rewrite find_email_None. intros Hn. by apply (Hn _ _ Hv).
    - intros [v (He & i & Hv)%find_email_Some]. exists v. by rewrite (Hk _ _ Hv). }
  assert (write_error db (set_rows rs users_table) (user_row tt u) rs =
    if decide (¬ user_types u) then Some DataError
    else if decide (is_Some (users (work s) !! us_id u)) then Some IntegrityError
    else if decide (is_Some (find_email (us_email u) (work s))) then Some IntegrityError
    else if decide (us_role u ∉ role_codes) then Some IntegrityError else None) as ->.
  { unfold write_error. rewrite (decide_ext _ (¬ user_types u)).
    2:{ unfold row_fits, users_table, user_row, user_types. cbn [set_rows t_columns].
      rewrite !Forall2_cons, Forall2_nil. cbn. naive_solver. }
    case_decide; [done|]. rewrite decide_False.
    2:{ intros Hn. apply Hn. split; [by apply not_null_row|]. by repeat constructor. }
    unfold users_table. cbn [set_rows t_constraints first_error index_error].
    rewrite (decide_ext (Exists _ rs) (is_Some (users (work s) !! us_id u))).
    2:{ rewrite (stored_Exists _ _ _ _ _ (λ v, us_id u = us_id v) Hs).
      - split; [intros (v & Hv & ->); by exists v|]. intros [v Hv]. exists v. by rewrite (Hk _ _ Hv).
      - intros [] v _. cbn. by rewrite Forall_singleton. }
    case_decide; [done|].
    rewrite (decide_ext (Exists _ rs) (is_Some (find_email (us_email u) (work s)))).
    2:{ rewrite <- Hem. rewrite (stored_Exists _ _ _ _ _ (λ v, us_email v = us_email u) Hs); [done|].
      intros [] v _. cbn. rewrite Forall_singleton. cbn. split; congruence. }
    case_decide; [done|]. rewrite decide_False by by rewrite Exists_exists; intros (? & _ & []).
    assert (referenced db (set_rows rs users_table) (user_row tt u) ↔ us_role u ∈ role_codes) as Hf.
    { unfold referenced, users_table. cbn [set_rows t_constraints].
      rewrite !Forall_cons, Forall_nil, Hr. cbn [roles_table t_rows]. rewrite !Exists_cons, Exists_nil. cbn.
      unfold role_codes. set_solver. }
    unfold users_table in Hf. repeat case_decide; tauto || done. }
  refused. refused. refused. refused.
  do 3 eexists. split_and!; [done..|]. split; simpl; [by rewrite lookup_insert_ne| |].
  - exists (rs ++ [user_row tt u]). split; [apply lookup_insert_eq|].
    eapply stored_iff; [|apply stored_snoc with (kof := us_id); [done|exact Hs|]].
    + intros v. rewrite <- insert_stored. split; [|tauto]. intros [->|Hv]; [by left|right].
      split; [done|]. intros He. rewrite <- He in Hv. naive_solver.
    + intros v Hv He. cbn in Hv, He. rewrite <- He in Hv. naive_solver.
  - intros i v [[<- <-]|[_ Hi]]%lookup_insert_Some; [done|by apply Hk].
Qed.

(** ** services/admin *)
Definition admin_actions_table : table := Eval vm_compute in schema_of admin_scripts "admin_actions".

Definition action_row (_ : unit) (a : AdminAction) : row :=
  [("id", CUuid (ac_id a)); ("admin_id", CUuid (ac_admin_id a)); ("action_type", CText (ac_action_type a));
   ("target_type", CText (ac_target_type a)); ("target_id", CText (ac_target_id a));
   ("payload", CJson (PDict (ac_payload a))); ("created_at", CTime (ac_created_at a))].

Definition admin_rep (adb : AdminDB) (db : database) : Prop :=
  ∃ rs, tables db !! "admin_actions" = Some (set_rows rs admin_actions_table) ∧
    stored action_row "id" (.∈ admin_actions adb) rs.

Lemma record_agrees {R U} (s : session AdminDB (admin_world R U)) db admin_id t tt_ ti d :
  let a := mk_action (fresh (senv s) 0) admin_id t tt_ ti d (clock (senv s)) in
  admin_rep (work s) db → (∀ a', a' ∈ admin_actions (work s) → fresh (senv s) 0 ≠ ac_id a') →
  agrees admin_rep (record admin_id t tt_ ti d;; mret tt) (insert_row "admin_actions" (action_row tt a)) s db.
Proof.
  intros a (rs & Ht & Hs) Hf. unfold agrees. rewrite (insert_row_run _ _ _ _ _ Ht).
  unfold write. rewrite run_gets.
  assert (write_error db (set_rows rs admin_actions_table) (action_row tt a) rs =
    if decide (action_types a) then None else Some DataError) as ->.
  { unfold write_error. rewrite (decide_ext _ (¬ action_types a)).
    2:{ unfold row_fits, admin_actions_table, action_row, action_types. cbn [set_rows t_columns].
      rewrite !Forall2_cons, Forall2_nil. cbn. naive_solver. }
    destruct (decide (action_types a)); [rewrite decide_False by tauto|by rewrite decide_True].
    rewrite decide_False.
    2:{ intros Hn. apply Hn. split; [by apply not_null_row|]. by repeat constructor. }
    unfold admin_actions_table. cbn [set_rows t_constraints first_error].
    rewrite (index_key action_row "id" ac_id _ _ _ _ (λ _ _, eq_refl) Hs) by done.
    rewrite decide_True; [done|]. by repeat constructor. }
  rewrite run_bind. unfold record, uuid4, now, get_db. rewrite !run_bind. simpl. fold a.
  case_decide; [|do 3 eexists; split; [done|]; split; [done|]; by exists rs].
  do 3 eexists. split_and!; [done..|]. exists (rs ++ [action_row tt a]).
  split; [apply lookup_insert_eq|]. by apply stored_append with (kof := ac_id).
Qed.

(** ** After the migrations nothing is stored *)
Lemma nothing_stored {T A} (f : T → A → row) key (P : A → Prop) : (∀ a, ¬ P a) → stored f key P [].
Proof. intros Hn. split; [intros a Ha; by destruct (Hn a)|by intros ??%not_elem_of_nil|constructor]. Qed.

Lemma migrated_table ss names base name t :
  framed names (upgrade_all ss) → apart names (tables base) →
  fst (upgrade_all ss empty_database) = Ok tt →
  tables (snd (upgrade_all ss empty_database)) !! name = Some t →
  tables (snd (upgrade_all ss base)) !! name = Some t.
Proof.
  intros Hf Ha Hr Ht. rewrite (migrate_beside names _ base tt (snd (upgrade_all ss empty_database)) Hf Ha).
  - by apply beside_other.
  - unfold empty_database in *. rewrite <- Hr. apply surjective_pairing.
Qed.

Section migrated_tables.
Context (d : Deployment).

Lemma env_table e base name t :
e ∈ environments d → apart (migrated_names e) (tables base) → tables (migrated e) !! name = Some t →
tables (snd (upgrade_all (env_scripts e) base)) !! name = Some t.
Proof.
intros He Ha. pose proof (environments_sound d) as Hs. rewrite Forall_forall in Hs.
destruct (Hs e He) as [Hu _ Hr _ _]. by eapply migrated_table.
Qed.

Lemma booking_migrated base ob ib im :
apart (migrated_names (booking_env (dp_booking d))) (tables base) →
booking_rep (mk_booking_db ∅ [] ob ib im) (snd (upgrade_all booking_scripts base)).
Proof.
intros Ha. pose proof (λ n t, env_table (booking_env (dp_booking d)) base n t) as Ht.
split; [exists []|exists []|by intros ??|by intros ??];
  (split; [apply Ht; [unfold environments; set_solver|done|vm_compute; reflexivity]|]);
  apply nothing_stored; [by intros ??|by intros ? ?%not_elem_of_nil].
Qed.

Lemma payment_migrated base ob ib :
apart (migrated_names (payment_env (dp_payment d))) (tables base) →
payment_rep (mk_payment_db ∅ [] ob ib) (snd (upgrade_all payment_scripts base)).
Proof.
intros Ha. pose proof (λ n t, env_table (payment_env (dp_payment d)) base n t) as Ht.
split; [exists []|exists []|by intros ??|by intros ????];
  (split; [apply Ht; [unfold environments; set_solver|done|vm_compute; reflexivity]|]);
  apply nothing_stored; [by intros ??|by intros ? ?%not_elem_of_nil].
Qed.

Lemma listing_migrated base ob im :
apart (migrated_names (listing_env (dp_listing d))) (tables base) →
listing_rep (mk_listing_db ∅ [] ob im) (snd (upgrade_all listing_scripts base)).
Proof.
intros Ha. pose proof (λ n t, env_table (listing_env (dp_listing d)) base n t) as Ht.
split; [exists []|exists []|by intros ??|by intros ??%not_elem_of_nil];
  (split; [apply Ht; [unfold environments; set_solver|done|vm_compute; reflexivity]|]);
  apply nothing_stored; [by intros ??|by intros ? ?%not_elem_of_nil].
Qed.

Lemma auth_migrated base im :
apart (migrated_names (auth_env (dp_auth d))) (tables base) →
auth_rep (mk_auth_db ∅ im) (snd (upgrade_all auth_scripts base)).
Proof.
intros Ha. pose proof (λ n t, env_table (auth_env (dp_auth d)) base n t) as Ht.
split; [apply Ht; [unfold environments; set_solver|done|vm_compute; reflexivity]|exists []|by intros ??].
split; [apply Ht; [unfold environments; set_solver|done|vm_compute; reflexivity]|].
apply nothing_stored; by intros ??.
Qed.
End migrated_tables.

(** ** The repositories write what the tables admit *)

(** C10: the booking repository on the migrated tables.  The flush of a booking
    (the INSERT of a new one, the UPDATE of one that was read) and the INSERT
    of an event do what the statement does on the tables the migration made:
    the same rows afterwards, or the same exception and nothing written.  So
    the double-booking guard and the version check of the model are the
    exclusion and the unique constraint of the migration. *)
Theorem booking_tables {W} (s : session BookingDB W) (db : database) :
  booking_rep (work s) db →
  (∀ u b, (bk_start_date b ≤ bk_end_date b)%Z →
     agrees booking_rep (flush_booking b) (flush_row "bookings" "id" (booking_row u b)) s db) ∧
  (∀ u id v t d, (∀ ev, ev ∈ booking_events (work s) → fresh (senv s) 0 ≠ ev_id ev) →
     agrees booking_rep (insert_event id v t d)
       (insert_row "booking_events" (booking_event_row u (mk_event (fresh (senv s) 0) id v t d))) s db).
Proof. intros Hr. split; [intros; by apply flush_booking_agrees|intros; by apply insert_event_agrees]. Qed.


(** The listing repository and the user repository on the migrated tables:
    the flush of a vehicle, the INSERT of an availability block (its
    reference, the order of its dates, the exclusion of overlaps) and the
    INSERT of a user (unique email, a role of the roles table) do what the
    statements do on the tables. *)
Theorem listing_auth_tables {W W'} (s : session ListingDB W) (s' : session AuthDB W') (db db' : database) :
  listing_rep (work s) db → auth_rep (work s') db' →
  (∀ u v, agrees listing_rep (flush_vehicle v) (flush_row "vehicles" "id" (vehicle_row u v)) s db) ∧
  (∀ u b, (∀ b', b' ∈ blocks (work s) → ab_id b ≠ ab_id b') →
     agrees listing_rep (insert_block b) (insert_row "availability_blocks" (block_row u b)) s db) ∧
  (∀ u, agrees auth_rep (insert_user u) (insert_row "users" (user_row tt u)) s' db').
Proof.
  intros Hl Ha. split_and!;
    [intros; by apply flush_vehicle_agrees|intros; by apply insert_block_agrees|
     intros; by apply insert_user_agrees].
Qed.
