(* ===== verification/Responses.v ===== *)
(** * Responses: the response models of the schemas.py

    A response model is a list of fields with types ([BookingResponse], ...).
    [body_of] says that the text of an answer is the JSON of a dict that
    conforms to a model.  An endpoint behind an idempotency key answers from
    the table of stored responses as well: [stored_ok] is the invariant of
    that table, [mutation_typed] and [query_typed] are the rules for the two
    kinds of endpoints, and [responses_well_typed] follows for whatever the
    booking service answers in its life. *)
From S2P Require Import Prelude Python Columns Effects Outbox Inbox Idempotency JwtAuth Http.
From S2P Require Import Json Redis Search SearchApp Admin.
From S2P Require Import Pagination Auth AuthFacts Listing ListingService Payment.
From S2P Require Import BookingDomain BookingRepo BookingService BookingFacts BookingInvariant BookingRoutes.

(** ** Models *)
(** A [dt.datetime] is the number of its timestamp. *)
Inductive scalar := TStr | TInt | TFloat | TDate | TTime | TDict | TOptInt | TOptStr.

Definition has_type (t : scalar) (v : pyval) : Prop :=
  match t, v with
  | TStr, PStr _ | TInt, PInt _ | TFloat, PFloat _ | TDate, PDate _ => True
  | TTime, PInt _ | TDict, PDict _ => True
  | TOptInt, (PInt _ | PNone) | TOptStr, (PStr _ | PNone) => True
  | _, _ => False
  end.
#[export] Instance has_type_dec t v : Decision (has_type t v).
Proof. destruct t, v; apply _. Defined.

Definition model := list (string * scalar).
Definition conforms (m : model) (d : dict) : Prop :=
  Forall2 (λ f x, x.1 = f.1 ∧ has_type f.2 x.2) m d.
#[export] Instance conforms_dec m d : Decision (conforms m d).
Proof. unfold conforms. apply _. Defined.

(** [items: list[Item]] and [next_offset: int | None]. *)
Definition page_of (item : model) (d : dict) : Prop :=
  ∃ items next, d = [("items", PList (PDict <$> items)); ("next_offset", next)] ∧
    Forall (conforms item) items ∧ has_type TOptInt next.

(** services/booking *)
Definition BookingResponse : model :=
  [("id", TStr); ("vehicle_id", TStr); ("host_id", TStr); ("renter_id", TStr); ("start_date", TDate);
   ("end_date", TDate); ("daily_price_cents", TInt); ("daily_mileage_limit", TInt);
   ("booking_mode", TStr); ("status", TStr); ("start_odometer", TOptInt); ("end_odometer", TOptInt);
   ("start_fuel_percent", TOptInt); ("end_fuel_percent", TOptInt); ("start_photo_url", TOptStr);
   ("end_photo_url", TOptStr); ("overage_cents", TInt)].
Definition ListBookingsResponse : dict → Prop := page_of BookingResponse.
(** services/listing *)
Definition VehicleResponse : model :=
  [("id", TStr); ("host_id", TStr); ("make", TStr); ("model", TStr); ("year", TInt);
   ("daily_price_cents", TInt); ("daily_mileage_limit", TInt); ("booking_mode", TStr);
   ("approval_status", TStr); ("latitude", TFloat); ("longitude", TFloat)].
Definition ListVehiclesResponse : dict → Prop := page_of VehicleResponse.
Definition AvailabilityBlockResponse : model :=
  [("id", TStr); ("vehicle_id", TStr); ("start_date", TDate); ("end_date", TDate)].
(** services/auth *)
Definition UserResponse : model := [("id", TStr); ("email", TStr); ("name", TStr); ("role", TStr)].
Definition TokenResponse : model := [("access_token", TStr); ("refresh_token", TStr); ("token_type", TStr)].
(** services/payment *)
Definition PaymentResponse : model :=
  [("booking_id", TStr); ("renter_id", TStr); ("status", TStr); ("hold_amount_cents", TInt);
   ("overage_cents", TInt); ("stripe_payment_intent_id", TOptStr)].
(** services/admin *)
Definition AdminActionResponse : model :=
  [("id", TStr); ("admin_id", TStr); ("action_type", TStr); ("target_type", TStr); ("target_id", TStr);
   ("payload", TDict); ("created_at", TTime)].
Definition ListAdminActionsResponse (d : dict) : Prop :=
  ∃ items, d = [("items", PList (PDict <$> items))] ∧ Forall (conforms AdminActionResponse) items.

(** services/search *)
Definition VehicleSearchResult : model :=
  [("vehicle_id", TStr); ("host_id", TStr); ("make", TStr); ("model", TStr); ("year", TInt);
   ("daily_price_cents", TInt); ("daily_mileage_limit", TInt); ("booking_mode", TStr);
   ("latitude", TFloat); ("longitude", TFloat)].
Definition SearchResponse (d : dict) : Prop :=
  ∃ items, d = [("items", PList (PDict <$> items))] ∧ Forall (conforms VehicleSearchResult) items.

(** ** Answers *)
Section answers.
Context {DB W : Type} `{!HasIdem DB} `{!Platform}.
Implicit Types s : session DB W.

Definition body_of (T : dict → Prop) (resp : Response) : Prop :=
∃ d, resp_body resp = model_dump_json d ∧ T d.

(** Every stored response is one of [B]. *)
Definition stored_ok (B : Response → Prop) (db : DB) : Prop :=
map_Forall (λ _ row, B (mk_response (status_code row) (response_body row))) (get_idem db).

Definition idem_of s : gmap (string * string) IdemRow := get_idem (work s).

Lemma respond_typed (B : Response → Prop) g status (build : M (session DB W) string) s resp s' :
(∀ j s1, build s = (Ok j, s1) → B (mk_response status j) ∧ idem_of s1 = idem_of s) →
match g_replay g with Some (b, st) => B (mk_response st b) | None => True end →
stored_ok B (work s) → respond_idempotently g status build s = (Ok resp, s') →
B resp ∧ stored_ok B (work s').
Proof.
intros Hb Hg Hs. unfold respond_idempotently. destruct (g_replay g) as [[b st]|] eqn:Er.
{ intros [= <- <-]. done. }
rewrite bind_Ok. intros (json & s1 & Hr & Hrest). apply bind_Ok in Hrest as (g' & s2 & Hst & Ha).
destruct (Hb _ _ Hr) as [HB Hi]. assert (stored_ok B (work s1)) as Hs1.
{ unfold stored_ok. fold (idem_of s1). by rewrite Hi. }
pose proof (store_Ok _ _ _ _ _ _ Hst) as (_ & _ & _ & _ & Hrow).
destruct (get_idem (work s1) !! _) as [row|] eqn:E.
- destruct Hrow as (Hw & _ & Hrep). rewrite Hrep in Ha. injection Ha as <- <-.
  rewrite Hw. split; [by apply (Hs1 _ _ E)|done].
- destruct Hrow as [-> Hins]. rewrite Er in Ha. injection Ha as <- <-. split; [done|].
  unfold stored_ok. rewrite Hins. by apply map_Forall_insert_2.
Qed.

Lemma guard_replay_typed (B : Response → Prop) key cid body s g s' :
stored_ok B (work s) → idempotency_guard key cid body s = (Ok g, s') →
s' = s ∧ match g_replay g with Some (b, st) => B (mk_response st b) | None => True end.
Proof.
intros Hs (-> & _ & _ & _ & _ & Hr)%guard_Ok. split; [done|].
destruct (g_replay g) as [[b st]|]; [|done]. destruct Hr as (row & Hrow & _ & ->). by apply (Hs _ _ Hrow).
Qed.

Lemma mutation_typed {P} (B : Response → Prop) cfg rq (i : input P) roles status build s resp s' :
(∀ claims p s j s1, build claims p s = (Ok j, s1) → B (mk_response status j) ∧ idem_of s1 = idem_of s) →
committed s = work s → stored_ok B (work s) → mutation cfg rq i roles status build s = (Ok resp, s') →
B resp ∧ stored_ok B (committed s').
Proof.
intros Hb Hc Hs Hm. assert (committed s' = work s') as ->.
{ apply mutation_Ok in Hm as [->|(? & ? & ? & ? & ? & _ & _ & _ & _ & _ & ? & _)]; done. }
revert Hm. unfold mutation, refused, validated. destruct i as [| |p]; try done;
  intros (g & Hg & (claims & _ & Hr)%bind_pure)%bind_pure;
  try apply read_only_get_guard; try apply read_only_get_access_claims; [done|].
apply bind_pure in Hr as ([] & _ & Hr); [|apply read_only_require_role].
eapply respond_typed; [apply Hb| |exact Hs|exact Hr].
revert Hg. unfold get_guard. destruct (rq_idempotency_key rq) as [[|c k]|]; try done.
intros (t & _ & (cid & _ & Hg)%bind_pure)%bind_pure; [|apply read_only_consumer_id|by intros ?].
by eapply guard_replay_typed.
Qed.

Lemma query_typed {P} (T : dict → Prop) cfg rq (i : input P) (handler : dict → P → M (session DB W) dict) s resp s' :
(∀ claims p s d s1, handler claims p s = (Ok d, s1) → T d) →
query cfg rq i handler s = (Ok resp, s') → body_of T resp.
Proof.
intros Hh. unfold query, refused, validated. destruct i as [| |p]; try done;
  intros (claims & _ & Hr)%bind_pure; try apply read_only_get_access_claims; [done|].
apply bind_Ok in Hr as (d & s1 & Hd & [= <- _]). exists d. by split; [|eapply Hh].
Qed.

Lemma stored_purge (B : Response → Prop) older_than n :
stored_ok B n.1.1 → stored_ok B (run_session (purge_expired_idempotency_keys (W := W) older_than) n).2.1.1.
Proof.
destruct n as [[db w] e]. intros Hs. unfold run_session, stored_ok. simpl. rewrite get_set_idem.
intros k row [Hk _]%map_lookup_filter_Some. by apply (Hs k).
Qed.
End answers.

(** ** The booking service *)
Lemma booking_conforms b : conforms BookingResponse (_booking_response b).
Proof.
  unfold conforms, BookingResponse, _booking_response. rewrite !Forall2_cons, Forall2_nil. simpl.
  split_and!; try done; match goal with |- context [Python.opt_int ?o] => by destruct o
    | |- context [opt_str ?o] => by destruct o end.
Qed.

(** The model an endpoint of the booking service answers with. *)
Definition booking_model (r : booking_request) : dict → Prop :=
  match r with GetBookings _ => ListBookingsResponse | _ => conforms BookingResponse end.

Section booking_service.
Context {W : Type} `{!Platform}.
Variable cfg : jwt_settings.
Variable listing : listing_http.
Notation booking_body := (body_of (conforms BookingResponse)).

Lemma quiet_idem {A} (m : M (session BookingDB W) A) s a s' :
preserves quiet m → m s = (Ok a, s') → idem_of s' = idem_of s.
Proof. intros Hm Hr. specialize (Hm s). rewrite Hr in Hm. by injection Hm. Qed.

Lemma json_of_body (m : M (session BookingDB W) Booking) s j s' status :
json_of m s = (Ok j, s') → booking_body (mk_response status j) ∧ ∃ b, m s = (Ok b, s').
Proof.
unfold json_of. rewrite bind_Ok. intros (b & s1 & Hm & [= <- <-]). split; [|by exists b].
eexists. split; [done|]. apply booking_conforms.
Qed.

Lemma host_command_typed (claims : dict) id (c : uuid → command) s j s' status :
json_of (command_errors (host_id ← claims_sub claims; run_command (W := W) id (c host_id))) s = (Ok j, s') →
booking_body (mk_response status j) ∧ idem_of s' = idem_of s.
Proof.
intros Hr. split; [by eapply json_of_body|].
apply host_command_Ok in Hr as (h & b & Hr). eapply quiet_idem; [apply quiet_run_command|exact Hr].
Qed.

Lemma booking_page_typed (bs : list Booking) limit offset :
ListBookingsResponse
  [("items", PList ((λ b, PDict (_booking_response b)) <$> slice_to bs limit));
   ("next_offset", if decide (limit < Z.of_nat (length bs))%Z then PInt (offset + limit) else PNone)].
Proof.
exists (_booking_response <$> slice_to bs limit). eexists. split_and!.
- by rewrite <- list_fmap_compose.
- apply Forall_fmap, Forall_true. intros b. apply booking_conforms.
- by case_decide.
Qed.

Lemma booking_answer_typed rq r (s s' : session BookingDB W) resp :
committed s = work s → stored_ok booking_body (work s) → handle cfg listing rq r s = (Ok resp, s') →
body_of (booking_model r) resp ∧ stored_ok booking_body (committed s').
Proof.
intros Hc Hs. destruct r as [p|p|i|i|i|i|i]; cbn [handle booking_model].
- eapply mutation_typed; [|exact Hc|exact Hs]. intros claims q s1 j s2 Hr. split; [by eapply json_of_body|].
  apply create_build_Ok in Hr as (renter & tok & b & Hr).
  eapply quiet_idem; [apply quiet_request_booking|exact Hr].
- intros Hr. pose proof (list_bookings_read_only cfg rq p s) as Hro. rewrite Hr in Hro. simpl in Hro. subst s'.
  split; [|by rewrite Hc]. eapply query_typed; [|exact Hr]. intros claims [limit offset] s1 d s2 Hh.
  unfold list_bookings_handler in Hh. apply bind_Ok in Hh as ([] & s3 & _ & Hh).
  apply bind_Ok in Hh as (bs & s4 & _ & [= <- _]). apply booking_page_typed.
- intros Hr. pose proof (get_booking_read_only cfg rq i s) as Hro. rewrite Hr in Hro. simpl in Hro. subst s'.
  split; [|by rewrite Hc]. eapply query_typed; [|exact Hr]. intros claims id s1 d s2 Hh.
  apply bind_Ok in Hh as (b & s3 & _ & [= <- _]). apply booking_conforms.
- eapply mutation_typed; [|exact Hc|exact Hs]. intros claims q s1 j s2. apply (host_command_typed _ _ CmdAccept).
- eapply mutation_typed; [|exact Hc|exact Hs]. intros claims q s1 j s2. apply (host_command_typed _ _ CmdReject).
- eapply mutation_typed; [|exact Hc|exact Hs]. intros claims [id q] s1 j s2.
  apply (host_command_typed _ _ (λ h, CmdHandover h _ _ _)).
- eapply mutation_typed; [|exact Hc|exact Hs]. intros claims [id q] s1 j s2.
  apply (host_command_typed _ _ (λ h, CmdReturn h _ _ _)).
Qed.

Lemma payment_record_idem i t d (n : node BookingDB W) res n' :
inbox_process PAYMENT_EVENT_HANDLERS i t d n = (res, n') → b_idem n'.1.1 = b_idem n.1.1.
Proof.
intros Hp. destruct (decide (i ∈ b_inbox n.1.1)) as [Hi|Hi].
{ rewrite inbox_process_claimed in Hp by done. by simplify_eq. }
destruct res as [[]|e].
2:{ by pose proof (inbox_process_unclaimed _ i t d n _ n' payment_handlers_ok Hi Hp) as ->. }
assert (b_idem (work (claimed_session i n)) = b_idem n.1.1) as Hc by by destruct n as [[]].
destruct (handlers_get (PAYMENT_EVENT_HANDLERS (W := W)) t) as [h|] eqn:Eh.
- rewrite (inbox_process_handled _ _ _ _ _ h) in Hp by done.
  destruct (payment_handler t h d Eh) as (c & _ & Hh). rewrite Hh in Hp.
  assert (preserves quiet (v ← getitem d "booking_id"; id ← to_uuid v; run_command (W := W) id c;; mret tt)) as Hq.
  { apply preserves_bind; [preserves|]. intros v. apply preserves_bind; [preserves|].
    intros id. apply preserves_bind; [apply quiet_run_command | preserves]. }
  specialize (Hq (claimed_session i n)). revert Hp Hq.
  match goal with |- context [let (_, _) := ?m in _] => destruct m as [[[]|x] s1] end; [|done].
  intros [= <-] Hq. simpl in *. rewrite <- Hc. by injection Hq.
- rewrite inbox_process_ignored in Hp by done. by injection Hp as <-.
Qed.

(** The table of stored responses holds bookings only. *)
Lemma booking_store_step n n' :
stored_ok booking_body n.1.1 → service_step (W := W) cfg listing n n' → stored_ok booking_body n'.1.1.
Proof.
intros Hs [rq r resp n1 Hr|record res n1 Hr|older res n1 Hr|w e]; [| | |done].
- destruct n as [[db w] e]. unfold serve, run_session in Hr.
  destruct (handle cfg listing rq r _) as [[x|x] s'] eqn:E; simplify_eq; simpl.
  + by eapply booking_answer_typed in E as [_ ?].
  + by apply handle_Err in E as ->.
- destruct (record_fields record) as [[[i t] d]|] eqn:Ef.
  + rewrite (consume_fields _ _ _ _ _ _ Ef) in Hr. apply payment_record_idem in Hr.
    unfold stored_ok in *. simpl in *. by rewrite Hr.
  + destruct (consume_malformed (inbox_process PAYMENT_EVENT_HANDLERS) record n Ef) as [e He].
    rewrite He in Hr. by simplify_eq.
- pose proof (stored_purge _ older n Hs) as Hp. by rewrite Hr in Hp.
Qed.
End booking_service.

(** C24: the booking service keeps to its schemas.  Whatever requests, events,
    redeliveries and cleanups it has processed, started without stored
    responses, an endpoint that answers with success answers with the JSON
    of its response model, every field there and of its type: also when the
    answer is replayed for an idempotency key that another endpoint stored. *)
Theorem responses_well_typed {W : Type} `{!Platform} (cfg : jwt_settings) (listing : listing_http)
    (n0 n n' : node BookingDB W) (rq : request) (r : booking_request) (resp : Response) :
  b_idem n0.1.1 = ∅ → rtc (service_step cfg listing) n0 n →
  run_session (handle cfg listing rq r) n = (Ok resp, n') →
  body_of (booking_model r) resp.
Proof.
  intros H0 Hsteps Hr.
  assert (stored_ok (body_of (conforms BookingResponse)) n.1.1) as Hs.
  { assert (stored_ok (body_of (conforms BookingResponse)) n0.1.1) as Hs0.
    { unfold stored_ok. simpl. rewrite H0. apply map_Forall_empty. }
    clear H0 Hr. induction Hsteps as [|x y z Hxy _ IH]; [done|]. apply IH. by eapply booking_store_step. }
  destruct n as [[db w] e]. unfold run_session in Hr.
  destruct (handle cfg listing rq r _) as [x s'] eqn:E. injection Hr as -> _.
  by eapply booking_answer_typed in E as [? _].
Qed.

(** ** The listing service: its stored responses are vehicles and blocks, and
    a key another endpoint stored is answered with what it stored. *)
Section listing_service.
Context {W : Type} `{!Platform}.
Variable cfg : jwt_settings.
Implicit Types s : session ListingDB W.

Definition listing_body (resp : Response) : Prop :=
body_of (conforms VehicleResponse) resp ∨ body_of (conforms AvailabilityBlockResponse) resp.

Definition listing_model (r : listing_request) (resp : Response) : Prop :=
match r with
| GetVehicles _ => body_of ListVehiclesResponse resp
| GetVehicle _ => body_of (conforms VehicleResponse) resp
| _ => listing_body resp
end.

Lemma vehicle_conforms v : conforms VehicleResponse (_vehicle_response v).
Proof. unfold conforms, VehicleResponse, _vehicle_response. by rewrite !Forall2_cons, Forall2_nil. Qed.

Lemma keeps_flush v : preserves idem_of (flush_vehicle (W := W) v).
Proof. intros s. unfold flush_vehicle. run. by repeat case_decide. Qed.
Lemma keeps_insert_block b : preserves idem_of (insert_block (W := W) b).
Proof. intros s. unfold insert_block. run. by repeat case_decide. Qed.
Lemma keeps_publish t v : preserves idem_of (publish (W := W) t v).
Proof. by intros s. Qed.
#[local] Hint Resolve keeps_flush keeps_insert_block keeps_publish : preserves.

Lemma keeps_Ok {A} (m : M (session ListingDB W) A) s a s' :
preserves idem_of m → m s = (Ok a, s') → idem_of s' = idem_of s.
Proof. intros Hm Hr. specialize (Hm s). by rewrite Hr in Hm. Qed.

Lemma vehicle_json_body (m : M (session ListingDB W) Vehicle) s j s' status :
vehicle_json m s = (Ok j, s') → listing_body (mk_response status j).
Proof.
unfold vehicle_json. rewrite bind_Ok. intros (v & s1 & Hm & [= <- _]). left.
eexists. split; [done|]. apply vehicle_conforms.
Qed.

Lemma create_vehicle_keeps h p : preserves idem_of (create_vehicle (W := W) h p).
Proof. unfold create_vehicle, create_row, uuid4, now, get_db. preserves. Qed.
Lemma update_vehicle_keeps v h p : preserves idem_of (update_vehicle (W := W) v h p).
Proof. unfold update_vehicle, get_owned_vehicle, Listing.get_by_id, save_vehicle, get_db. preserves. Qed.
Lemma approve_vehicle_keeps v : preserves idem_of (approve_vehicle (W := W) v).
Proof. unfold approve_vehicle, Listing.get_by_id, save_vehicle, get_db. preserves. Qed.
Lemma reject_vehicle_keeps v : preserves idem_of (reject_vehicle (W := W) v).
Proof. unfold reject_vehicle, Listing.get_by_id, save_vehicle, get_db. preserves. Qed.
Lemma add_block_keeps v h sd ed : preserves idem_of (add_availability_block (W := W) v h sd ed).
Proof.
unfold add_availability_block, create_block, get_owned_vehicle, Listing.get_by_id, uuid4, get_db. preserves.
Qed.

Lemma vehicle_page_typed (vs : list Vehicle) limit offset :
ListVehiclesResponse
  [("items", PList ((λ v, PDict (_vehicle_response v)) <$> slice_to vs limit));
   ("next_offset", if decide (limit < Z.of_nat (length vs))%Z then PInt (offset + limit) else PNone)].
Proof.
exists (_vehicle_response <$> slice_to vs limit). eexists. split_and!.
- by rewrite <- list_fmap_compose.
- apply Forall_fmap, Forall_true. intros v. apply vehicle_conforms.
- by case_decide.
Qed.

(** An answer of the listing service, one request at a time: the invariant of
  the stored responses, and the model of the endpoint. *)
Theorem listing_responses_typed rq r s s' resp :
committed s = work s → stored_ok listing_body (work s) →
Listing.handle cfg rq r s = (Ok resp, s') →
listing_model r resp ∧ stored_ok listing_body (committed s').
Proof.
intros Hc Hs. destruct r as [p|p|i|i|i|i|i]; cbn [Listing.handle listing_model].
- eapply mutation_typed; [|exact Hc|exact Hs]. intros claims q s1 j s2 Hr.
  split; [by eapply vehicle_json_body|]. apply vehicle_json_Ok in Hr as [v [h Hr]%claims_host].
  eapply keeps_Ok; [apply create_vehicle_keeps|exact Hr].
- intros Hr. pose proof (list_vehicles_read_only cfg rq p s) as Hro. rewrite Hr in Hro. simpl in Hro. subst s'.
  split; [|by rewrite Hc]. eapply query_typed; [|exact Hr]. intros claims [[st limit] offset] s1 d s2 Hh.
  unfold list_vehicles_handler in Hh. apply bind_Ok in Hh as ([] & s3 & _ & Hh).
  case_decide; [done|]. apply bind_Ok in Hh as (vs & s4 & _ & [= <- _]). apply vehicle_page_typed.
- intros Hr. pose proof (get_vehicle_read_only cfg rq i s) as Hro. rewrite Hr in Hro. simpl in Hro. subst s'.
  split; [|by rewrite Hc]. eapply query_typed; [|exact Hr]. intros claims id s1 d s2 Hh.
  apply bind_Ok in Hh as (v & s3 & _ & [= <- _]). apply vehicle_conforms.
- eapply mutation_typed; [|exact Hc|exact Hs]. intros claims [id f] s1 j s2 Hr.
  split; [by eapply vehicle_json_body|].
  apply vehicle_json_Ok in Hr as [v [h Hr]%vehicle_errors_Ok%claims_host].
  eapply keeps_Ok; [apply update_vehicle_keeps|exact Hr].
- eapply mutation_typed; [|exact Hc|exact Hs]. intros claims q s1 j s2 Hr.
  split; [by eapply vehicle_json_body|]. apply vehicle_json_Ok in Hr as [v Hr%approval_errors_Ok].
  eapply keeps_Ok; [apply approve_vehicle_keeps|exact Hr].
- eapply mutation_typed; [|exact Hc|exact Hs]. intros claims q s1 j s2 Hr.
  split; [by eapply vehicle_json_body|]. apply vehicle_json_Ok in Hr as [v Hr%approval_errors_Ok].
  eapply keeps_Ok; [apply reject_vehicle_keeps|exact Hr].
- eapply mutation_typed; [|exact Hc|exact Hs]. intros claims [id [sd ed]] s1 j s2 Hr.
  apply bind_Ok in Hr as (b & s3 & [h Hr]%block_errors_Ok%claims_host & [= <- <-]). split.
  + right. eexists. split; [done|]. unfold conforms, AvailabilityBlockResponse, block_response.
    by rewrite !Forall2_cons, Forall2_nil.
  + eapply keeps_Ok; [apply add_block_keeps|exact Hr].
Qed.
End listing_service.

(** ** The auth service and the payment query *)
Section auth_service.
Context {W : Type} `{!Argon2} `{!Platform}.
Variable cfg : auth_settings.
Implicit Types s : session AuthDB W.

Definition auth_model (r : auth_request) : dict → Prop :=
match r with
| PostRegister _ | GetMe => conforms UserResponse
| PostLogin _ | PostRefresh _ => conforms TokenResponse
end.

Lemma user_conforms u : conforms UserResponse (user_response u).
Proof. unfold conforms, UserResponse, user_response. by rewrite !Forall2_cons, Forall2_nil. Qed.
Lemma tokens_conform ts : conforms TokenResponse (token_response ts).
Proof. unfold conforms, TokenResponse, token_response. by rewrite !Forall2_cons, Forall2_nil. Qed.

Lemma insert_user_keeps u : preserves idem_of (insert_user (W := W) u).
Proof. intros s. unfold insert_user. run. by repeat case_decide. Qed.
#[local] Hint Resolve insert_user_keeps : preserves.

Lemma register_user_keeps p s u s' :
register_user (W := W) p s = (Ok u, s') → idem_of s' = idem_of s.
Proof.
intros Hr. assert (preserves idem_of (register_user (W := W) p)) as Hp.
{ unfold register_user, create_user, get_by_email, hash_password, uuid4, now, get_db. preserves. }
specialize (Hp s). by rewrite Hr in Hp.
Qed.

(** An answer of the auth service, one request at a time. *)
Theorem auth_responses_typed rq r s s' resp :
stored_ok (body_of (conforms UserResponse)) (work s) →
Auth.handle cfg rq r s = (Ok resp, s') →
body_of (auth_model r) resp ∧ stored_ok (body_of (conforms UserResponse)) (work s').
Proof.
intros Hs. destruct r as [p|p|t|]; cbn [Auth.handle auth_model].
- unfold register, refused. destruct p as [| |p]; [done|..];
    rewrite bind_Ok; intros (g & s1 & Hg & Hr);
    eapply guard_replay_typed in Hg as [-> Hrep]; try exact Hs; [done|].
  revert Hr. unfold constrained, validated. destruct (register_ok p); [|done].
  apply respond_typed; [|done..]. intros j s1.
  unfold register_build. intros (u & s2 & Hu & [= <- <-])%bind_Ok.
  split; [eexists; split; [done|]; apply user_conforms|].
  apply try_except_Ok in Hu as [Hu|(e & s3 & k & _ & Hk & Hu)]; [by eapply register_user_keeps|].
  by destruct e; simplify_eq.
- intros Hr. pose proof (login_read_only cfg p s) as Hro. rewrite Hr in Hro. simpl in Hro. subst s'.
  split; [|done]. revert Hr. unfold login, validated. destruct p as [| |p]; [done..|].
  intros (d & s1 & Hd & [= <- _])%bind_Ok. exists d. split; [done|].
  apply bind_Ok in Hd as (u & s2 & _ & (ts & s3 & _ & [= <- _])%bind_Ok). apply tokens_conform.
- intros Hr. pose proof (refresh_read_only cfg t s) as Hro. rewrite Hr in Hro. simpl in Hro. subst s'.
  split; [|done]. revert Hr. unfold refresh, validated. destruct t as [| |t]; [done..|].
  intros (d & s1 & Hd & [= <- _])%bind_Ok. exists d. split; [done|].
  apply bind_Ok in Hd as (now_ & s2 & _ & (claims & s3 & _ & Hd)%bind_Ok).
  destruct (negb _); [done|]. apply bind_Ok in Hd as (id & s4 & _ & (u & s5 & _ & Hd)%bind_Ok).
  destruct u as [u|]; [|done]. apply bind_Ok in Hd as (ts & s6 & _ & [= <- _]). apply tokens_conform.
- intros Hr. pose proof (me_read_only cfg rq s) as Hro. rewrite Hr in Hro. simpl in Hro. subst s'.
  split; [|done]. eapply query_typed; [|exact Hr]. intros claims [] s1 d s2 Hd.
  apply bind_Ok in Hd as (id & s4 & _ & (u & s5 & _ & Hd)%bind_Ok).
  destruct u as [u|]; [|done]. injection Hd as <- _. apply user_conforms.
Qed.
End auth_service.

Lemma payment_response_typed {W : Type} `{!Platform} (cfg : jwt_settings) rq i
    (s s' : session PaymentDB W) resp :
  get_payment cfg rq i s = (Ok resp, s') → body_of (conforms PaymentResponse) resp.
Proof.
  apply query_typed. intros claims id s1 d s2 Hd. apply bind_Ok in Hd as ([] & s3 & _ & Hd).
  apply bind_Ok in Hd as ([p|] & s4 & _ & Hd); [|done]. injection Hd as <- _.
  unfold conforms, PaymentResponse, _payment_response. rewrite !Forall2_cons, Forall2_nil. simpl.
  split_and!; try done. by destruct (pm_stripe_payment_intent_id p).
Qed.

Lemma actions_response_typed {R U : Type} `{!Redis R} `{!Upstream U} `{!FloatText} `{!Platform}
    (cfg : Admin.admin_settings) rq page (s s' : session AdminDB (admin_world R U)) resp :
  list_actions cfg rq page s = (Ok resp, s') → body_of ListAdminActionsResponse resp.
Proof.
  apply query_typed. intros claims p s1 d s2 Hd. apply bind_Ok in Hd as ([] & s3 & _ & Hd).
  apply bind_Ok in Hd as (actions & s4 & _ & Hd). injection Hd as <- _.
  exists (_action_response <$> actions). split; [by rewrite <- list_fmap_compose|].
  apply Forall_fmap, Forall_true. intros a. unfold compose, conforms, AdminActionResponse, _action_response.
  by rewrite !Forall2_cons, Forall2_nil.
Qed.

(** ** The search service *)
Section search_answers.
Context {S : Type}.
Implicit Types st : S.

Lemma str_value_typed v v' st st' : str_value v st = (Ok v', st') → has_type TStr v'.
Proof. destruct v; by intros [= <- _]. Qed.
Lemma int_value_typed v v' st st' : int_value v st = (Ok v', st') → has_type TInt v'.
Proof. destruct v; by intros [= <- _]. Qed.
Lemma float_value_typed v v' st st' : float_value v st = (Ok v', st') → has_type TFloat v'.
Proof. destruct v; by intros [= <- _]. Qed.
End search_answers.
#[local] Hint Resolve str_value_typed int_value_typed float_value_typed : typed.

(** A document that becomes a result conforms, whatever was indexed. *)
Lemma document_to_result_typed {S} document r (st st' : S) :
  document_to_result document st = (Ok r, st') → conforms VehicleSearchResult r.
Proof.
  unfold document_to_result. intros H.
  repeat (let x := fresh "x" in let s1 := fresh "st" in let Hx := fresh "Hx" in
    apply bind_Ok in H as (x & s1 & Hx & H)).
  injection H as <- _. unfold conforms, VehicleSearchResult.
  repeat (apply Forall2_cons_2; [split; [reflexivity|eauto with typed]|]). apply Forall2_nil_2.
Qed.

(** A search that is not answered from the cache answers with the model. *)
Lemma search_typed {E R : Type} `{!Elasticsearch E} `{!Redis R} `{!FloatText} `{!Platform} `{!SearchJson}
    (ix : string) (ttl : Z) (p : search_params) (er er' : E * R) r1 resp :
  redis_get (_cache_key p) er.2 = (Ok None, r1) →
  search ix ttl p er = (Ok resp, er') → SearchResponse resp.
Proof.
  intros Hmiss. unfold search. rewrite bind_Ok. intros (cached & st & Hc & Hr).
  destruct er as [e r]. unfold on_redis in Hc. simpl in Hmiss. rewrite Hmiss in Hc. injection Hc as <- <-.
  apply bind_Ok in Hr as (ds & s2 & _ & Hr). apply bind_Ok in Hr as (items & s3 & Hi & Hr).
  apply bind_Ok in Hr as ([] & s4 & _ & [= <- _]). exists items. split; [done|].
  revert items s2 s3 Hi. induction ds as [|d ds IH]; intros items s2 s3; [by intros [= <- _]|].
  cbn [mapM]. rewrite bind_Ok. intros (x & s5 & Hx%document_to_result_typed & Hr).
  apply bind_Ok in Hr as (y & s6 & Hy%IH & [= <- _]). by constructor.
Qed.
