(* ===== verification/Upstreams.v ===== *)
(** * Upstreams: the HTTP calls between the services

    services/booking/listing_client.py and services/admin/clients.py talk to
    the routers of the listing and the booking service.  The model of a
    client takes the server as a parameter ([listing_http] of the booking
    service, [Upstream] of the admin service); here the parameter is the
    server's own model, serving a request built as the client builds it, its
    JSON body parsed back.  [VehicleApi] is what the booking service gets from
    the listing service: the row it asked for. *)
From S2P Require Import Prelude Python Columns Json JsonFacts Effects Outbox Idempotency JwtAuth Http.
From S2P Require Import BookingDomain BookingRepo BookingService BookingFacts BookingInvariant.
From S2P Require Import BookingRoutes Redis Telemetry TelemetryFacts Admin.
From S2P Require Import Listing ListingFacts ListingService.

(** pydantic writes a response as [json.dumps] would have it read. *)
Class PlatformJson `{!Platform} `{!FloatText} : Prop :=
  model_dump_json_loads d : json_ok (PDict d) → json_loads (model_dump_json d) = Some (PDict d).

(** [response.json()] of a body that is an object. *)
Definition response_json `{!FloatText} (body : string) : dict :=
  match json_loads body with Some (PDict d) => d | _ => [] end.

(** The responses that are no success. *)
Definition failure_status (st : Z) : Prop := (400 ≤ st)%Z.
Definition failing (e : exn) : Prop :=
  match e with HTTPException st _ => failure_status st | _ => True end.

Lemma http_response_failing `{!Platform} e :
  failing e → failure_status (resp_status (http_response (Err e))).
Proof. destruct e; simpl; unfold failure_status; try done; lia. Qed.

Section failing_raises.
Context {S : Type} `{!Platform}.

Lemma failing_getitem d k : raises (S := S) failing (getitem d k).
Proof. unfold getitem. raises. Qed.
Lemma failing_to_uuid v : raises (S := S) failing (to_uuid v).
Proof. unfold to_uuid. raises. Qed.
Lemma failing_claims_sub claims : raises (S := S) failing (claims_sub claims).
Proof. unfold claims_sub. apply raises_bind; [apply failing_getitem | apply failing_to_uuid]. Qed.

Lemma failing_claims_dependency cfg ty t auth : raises (S := S) failing (claims_dependency cfg ty t auth).
Proof. unfold claims_dependency, bearer_token, decode_token. raises. Qed.
Lemma failing_consumer_id cfg t auth : raises (S := S) failing (consumer_id_resolver cfg t auth).
Proof. unfold consumer_id_resolver, bearer_token, decode_token. raises. Qed.
Lemma failing_require_role claims roles : raises (S := S) failing (require_role claims roles).
Proof. unfold require_role. raises. Qed.
End failing_raises.
#[export] Hint Resolve failing_getitem failing_to_uuid failing_claims_sub failing_claims_dependency
  failing_consumer_id failing_require_role : raises.

(** A mutation fails with a failure status when its handler does. *)
Lemma failing_mutation {DB W P} `{!HasIdem DB} `{!Platform} cfg rq (i : input P) roles status
    (build : dict → P → M (session DB W) string) :
  (∀ claims p, raises failing (build claims p)) → raises failing (mutation cfg rq i roles status build).
Proof.
  intros Hb. unfold mutation, refused, validated, get_guard, idempotency_guard, get_access_claims,
    respond_idempotently, store, commit, put_db, get_db, now, unprocessable. raises.
Qed.

(** What becomes of a call from one service to another: httpx raises when the
    server cannot be reached, and also when the answer is lost after the
    server has done what it was asked (a timeout). *)
Inductive fate := Delivered | Unreachable | AnswerLost.

(** ** GET /listing/vehicles/{vehicle_id}, as the booking service calls it *)
Section vehicle_api.
Context {W : Type} `{!Platform} `{!FloatText}.
Variable cfg : jwt_settings.

(** The request of [ListingClient.get_vehicle], answered by the node [n]. *)
Definition listing_client (f : fate) (n : node ListingDB W) : listing_http := λ vehicle_id bearer_token,
match f with
| Delivered =>
    let rq := mk_request (Some ("Bearer " +:+ bearer_token)) None "" in
    let '(response, _) := serve (Listing.handle cfg rq (GetVehicle (Valid vehicle_id))) n in
    Ok (resp_status response, response_json (resp_body response))
| _ => Err TransportError
end.

Lemma get_vehicle_failing rq i : raises failing (Listing.get_vehicle (W := W) cfg rq i).
Proof.
unfold Listing.get_vehicle, query, refused, validated, get_access_claims, now, vehicle_errors,
  get_vehicle_for_viewer, get_by_id, get_db, unprocessable. raises.
Qed.

Lemma get_vehicle_returns rq v (s s' : session ListingDB W) resp :
Listing.get_vehicle cfg rq (Valid v) s = (Ok resp, s') →
∃ vehicle, vehicles (work s) !! v = Some vehicle ∧
  resp = mk_response 200 (model_dump_json (_vehicle_response vehicle)).
Proof.
unfold Listing.get_vehicle, query, refused, validated.
intros (claims & _ & Hr)%bind_pure; [|apply read_only_get_access_claims].
apply bind_Ok in Hr as (d & s1 & Hd & Hr). apply run_ret_Ok in Hr as [<- _].
apply bind_Ok in Hd as (vehicle & s2 & Hv%vehicle_errors_Ok & Hr). apply run_ret_Ok in Hr as [<- _].
apply bind_pure in Hv as (u & _ & Hv); [|unfold claims_sub; read_only].
exists vehicle. split; [|done]. revert Hv. unfold get_vehicle_for_viewer, get_by_id. run.
destruct (vehicles (work s) !! v) as [w|]; [|done]. simpl. case_match; [done|]. by intros [= <- _].
Qed.
End vehicle_api.

(** What the booking service may rely on: a success is the row it asked for. *)
Class VehicleApi (listing : listing_http) (rows : gmap uuid Vehicle) : Prop :=
  vehicle_answer v token status body :
    listing v token = Ok (status, body) → (200 ≤ status < 300)%Z →
    ∃ vehicle, rows !! v = Some vehicle ∧ body = _vehicle_response vehicle.

Lemma vehicle_response_json_ok vehicle : vehicle_types vehicle → json_ok (PDict (_vehicle_response vehicle)).
Proof.
  intros (_ & _ & _ & _ & _ & _ & _ & Hlat & Hlon).
  assert (NoDup (_vehicle_response vehicle).*1) as Hk.
  { change (_vehicle_response vehicle).*1 with ["id"; "host_id"; "make"; "model"; "year";
      "daily_price_cents"; "daily_mileage_limit"; "booking_mode"; "approval_status"; "latitude";
      "longitude"]. by apply (bool_decide_unpack _). }
  split; [exact Hk|]. clear Hk. exact (conj I (conj I (conj I (conj I (conj I (conj I (conj I
    (conj I (conj I (conj Hlat (conj Hlon I))))))))))).
Qed.

(** The listing service keeps that promise. *)
Lemma listing_client_api {W} `{!Platform} `{!FloatText} `{!PlatformJson} cfg f (n : node ListingDB W) :
  lwf n.1.1 → VehicleApi (listing_client cfg f n) (vehicles n.1.1).
Proof.
  intros Hwf v token status body. unfold listing_client. destruct f; [|done..]. destruct n as [[db w] e].
  set (rq := mk_request _ _ _). unfold serve, run_session, Listing.handle.
  destruct (Listing.get_vehicle cfg rq (Valid v) (mk_session db db w e)) as [[resp|x] s'] eqn:Eg.
  - apply get_vehicle_returns in Eg as (vehicle & Hv & ->). intros [= <- <-] _.
    exists vehicle. split; [done|]. unfold response_json.
    rewrite model_dump_json_loads; [done|]. apply vehicle_response_json_ok.
    by destruct (lwf_valid _ Hwf _ _ Hv) as (_&_&_&_&_&_&_&_& Hst & _).
  - apply get_vehicle_failing, http_response_failing in Eg. unfold failure_status in Eg.
    generalize dependent (http_response (Err x)). intros resp Hf Heq. injection Heq as <- _. lia.
Qed.

(** ** The client's side, against the interface *)

(** What the booking service keeps of a row. *)
Definition vehicle_info (vehicle : Vehicle) : VehicleInfo :=
  mk_vehicle_info (vh_id vehicle) (vh_host_id vehicle) (vh_daily_price_cents vehicle)
    (vh_daily_mileage_limit vehicle) (vh_booking_mode vehicle) (vh_approval_status vehicle).

Section client.
Context {W : Type} (listing : listing_http) (rows : gmap uuid Vehicle) `{!VehicleApi listing rows}.

Lemma client_get_vehicle_Ok v token (s s' : session BookingDB W) vi :
BookingService.get_vehicle listing v token s = (Ok vi, s') →
∃ vehicle, rows !! v = Some vehicle ∧ vi = vehicle_info vehicle.
Proof.
unfold BookingService.get_vehicle, lift. destruct (listing v token) as [[status body]|] eqn:El; [|done].
rewrite run_bind. cbn [mret M_ret].
case_decide as Hn; [done|]. case_decide as Hs; [done|].
destruct (vehicle_answer v token status body El) as (vehicle & Hv & ->); [done|].
intros Hr. exists vehicle. split; [done|]. revert Hr.
rewrite run_bind, (getitem_run _ _ (PStr (str_uuid (vh_id vehicle)))) by reflexivity.
rewrite run_bind, to_uuid_run.
rewrite run_bind, (getitem_run _ _ (PStr (str_uuid (vh_host_id vehicle)))) by reflexivity.
rewrite run_bind, to_uuid_run. cbn -[str_uuid]. by intros [= <- _].
Qed.

(** The terms of a booking made through the interface are the vehicle's. *)
Definition terms_of (vehicle : Vehicle) (b : Booking) : Prop :=
vh_approval_status vehicle = "approved" ∧ bk_host_id b = vh_host_id vehicle ∧
bk_daily_price_cents b = vh_daily_price_cents vehicle ∧
bk_daily_mileage_limit b = vh_daily_mileage_limit vehicle ∧
bk_booking_mode b = vh_booking_mode vehicle.

Lemma request_booking_terms renter vehicle sd ed tok (s s' : session BookingDB W) b :
request_booking listing renter vehicle sd ed tok s = (Ok b, s') →
∃ v, rows !! bk_vehicle_id b = Some v ∧ terms_of v b.
Proof.
intros (vi & Hg & Ha & _ & -> & _)%request_booking_Ok.
apply client_get_vehicle_Ok in Hg as (v & Hv & ->). by exists v.
Qed.
End client.

(** ** The calls of the admin service *)

(** The text before the first ["/"], and the rest from it on. *)
Fixpoint split_slash (s : string) : string * string :=
  match s with
  | "" => ("", "")
  | String c r =>
      if decide (c = "/"%char) then ("", s) else let '(i, rest) := split_slash r in (String c i, rest)
  end.

Lemma split_slash_app i rest :
  str_forall (λ c, negb (bool_decide (c = "/"%char))) i = true →
  split_slash (i +:+ String "/" rest) = (i, String "/" rest).
Proof.
  induction i as [|c i IH]; [done|]. cbn [str_forall]. intros [Hc Hi]%andb_true_iff.
  rewrite str_app_cons. cbn [split_slash]. apply negb_true_iff, bool_decide_eq_false in Hc.
  rewrite decide_False by done. by rewrite IH.
Qed.

Lemma split_slash_uuid u rest :
  split_slash (str_uuid u +:+ String "/" rest) = (str_uuid u, String "/" rest).
Proof.
  apply split_slash_app, str_uuid_forall; [|done].
  by apply (hex_digit_forall (λ d, negb (bool_decide (hex_digit d = "/"%char)))).
Qed.

Lemma drop_prefix_app p s : drop_prefix p (p +:+ s) = Some s.
Proof.
  induction p as [|c p IH]; [by destruct s|]. rewrite str_app_cons. cbn [drop_prefix].
  by rewrite decide_True.
Qed.

Section admin_upstream.
Context {WL WB R : Type} `{!Platform} `{!FloatText} `{!Redis R}.
Variables (acfg : admin_settings) (lcfg bcfg : jwt_settings).

Definition servers : Type := node ListingDB WL * node BookingDB WB.

Definition header (headers : dict) (k : string) : option string :=
match dict_get headers k with Some (PStr v) => Some v | _ => None end.

(** A request without a body. *)
Definition client_request (headers : dict) : request :=
mk_request (header headers "Authorization") (header headers "Idempotency-Key") "".

(** The POST routes of services/listing/routes.py the clients name, mounted
  at /listing under the service's base URL. *)
Definition decision_route (url : string) : option listing_request :=
rest ← drop_prefix (rstrip_slash (listing_base_url acfg) +:+ "/listing/vehicles/") url;
let '(i, action) := split_slash rest in
let vehicle_id := from_option Valid Invalid (UUID i) in
if decide (action = "/approve") then Some (Listing.PostApprove vehicle_id)
else if decide (action = "/reject") then Some (Listing.PostReject vehicle_id) else None.

Definition query_int (params : dict) (k : string) : option Z :=
match dict_get params k with Some (PInt z) => Some z | _ => None end.

Definition not_found : string := model_dump_json [("detail", PStr "Not Found")].

(** The two services behind the base URLs of the settings, through a network
  that does [f] to the call. *)
#[local] Instance service_servers (f : fate) : Upstream servers := {|
  http_post url headers '(nl, nb) :=
    match f, decision_route url with
    | Unreachable, _ => (Err TransportError, (nl, nb))
    | Delivered, Some r =>
        let '(response, nl') := serve (Listing.handle lcfg (client_request headers) r) nl in
        (Ok (resp_status response, resp_body response), (nl', nb))
    | AnswerLost, Some r =>
        let '(_, nl') := serve (Listing.handle lcfg (client_request headers) r) nl in
        (Err TransportError, (nl', nb))
    | Delivered, None => (Ok (404%Z, not_found), (nl, nb))
    | AnswerLost, None => (Err TransportError, (nl, nb))
    end;
  http_get url params headers '(nl, nb) :=
    match f, query_int params "limit", query_int params "offset" with
    | Delivered, Some limit, Some offset =>
        if decide (url = rstrip_slash (booking_base_url acfg) +:+ "/booking/bookings") then
          let '(response, nb') := serve (BookingRoutes.handle bcfg (listing_client lcfg Delivered nl)
            (client_request headers) (BookingRoutes.GetBookings (Valid (limit, offset)))) nb in
          (Ok (resp_status response, resp_body response), (nl, nb'))
        else (Ok (404%Z, not_found), (nl, nb))
    | Delivered, _, _ => (Ok (422%Z, not_found), (nl, nb))
    | _, _, _ => (Err TransportError, (nl, nb))
    end;
|}.

(** Approval or rejection, in the words of each layer. *)
Definition verdict_request (approval : bool) (v : uuid) : admin_request :=
if approval then Admin.PostApprove (Valid v) else Admin.PostReject (Valid v).
Definition verdict_path (approval : bool) : string := if approval then "approve" else "reject".
Definition verdict_action (approval : bool) : string :=
if approval then "vehicle_approved" else "vehicle_rejected".
Definition verdict_op (approval : bool) (v : uuid) : listing_op :=
if approval then OpApprove v else OpReject v.
Definition verdict_post (approval : bool) (v : uuid) : listing_request :=
if approval then Listing.PostApprove (Valid v) else Listing.PostReject (Valid v).

Lemma decision_route_verdict approval v :
decision_route (rstrip_slash (listing_base_url acfg) +:+ "/listing/vehicles/" +:+ str_uuid v +:+
  String "/" (verdict_path approval)) = Some (verdict_post approval v).
Proof.
unfold decision_route. rewrite <- (str_app_assoc _ "/listing/vehicles/"), drop_prefix_app.
cbn [mbind option_bind]. rewrite split_slash_uuid, UUID_str. by destruct approval.
Qed.

Lemma verdict_failing approval rq v :
raises failing (Listing.handle (W := WL) lcfg rq (verdict_post approval v)).
Proof.
destruct approval; apply failing_mutation; intros claims id;
  unfold approve_build, reject_build, vehicle_json, approval_errors, approve_vehicle, reject_vehicle,
    get_by_id, save_vehicle, flush_vehicle, publish, write_outbox_event, get_db, put_db; raises.
Qed.

(** A decision answered below 400, under a key not seen before, was taken. *)
Lemma verdict_served approval v headers key (n n' : node ListingDB WL) resp :
header headers "Idempotency-Key" = Some key → (∀ cid, l_idem n.1.1 !! (cid, key) = None) →
serve (Listing.handle lcfg (client_request headers) (verdict_post approval v)) n = (resp, n') →
(resp_status resp < 400)%Z →
∃ e db', effect (verdict_op approval v) e n.1.1 db' ∧ same_listing db' n'.1.1.
Proof.
intros Hkey Hfree. destruct n as [[db w] e]. unfold serve, run_session.
destruct (Listing.handle lcfg _ _ _) as [[r|x] s'] eqn:Eh; intros Heq Hst;
  apply pair_eq in Heq as [<- <-].
2:{ apply verdict_failing, http_response_failing in Eh. unfold failure_status in Eh. exfalso. lia. }
set (s := mk_session db db w e) in *.
assert (∃ claims j s1, (if approval then approve_build claims v s else reject_build claims v s) =
  (Ok j, s1) ∧ committed s' = work s' ∧ same_listing (work s1) (work s')) as
  (claims & j & s1 & Hb & -> & Hsame).
{ destruct approval; unfold verdict_post, Listing.handle, Listing.approve, Listing.reject in Eh;
    apply (mutation_fresh _ _ key) in Eh; try exact Hkey; try exact Hfree;
    destruct Eh as (claims & p & j & s1 & [= <-] & Hb & Hc & _ & Hw); exists claims, j, s1;
    (split_and!; [done..|]); by destruct Hw as [-> | [m ->]]. }
assert (run_op (verdict_op approval v) s = (Ok tt, s1)) as Hop.
{ destruct approval; unfold verdict_op, run_op; apply drop_result; apply vehicle_json_Ok in Hb as [veh Hr%approval_errors_Ok];
    by exists veh. }
apply run_op_Ok in Hop as (db' & He & ->). by exists e, db'.
Qed.

Lemma verdict_pending approval v e db db' :
effect (verdict_op approval v) e db db' →
∃ w, vehicles db !! v = Some w ∧ vh_approval_status w = "pending".
Proof. destruct approval; intros (w & Hw & Hp & _); by exists w. Qed.

(** What the admin service sent. *)
Lemma verdict_build_posted f (approval : bool) auth claims v (s s' : session AdminDB (admin_world R servers)) j :
(if approval then Admin.approve_build acfg (Upstream0 := service_servers f) auth claims v s
 else Admin.reject_build acfg (Upstream0 := service_servers f) auth claims v s) = (Ok j, s') →
∃ headers resp, header headers "Idempotency-Key" = Some (str_uuid (fresh (senv s) 0)) ∧
  serve (Listing.handle lcfg (client_request headers) (verdict_post approval v))
    (aw_upstream (world s)).1 = (resp, (aw_upstream (world s')).1) ∧
  (resp_status resp < 400)%Z ∧ (aw_upstream (world s')).2 = (aw_upstream (world s)).2 ∧ f = Delivered.
Proof.
intros Hb.
assert (∃ t y s1, post_vehicle (Upstream0 := service_servers f) (listing_base_url acfg) (String "/" (verdict_path approval)) v t s = (Ok y, s1) ∧
  world s' = world s1) as (t & y & s1 & Hp & ->).
{ destruct approval; by apply decision_appends in Hb as (_ & _ & Hp). }
apply post_vehicle_answered in Hp as (st & text & u & Hpost & Hst & ->).
destruct (aw_upstream (world s)) as [nl nb]. cbn [http_post service_servers] in Hpost.
rewrite decision_route_verdict in Hpost. destruct f; [|done|by destruct (serve _ nl)].
match type of Hpost with context [client_request ?h] => exists h end.
destruct (serve _ nl) as [resp nl'] eqn:Es. injection Hpost as <- <- <-. exists resp. split_and!; [reflexivity|exact Es|done|reflexivity..].
Qed.
End admin_upstream.

(** C21: an audited decision was taken.  Whatever the network does to the call
    behind a request to approve or reject a vehicle (the key it drew being new
    to the listing service), the audit trail stays as it is, or the call came
    through, the listing service has made that one transition, from pending,
    with the event that publishes an approval, and the trail has one entry
    for it, the booking service being as before.  So a decision whose answer
    was lost stands without an entry and no retry will enter it: a vehicle is
    pending once. *)
Theorem audited_decision_taken {WL WB R : Type} `{!Platform} `{!FloatText} `{!Redis R}
    (acfg : admin_settings) (lcfg bcfg : jwt_settings) (f : fate) (approval : bool) (rq : request) (v : uuid)
    (s s' : session AdminDB (admin_world R (servers (WL := WL) (WB := WB)))) (res : result Response) :
  let upstream := service_servers acfg lcfg bcfg f in
  let listing s := (aw_upstream (world s)).1.1.1 in
  committed s = work s →
  (∀ cid, l_idem (listing s) !! (cid, str_uuid (fresh (senv s) 0)) = None) →
  Admin.handle acfg rq (verdict_request approval v) s = (res, s') →
  admin_actions (committed s') = admin_actions (committed s) ∨
  f = Delivered ∧
  (∃ claims a, admin_actions (committed s') = admin_actions (committed s) ++ [a] ∧
     entry_of claims (verdict_action approval) v a) ∧
  (∃ w, vehicles (listing s) !! v = Some w ∧ vh_approval_status w = "pending") ∧
  (∃ e db, effect (verdict_op approval v) e (listing s) db ∧ same_listing db (listing s')) ∧
  (aw_upstream (world s')).2 = (aw_upstream (world s)).2.
Proof.
  intros upstream listing Hs Hfree Hr.
  assert (admin_actions (committed s') = admin_actions (committed s) ∨ ∃ auth claims a s1 j,
    (if approval then Admin.approve_build acfg auth claims v s
     else Admin.reject_build acfg auth claims v s) = (Ok j, s1) ∧ world s' = world s1 ∧
    entry_of claims (verdict_action approval) v a ∧
    admin_actions (committed s') = admin_actions (committed s) ++ [a])
    as [?|(auth & claims & a & s1 & j & Hb & Hw & Ha & Hc)]; [|by left|right].
  { assert (∀ auth claims p, no_commit (Admin.approve_build acfg (R := R) auth claims p) ∧
      no_commit (Admin.reject_build acfg (R := R) auth claims p)) as Hnc.
    { intros. by destruct (build_no_commit acfg (R := R) auth claims p) as (H1 & H2 & _). }
    destruct approval; unfold verdict_request, Admin.handle, Admin.approve, Admin.reject in Hr;
      destruct res as [resp|x].
    2:{ left. by rewrite (mutation_Err _ _ _ _ _ _ _ _ _ (λ claims p, proj1 (Hnc _ claims p)) Hr). }
    3:{ left. by rewrite (mutation_Err _ _ _ _ _ _ _ _ _ (λ claims p, proj2 (Hnc _ claims p)) Hr). }
    - eapply (mutation_appends acfg _ _ _ _ "vehicle_approved") in Hr as
        [->|(v' & claims & a & s1 & j & [= <-] & _ & _ & Ha & Hc & Hb & Hw)];
        [left; reflexivity|right; by eexists _, claims, a, s1, j|done|intros *; apply approve_build_Ok].
    - eapply (mutation_appends acfg _ _ _ _ "vehicle_rejected") in Hr as
        [->|(v' & claims & a & s1 & j & [= <-] & _ & _ & Ha & Hc & Hb & Hw)];
        [left; reflexivity|right; by eexists _, claims, a, s1, j|done|intros *; apply reject_build_Ok]. }
  apply verdict_build_posted in Hb as (headers & resp' & Hkey & Hserve & Hst & Hbook & Hf).
  rewrite <- Hw in Hserve, Hbook.
  pose proof (verdict_served _ _ _ _ _ _ _ _ Hkey Hfree Hserve Hst) as (e & db & He & Hsame).
  split; [exact Hf|]. split; [by exists claims, a|]. split; [by eapply verdict_pending; exact He|].
  split; [by exists e, db|exact Hbook].
Qed.
