(* ===== verification/Routing.v ===== *)
(** * Routing: the route tables the applications are made of

    The second half of [create_app] in services/*/app.py, with the decorators
    of services/*/routes.py: the probes, the metrics endpoint, the service's
    router under its prefix, for telemetry the WebSocket, in the order in
    which FastAPI is told of them, and the telemetry the application is given.
    FastAPI is a parameter ([Router]): what is used of it is that a request is
    handed to the first route that matches ([RouterLaws]), where a template
    matches a path segment by segment.

    [routes_reached]: no route of a service is hidden behind an earlier one.
    [routed_calls]: the URLs that the HTTP clients of admin and booking build
    lead, through the tables of listing and booking, to the handlers their
    authors meant, so that the servers of Upstreams, which stand for the
    handlers directly, do what the routed applications do. *)
From Stdlib Require Import FunctionalExtensionality.
From S2P Require Import Prelude Python Json JsonFacts Effects Outbox Idempotency JwtAuth Settings.
From S2P Require Import Observability Lifespan Http Redis Telemetry TelemetryFacts Admin Search SearchApp.
From S2P Require Import BookingDomain BookingRepo BookingService BookingRoutes Listing ListingFacts Upstreams.

(** ** Paths *)
Inductive segment := Lit (s : string) | Param (name : string).

(** [path.split("/")]. *)
Fixpoint split_path (s : string) : list string :=
  match s with
  | "" => [""]
  | String c r =>
      if decide (c = "/"%char) then "" :: split_path r
      else match split_path r with p :: ps => String c p :: ps | [] => [String c ""] end
  end.

(** ["{vehicle_id}"] is a parameter. *)
Definition segment_of (s : string) : segment :=
  match s with
  | String "{" r => Param (str_rstrip (λ c, bool_decide (c = "}"%char)) r)
  | s => Lit s
  end.
Definition template (path : string) : list segment := segment_of <$> split_path path.

Definition path_params : Type := list (string * string).

(** A parameter takes one segment, which is not empty. *)
Fixpoint params_of (t : list segment) (segments : list string) : option path_params :=
  match t, segments with
  | [], [] => Some []
  | Lit l :: t, s :: segments => if decide (l = s) then params_of t segments else None
  | Param x :: t, s :: segments => if decide (s = "") then None else cons (x, s) <$> params_of t segments
  | _, _ => None
  end.

(** The path of a template with the given values of its parameters. *)
Fixpoint fill (t : list segment) (args : list string) : list string :=
  match t, args with
  | [], _ => []
  | Lit l :: t, args => l :: fill t args
  | Param _ :: t, a :: args => a :: fill t args
  | Param _ :: t, [] => "" :: fill t []
  end.
Definition names (t : list segment) : list string :=
  t ≫= (λ s, match s with Lit _ => [] | Param x => [x] end).
Definition path_with (path : string) (args : list string) : string :=
  String.concat "/" (fill (template path) args).

Definition no_slash (s : string) : Prop := str_forall (λ c, negb (bool_decide (c = "/"%char))) s = true.
Definition value_ok (s : string) : Prop := s ≠ "" ∧ no_slash s.

(** ** Routes *)
Inductive verb := GET | POST | PATCH | DELETE | WEBSOCKET.
#[export] Instance verb_eq_dec : EqDecision verb.
Proof. solve_decision. Defined.

(** The functions behind the routes; [Framework] are FastAPI's own. *)
Inductive endpoint :=
| Framework (name : string) | Healthz | Readyz | Metrics | Hello
| AuthRegister | AuthLogin | AuthRefresh | AuthMe
| ListingCreate | ListingList | ListingGet | ListingUpdate | ListingApprove | ListingReject | ListingBlock
| BookingCreate | BookingList | BookingGet | BookingAccept | BookingReject | BookingHandover | BookingReturn
| PaymentGet | PaymentWebhook
| SearchVehicles
| TelemetryLocation | TelemetryIngest
| AdminApprove | AdminReject | AdminBookings | AdminEnable | AdminDisable | AdminActions.

Record Route := mk_route { rt_verb : verb; rt_path : string; rt_endpoint : endpoint }.

(** The parameters of a request that the route matches. *)
Definition route_params (r : Route) (v : verb) (path : string) : option path_params :=
  if decide (rt_verb r = v) then params_of (template (rt_path r)) (split_path path) else None.

Class Router := {
  docs_routes : list Route;
  dispatch : list Route → verb → string → option (endpoint * path_params);
}.

(** FastAPI: the interactive documentation is served at these paths; routes
    are tried in the order in which they were added, and the first wins. *)
Class RouterLaws `{!Router} : Prop := {
  docs_paths r : r ∈ docs_routes →
    rt_path r ∈ ["/openapi.json"; "/docs"; "/docs/oauth2-redirect"; "/redoc"];
  dispatch_first before r after v path ps :
    Forall (λ r', route_params r' v path = None) before → route_params r v path = Some ps →
    dispatch (before ++ r :: after) v path = Some (rt_endpoint r, ps);
}.

(** ** The routers *)

(** services/auth/routes.py *)
Definition auth_router : list Route :=
  [mk_route POST "/register" AuthRegister; mk_route POST "/login" AuthLogin;
   mk_route POST "/refresh" AuthRefresh; mk_route GET "/me" AuthMe].

(** services/listing/routes.py *)
Definition listing_router : list Route :=
  [mk_route POST "/vehicles" ListingCreate; mk_route GET "/vehicles" ListingList;
   mk_route GET "/vehicles/{vehicle_id}" ListingGet; mk_route PATCH "/vehicles/{vehicle_id}" ListingUpdate;
   mk_route POST "/vehicles/{vehicle_id}/approve" ListingApprove;
   mk_route POST "/vehicles/{vehicle_id}/reject" ListingReject;
   mk_route POST "/vehicles/{vehicle_id}/availability-blocks" ListingBlock].

(** services/booking/routes.py *)
Definition booking_router : list Route :=
  [mk_route POST "/bookings" BookingCreate; mk_route GET "/bookings" BookingList;
   mk_route GET "/bookings/{booking_id}" BookingGet;
   mk_route POST "/bookings/{booking_id}/accept" BookingAccept;
   mk_route POST "/bookings/{booking_id}/reject" BookingReject;
   mk_route POST "/bookings/{booking_id}/handover" BookingHandover;
   mk_route POST "/bookings/{booking_id}/return" BookingReturn].

(** services/payment/routes.py *)
Definition payment_router : list Route :=
  [mk_route GET "/payments/{booking_id}" PaymentGet; mk_route POST "/payments/webhooks/stripe" PaymentWebhook].

(** services/search/routes.py *)
Definition search_router : list Route := [mk_route GET "/vehicles" SearchVehicles].

(** services/telemetry/routes.py *)
Definition telemetry_router : list Route :=
  [mk_route GET "/vehicles/{vehicle_id}/location" TelemetryLocation].

(** services/admin/routes.py *)
Definition admin_router : list Route :=
  [mk_route POST "/vehicles/{vehicle_id}/approve" AdminApprove;
   mk_route POST "/vehicles/{vehicle_id}/reject" AdminReject;
   mk_route GET "/bookings" AdminBookings;
   mk_route POST "/vehicles/{vehicle_id}/kill-switch" AdminEnable;
   mk_route DELETE "/vehicles/{vehicle_id}/kill-switch" AdminDisable;
   mk_route GET "/actions" AdminActions].

(** [app.include_router(router, prefix=prefix)]. *)
Definition include_router (prefix : string) (router : list Route) : list Route :=
  (λ r, mk_route (rt_verb r) (prefix +:+ rt_path r) (rt_endpoint r)) <$> router.

(** shared/telemetry.py: the routes it adds. *)
Definition add_health_endpoints : list Route :=
  [mk_route GET "/healthz" Healthz; mk_route GET "/readyz" Readyz].
Definition add_http_metrics : list Route := [mk_route GET "/metrics" Metrics].

(** ** The applications *)
Record Application := mk_application {
  ap_title : string;
  ap_routes : list Route;
  ap_metrics : string;                (* the service label of the request metrics *)
  ap_telemetry : telemetry_providers;
}.

Section applications.
Context `{!Router}.

(** What every [create_app] does: [FastAPI(title=...)], the shared endpoints
  and the telemetry, then the service's own routes. *)
Definition application (title : string) (s : ServiceSettings) (own : list Route) : Application := {|
  ap_title := title;
  ap_routes := docs_routes ++ add_health_endpoints ++ add_http_metrics ++ own;
  ap_metrics := service_name s;
  ap_telemetry := configure_telemetry (service_name s) (otel_exporter_otlp_endpoint s);
|}.

Definition hello_application (s : ServiceSettings) : Application :=
application "CarFlow hello" s [mk_route GET "/" Hello].
Definition auth_application (s : AuthSettings) : Application :=
application "CarFlow auth" (au_service s) (include_router "/auth" auth_router).
Definition listing_application (s : ListingSettings) : Application :=
application "CarFlow listing" (li_service s) (include_router "/listing" listing_router).
Definition booking_application (s : BookingSettings) : Application :=
application "CarFlow booking" (bo_service s) (include_router "/booking" booking_router).
Definition payment_application (s : PaymentSettings) : Application :=
application "CarFlow payment" (pa_service s) (include_router "/payment" payment_router).
Definition search_application (s : SearchSettings) : Application :=
application "CarFlow search" (se_service s) (include_router "/search" search_router).
Definition notification_application (s : NotificationSettings) : Application :=
application "CarFlow notification" (no_service s) [].
Definition telemetry_application (s : TelemetrySettings) : Application :=
application "CarFlow telemetry" (te_service s)
  (include_router "/telemetry" telemetry_router ++
   [mk_route WEBSOCKET "/telemetry/ingest/{vehicle_id}" TelemetryIngest]).
Definition admin_application (s : AdminSettings) : Application :=
application "CarFlow admin" (ad_service s) (include_router "/admin" admin_router).

Definition applications (d : Deployment) : list Application :=
[hello_application (service_settings "hello"); auth_application (dp_auth d);
 listing_application (dp_listing d); booking_application (dp_booking d);
 payment_application (dp_payment d); search_application (dp_search d);
 notification_application (dp_notification d); telemetry_application (dp_telemetry d);
 admin_application (dp_admin d)].
End applications.

(** ** Matching *)
Lemma split_path_segments s : Forall no_slash (split_path s) ∧ split_path s ≠ [].
Proof.
  induction s as [|c s [IH Hn]]; [by repeat constructor|]. cbn [split_path].
  case_decide as Hc; [by repeat constructor|].
  destruct (split_path s) as [|p ps]; [done|]. apply Forall_cons in IH as [Hp Hps]. split; [|done].
  constructor; [|done]. unfold no_slash. cbn [str_forall]. by rewrite bool_decide_eq_false_2.
Qed.

Lemma split_path_no_slash s : no_slash s → split_path s = [s].
Proof.
  induction s as [|c s IH]; [done|]. unfold no_slash. cbn [str_forall].
  intros [Hc Hs]%andb_true_iff. apply negb_true_iff, bool_decide_eq_false in Hc.
  cbn [split_path]. rewrite decide_False by done. by rewrite IH.
Qed.

Lemma split_path_app a s : no_slash a → split_path (a +:+ String "/" s) = a :: split_path s.
Proof.
  induction a as [|c a IH]; [done|]. unfold no_slash. cbn [str_forall].
  intros [Hc Ha]%andb_true_iff. apply negb_true_iff, bool_decide_eq_false in Hc.
  rewrite str_app_cons. cbn [split_path]. rewrite decide_False by done. by rewrite IH.
Qed.

(** Splitting undoes joining. *)
Lemma split_path_concat l : l ≠ [] → Forall no_slash l → split_path (String.concat "/" l) = l.
Proof.
  induction l as [|a l IH]; [done|]. intros _ [Ha Hl]%Forall_cons.
  destruct l as [|b l]; [by apply split_path_no_slash|].
  change (String.concat "/" (a :: b :: l)) with (a +:+ String "/" (String.concat "/" (b :: l))).
  rewrite split_path_app by done. f_equal. by apply IH.
Qed.

Definition literal_ok (s : segment) : Prop := match s with Lit l => no_slash l | Param _ => True end.

Lemma template_literals path : Forall literal_ok (template path).
Proof.
  apply Forall_fmap. eapply Forall_impl; [apply split_path_segments|]. intros s Hs. unfold compose, segment_of.
  repeat (case_match; try exact Hs; try exact I).
Qed.

Lemma fill_segments t args :
  Forall literal_ok t → Forall value_ok args → length args = length (names t) →
  Forall no_slash (fill t args) ∧ params_of t (fill t args) = Some (zip (names t) args).
Proof.
  intros Ht. revert args. induction Ht as [|[l|x] t Hs _ IH]; intros args Hargs Hlen.
  - destruct args; [|done]. by split; [constructor|].
  - destruct (IH args Hargs Hlen) as [Hf Hp]. cbn [fill params_of]. rewrite decide_True by done.
    by split; [constructor|].
  - destruct args as [|a args]; [done|]. apply Forall_cons in Hargs as [[Ha Hsl] Hargs].
    destruct (IH args Hargs) as [Hf Hp]; [by injection Hlen|]. cbn [fill params_of].
    rewrite decide_False by done. rewrite Hp. by split; [constructor|].
Qed.

(** The path made from a template matches it, with the values put in. *)
Lemma path_with_matches path args :
  Forall value_ok args → length args = length (names (template path)) →
  params_of (template path) (split_path (path_with path args)) = Some (zip (names (template path)) args).
Proof.
  intros Ha Hl. destruct (fill_segments (template path) args) as [Hs Hp]; [apply template_literals|done..|].
  unfold path_with. rewrite split_path_concat; [done| |done].
  destruct (split_path_segments path) as [_ Hne]. unfold template in *.
  destruct (split_path path) as [|s ss]; [done|]. cbn [fmap list_fmap fill]. destruct (segment_of s), args; done.
Qed.

(** No path matches both templates. *)
Fixpoint apart (t u : list segment) : bool :=
  match t, u with
  | [], [] => false
  | Lit a :: t, Lit b :: u => negb (bool_decide (a = b)) || apart t u
  | Lit a :: t, Param _ :: u | Param _ :: t, Lit a :: u => bool_decide (a = "") || apart t u
  | Param _ :: t, Param _ :: u => apart t u
  | _, _ => true
  end.

Lemma apart_params t u segments ps :
  apart t u = true → params_of t segments = Some ps → params_of u segments = None.
Proof.
  revert u segments ps. induction t as [|x t IH]; intros [|y u] segments ps Ha Hp.
  - done.
  - destruct segments; [by destruct y|done].
  - destruct segments; [by destruct x|done].
  - destruct segments as [|s segments]; [by destruct x|].
    destruct x as [a|x], y as [b|y]; cbn [params_of apart] in *.
    + destruct (decide (a = s)) as [->|]; [|done]. destruct (decide (b = s)) as [->|]; [|done].
      rewrite bool_decide_true in Ha by done. by eapply IH.
    + destruct (decide (a = s)) as [->|]; [|done]. destruct (decide (s = "")) as [|Hs]; [done|].
      rewrite bool_decide_false in Ha by done. by rewrite (IH _ _ _ Ha Hp).
    + destruct (decide (s = "")) as [|Hs]; [done|]. destruct (params_of t segments) eqn:E; [|done].
      destruct (decide (b = s)) as [->|]; [|done]. rewrite bool_decide_false in Ha by done. by eapply IH.
    + destruct (decide (s = "")) as [|Hs]; [done|]. destruct (params_of t segments) eqn:E; [|done].
      by rewrite (IH _ _ _ Ha E).
Qed.

Definition routes_apart (r r' : Route) : bool :=
  negb (bool_decide (rt_verb r = rt_verb r')) || apart (template (rt_path r)) (template (rt_path r')).
Fixpoint all_apart (rs : list Route) : bool :=
  match rs with [] => true | r :: rs => forallb (λ r', routes_apart r' r) rs && all_apart rs end.

Lemma routes_apart_params r r' v path ps :
  routes_apart r r' = true → route_params r v path = Some ps → route_params r' v path = None.
Proof.
  unfold routes_apart, route_params. intros Ha. destruct (decide (rt_verb r = v)) as [<-|]; [|done].
  intros Hp. destruct (decide (rt_verb r' = rt_verb r)) as [Hr|]; [|done]. rewrite bool_decide_true in Ha by congruence.
  exact (apart_params _ _ _ _ Ha Hp).
Qed.

Definition docs_path_list : list string := ["/openapi.json"; "/docs"; "/docs/oauth2-redirect"; "/redoc"].

(** A table that hides no route: the routes are apart from one another and
    from the documentation. *)
Definition table_ok (own : list Route) : bool :=
  all_apart own &&
  forallb (λ r, forallb (λ p, apart (template (rt_path r)) (template p)) docs_path_list) own.

Lemma all_apart_before own before r after :
  all_apart own = true → own = before ++ r :: after → Forall (λ r', routes_apart r r' = true) before.
Proof.
  revert own. induction before as [|b before IH]; intros own Ho ->; [constructor|].
  cbn [all_apart app] in Ho. apply andb_true_iff in Ho as [Hb Ho]. constructor; [|by eapply IH].
  rewrite forallb_forall in Hb. apply Hb, in_or_app. right. by left.
Qed.

Lemma table_dispatch `{!Router} `{!RouterLaws} own r v path ps :
  table_ok own = true → r ∈ own → route_params r v path = Some ps →
  dispatch (docs_routes ++ own) v path = Some (rt_endpoint r, ps).
Proof.
  intros [Hall Hdocs]%andb_true_iff Hr Hp. pose proof Hr as (before & after & Hown)%list_elem_of_split.
  rewrite Hown, app_assoc. apply dispatch_first; [|done]. apply Forall_app. split.
  - apply Forall_forall. intros r' Hd%docs_paths. unfold route_params in *.
    destruct (decide (rt_verb r = v)); [|done]. destruct (decide (rt_verb r' = v)); [|done].
    rewrite forallb_forall in Hdocs. specialize (Hdocs r). rewrite forallb_forall in Hdocs.
    eapply apart_params; [|exact Hp]. apply Hdocs; by apply list_elem_of_In.
  - eapply Forall_impl; [by eapply all_apart_before|]. intros r' Ha. exact (routes_apart_params _ _ _ _ _ Ha Hp).
Qed.

(** ** From a request to the arguments of its handler *)

(** pydantic: a path parameter declared [uuid.UUID], the query parameters of
    the list endpoints with their defaults, and the bodies. *)
Class Pydantic := {
  path_uuid : string → option uuid;
  query_page : dict → input (Z * Z);
  query_vehicles : dict → input (string * Z * Z);
  body_vehicle : string → input CreateVehicleRequest;
  body_update : string → input UpdateVehicleRequest;
  body_block : string → input CreateAvailabilityBlockRequest;
  body_booking : string → input CreateBookingRequest;
  body_reading : string → input ReadingRequest;
}.

(** An identifier is read as [uuid.UUID] writes it, and parameters that are
    given are taken. *)
Class PydanticLaws `{!Pydantic} : Prop := {
  path_uuid_str u : path_uuid (str_uuid u) = Some u;
  query_page_given limit offset :
    query_page [("limit", PInt limit); ("offset", PInt offset)] = Valid (limit, offset);
  query_vehicles_given status limit offset :
    query_vehicles [("approval_status", PStr status); ("limit", PInt limit); ("offset", PInt offset)] =
      Valid (status, limit, offset);
}.

Fixpoint path_param (ps : path_params) (name : string) : option string :=
  match ps with
  | [] => None
  | (x, value) :: ps => if decide (x = name) then Some value else path_param ps name
  end.

(** A handler's path parameter, alone and with a body: a body that is not
    JSON is refused before anything is validated. *)
Definition id_input `{!Pydantic} (ps : path_params) (name : string) : input uuid :=
  from_option Valid Invalid (path_param ps name ≫= path_uuid).
Definition with_body {P} (id : input uuid) (body : input P) : input (uuid * P) :=
  match id, body with
  | _, Malformed => Malformed
  | Valid u, Valid p => Valid (u, p)
  | _, _ => Invalid
  end.

Section requests.
Context `{!Router} `{!Pydantic}.

(** The parameters of the handlers of services/listing/routes.py. *)
Definition listing_request_of (e : endpoint) (ps : path_params) (params : dict) (body : string) :
  option listing_request :=
let vehicle_id := id_input ps "vehicle_id" in
match e with
| ListingCreate => Some (PostVehicles (body_vehicle body))
| ListingList => Some (GetVehicles (query_vehicles params))
| ListingGet => Some (GetVehicle vehicle_id)
| ListingUpdate => Some (PatchVehicle (with_body vehicle_id (body_update body)))
| ListingApprove => Some (Listing.PostApprove vehicle_id)
| ListingReject => Some (Listing.PostReject vehicle_id)
| ListingBlock => Some (PostBlock (with_body vehicle_id (body_block body)))
| _ => None
end.

(** The parameters of the handlers of services/booking/routes.py. *)
Definition booking_request_of (e : endpoint) (ps : path_params) (params : dict) (body : string) :
  option booking_request :=
let booking_id := id_input ps "booking_id" in
match e with
| BookingCreate => Some (PostBookings (body_booking body))
| BookingList => Some (BookingRoutes.GetBookings (query_page params))
| BookingGet => Some (GetBooking booking_id)
| BookingAccept => Some (PostAccept booking_id)
| BookingReject => Some (BookingRoutes.PostReject booking_id)
| BookingHandover => Some (PostHandover (with_body booking_id (body_reading body)))
| BookingReturn => Some (PostReturn (with_body booking_id (body_reading body)))
| _ => None
end.

(** The parameters of the handlers of services/admin/routes.py. *)
Definition admin_request_of (e : endpoint) (ps : path_params) (params : dict) : option admin_request :=
let vehicle_id := id_input ps "vehicle_id" in
match e with
| AdminApprove => Some (Admin.PostApprove vehicle_id)
| AdminReject => Some (Admin.PostReject vehicle_id)
| AdminBookings => Some (Admin.GetBookings (query_page params))
| AdminEnable => Some (EnableKillSwitch vehicle_id)
| AdminDisable => Some (DisableKillSwitch vehicle_id)
| AdminActions => Some (GetActions (query_page params))
| _ => None
end.

Definition listing_call (s : ListingSettings) (v : verb) (path : string) (params : dict) (body : string) :
  option listing_request :=
'(e, ps) ← dispatch (ap_routes (listing_application s)) v path; listing_request_of e ps params body.
Definition booking_call (s : BookingSettings) (v : verb) (path : string) (params : dict) (body : string) :
  option booking_request :=
'(e, ps) ← dispatch (ap_routes (booking_application s)) v path; booking_request_of e ps params body.
Definition admin_call (s : AdminSettings) (v : verb) (path : string) (params : dict) :
  option admin_request :=
'(e, ps) ← dispatch (ap_routes (admin_application s)) v path; admin_request_of e ps params.
End requests.

(** ** The clients, through the route tables *)
Section routed.
Context {WL WB R : Type} `{!Platform} `{!FloatText} `{!Redis R} `{!Router} `{!Pydantic}.
Variables (acfg : admin_settings) (lset : ListingSettings) (bset : BookingSettings).

(** The path of a URL of the service behind a base URL. *)
Definition path_under (base url : string) : option string := drop_prefix (rstrip_slash base) url.

(** services/booking/listing_client.py: [get_vehicle]. *)
Definition get_vehicle_url (vehicle_id : uuid) : string :=
rstrip_slash (bo_listing_base_url bset) +:+ "/listing/vehicles/" +:+ str_uuid vehicle_id.

Definition routed_listing_client (f : fate) (n : node ListingDB WL) : listing_http :=
λ vehicle_id bearer_token,
match f with
| Delivered =>
    let rq := mk_request (Some ("Bearer " +:+ bearer_token)) None "" in
    match path_under (bo_listing_base_url bset) (get_vehicle_url vehicle_id) ≫= (λ path,
      listing_call lset GET path [] "") with
    | Some r =>
        let '(response, _) := serve (Listing.handle (li_jwt lset) rq r) n in
        Ok (resp_status response, response_json (resp_body response))
    | None => Ok (404%Z, response_json not_found)
    end
| _ => Err TransportError
end.

(** The services behind the base URLs of the admin service. *)
#[local] Instance routed_servers (f : fate) : Upstream (servers (WL := WL) (WB := WB)) := {|
  http_post url headers '(nl, nb) :=
    match path ← path_under (listing_base_url acfg) url; listing_call lset POST path [] "" with
    | Some r =>
        match f with
        | Unreachable => (Err TransportError, (nl, nb))
        | Delivered =>
            let '(response, nl') := serve (Listing.handle (li_jwt lset) (client_request headers) r) nl in
            (Ok (resp_status response, resp_body response), (nl', nb))
        | AnswerLost =>
            let '(_, nl') := serve (Listing.handle (li_jwt lset) (client_request headers) r) nl in
            (Err TransportError, (nl', nb))
        end
    | None => (match f with Delivered => Ok (404%Z, not_found) | _ => Err TransportError end, (nl, nb))
    end;
  http_get url params headers '(nl, nb) :=
    match path ← path_under (booking_base_url acfg) url; booking_call bset GET path params "" with
    | Some r =>
        match f with
        | Delivered =>
            let '(response, nb') := serve (BookingRoutes.handle (bo_jwt bset)
              (routed_listing_client Delivered nl) (client_request headers) r) nb in
            (Ok (resp_status response, resp_body response), (nl, nb'))
        | _ => (Err TransportError, (nl, nb))
        end
    | None => (match f with Delivered => Ok (404%Z, not_found) | _ => Err TransportError end, (nl, nb))
    end;
|}.
End routed.

(** ** Facts *)
Lemma uuid_value u : value_ok (str_uuid u).
Proof.
  split.
  - intros Hu. pose proof (UUID_str u) as H. rewrite Hu in H. discriminate H.
  - apply str_uuid_forall; [|done].
    by apply (hex_digit_forall (λ d, negb (bool_decide (hex_digit d = "/"%char)))).
Qed.

Section reached.
Context `{!Router} `{!RouterLaws}.

Lemma table_reached own r args :
table_ok own = true → r ∈ own → Forall value_ok args → length args = length (names (template (rt_path r))) →
dispatch (docs_routes ++ own) (rt_verb r) (path_with (rt_path r) args) =
  Some (rt_endpoint r, zip (names (template (rt_path r))) args).
Proof.
intros Ho Hr Ha Hl. apply table_dispatch; [done..|]. unfold route_params. rewrite decide_True by done.
by apply path_with_matches.
Qed.

(** The tables of the program, computed once. *)
Lemma tables_ok d app :
app ∈ applications d → ∃ own, ap_routes app = docs_routes ++ own ∧ table_ok own = true.
Proof.
revert app. apply Forall_forall. unfold applications.
repeat apply Forall_cons_2; [..|apply Forall_nil_2]; eexists; (split; [reflexivity|]); vm_compute; reflexivity.
Qed.
End reached.

(** An application's route at one identifier. *)
Lemma application_reached `{!Router} `{!RouterLaws} title service own r x u :
  table_ok (add_health_endpoints ++ add_http_metrics ++ own) = true → r ∈ own →
  names (template (rt_path r)) = [x] →
  dispatch (ap_routes (application title service own)) (rt_verb r) (path_with (rt_path r) [str_uuid u]) =
    Some (rt_endpoint r, [(x, str_uuid u)]).
Proof.
  intros Ho Hr Hn. unfold application. cbn [ap_routes].
  rewrite (table_reached _ r [str_uuid u]); [by rewrite Hn|done|set_solver| |by rewrite Hn].
  constructor; [apply uuid_value|constructor].
Qed.

Lemma id_input_uuid `{!Pydantic} `{!PydanticLaws} x u : id_input [(x, str_uuid u)] x = Valid u.
Proof.
  unfold id_input. cbn [path_param]. rewrite decide_True by done. cbn [mbind option_bind].
  by rewrite path_uuid_str.
Qed.

(** ** What is reached *)

(** Every endpoint is reached.  Whatever the deployment, a request to a
    path of an endpoint of the program (its template with any non-empty
    segments for its parameters) is handed to that endpoint, with these
    parameters: no route is hidden by one that was added before it, by the
    probes, or by FastAPI's own pages. *)
Theorem routes_reached `{!Router} `{!RouterLaws} (d : Deployment) (app : Application) (r : Route)
    (args : list string) :
  app ∈ applications d → r ∈ ap_routes app → r ∉ docs_routes →
  Forall value_ok args → length args = length (names (template (rt_path r))) →
  dispatch (ap_routes app) (rt_verb r) (path_with (rt_path r) args) =
    Some (rt_endpoint r, zip (names (template (rt_path r))) args).
Proof.
  intros (own & -> & Ho)%tables_ok [Hr|Hr]%elem_of_app Hn Ha Hl; [done|]. by apply table_reached.
Qed.

Section calls.
Context {WL WB R : Type} `{!Platform} `{!FloatText} `{!Redis R}.
Context `{!Router} `{!RouterLaws} `{!Pydantic} `{!PydanticLaws}.
Variables (acfg : admin_settings) (lset : ListingSettings) (bset : BookingSettings).

(** The listing service's routes at one vehicle, as the clients write them. *)
Lemma listing_vehicle_call v r suffix u params body :
r ∈ include_router "/listing" listing_router → rt_verb r = v →
path_with (rt_path r) [str_uuid u] = "/listing/vehicles/" +:+ str_uuid u +:+ suffix →
names (template (rt_path r)) = ["vehicle_id"] →
listing_call lset v ("/listing/vehicles/" +:+ str_uuid u +:+ suffix) params body =
  listing_request_of (rt_endpoint r) [("vehicle_id", str_uuid u)] params body.
Proof.
intros Hr <- Hp Hn. unfold listing_call, listing_application. rewrite <- Hp.
by rewrite (application_reached _ _ _ r "vehicle_id" u).
Qed.

Lemma listing_get_call u :
listing_call lset GET ("/listing/vehicles/" +:+ str_uuid u) [] "" = Some (GetVehicle (Valid u)).
Proof.
rewrite <- (str_app_nil_r (str_uuid u)) at 1.
rewrite (listing_vehicle_call GET (mk_route GET "/listing/vehicles/{vehicle_id}" ListingGet) "" u); try reflexivity.
- cbn [rt_endpoint listing_request_of]. by rewrite id_input_uuid.
- vm_compute include_router. set_solver.
Qed.

Lemma listing_verdict_call approval u :
listing_call lset POST ("/listing/vehicles/" +:+ str_uuid u +:+ String "/" (verdict_path approval)) [] "" =
  Some (verdict_post approval u).
Proof.
set (r := if approval then mk_route POST "/listing/vehicles/{vehicle_id}/approve" ListingApprove
  else mk_route POST "/listing/vehicles/{vehicle_id}/reject" ListingReject).
rewrite (listing_vehicle_call POST r (String "/" (verdict_path approval)) u); destruct approval; try reflexivity.
1, 2: cbn [rt_endpoint r listing_request_of]; by rewrite id_input_uuid.
1, 2: vm_compute include_router; set_solver.
all: generalize (str_uuid u) as i; reflexivity.
Qed.
Lemma bookings_call limit offset :
booking_call bset GET "/booking/bookings" [("limit", PInt limit); ("offset", PInt offset)] "" =
  Some (BookingRoutes.GetBookings (Valid (limit, offset))).
Proof.
unfold booking_call, booking_application, application. cbn [ap_routes].
rewrite (table_dispatch _ (mk_route GET "/booking/bookings" BookingList) GET "/booking/bookings" []);
  [|vm_compute; reflexivity|vm_compute include_router; set_solver|reflexivity].
cbn [mbind option_bind rt_endpoint booking_request_of]. by rewrite query_page_given.
Qed.

Lemma vehicles_call status limit offset :
listing_call lset GET "/listing/vehicles"
  [("approval_status", PStr status); ("limit", PInt limit); ("offset", PInt offset)] "" =
  Some (GetVehicles (Valid (status, limit, offset))).
Proof.
unfold listing_call, listing_application, application. cbn [ap_routes].
rewrite (table_dispatch _ (mk_route GET "/listing/vehicles" ListingList) GET "/listing/vehicles" []);
  [|vm_compute; reflexivity|vm_compute include_router; set_solver|reflexivity].
cbn [mbind option_bind rt_endpoint listing_request_of]. by rewrite query_vehicles_given.
Qed.

Lemma listing_client_routed f (n : node ListingDB WL) v tok :
routed_listing_client lset bset f n v tok = listing_client (li_jwt lset) f n v tok.
Proof.
unfold routed_listing_client, listing_client, path_under, get_vehicle_url. destruct f; [|done..].
rewrite drop_prefix_app. cbn [mbind option_bind]. by rewrite listing_get_call.
Qed.

(** The kill switch of a vehicle: POST puts it on, DELETE takes it off. *)
Lemma kill_switch_call aset (on : bool) u :
admin_call aset (if on then POST else DELETE) ("/admin/vehicles/" +:+ str_uuid u +:+ "/kill-switch") [] =
  Some (if on then EnableKillSwitch (Valid u) else DisableKillSwitch (Valid u)).
Proof.
set (r := mk_route (if on then POST else DELETE) "/admin/vehicles/{vehicle_id}/kill-switch"
  (if on then AdminEnable else AdminDisable)).
assert (path_with (rt_path r) [str_uuid u] = "/admin/vehicles/" +:+ str_uuid u +:+ "/kill-switch") as <-
  by (generalize (str_uuid u); reflexivity).
unfold admin_call, admin_application. change (if on then POST else DELETE) with (rt_verb r).
rewrite (application_reached _ _ _ r "vehicle_id" u);
  [|vm_compute; reflexivity|vm_compute include_router; destruct on; set_solver|reflexivity].
cbn [mbind option_bind]. destruct on; cbn [rt_endpoint r admin_request_of]; by rewrite id_input_uuid.
Qed.

(** Every route of the three routers has its handler. *)
Lemma routers_handled ps params body :
Forall (λ r, is_Some (listing_request_of (rt_endpoint r) ps params body)) listing_router ∧
Forall (λ r, is_Some (booking_request_of (rt_endpoint r) ps params body)) booking_router ∧
Forall (λ r, is_Some (admin_request_of (rt_endpoint r) ps params)) admin_router.
Proof. split_and!; repeat constructor; by eexists. Qed.

#[local] Instance direct (f : fate) : Upstream (servers (WL := WL) (WB := WB)) :=
service_servers acfg (li_jwt lset) (bo_jwt bset) f.
#[local] Instance through (f : fate) : Upstream (servers (WL := WL) (WB := WB)) :=
routed_servers acfg lset bset f.

Lemma verdict_post_routed f approval u headers servers :
let url := rstrip_slash (listing_base_url acfg) +:+ "/listing/vehicles/" +:+ str_uuid u +:+
  String "/" (verdict_path approval) in
http_post (Upstream := through f) url headers servers = http_post (Upstream := direct f) url headers servers.
Proof.
intros url. destruct servers as [nl nb]. unfold through, direct. cbn [http_post routed_servers service_servers].
unfold path_under, url. rewrite decision_route_verdict, drop_prefix_app.
cbn [mbind option_bind]. rewrite listing_verdict_call. by destruct f.
Qed.

Lemma bookings_get_routed f limit offset headers servers :
let url := rstrip_slash (booking_base_url acfg) +:+ "/booking/bookings" in
let params := [("limit", PInt limit); ("offset", PInt offset)] in
http_get (Upstream := through f) url params headers servers =
http_get (Upstream := direct f) url params headers servers.
Proof.
intros url params. destruct servers as [nl nb]. unfold through, direct. cbn [http_get routed_servers service_servers].
unfold path_under, url. rewrite drop_prefix_app. cbn [mbind option_bind]. unfold params at 1.
rewrite bookings_call. destruct f; [|reflexivity..].
assert (query_int params "limit" = Some limit) as -> by reflexivity.
assert (query_int params "offset" = Some offset) as -> by reflexivity.
rewrite decide_True by done. reflexivity.
Qed.

(** The calls of the admin service, monadic. *)
Lemma post_vehicle_routed f approval :
post_vehicle (R := R) (Upstream0 := through f) (listing_base_url acfg) (String "/" (verdict_path approval)) =
post_vehicle (R := R) (Upstream0 := direct f) (listing_base_url acfg) (String "/" (verdict_path approval)).
Proof.
extensionality v. extensionality tok. unfold post_vehicle. f_equal. extensionality key. f_equal.
extensionality s. unfold via_http, call. destruct s as [c w [r u] e]. cbn [world aw_upstream].
by rewrite verdict_post_routed.
Qed.

Lemma client_list_bookings_routed f :
client_list_bookings (R := R) (Upstream0 := through f) (booking_base_url acfg) =
client_list_bookings (R := R) (Upstream0 := direct f) (booking_base_url acfg).
Proof.
extensionality tok. extensionality limit. extensionality offset. unfold client_list_bookings. f_equal.
extensionality s. unfold via_http, call. destruct s as [c w [r u] e]. cbn [world aw_upstream].
by rewrite bookings_get_routed.
Qed.

Lemma admin_handle_routed f rq r (s : session AdminDB (admin_world R (servers (WL := WL) (WB := WB)))) :
Admin.handle acfg (Upstream0 := through f) rq r s = Admin.handle acfg (Upstream0 := direct f) rq r s.
Proof.
pose proof (post_vehicle_routed f true) as Ha. pose proof (post_vehicle_routed f false) as Hr.
destruct r; unfold Admin.handle, Admin.approve, Admin.reject, Admin.bookings.
- unfold Admin.approve_build, Admin.approve_vehicle, client_approve_vehicle.
  change "/approve" with (String "/" (verdict_path true)). by rewrite Ha.
- unfold Admin.reject_build, Admin.reject_vehicle, client_reject_vehicle.
  change "/reject" with (String "/" (verdict_path false)). by rewrite Hr.
- unfold bookings_handler, Admin.list_bookings. by rewrite client_list_bookings_routed.
- reflexivity.
- reflexivity.
- reflexivity.
Qed.
End calls.

(** The calls between the parts arrive.  Through the route tables of the
    services they name, the vehicle look-up of the booking service and every
    request to the admin service, whatever the network does to the call behind
    it, end as when the client's request is handed directly to the handler it
    was meant for; the backfill's URL is that of the vehicle list, and the
    devices' that of the ingest endpoint with their vehicle. *)
Theorem routed_calls {WL WB R : Type} `{!Platform} `{!FloatText} `{!Redis R}
    `{!Router} `{!RouterLaws} `{!Pydantic} `{!PydanticLaws}
    (acfg : admin_settings) (lset : ListingSettings) (bset : BookingSettings) (tset : TelemetrySettings)
    (f : fate) :
  (∀ (n : node ListingDB WL) v tok,
     routed_listing_client lset bset f n v tok = listing_client (li_jwt lset) f n v tok) ∧
  (∀ rq r (s : session AdminDB (admin_world R (servers (WL := WL) (WB := WB)))),
     Admin.handle acfg (Upstream0 := routed_servers acfg lset bset f) rq r s =
     Admin.handle acfg (Upstream0 := service_servers acfg (li_jwt lset) (bo_jwt bset) f) rq r s) ∧
  (∀ limit offset, listing_call lset GET "/listing/vehicles"
     [("approval_status", PStr "approved"); ("limit", PInt limit); ("offset", PInt offset)] "" =
     Some (GetVehicles (Valid ("approved", limit, offset)))) ∧
  (∀ u, dispatch (ap_routes (telemetry_application tset)) WEBSOCKET ("/telemetry/ingest/" +:+ str_uuid u) =
     Some (TelemetryIngest, [("vehicle_id", str_uuid u)])).
Proof.
  split_and!.
  - apply listing_client_routed.
  - apply admin_handle_routed.
  - intros limit offset. apply vehicles_call.
  - intros u. replace ("/telemetry/ingest/" +:+ str_uuid u) with
      (path_with "/telemetry/ingest/{vehicle_id}" [str_uuid u]) by (generalize (str_uuid u); reflexivity).
    unfold telemetry_application.
    apply (application_reached _ _ _ (mk_route WEBSOCKET "/telemetry/ingest/{vehicle_id}" TelemetryIngest));
      [vm_compute; reflexivity|vm_compute include_router; set_solver|reflexivity].
Qed.
