(* ===== verification/Notification.v ===== *)
(** * Notification: services/notification (models, repository, service, consumers)

    The service consumes the booking topic and tells both parties of a
    booking about each event of its lifecycle, on the channels they have not
    opted out of.  A notification is a log line: its arguments are kept as a
    [notice].

    [booking_events_notified] composes it with the booking service: whatever
    that service published is consumed without an error, and each of its
    domain events reaches the renter and the host, once. *)
From S2P Require Import Prelude Python Effects Outbox Inbox BookingDomain BookingRepo.
From S2P Require Import BookingService BookingFacts.
From S2P Require Import BookingInvariant Saga.

(** ** models.py *)
Record NotificationPreference := mk_preference {
  np_email_enabled : bool;
  np_sms_enabled : bool;
}.

Record NotificationDB := mk_notification_db {
  preferences : gmap uuid NotificationPreference;
  n_inbox : gset string;
}.

#[export, refine] Instance notification_inbox : HasInbox NotificationDB := {|
  get_inbox := n_inbox;
  set_inbox ids db := mk_notification_db (preferences db) ids;
|}.
Proof. done. Defined.

(** The arguments of a "would_send" line. *)
Record notice := mk_notice {
  nt_channel : string;
  nt_user_id : uuid;
  nt_event_type : string;
  nt_booking_id : pyval;
}.

Abbreviation Mn := (M (session NotificationDB (list notice))).

(** ** repository.py *)
Definition DEFAULT_PREFERENCE_EMAIL_ENABLED : bool := true.
Definition DEFAULT_PREFERENCE_SMS_ENABLED : bool := true.

Definition resolve_preference (user_id : uuid) : Mn NotificationPreference :=
  db ← get_db;
  match preferences db !! user_id with
  | None => mret (mk_preference DEFAULT_PREFERENCE_EMAIL_ENABLED DEFAULT_PREFERENCE_SMS_ENABLED)
  | Some row => mret (mk_preference (np_email_enabled row) (np_sms_enabled row))
  end.

(** ** service.py *)
Definition log_info (n : notice) : Mn unit := call (λ w, (Ok tt, w ++ [n])).

Definition notify_user (user_id : uuid) (event_type : string) (booking_id : pyval) : Mn unit :=
  preference ← resolve_preference user_id;
  (if np_email_enabled preference
   then log_info (mk_notice "email" user_id event_type booking_id) else mret tt);;
  (if np_sms_enabled preference
   then log_info (mk_notice "sms" user_id event_type booking_id) else mret tt).

Definition notify_booking_event (event_type : string) (data : dict) : Mn unit :=
  booking_id ← getitem data "booking_id";
  (r ← getitem data "renter_id"; renter_id ← to_uuid r; notify_user renter_id event_type booking_id);;
  (h ← getitem data "host_id"; host_id ← to_uuid h; notify_user host_id event_type booking_id).

(** ** consumers.py *)
Definition BOOKING_EVENT_TYPES : list string :=
  ["booking_confirmed"; "booking_cancelled"; "booking_completed"; "booking_rejected";
   "booking_payment_capture_failed"].

Definition _make_handler (event_type : string) : handler NotificationDB (list notice) :=
  λ data, notify_booking_event event_type data.

Definition BOOKING_EVENT_HANDLERS : list (string * handler NotificationDB (list notice)) :=
  (λ event_type, (event_type, _make_handler event_type)) <$> BOOKING_EVENT_TYPES.

(** ** What is sent *)

(** The lines for one user with these preferences. *)
Definition user_notices (prefs : gmap uuid NotificationPreference) (event_type : string)
    (booking_id : pyval) (user : uuid) : list notice :=
  let p := default (mk_preference true true) (prefs !! user) in
  (if np_email_enabled p then [mk_notice "email" user event_type booking_id] else []) ++
  (if np_sms_enabled p then [mk_notice "sms" user event_type booking_id] else []).

(** The lines for an event of booking [b]: the renter's, then the host's. *)
Definition booking_notices (prefs : gmap uuid NotificationPreference) (event_type : string)
    (b : Booking) : list notice :=
  user_notices prefs event_type (PStr (str_uuid (bk_id b))) (bk_renter_id b) ++
  user_notices prefs event_type (PStr (str_uuid (bk_id b))) (bk_host_id b).

Lemma notify_user_run u t b (s : session NotificationDB (list notice)) :
  notify_user u t b s =
  (Ok tt, with_world (world s ++ user_notices (preferences (work s)) t b u) s).
Proof.
  unfold notify_user, resolve_preference, user_notices, log_info, call, with_world.
  rewrite run_bind. destruct s as [c db w e]. unfold get_db, gets. rewrite run_bind. cbn [work].
  destruct (preferences db !! u) as [[[] []]|]; cbn -[app mbind]; rewrite run_bind; cbn -[app];
    by rewrite <- ?app_assoc, ?app_nil_r.
Qed.

(** The fields of a domain event the notification reads. *)
Definition about_booking (b : Booking) (data : dict) : Prop :=
  dict_get data "booking_id" = Some (PStr (str_uuid (bk_id b))) ∧
  dict_get data "renter_id" = Some (PStr (str_uuid (bk_renter_id b))) ∧
  dict_get data "host_id" = Some (PStr (str_uuid (bk_host_id b))).

Lemma notify_booking_event_run t b data s :
  about_booking b data →
  notify_booking_event t data s =
  (Ok tt, with_world (world s ++ booking_notices (preferences (work s)) t b) s).
Proof.
  intros (Hb & Hr & Hh). unfold notify_booking_event.
  rewrite run_bind, (getitem_run _ _ _ s Hb), run_bind.
  rewrite run_bind, (getitem_run _ _ _ s Hr), run_bind, to_uuid_run, notify_user_run.
  rewrite run_bind, (getitem_run _ _ _ _ Hh), run_bind, to_uuid_run, notify_user_run.
  unfold booking_notices, with_world. cbn [world work committed senv]. by rewrite <- app_assoc.
Qed.

(** ** The rows of the booking topic *)

(** A row of the booking outbox: its payload is its envelope, and a domain
    event names the booking and its parties. *)
Definition topic_row (db : BookingDB) (row : OutboxRow) : Prop :=
  ∃ data tr, payload row = envelope (ob_id row) (ob_type row) data tr ∧
    (ob_type row ∈ BOOKING_EVENT_TYPES →
      ∃ b, bookings db !! bk_id b = Some b ∧ about_booking b data).

Section topic.
Context {W : Type}.

Lemma about_domain_event b : about_booking b (domain_event_data b).
Proof. done. Qed.

Lemma about_terms b b' data : terms b' = terms b → about_booking b data → about_booking b' data.
Proof. unfold terms, about_booking. intros [= -> _ -> -> _ _ _]. done. Qed.

Lemma topic_row_keep db db' row :
wf db → booking_step W db db' → topic_row db row → topic_row db' row.
Proof.
intros Hwf Hs (data & tr & Hp & Hd). exists data, tr. split; [done|].
intros (b & Hb & Ha)%Hd. destruct (step_terms _ _ _ _ _ _ Hwf Hs Hb) as (b' & Hb' & Ht).
exists b'. split; [|by eapply about_terms]. by replace (bk_id b') with (bk_id b) by (by injection Ht).
Qed.

Lemma topic_row_new db db' row :
wf db → booking_step W db db' → row ∈ b_outbox db' → row ∈ b_outbox db ∨ topic_row db' row.
Proof.
assert (∀ db e id t d, t ∉ BOOKING_EVENT_TYPES → topic_row db (outbox_row e "booking" id t d)) as Hother.
{ intros *. eexists _, _. split; [done|]. by intros ?. }
intros Hwf [listing renter vehicle sd ed tok s s' b0 _ <- Hr | id c s s' b0 Hq <- Hr | db'' (_ & _ & Ho)].
- apply request_booking_Ok in Hr as (vi & _ & _ & _ & _ & ->).
set (b := new_booking _ _ _ _ _ _). unfold created_session. cbn [work b_outbox].
rewrite elem_of_app. intros [?|Hrow]; [by left|right]. revert Hrow.
case_decide; simpl; [|by rewrite elem_of_nil]. intros ->%list_elem_of_singleton.
apply Hother. by apply (bool_decide_unpack _).
- apply run_command_Ok in Hr as (b1 & Hb1 & Hr).
apply command_body_Ok in Hr as (_ & _ & _ & _ & ->). simpl.
rewrite elem_of_app. intros [?|Hrow]; [by left|right].
set (b2 := apply_op (command_op c) b1).
assert (bookings (command_db c b1 (senv s) (work s)) !! bk_id b2 = Some b2) as Hb2.
{ unfold b2. rewrite apply_op_id. apply lookup_insert_eq. }
unfold command_message in Hrow. fold b2 in Hrow.
destruct c; simpl in Hrow; rewrite ?list_elem_of_singleton, ?elem_of_nil in Hrow; try done;
  subst row; try (apply Hother; by apply (bool_decide_unpack _));
  eexists _, _; (split; [done|]); intros _; exists b2; (split; [done|]); apply about_domain_event.
- rewrite Ho. by left.
Qed.

Lemma topic_rows db0 db :
empty_bookings db0 → b_outbox db0 = [] → rtc (booking_step W) db0 db →
wf db ∧ ∀ row, row ∈ b_outbox db → topic_row db row.
Proof.
intros Hb Ho. apply (rtc_ind_r (λ db, wf db ∧ ∀ row, row ∈ b_outbox db → topic_row db row)).
- split; [by apply wf_empty|]. rewrite Ho. intros row Hrow. by apply not_elem_of_nil in Hrow.
- intros db1 db2 _ Hs [Hwf Hrows]. split; [by eapply wf_step|].
intros row [Hold|?]%(topic_row_new db1 db2); [|done|done|done].
eapply topic_row_keep; eauto.
Qed.
End topic.

Lemma handlers_get_booking t :
  handlers_get BOOKING_EVENT_HANDLERS t =
  if decide (t ∈ BOOKING_EVENT_TYPES) then Some (_make_handler t) else None.
Proof.
  unfold BOOKING_EVENT_HANDLERS. induction BOOKING_EVENT_TYPES as [|t' ts IH]; [done|].
  cbn [fmap list_fmap handlers_get]. destruct (decide (t = t')) as [->|Hne].
  - rewrite decide_True; [done | by left].
  - rewrite IH. apply decide_ext. set_solver.
Qed.

(** What the consumer does with a row of the topic. *)
Lemma topic_row_consumed (db : BookingDB) (row : OutboxRow) (n : node NotificationDB (list notice)) :
  topic_row db row →
  ∃ n', consume (inbox_process BOOKING_EVENT_HANDLERS) (payload row) n = (Ok tt, n') ∧
    preferences n'.1.1 = preferences n.1.1 ∧ n_inbox n'.1.1 = {[ob_id row]} ∪ n_inbox n.1.1 ∧
    if decide (ob_id row ∉ n_inbox n.1.1 ∧ ob_type row ∈ BOOKING_EVENT_TYPES)
    then ∃ b, bookings db !! bk_id b = Some b ∧
      n'.1.2 = n.1.2 ++ booking_notices (preferences n.1.1) (ob_type row) b
    else n'.1.2 = n.1.2.
Proof.
  intros (data & tr & Hp & Hd).
  rewrite (consume_fields _ _ (ob_id row) (ob_type row) data) by (by rewrite Hp).
  destruct (decide (ob_id row ∈ get_inbox n.1.1)) as [Hin|Hin].
  { rewrite inbox_process_claimed by done. exists n. rewrite decide_False by naive_solver.
    split_and!; [done|done|set_solver|done]. }
  pose proof (handlers_get_booking (ob_type row)) as Hh.
  destruct (decide (ob_type row ∈ BOOKING_EVENT_TYPES)) as [Ht|Ht].
  - destruct (Hd Ht) as (b & Hbk & Ha). rewrite (inbox_process_handled _ _ _ _ n _ Hin Hh).
    unfold _make_handler. rewrite (notify_booking_event_run _ b) by done. destruct n as [[ndb log] e].
    eexists. split; [done|]. rewrite decide_True by done. split_and!; [done|done|].
    exists b. by split.
  - rewrite (inbox_process_ignored _ _ _ _ n Hin Hh). destruct n as [[ndb log] e].
    eexists. split; [done|]. rewrite decide_False by naive_solver. by split_and!.
Qed.

(** C31: the notification consumer never fails on what the booking service
    published, from whatever state it is in; a booking event that was not
    consumed before notifies the renter and then the host of that booking, on
    their enabled channels (both by default), one that was, or an event of
    another type, notifies nobody; preferences never change. *)
Theorem booking_events_notified {W : Type} (db0 db : BookingDB) (row : OutboxRow)
    (n : node NotificationDB (list notice)) :
  empty_bookings db0 → b_outbox db0 = [] → rtc (booking_step W) db0 db → row ∈ b_outbox db →
  ∃ n', consume (inbox_process BOOKING_EVENT_HANDLERS) (payload row) n = (Ok tt, n') ∧
    preferences n'.1.1 = preferences n.1.1 ∧ n_inbox n'.1.1 = {[ob_id row]} ∪ n_inbox n.1.1 ∧
    if decide (ob_id row ∉ n_inbox n.1.1 ∧ ob_type row ∈ BOOKING_EVENT_TYPES)
    then ∃ b, bookings db !! bk_id b = Some b ∧
      n'.1.2 = n.1.2 ++ booking_notices (preferences n.1.1) (ob_type row) b
    else n'.1.2 = n.1.2.
Proof.
  intros Hb Ho Hs Hrow. destruct (topic_rows _ _ Hb Ho Hs) as [_ Hrows].
  by apply topic_row_consumed, Hrows.
Qed.
