(* ===== verification/System.v ===== *)
(** * System: the services together

    [system] has a node for the listing, the booking, the payment, the
    notification, the search and the admin service.  [system_step] is
    everything one of them does alone, with the other services it reaches in
    doing so: over HTTP the current node of the other service answers, over
    Kafka a consumer is given any row of the outbox it reads, any number of
    times and in any order.  [system_ok] is what the databases agree on; the
    theorems say what a client may conclude in one service from what another
    one shows. *)
From S2P Require Import Prelude Python Columns Json JsonFacts Effects Outbox Inbox Idempotency JwtAuth Http.
From S2P Require Import Redis Telemetry TelemetryFacts Admin.
From S2P Require Import BookingDomain BookingRepo BookingService BookingFacts BookingInvariant.
From S2P Require Import BookingRoutes Payment PaymentFacts PaymentBooks PaymentService Saga.
From S2P Require Import Listing ListingFacts ListingService.
From S2P Require Import Search SearchApp SearchFacts Upstreams Notification.
Import PaymentFacts PaymentBooks.

(** ** What a step of one service keeps of another *)

(** The events of the listing topic: each carries an earlier state of a row. *)
Definition row_current (db : ListingDB) (row : OutboxRow) : Prop :=
  ∃ w v, carries row w ∧ vehicles db !! vh_id w = Some v ∧ later w v.

(** Every booking is for a vehicle that is approved, of the booking's host. *)
Definition booked (rows : gmap uuid Vehicle) (bdb : BookingDB) : Prop :=
  ∀ i b, bookings bdb !! i = Some b → ∃ v, rows !! bk_vehicle_id b = Some v ∧
    vh_approval_status v = "approved" ∧ vh_host_id v = bk_host_id b.

(** Every document is one a vehicle had while it was approved. *)
Definition indexed_from (ix : string) (rows : gmap uuid Vehicle) (m : gmap (string * string) dict) : Prop :=
  ∀ k d, m !! (ix, k) = Some d → ∃ w v, k = str_uuid (vh_id w) ∧ d = vehicle_document w ∧
    vh_approval_status w = "approved" ∧ rows !! vh_id w = Some v ∧ later w v.

(** Every notice went to a party of a booking, about it. *)
Definition notices_from (bdb : BookingDB) (log : list notice) : Prop :=
  ∀ n, n ∈ log → ∃ b, bookings bdb !! bk_id b = Some b ∧
    nt_booking_id n = PStr (str_uuid (bk_id b)) ∧ nt_user_id n ∈ [bk_renter_id b; bk_host_id b].

Lemma later_approved w v :
  later w v → vh_approval_status w = "approved" → vh_approval_status v = "approved".
Proof. intros (_ & _ & _ & [E|[E _]]) Hw; congruence. Qed.

Section listing_side.
Context {W : Type}.

Lemma step_rows_current db db' :
lwf db → listing_step W db db' → (∀ row, row ∈ l_outbox db → row_current db row) →
∀ row, row ∈ l_outbox db' → row_current db' row.
Proof.
intros Hwf Hs Hrows.
assert (∀ row, row_current db row → row_current db' row) as Hkeep.
{ intros row (w & v & Hc & Hv & Hl). destruct (step_later _ _ _ _ _ Hwf Hs Hv) as (v' & Hv' & Hl').
  exists w, v'. split_and!; [done..|]. by etrans. }
assert (∀ e t w db1, t ∈ ["vehicle_approved"; "vehicle_updated"] →
  vehicles db1 !! vh_id w = Some w → row_current db1
    (outbox_row e "vehicle" (str_uuid (vh_id w)) t (_vehicle_snapshot w))) as Hnew.
{ intros e t w db1 Ht Hw. exists w, w. split; [|by split]. exists e, t. split; [|done].
  revert Ht. unfold LISTING_EVENT_TYPES. set_solver. }
destruct Hs as [op s s' _ <- Hr|db2 (_ & _ & Ho)].
2:{ intros row. rewrite Ho. intros Hrow. by apply Hkeep, Hrows. }
apply run_op_Ok in Hr as (db2 & He & ->). cbn [work] in *. intros row Hrow.
destruct op as [h p|id h f|id|id|id h sd ed]; unfold effect in He; cbv zeta in He.
- destruct He as (_ & _ & ->). by apply Hkeep, Hrows.
- destruct He as (v & _ & _ & _ & ->). apply elem_of_app in Hrow as [Hrow|Hrow];
    [by apply Hkeep, Hrows|]. apply list_elem_of_singleton in Hrow as ->.
  apply Hnew; [set_solver | apply lookup_insert_eq].
- destruct He as (v & _ & _ & _ & ->). apply elem_of_app in Hrow as [Hrow|Hrow];
    [by apply Hkeep, Hrows|]. apply list_elem_of_singleton in Hrow as ->.
  apply Hnew; [set_solver | apply lookup_insert_eq].
- destruct He as (v & _ & _ & _ & ->). by apply Hkeep, Hrows.
- destruct He as (v & _ & _ & _ & _ & ->). by apply Hkeep, Hrows.
Qed.

Lemma step_booked db db' bdb :
lwf db → listing_step W db db' → booked (vehicles db) bdb → booked (vehicles db') bdb.
Proof.
intros Hwf Hs Hb i b (v & Hv & Ha & Hh)%Hb.
destruct (step_later _ _ _ _ _ Hwf Hs Hv) as (v' & Hv' & Hl). exists v'.
split_and!; [done|by eapply later_approved|]. destruct Hl as (_ & -> & _). done.
Qed.

Lemma step_indexed ix db db' m :
lwf db → listing_step W db db' → indexed_from ix (vehicles db) m → indexed_from ix (vehicles db') m.
Proof.
intros Hwf Hs Hm k d (w & v & Hk & Hd & Ha & Hv & Hl)%Hm.
destruct (step_later _ _ _ _ _ Hwf Hs Hv) as (v' & Hv' & Hl'). exists w, v'.
split_and!; [done..|]. by etrans.
Qed.
End listing_side.

Section booking_side.
Context {W : Type} (rows : gmap uuid Vehicle).

(** A booking is made with the listing service's answer, and keeps its
  vehicle and its host. *)
Lemma booking_steps_booked Q bdb bdb' :
rtc (booking_step_by W (λ l, VehicleApi l rows) Q) bdb bdb' → wf bdb →
booked rows bdb → booked rows bdb'.
Proof.
induction 1 as [|db1 db2 db3 H12 _ IH]; intros Hwf Hb; [done|].
apply IH; [by eapply wf_step|]. clear IH.
assert (∀ i b b', bookings db1 !! i = Some b → terms b' = terms b → ∃ v,
  rows !! bk_vehicle_id b' = Some v ∧ vh_approval_status v = "approved" ∧ vh_host_id v = bk_host_id b')
  as Hkeep.
{ intros i b b' Hi Ht. destruct (Hb i b Hi) as (v & Hv & Ha & Hh). exists v.
  unfold terms in Ht. injection Ht as _ -> -> _ _ _ _. done. }
destruct H12 as [listing renter vehicle sd ed tok s s' b0 Hl <- Hr | id c s s' b0 _ <- Hr | db'' [Hs _]].
- pose proof (request_booking_terms listing rows _ _ _ _ _ _ _ _ Hr) as (v & Hv & Ha & Hh & _).
  apply request_booking_Ok in Hr as (vi & _ & _ & _ & -> & ->). intros i b. simpl.
  rewrite lookup_insert_Some. intros [[_ <-]|[_ Hi]]; [by exists v|]. by eapply Hkeep.
- apply run_command_Ok in Hr as (b1 & Hb1 & Hr).
  apply command_body_Ok in Hr as (_ & _ & _ & _ & ->). intros i b. simpl.
  rewrite lookup_insert_Some. intros [[_ <-]|[_ Hi]]; [|by eapply Hkeep].
  eapply Hkeep; [exact Hb1 | apply terms_apply_op].
- intros i b. rewrite Hs. intros Hi. by eapply Hkeep.
Qed.

(** A booking that appears has the terms of its vehicle's row. *)
Lemma booking_steps_terms Q bdb bdb' i b :
rtc (booking_step_by W (λ l, VehicleApi l rows) Q) bdb bdb' → wf bdb →
bookings bdb !! i = None → bookings bdb' !! i = Some b →
∃ v, rows !! bk_vehicle_id b = Some v ∧ terms_of v b.
Proof.
intros Hs Hwf Hn. set (listed b := ∃ v, rows !! bk_vehicle_id b = Some v ∧ terms_of v b).
assert (∀ b, bookings bdb !! i = Some b → listed b) as H0 by (intros b0; by rewrite Hn).
clear Hn. revert b. induction Hs as [|db1 db2 db3 H12 _ IH]; [done|].
apply IH; [by eapply wf_step|]. clear IH.
destruct H12 as [listing renter vehicle sd ed tok s s' b0 Hl <- Hr | id c s s' b0 _ <- Hr | db'' [Hs' _]].
- pose proof (request_booking_terms listing rows _ _ _ _ _ _ _ _ Hr) as Hv.
  apply request_booking_Ok in Hr as (vi & _ & _ & _ & -> & ->). intros b. simpl.
  rewrite lookup_insert_Some. intros [[_ <-]|[_ Hi]]; [done|]. by apply H0.
- apply run_command_Ok in Hr as (b1 & Hb1 & Hr).
  apply command_body_Ok in Hr as (_ & _ & _ & _ & ->). intros b. simpl.
  rewrite lookup_insert_Some. intros [[Hid <-]|[_ Hi]]; [|by apply H0].
  pose proof (wf_id _ Hwf _ _ Hb1) as <-. subst i.
  destruct (H0 b1 Hb1) as (v & Hv & Ht). exists v. by destruct (command_op c).
- intros b. rewrite Hs'. apply H0.
Qed.

Lemma booking_steps_topic L Q bdb bdb' :
rtc (booking_step_by W L Q) bdb bdb' → wf bdb →
(∀ row, row ∈ b_outbox bdb → topic_row bdb row) → ∀ row, row ∈ b_outbox bdb' → topic_row bdb' row.
Proof.
induction 1 as [|db1 db2 db3 H12 _ IH]; intros Hwf Hrows; [done|].
apply IH; [by eapply wf_step|]. intros row Hrow.
assert (booking_step W db1 db2) as Hs by (by eapply booking_step_weaken, H12).
destruct (topic_row_new (W := W) db1 db2 row Hwf Hs Hrow) as [Hold|]; [|done].
eapply topic_row_keep; eauto.
Qed.

Lemma booking_steps_notices L Q bdb bdb' log :
rtc (booking_step_by W L Q) bdb bdb' → wf bdb → notices_from bdb log → notices_from bdb' log.
Proof.
induction 1 as [|db1 db2 db3 H12 _ IH]; intros Hwf Hlog; [done|].
apply IH; [by eapply wf_step|]. intros n (b & Hb & Hid & Hu)%Hlog.
destruct (step_terms _ _ _ _ _ _ Hwf H12 Hb) as (b' & Hb' & Ht). exists b'.
unfold terms in Ht. injection Ht as Eid _ Eh Er _ _ _. by rewrite Eid, Er, Eh.
Qed.
End booking_side.

(** The notices of one event. *)
Lemma booking_notices_from bdb prefs t b :
  bookings bdb !! bk_id b = Some b → notices_from bdb (booking_notices prefs t b).
Proof.
  intros Hb n Hn. exists b. split; [done|]. unfold booking_notices, user_notices in Hn.
  repeat (apply elem_of_app in Hn as [Hn|Hn]); (case_match; [|by apply not_elem_of_nil in Hn]);
    apply list_elem_of_singleton in Hn as ->; simpl; split; try done; set_solver.
Qed.

Lemma consume_notices bdb row (n n' : node NotificationDB (list notice)) res :
  topic_row bdb row → notices_from bdb n.1.2 →
  consume (inbox_process BOOKING_EVENT_HANDLERS) (payload row) n = (res, n') →
  notices_from bdb n'.1.2.
Proof.
  intros Hrow Hlog Hc. destruct (topic_row_consumed bdb row n Hrow) as (n1 & Hc1 & _ & _ & Hn).
  rewrite Hc1 in Hc. injection Hc as _ <-. case_decide; [|by rewrite Hn].
  destruct Hn as (b & Hb & ->). intros m [Hm|Hm]%elem_of_app; [by apply Hlog|].
  by eapply booking_notices_from.
Qed.

Lemma consume_indexed {E R} `{!Elasticsearch E, !ElasticsearchLaws E, !ElasticsearchFailures E}
    `{!Redis R, !RedisLaws R} ix db row (e e' : E) (r r' : R) res :
  row_current db row → indexed_from ix (vehicles db) (docs e) →
  consume (listing_event_processor ix) (payload row) (e, r) = (res, (e', r')) →
  indexed_from ix (vehicles db) (docs e').
Proof.
  intros (w & v & Hc & Hv & Hl) Hm Hcons.
  destruct (consume_row_any ix row w e r res e' r' Hc Hcons) as [->| ->]; [done|].
  unfold apply_vehicle. intros k d. case_decide as Ha.
  - rewrite lookup_insert_Some. intros [[[= <-] <-]|[_ Hd]]; [|by apply Hm]. by exists w, v.
  - rewrite lookup_delete_Some. intros [_ Hd]. by apply Hm.
Qed.

(** ** What a request to the admin service does to the services behind it *)
Section admin_side.
Context {WL WB R : Type} `{!Platform} `{!FloatText} `{!Redis R}.
Variables (acfg : admin_settings) (lcfg bcfg : jwt_settings) (fl : fate).
#[local] Instance upstream : Upstream (servers (WL := WL) (WB := WB)) := service_servers acfg lcfg bcfg fl.
Abbreviation admin_session := (session AdminDB (admin_world R (servers (WL := WL) (WB := WB)))).

(** The listing service served requests, the booking service only reads. *)
Definition behind (u u' : servers (WL := WL) (WB := WB)) : Prop :=
rtc (listing_service_step lcfg) u.1 u'.1 ∧ u'.2 = u.2.
#[local] Instance behind_preorder : PreOrder behind.
Proof.
split; [by split|]. intros u1 u2 u3 [H1 E1] [H2 E2]. split; [by etrans | congruence].
Qed.

Definition behind_admin (s s' : admin_session) : Prop :=
behind (aw_upstream (world s)) (aw_upstream (world s')).
#[local] Instance behind_admin_preorder : PreOrder behind_admin.
Proof. split; [by intros s|]. intros s1 s2 s3. unfold behind_admin. apply transitivity. Qed.

Lemma moves_same_upstream {A} (m : M admin_session A) :
preserves (λ s, aw_upstream (world s)) m → moves behind_admin m.
Proof. intros Hm s. unfold behind_admin. by rewrite Hm. Qed.

Lemma moves_http_post url h : moves behind_admin (via_http (http_post url h)).
Proof.
intros s. unfold via_http, call, behind_admin. cbn [http_post upstream service_servers].
destruct (aw_upstream (world s)) as [nl nb] eqn:Eu. destruct (decision_route acfg url) as [r|], fl;
  try (cbn [snd world with_world aw_upstream]; reflexivity);
  destruct (serve _ nl) as [resp nl'] eqn:Es; cbn [snd world with_world aw_upstream];
  (split; [|done]); eapply rtc_once, lsvc_request; exact Es.
Qed.

Lemma moves_http_get url p h : moves behind_admin (via_http (http_get url p h)).
Proof.
intros s. unfold via_http, call, behind_admin. cbn [http_get upstream service_servers].
destruct (aw_upstream (world s)) as [nl nb] eqn:Eu.
destruct fl; try reflexivity.
destruct (query_int p "limit"), (query_int p "offset"); try reflexivity.
case_decide; [|reflexivity]. destruct nb as [[db w] e]. unfold serve, run_session.
pose proof (list_bookings_read_only bcfg (client_request h) (Valid (z, z0)) (mk_session db db w e)) as Hro.
unfold BookingRoutes.handle.
destruct (BookingRoutes.list_bookings _ _ _ _) as [res s']. simpl in Hro. subst s'. reflexivity.
Qed.

Lemma moves_via_redis {A} (m : M R A) : moves behind_admin (via_redis m).
Proof.
apply moves_same_upstream. intros s. unfold via_redis, call. by destruct (m _).
Qed.

Lemma moves_store g body status : moves behind_admin (store g body status).
Proof. apply moves_same_upstream. unfold store, get_db, put_db, commit, modify, now. preserves. Qed.

Lemma moves_record a t tt_ i p : moves behind_admin (Admin.record a t tt_ i p).
Proof. apply moves_same_upstream. unfold Admin.record, uuid4, get_db, put_db, modify, now. preserves. Qed.

Lemma moves_uuid4 : moves behind_admin uuid4.
Proof. by intros s. Qed.
Lemma moves_header_token auth : moves behind_admin (header_token auth).
Proof. apply moves_read_only; [apply _|]. apply header_token_read_only. Qed.
Lemma moves_json_response r : moves behind_admin (json_response r).
Proof. apply moves_read_only; [apply _|]. apply json_response_read_only. Qed.
Lemma moves_claims_sub claims : moves behind_admin (claims_sub claims).
Proof. apply moves_read_only; [apply _|]. apply read_only_claims_sub. Qed.
#[local] Hint Resolve moves_http_post moves_http_get moves_via_redis moves_store moves_record
  moves_uuid4 moves_header_token moves_json_response moves_claims_sub : moves.

Lemma moves_mutation {P} cfg rq (i : input P) roles status build :
(∀ claims p, moves behind_admin (build claims p)) →
moves behind_admin (mutation cfg rq i roles status build).
Proof.
intros Hb. unfold mutation, refused, validated, respond_idempotently.
assert (moves behind_admin (get_guard cfg rq))
  by (apply moves_read_only; [apply _ | apply read_only_get_guard]).
assert (moves behind_admin (get_access_claims cfg rq))
  by (apply moves_read_only; [apply _ | apply read_only_get_access_claims]).
assert (∀ claims, moves behind_admin (require_role claims roles))
  by (intros; apply moves_read_only; [apply _ | apply read_only_require_role]).
moves.
Qed.

Lemma moves_query {P} cfg rq (i : input P) handler :
(∀ claims p, moves behind_admin (handler claims p)) → moves behind_admin (query cfg rq i handler).
Proof.
intros Hb. unfold query, refused, validated.
assert (moves behind_admin (get_access_claims cfg rq))
  by (apply moves_read_only; [apply _ | apply read_only_get_access_claims]).
moves.
Qed.

Lemma moves_admin_handle rq r : moves behind_admin (Admin.handle acfg rq r).
Proof.
destruct r; cbn [Admin.handle];
  unfold Admin.approve, Admin.reject, Admin.bookings, enable_kill_switch, disable_kill_switch,
    list_actions;
  first [apply moves_mutation | apply moves_query]; intros claims p;
  unfold Admin.approve_build, Admin.reject_build, enable_build, disable_build, bookings_handler,
    list_actions_handler, upstream_errors, Admin.approve_vehicle, Admin.reject_vehicle,
    client_approve_vehicle, client_reject_vehicle, post_vehicle, Admin.list_bookings,
    client_list_bookings, activate_kill_switch, deactivate_kill_switch, list_recent, get_db,
    require_role; moves.
Qed.
End admin_side.

(** ** The system *)
Section system.
Context {WL WB WP E R RA : Type} `{!Platform} `{!FloatText} `{!StripeSdk WP}.
Context `{!Elasticsearch E} `{!ElasticsearchLaws E} `{!Redis R} `{!Redis RA}.
Variables (acfg : admin_settings) (lcfg cfg : jwt_settings) (client : StripeClient WP) (ix : string).

Record system := mk_system {
  sy_listing : node ListingDB WL;
  sy_booking : node BookingDB WB;
  sy_payment : node PaymentDB WP;
  sy_search : E * R;
  sy_notification : node NotificationDB (list notice);
  sy_admin : AdminDB * RA * env;
}.

(** The node of the admin service, with the services it calls. *)
Definition admin_node (st : system) : node AdminDB (admin_world RA (servers (WL := WL) (WB := WB))) :=
let '(db, r, e) := sy_admin st in (db, mk_admin_world r (sy_listing st, sy_booking st), e).

Inductive system_step (st : system) : system → Prop :=
| sys_listing nl :
  listing_service_step lcfg (sy_listing st) nl →
  system_step st (mk_system nl (sy_booking st) (sy_payment st) (sy_search st) (sy_notification st)
    (sy_admin st))
| sys_booking f rq r resp nb :
  serve (BookingRoutes.handle cfg (listing_client lcfg f (sy_listing st)) rq r) (sy_booking st) =
    (resp, nb) →
  system_step st (mk_system (sy_listing st) nb (sy_payment st) (sy_search st) (sy_notification st)
    (sy_admin st))
| sys_background nb np :
  saga_background cfg client (sy_booking st, sy_payment st) (nb, np) →
  system_step st (mk_system (sy_listing st) nb np (sy_search st) (sy_notification st) (sy_admin st))
| sys_search row res es :
  row ∈ l_outbox (sy_listing st).1.1 →
  consume (listing_event_processor ix) (payload row) (sy_search st) = (res, es) →
  system_step st (mk_system (sy_listing st) (sy_booking st) (sy_payment st) es (sy_notification st)
    (sy_admin st))
| sys_search_other es :
  docs es.1 = docs (sy_search st).1 →
  system_step st (mk_system (sy_listing st) (sy_booking st) (sy_payment st) es (sy_notification st)
    (sy_admin st))
| sys_notification row res nn :
  row ∈ b_outbox (sy_booking st).1.1 →
  consume (inbox_process BOOKING_EVENT_HANDLERS) (payload row) (sy_notification st) = (res, nn) →
  system_step st (mk_system (sy_listing st) (sy_booking st) (sy_payment st) (sy_search st) nn
    (sy_admin st))
| sys_admin f rq r resp db w e :
  serve (Admin.handle acfg (Upstream0 := service_servers acfg lcfg cfg f) rq r) (admin_node st) =
    (resp, (db, w, e)) →
  system_step st (mk_system (aw_upstream w).1 (aw_upstream w).2 (sy_payment st) (sy_search st)
    (sy_notification st) (db, aw_redis w, e)).

(** A request to the admin service, seen from the services behind it. *)
Lemma admin_request_behind st f rq r resp db w e :
serve (Admin.handle acfg (Upstream0 := service_servers acfg lcfg cfg f) rq r) (admin_node st) =
  (resp, (db, w, e)) →
rtc (listing_step WL) (sy_listing st).1.1 (aw_upstream w).1.1.1 ∧ (aw_upstream w).2 = sy_booking st.
Proof.
unfold admin_node. destruct (sy_admin st) as [[adb r0] e0]. unfold serve, run_session.
set (s0 := mk_session _ _ _ _). pose proof (moves_admin_handle acfg lcfg cfg f rq r s0) as [Hl Hb].
destruct (Admin.handle acfg rq r s0) as [x s']. intros [= _ _ <- _]. split; [|exact Hb].
by apply listing_service_steps in Hl.
Qed.

(** What the databases agree on. *)
Record system_ok (st : system) : Prop := mk_system_ok {
  ok_listing : lwf (sy_listing st).1.1;
  ok_rows : ∀ row, row ∈ l_outbox (sy_listing st).1.1 → row_current (sy_listing st).1.1 row;
  ok_saga : saga_agrees (sy_booking st).1.1 (sy_payment st).1.1;
  ok_topic : ∀ row, row ∈ b_outbox (sy_booking st).1.1 → topic_row (sy_booking st).1.1 row;
  ok_booked : booked (vehicles (sy_listing st).1.1) (sy_booking st).1.1;
  ok_indexed : indexed_from ix (vehicles (sy_listing st).1.1) (docs (sy_search st).1);
  ok_notices : notices_from (sy_booking st).1.1 (sy_notification st).1.2;
}.

(** The listing service moved. *)
Lemma ok_listing_steps st nl ad :
rtc (listing_step WL) (sy_listing st).1.1 nl.1.1 → system_ok st →
system_ok (mk_system nl (sy_booking st) (sy_payment st) (sy_search st) (sy_notification st) ad).
Proof.
intros Hs [H1 H2 H3 H4 H5 H6 H7].
assert (lwf nl.1.1 ∧ (∀ row, row ∈ l_outbox nl.1.1 → row_current nl.1.1 row) ∧
  booked (vehicles nl.1.1) (sy_booking st).1.1 ∧
  indexed_from ix (vehicles nl.1.1) (docs (sy_search st).1)) as (?&?&?&?); [|done].
revert H1 H2 H5 H6. clear H3 H4 H7.
induction Hs as [|db1 db2 db3 H12 _ IH]; intros Hwf Hrows Hb Hi; [done|]. apply IH.
- by eapply step_lwf.
- by eapply step_rows_current.
- by eapply step_booked.
- by eapply step_indexed.
Qed.

(** The booking service moved, with the listing service that is there. *)
Lemma ok_booking_steps st nb np Q :
rtc (booking_step_by WB (λ l, VehicleApi l (vehicles (sy_listing st).1.1)) Q)
  (sy_booking st).1.1 nb.1.1 → saga_agrees nb.1.1 np.1.1 → system_ok st →
system_ok (mk_system (sy_listing st) nb np (sy_search st) (sy_notification st) (sy_admin st)).
Proof.
intros Hs Ha [H1 H2 H3 H4 H5 H6 H7]. pose proof (ag_wf _ _ H3) as Hwf. split; simpl.
- done.
- done.
- done.
- by eapply booking_steps_topic.
- by eapply booking_steps_booked.
- done.
- by eapply booking_steps_notices.
Qed.

Context `{!PlatformJson} `{!ElasticsearchFailures E} `{!RedisLaws R}.

(** A step of the system, seen by the booking service. *)
Lemma step_booking_rtc st st' :
system_step st st' → system_ok st →
rtc (booking_step_by WB (λ l, VehicleApi l (vehicles (sy_listing st).1.1)) (λ _ _, True))
  (sy_booking st).1.1 (sy_booking st').1.1.
Proof.
intros Hs Hok. destruct Hs as [nl Hs|f rq r resp nb Hs|nb np Hs|row res es Hrow Hs|es Hs|row res nn Hrow Hs
  |f rq r resp db w e Hs]; cbn [sy_booking]; try done.
- destruct (sy_booking st) as [[bdb bw] be]. unfold serve, run_session in Hs.
  destruct (BookingRoutes.handle _ _ _ _ _) as [x s'] eqn:Eh. injection Hs as _ <-.
  apply handle_steps in Eh; [|done]. eapply rtc_subrel; [|exact Eh].
  intros x1 x2. apply booking_step_weaken; [|done].
  intros l Hl. rewrite <- Hl. apply listing_client_api, Hok.
- apply background_booking_steps in Hs. simpl in Hs. eapply rtc_subrel; [|exact Hs].
  intros x1 x2. by apply booking_step_weaken.
- apply admin_request_behind in Hs as [_ Hb]. by rewrite Hb.
Qed.

Lemma ok_step st st' : system_step st st' → system_ok st → system_ok st'.
Proof.
intros Hs Hok. pose proof Hok as [A1 A2 A3 A4 A5 A6 A7].
destruct Hs as [nl Hs|f rq r resp nb Hs|nb np Hs|row res es Hrow Hs|es Hs|row res nn Hrow Hs
  |f rq r resp db w e Hs].
- apply ok_listing_steps; [|done]. by eapply listing_service_step_steps.
- apply (ok_booking_steps _ _ _ (λ _ _, True)); [|  |done].
  + exact (step_booking_rtc _ _ (sys_booking _ _ _ _ _ _ Hs) Hok).
  + apply (agrees_step cfg client (sy_booking st, sy_payment st) (nb, sy_payment st)); [|done].
    by eapply sg_request.
- apply (ok_booking_steps _ _ _ (λ _ _, True)); [|  |done].
  + exact (step_booking_rtc _ _ (sys_background _ _ _ Hs) Hok).
  + apply (agrees_step cfg client (sy_booking st, sy_payment st) (nb, np)); [|done].
    by apply sg_background.
- split; try done. simpl. destruct (sy_search st) as [e0 r0], es as [e1 r1].
  eapply consume_indexed; [|exact A6|exact Hs]. by apply A2.
- split; try done. simpl. by rewrite Hs.
- split; try done. simpl. eapply consume_notices; [|exact A7|exact Hs]. by apply A4.
- apply admin_request_behind in Hs as [Hl Hb]. rewrite Hb. by apply ok_listing_steps.
Qed.

(** Every service started on empty tables. *)
Definition system_start (st : system) : Prop :=
empty_listing (sy_listing st).1.1 ∧ saga_start (sy_booking st, sy_payment st) ∧
(∀ k, docs (sy_search st).1 !! (ix, k) = None) ∧ (sy_notification st).1.2 = [].

Definition system_reachable (st : system) : Prop :=
∃ st0, system_start st0 ∧ rtc system_step st0 st.

Lemma reachable_ok st : system_reachable st → system_ok st.
Proof.
intros (st0 & (Hl & Hs & Hd & Hn) & Hsteps).
assert (system_ok st0) as Hok.
{ split.
  - by apply lwf_empty.
  - destruct Hl as (_ & _ & ->). by intros row ?%not_elem_of_nil.
  - apply (saga_reachable_agrees cfg client (sy_booking st0, sy_payment st0)). by exists (sy_booking st0, sy_payment st0).
  - destruct Hs as (_ & Ho & _). simpl in Ho. rewrite Ho. by intros row ?%not_elem_of_nil.
  - destruct Hs as ([Hb _] & _). simpl in Hb. intros i b. by rewrite Hb, lookup_empty.
  - intros k d. by rewrite Hd.
  - rewrite Hn. by intros n ?%not_elem_of_nil. }
clear Hl Hs Hd Hn. induction Hsteps; [done|]. eauto using ok_step.
Qed.

(** A step is at most one step of the saga, and steps of the listing service. *)
Lemma step_projects st st' :
system_step st st' →
rtc (saga_step cfg client) (sy_booking st, sy_payment st) (sy_booking st', sy_payment st') ∧
rtc (listing_step WL) (sy_listing st).1.1 (sy_listing st').1.1.
Proof.
intros [nl Hs|rq r resp nb Hs|nb np Hs|row res es Hrow Hs|es Hs|row res nn Hrow Hs
  |f rq r resp db w e Hs]; cbn [sy_listing sy_booking sy_payment]; (split; [|try done]); try done.
- by eapply listing_service_step_steps.
- by eapply rtc_once, sg_request.
- by apply rtc_once, sg_background.
- apply admin_request_behind in Hs as [_ Hb]. by rewrite Hb.
- by apply admin_request_behind in Hs as [Hl _].
Qed.

Lemma system_saga_reachable st :
system_reachable st → saga_reachable cfg client (sy_booking st, sy_payment st).
Proof.
intros (st0 & (_ & Hs & _) & Hsteps). exists (sy_booking st0, sy_payment st0). split; [done|].
clear Hs. induction Hsteps as [|x y z Hxy _ IH]; [done|].
etrans; [by apply step_projects | done].
Qed.

Lemma system_listing_reachable st : system_reachable st → listing_reachable WL (sy_listing st).1.1.
Proof.
intros (st0 & (Hl & _) & Hsteps). exists (sy_listing st0).1.1. split; [done|].
clear Hl. induction Hsteps as [|x y z Hxy _ IH]; [done|].
etrans; [by apply step_projects | done].
Qed.
End system.

(** C1: whatever is booked may be booked, and its money goes to its owner.  In
    every reachable state of the system a booking's vehicle is listed,
    approved, and of the booking's host; so the ledger entries of a captured
    payment credit the host the listing service knows as the owner of the
    vehicle that was rented. *)
Theorem payment_reaches_owner {WL WB WP E R RA} `{!Platform} `{!FloatText} `{!StripeSdk WP}
    `{!Elasticsearch E} `{!ElasticsearchLaws E} `{!Redis R} `{!Redis RA} `{!PlatformJson}
    `{!ElasticsearchFailures E} `{!RedisLaws R} (acfg : admin_settings) (lcfg cfg : jwt_settings)
    (client : StripeClient WP) (ix : string) (st : system (WL := WL) (WB := WB) (WP := WP) (E := E)
      (R := R) (RA := RA)) :
  system_reachable acfg lcfg cfg client ix st →
  (∀ i b, bookings (sy_booking st).1.1 !! i = Some b → ∃ v,
     vehicles (sy_listing st).1.1 !! bk_vehicle_id b = Some v ∧
     vh_approval_status v = "approved" ∧ vh_host_id v = bk_host_id b) ∧
  (∀ i p, payments (sy_payment st).1.1 !! i = Some p → pm_status p = "captured" → ∃ b v,
     bookings (sy_booking st).1.1 !! i = Some b ∧
     vehicles (sy_listing st).1.1 !! bk_vehicle_id b = Some v ∧
     line <$> entries_of i (sy_payment st).1.1 = captured_lines p (vh_host_id v) (rental_price b)).
Proof.
  intros Hr. pose proof (reachable_ok _ _ _ _ _ _ Hr) as Hok. split; [exact (ok_booked _ _ Hok)|]. intros i p Hp Hst.
  destruct (ag_payment _ _ (ok_saga _ _ Hok) i p Hp) as (b & Hb & _ & _ & Hl).
  destruct (ok_booked _ _ Hok i b Hb) as (v & Hv & _ & Hh). exists b, v.
  split_and!; [done..|]. rewrite Hh. by apply Hl.
Qed.

(** C2: search shows approved vehicles only.  Whatever happens to the delivery
    of the listing events and to the calls to Elasticsearch (lost, repeated,
    reordered, failed half-way), a document of the index belongs to a vehicle
    that is approved, under its host, and shows a state it had while it was. *)
Theorem search_shows_approved {WL WB WP E R RA} `{!Platform} `{!FloatText} `{!StripeSdk WP}
    `{!Elasticsearch E} `{!ElasticsearchLaws E} `{!Redis R} `{!Redis RA} `{!PlatformJson}
    `{!ElasticsearchFailures E} `{!RedisLaws R} (acfg : admin_settings) (lcfg cfg : jwt_settings)
    (client : StripeClient WP) (ix k : string) (d : dict) (st : system (WL := WL) (WB := WB)
      (WP := WP) (E := E) (R := R) (RA := RA)) :
  system_reachable acfg lcfg cfg client ix st → docs (sy_search st).1 !! (ix, k) = Some d →
  ∃ w v, k = str_uuid (vh_id w) ∧ d = vehicle_document w ∧ vh_approval_status w = "approved" ∧
    vehicles (sy_listing st).1.1 !! vh_id w = Some v ∧ vh_approval_status v = "approved" ∧
    vh_host_id v = vh_host_id w.
Proof.
  intros Hr. pose proof (reachable_ok _ _ _ _ _ _ Hr) as Hok. intros (w & v & Hk & Hd & Ha & Hv & Hl)%(ok_indexed _ _ Hok).
  exists w, v. split_and!; [done..|by eapply later_approved|]. by destruct Hl as (_ & ? & _).
Qed.

(** Nobody else is told.  Every notification the service ever sent is about
    a booking that exists, and went to its renter or its host. *)
Theorem notices_to_parties {WL WB WP E R RA} `{!Platform} `{!FloatText} `{!StripeSdk WP}
    `{!Elasticsearch E} `{!ElasticsearchLaws E} `{!Redis R} `{!Redis RA} `{!PlatformJson}
    `{!ElasticsearchFailures E} `{!RedisLaws R} (acfg : admin_settings) (lcfg cfg : jwt_settings)
    (client : StripeClient WP) (ix : string) (n : notice) (st : system (WL := WL) (WB := WB)
      (WP := WP) (E := E) (R := R) (RA := RA)) :
  system_reachable acfg lcfg cfg client ix st → n ∈ (sy_notification st).1.2 →
  ∃ b, bookings (sy_booking st).1.1 !! bk_id b = Some b ∧
    nt_booking_id n = PStr (str_uuid (bk_id b)) ∧ nt_user_id n ∈ [bk_renter_id b; bk_host_id b].
Proof. intros Hr. pose proof (reachable_ok _ _ _ _ _ _ Hr) as Hok. apply (ok_notices _ _ Hok). Qed.


(** C8: a booking is made on the listed terms.  A booking that appears in a
    step of the system has the host, the price, the mileage allowance and the
    booking mode its vehicle has in the listing service at that step, where
    it is approved. *)
Theorem booked_on_listed_terms {WL WB WP E R RA} `{!Platform} `{!FloatText} `{!StripeSdk WP}
    `{!Elasticsearch E} `{!ElasticsearchLaws E} `{!Redis R} `{!Redis RA} `{!PlatformJson}
    `{!ElasticsearchFailures E} `{!RedisLaws R} (acfg : admin_settings) (lcfg cfg : jwt_settings)
    (client : StripeClient WP) (ix : string) (i : uuid) (b : Booking) (st st' : system (WL := WL)
      (WB := WB) (WP := WP) (E := E) (R := R) (RA := RA)) :
  system_reachable acfg lcfg cfg client ix st → system_step acfg lcfg cfg client ix st st' →
  bookings (sy_booking st).1.1 !! i = None → bookings (sy_booking st').1.1 !! i = Some b →
  ∃ v, vehicles (sy_listing st).1.1 !! bk_vehicle_id b = Some v ∧ terms_of v b.
Proof.
  intros Hr Hs. pose proof (reachable_ok _ _ _ _ _ _ Hr) as Hok.
  pose proof (step_booking_rtc _ _ _ _ _ _ _ Hs Hok) as Hb. eapply booking_steps_terms; [exact Hb|].
  exact (ag_wf _ _ (ok_saga _ _ Hok)).
Qed.
