(* ===== verification/Wire.v ===== *)
(** * Wire: what the services publish is read back, by code that expects it

    The rows of the three outboxes carry JSON ([wire_ok]), so that a payload
    leaves Kafka as it was written ([payloads_cross_the_wire]); and the fields
    a consumer reads are there with the types it expects, so that no consumer
    stops on a row of its topic with a KeyError, a ValueError or a TypeError
    ([messages_well_typed]). *)
From S2P Require Import Prelude Python Columns Json JsonFacts Effects Outbox Inbox Idempotency JwtAuth Http.
From S2P Require Import Redis Admin.
From S2P Require Import BookingDomain BookingRepo BookingService BookingFacts BookingInvariant.
From S2P Require Import BookingRoutes Payment PaymentFacts PaymentBooks PaymentService Saga.
From S2P Require Import Listing ListingFacts ListingService Search SearchFacts Upstreams Notification System.
Import PaymentFacts PaymentBooks.

(** ** JSON *)
Definition wire_ok (row : OutboxRow) : Prop :=
  ∃ eid et data tr, payload row = envelope eid et data tr ∧ json_ok (PDict data).

Lemma wire_outbox_row e at_ ai t data : json_ok (PDict data) → wire_ok (outbox_row e at_ ai t data).
Proof. intros Hd. by eexists _, _, _, _. Qed.

(** The dicts the services publish. *)
Lemma domain_event_json b : json_ok (PDict (domain_event_data b)).
Proof.
  split; [|exact (conj I (conj I (conj I (conj I I))))].
  change (domain_event_data b).*1 with ["booking_id"; "renter_id"; "host_id"; "status"].
  by apply (bool_decide_unpack _).
Qed.
Lemma authorize_json b : json_ok (PDict (authorize_data b)).
Proof.
  split; [|exact (conj I (conj I (conj I I)))].
  change (authorize_data b).*1 with ["booking_id"; "renter_id"; "amount_cents"].
  by apply (bool_decide_unpack _).
Qed.
Lemma capture_json b o : json_ok (PDict (capture_data b o)).
Proof.
  split; [|exact (conj I (conj I (conj I (conj I I))))].
  change (capture_data b o).*1 with ["booking_id"; "host_id"; "hold_amount_cents"; "overage_cents"].
  by apply (bool_decide_unpack _).
Qed.
Lemma snapshot_json v : vehicle_types v → json_ok (PDict (_vehicle_snapshot v)).
Proof.
  intros (_ & _ & _ & _ & _ & _ & _ & Hlat & Hlon). split.
  - change (_vehicle_snapshot v).*1 with ["vehicle_id"; "host_id"; "make"; "model"; "year";
      "daily_price_cents"; "daily_mileage_limit"; "booking_mode"; "approval_status"; "latitude";
      "longitude"]. by apply (bool_decide_unpack _).
  - exact (conj I (conj I (conj I (conj I (conj I (conj I (conj I
      (conj I (conj I (conj Hlat (conj Hlon I))))))))))).
Qed.

(** ** The rows of the outboxes *)
Inductive booking_message : string → dict → Prop :=
| msg_request b : booking_message "authorize_payment_requested" (authorize_data b)
| msg_command c b t d : command_message c b = Some (t, d) → booking_message t d.

Definition booking_row (row : OutboxRow) : Prop :=
  ∃ e id t d, row = outbox_row e "booking" id t d ∧ booking_message t d.
Definition listing_row (row : OutboxRow) : Prop :=
  ∃ e v t, row = outbox_row e "vehicle" (str_uuid (vh_id v)) t (_vehicle_snapshot v) ∧
    t ∈ LISTING_EVENT_TYPES ∧ storable v.

Lemma booking_row_wire row : booking_row row → wire_ok row.
Proof.
  intros (e & id & t & d & -> & [b|c b ?? Hc]); apply wire_outbox_row; [apply authorize_json|].
  destruct c; cbn [command_message] in Hc; try discriminate Hc; injection Hc as <- <-;
    first [apply domain_event_json | apply authorize_json | apply capture_json].
Qed.
Lemma listing_row_wire row : listing_row row → wire_ok row.
Proof. intros (e & v & t & -> & _ & [Ht _]). by apply wire_outbox_row, snapshot_json. Qed.

Section rows.
Context {W : Type}.

Lemma booking_step_rows db db' :
booking_step W db db' → Forall booking_row (b_outbox db) → Forall booking_row (b_outbox db').
Proof.
intros [listing renter vehicle sd ed tok s s' b0 _ <- Hr | id c s s' b0 _ <- Hr | db'' (_ & _ & ->)]; [..|done].
- apply request_booking_Ok in Hr as (vi & _ & _ & _ & _ & ->). intros Hrows.
  apply Forall_app. split; [done|]. case_decide; [|by constructor].
  apply Forall_singleton. eexists _, _, _, _. split; [reflexivity|constructor].
- apply run_command_Ok in Hr as (b1 & Hb1 & Hr).
  apply command_body_Ok in Hr as (_ & _ & _ & _ & ->). intros Hrows.
  apply Forall_app. split; [done|]. pose proof (msg_command c b1) as Hm.
  destruct (command_message c b1) as [[t d]|] eqn:Em; [|by constructor].
  apply Forall_singleton. eexists _, _, _, _. split; [reflexivity|]. by apply Hm.
Qed.

Lemma listing_step_rows db db' :
listing_step W db db' → Forall listing_row (l_outbox db) → Forall listing_row (l_outbox db').
Proof.
intros [op s s' _ <- Hr|db2 (_ & _ & ->)]; [|done].
apply run_op_Ok in Hr as (db2 & He & ->). intros Hrows. cbn [work].
assert (∀ e t v, t ∈ LISTING_EVENT_TYPES → storable v → Forall listing_row (l_outbox (work s) ++
  [outbox_row e "vehicle" (str_uuid (vh_id v)) t (_vehicle_snapshot v)])) as Hnew.
{ intros e t v Ht Hv. apply Forall_app. split; [done|]. apply Forall_singleton. by exists e, v, t. }
destruct op as [h p|id h f|id|id|id h sd ed]; unfold effect in He; cbv zeta in He.
- by destruct He as (_ & _ & ->).
- destruct He as (v & _ & _ & Hs & ->). apply Hnew; [set_solver|done].
- destruct He as (v & _ & _ & Hs & ->). apply Hnew; [set_solver|done].
- by destruct He as (v & _ & _ & _ & ->).
- by destruct He as (v & _ & _ & _ & _ & ->).
Qed.

Lemma payment_rows_wire db row : payment_row_ok db row → wire_ok row.
Proof.
intros (eid & et & tr & id & p & Hp & _). eexists _, _, _, _. split; [done|].
split; [|exact (conj I I)]. change ([("booking_id", PStr (str_uuid id))] : dict).*1 with ["booking_id"].
by apply (bool_decide_unpack _).
Qed.
End rows.

Lemma envelope_json eid et data tr :
  json_ok (PDict data) → json_ok (PDict tr) → json_ok (PDict (envelope eid et data tr)).
Proof.
  intros Hd Ht. split.
  - change (envelope eid et data tr).*1 with ["event_id"; "event_type"; "data"; "trace_context"].
    by apply (bool_decide_unpack _).
  - exact (conj I (conj I (conj Hd (conj Ht I)))).
Qed.

(** ** Types *)

(** What reading an absent or ill-typed field raises. *)
Definition decoding_error (e : exn) : Prop :=
  match e with KeyError _ | ValueError | TypeError | IndexError => True | _ => False end.
Definition no_decoding_error (e : exn) : Prop := ¬ decoding_error e.

(** An error of a consumer is one of its handler. *)
Lemma inbox_process_Err {DB W} `{!HasInbox DB} (hs : list (string * handler DB W)) i t d n e n' :
  inbox_process hs i t d n = (Err e, n') →
  ∃ h s s', handlers_get hs t = Some h ∧ h d s = (Err e, s').
Proof.
  destruct (decide (i ∈ get_inbox n.1.1)) as [Hi|Hi]; [by rewrite inbox_process_claimed|].
  destruct (handlers_get hs t) as [h|] eqn:Eh.
  - rewrite (inbox_process_handled _ _ _ _ _ _ Hi Eh).
    destruct (h d (claimed_session i n)) as [[u|x] s'] eqn:E; [done|]. intros [= <- _].
    by exists h, (claimed_session i n), s'.
  - by rewrite (inbox_process_ignored _ _ _ _ _ Hi Eh).
Qed.

Section typed_payment.
Context {W : Type} `{!StripeSdk W} (payment_method : string).
Abbreviation test_client := (StripeTestModeClient payment_method).

Lemma typed_stripe {A} (f : W → option A * W) :
raises (S := session PaymentDB W) no_decoding_error (call (λ w, stripe_result (f w))).
Proof.
intros s e s'. unfold call, stripe_result. destruct (f (world s)) as [[a|] w]; intros [= <- _].
by intros [].
Qed.

#[local] Hint Extern 1 (raises _ (call (λ w, stripe_result (@?f w)))) => apply (typed_stripe f) : raises.

Lemma typed_insert_entry en : raises no_decoding_error (insert_entry (W := W) en).
Proof. unfold insert_entry, get_db, put_db. raises. Qed.
Lemma typed_flush_payment p : raises no_decoding_error (flush_payment (W := W) p).
Proof. unfold flush_payment, get_db, put_db. raises. Qed.
Lemma typed_emit id t : raises no_decoding_error (emit (W := W) id t).
Proof. unfold emit, write_outbox_event, get_db, put_db. raises. Qed.
#[local] Hint Resolve typed_insert_entry typed_flush_payment typed_emit : raises.

Lemma typed_authorize bid renter amount :
raises no_decoding_error (handle_authorize_payment_requested test_client bid renter amount).
Proof.
unfold handle_authorize_payment_requested, get_by_booking_id, or_stripe_error, create, get_db,
  test_client, StripeTestModeClient, authorize. raises.
Qed.

Lemma typed_capture bid host hold cents :
raises no_decoding_error (handle_capture_payment_requested test_client bid host hold cents).
Proof.
unfold handle_capture_payment_requested, get_by_booking_id, or_stripe_error, write_ledger_pair, save,
  get_db, test_client, StripeTestModeClient, capture, authorize_and_capture. raises.
Qed.

(** The fields of a command are there. *)
Lemma consume_authorize_run b (s : session PaymentDB W) :
consume_authorize test_client (authorize_data b) s =
  handle_authorize_payment_requested test_client (bk_id b) (bk_renter_id b) (rental_price b) s.
Proof.
unfold consume_authorize.
rewrite run_bind, (getitem_run _ _ (PStr (str_uuid (bk_id b)))) by reflexivity.
rewrite run_bind, to_uuid_run.
rewrite run_bind, (getitem_run _ _ (PStr (str_uuid (bk_renter_id b)))) by reflexivity.
rewrite run_bind, to_uuid_run.
by rewrite run_bind, (getitem_run _ _ (PInt (rental_price b))) by reflexivity.
Qed.

Lemma consume_capture_run b o (s : session PaymentDB W) :
consume_capture test_client (capture_data b o) s =
  handle_capture_payment_requested test_client (bk_id b) (bk_host_id b) (rental_price b) o s.
Proof.
unfold consume_capture.
rewrite run_bind, (getitem_run _ _ (PStr (str_uuid (bk_id b)))) by reflexivity.
rewrite run_bind, to_uuid_run.
rewrite run_bind, (getitem_run _ _ (PStr (str_uuid (bk_host_id b)))) by reflexivity.
rewrite run_bind, to_uuid_run.
rewrite run_bind, (getitem_run _ _ (PInt (rental_price b))) by reflexivity.
rewrite run_bind. cbn [as_int mret M_ret].
by rewrite run_bind, (getitem_run _ _ (PInt o)) by reflexivity.
Qed.

Lemma payment_consumer_typed db row (n n' : node PaymentDB W) e :
booking_row_ok db row →
consume (inbox_process (build_booking_command_handlers test_client)) (payload row) n = (Err e, n') →
no_decoding_error e.
Proof.
intros (eid & et & data & tr & Hp & Ha & Hc). rewrite Hp.
rewrite (consume_fields _ _ eid et data) by done.
intros (h & s & s' & Hh & Hr)%inbox_process_Err. unfold build_booking_command_handlers in Hh.
cbn [handlers_get] in Hh. case_decide as Het.
- injection Hh as <-. destruct (Ha Het) as (b & _ & ->). rewrite consume_authorize_run in Hr.
  by eapply typed_authorize.
- case_decide as Het'; [|done]. injection Hh as <-. destruct (Hc Het') as (b & o & _ & ->).
  rewrite consume_capture_run in Hr. by eapply typed_capture.
Qed.
End typed_payment.

Section typed_booking.
Context {W : Type}.

Lemma typed_flush_booking b : raises no_decoding_error (flush_booking (W := W) b).
Proof. unfold flush_booking, get_db, put_db. raises. Qed.
Lemma typed_append_events b evs st : raises no_decoding_error (append_events (W := W) b evs st).
Proof.
unfold append_events. apply raises_bind; [|raises]. generalize 1%Z as v.
induction evs as [|[t p] evs IH]; intros v; cbn [append_loop]; [raises|].
apply raises_bind; [|by intros]. pose proof typed_flush_booking.
unfold insert_event, get_db, put_db. raises.
Qed.
#[local] Hint Resolve typed_flush_booking typed_append_events : raises.

(** The reactions to payment events read no field. *)
Lemma typed_reaction t c id :
payment_command t = Some c → raises no_decoding_error (run_command (W := W) id c).
Proof.
unfold payment_command, run_command, with_booking, get_by_id, get_db. intros Hc.
repeat case_decide; simplify_eq; (apply raises_bind; [raises|]); intros [b|]; try (raises; done);
  cbn [command_body]; unfold payment_body, lift, confirm_after_payment_authorized,
    cancel_after_payment_authorization_failed, complete_after_payment_captured,
    note_payment_capture_failed, _require_status, _emit_domain_event, write_outbox_event, save, get_db, put_db;
  case_decide; cbn [mbind result_bind]; raises.
Qed.

Lemma booking_consumer_typed pdb row (n n' : node BookingDB W) e :
payment_row_ok pdb row →
consume (inbox_process PAYMENT_EVENT_HANDLERS) (payload row) n = (Err e, n') → no_decoding_error e.
Proof.
intros (eid & et & tr & id & p & Hp & _). rewrite Hp.
rewrite (consume_fields _ _ eid et [("booking_id", PStr (str_uuid id))]) by done.
intros (h & s & s' & Hh & Hr)%inbox_process_Err.
destruct (payment_handler et h [("booking_id", PStr (str_uuid id))] Hh) as (c & Hc & Hrun).
rewrite Hrun in Hr. rewrite run_bind, (getitem_run _ _ (PStr (str_uuid id))), run_bind, to_uuid_run in Hr
  by reflexivity.
assert (raises no_decoding_error (run_command (W := W) id c;; mret tt)) as Ht
  by (apply raises_bind; [by eapply typed_reaction | by intros]).
by eapply Ht.
Qed.
End typed_booking.

(** ** The theorems *)
Section system_wire.
Context {WL WB WP E R RA : Type} `{!Platform} `{!FloatText} `{!StripeSdk WP}.
Context `{!Elasticsearch E} `{!ElasticsearchLaws E} `{!Redis R} `{!Redis RA}.
Variables (acfg : admin_settings) (lcfg cfg : jwt_settings) (client : StripeClient WP) (ix : string).
Abbreviation the_system := (system (WL := WL) (WB := WB) (WP := WP) (E := E) (R := R) (RA := RA)).

Definition outbox_rows (st : the_system) : list OutboxRow :=
l_outbox (sy_listing st).1.1 ++ b_outbox (sy_booking st).1.1 ++ p_outbox (sy_payment st).1.1.

Lemma system_rows (st : the_system) :
system_reachable acfg lcfg cfg client ix st →
Forall listing_row (l_outbox (sy_listing st).1.1) ∧ Forall booking_row (b_outbox (sy_booking st).1.1).
Proof.
intros (st0 & ((_ & _ & Hl) & (_ & Hb & _) & _) & Hsteps). simpl in Hb.
assert (Forall listing_row (l_outbox (sy_listing st0).1.1)) as Hlr by (rewrite Hl; constructor).
assert (Forall booking_row (b_outbox (sy_booking st0).1.1)) as Hbr by (rewrite Hb; constructor).
clear Hl Hb. induction Hsteps as [|x y z Hxy _ IH]; [done|].
apply step_projects in Hxy as [Hsaga Hlist]. apply saga_booking_steps in Hsaga. simpl in Hsaga.
apply IH; clear IH; [clear Hsaga|clear Hlist].
- induction Hlist; [done|]. eauto using listing_step_rows.
- induction Hsaga; [done|]. eauto using booking_step_rows.
Qed.

Lemma system_wire st : system_reachable acfg lcfg cfg client ix st → Forall wire_ok (outbox_rows st).
Proof.
intros Hr. pose proof (system_rows st Hr) as [Hl Hb].
apply Forall_app; split; [|apply Forall_app; split].
- eapply Forall_impl; [exact Hl|apply listing_row_wire].
- eapply Forall_impl; [exact Hb|apply booking_row_wire].
- apply Forall_forall. intros row Hrow. eapply payment_rows_wire.
  apply (ag_events _ _ (saga_reachable_agrees _ _ _ (system_saga_reachable _ _ _ _ _ _ Hr))). exact Hrow.
Qed.
End system_wire.


(** C22: messages are well typed.  No consumer of the saga, in whatever state it
    is, stops on a row of its topic because a field is missing or has the
    wrong type or form: what it may raise is a refused transition, a value its
    tables cannot hold, or a conflict. *)
Theorem messages_well_typed {WL WB WP E R RA} `{!Platform} `{!FloatText} `{!StripeSdk WP}
    `{!Elasticsearch E} `{!ElasticsearchLaws E} `{!Redis R} `{!Redis RA}
    (acfg : admin_settings) (lcfg cfg : jwt_settings) (payment_method ix : string)
    (row : OutboxRow) (e : exn)
    (st : system (WL := WL) (WB := WB) (WP := WP) (E := E) (R := R) (RA := RA)) :
  let client := StripeTestModeClient payment_method in
  system_reachable acfg lcfg cfg client ix st →
  (∀ n n' : node PaymentDB WP, row ∈ b_outbox (sy_booking st).1.1 →
     consume (inbox_process (build_booking_command_handlers client)) (payload row) n = (Err e, n') →
     ¬ decoding_error e) ∧
  (∀ n n' : node BookingDB WB, row ∈ p_outbox (sy_payment st).1.1 →
     consume (inbox_process PAYMENT_EVENT_HANDLERS) (payload row) n = (Err e, n') →
     ¬ decoding_error e).
Proof.
  intros client Hr. pose proof (system_saga_reachable _ _ _ _ _ _ Hr) as Hs%saga_reachable_agrees.
  split; intros n n' Hrow Hc.
  - eapply payment_consumer_typed; [|exact Hc]. by apply (ag_commands _ _ Hs).
  - eapply booking_consumer_typed; [|exact Hc]. by apply (ag_events _ _ Hs).
Qed.
