(* ===== verification/Wiring.v ===== *)
(** * Wiring: topics, connectors and consumer groups

    Each database with an outbox has a Debezium connector that routes its rows
    to one topic (infra/debezium); each application that boots subscribes to
    topics under a group of its own (Lifespan), with a table of handlers by
    event type.  [wired] says when the settings of a deployment fit the
    connectors; the defaults do ([default_wired]).  [events_reach_handlers]:
    then every event any service publishes has a group that takes it and a
    handler for it there, and no other application competes for that group. *)
From S2P Require Import Prelude Python Columns Json Effects Outbox Inbox Idempotency JwtAuth Http.
From S2P Require Import Redis Admin.
From S2P Require Import BookingDomain BookingRepo BookingService BookingFacts BookingInvariant.
From S2P Require Import Payment PaymentFacts PaymentBooks PaymentService Saga.
From S2P Require Import Listing ListingFacts ListingService Search SearchFacts Notification System Wire.
From S2P Require Import Observability Settings Lifespan.

(** ** infra/debezium *)
Record Connector := mk_connector {
  database_dbname : string;
  topic_replacement : string;    (* route.topic.replacement *)
}.
Definition listing_connector := mk_connector "listing" "listing.vehicle.events".
Definition booking_connector := mk_connector "booking" "booking.payment.commands".
Definition payment_connector := mk_connector "payment" "payment.booking.events".

(** The settings name the topics the connectors write to, and the consumers
    are enabled. *)
Definition wired (d : Deployment) : bool :=
  bool_decide (listing_events_topic (dp_search d) = topic_replacement listing_connector) &&
  bool_decide (booking_commands_topic (dp_payment d) = topic_replacement booking_connector) &&
  bool_decide (no_booking_events_topic (dp_notification d) = topic_replacement booking_connector) &&
  bool_decide (payment_events_topic (dp_booking d) = topic_replacement payment_connector) &&
  se_enable_kafka_consumer (dp_search d) && pa_enable_kafka_consumer (dp_payment d) &&
  no_enable_kafka_consumer (dp_notification d) && bo_enable_kafka_consumer (dp_booking d).

Lemma default_wired : wired default_deployment = true.
Proof. done. Qed.

(** ** Who subscribes to what *)
Section subscriptions.
Context `{!Clients}.

(** Application, topic, group. *)
Definition subscriptions (d : Deployment) : list (App * string * string) :=
[(search_app (dp_search d), listing_events_topic (dp_search d), "search");
 (payment_app (dp_payment d), booking_commands_topic (dp_payment d), "payment");
 (notification_app (dp_notification d), no_booking_events_topic (dp_notification d), "notification");
 (booking_app (dp_booking d), payment_events_topic (dp_booking d), "booking");
 (telemetry_app (dp_telemetry d), raw_topic (dp_telemetry d), "telemetry")].

(** What a consumer loop of a booted application subscribes to. *)
Definition subscribes (app : App) (topic group_id : string) : Prop :=
∃ rt, booted app rt ∧ (ConsumerLoop topic group_id, Running) ∈ background_tasks rt.

Lemma subscriptions_complete d app topic group_id :
app ∈ apps d → subscribes app topic group_id → (app, topic, group_id) ∈ subscriptions d.
Proof.
intros Happ (rt & Hb & Ht). unfold apps in Happ.
repeat (apply elem_of_cons in Happ as [->|Happ]); [..|by apply not_elem_of_nil in Happ];
  boot Hb; simpl in Ht; repeat (apply elem_of_cons in Ht as [[=]|Ht]); try (by apply not_elem_of_nil in Ht);
  subst topic group_id; unfold subscriptions; repeat first [by left | right].
Qed.

(** A group belongs to one application, on one topic. *)
Lemma subscriptions_groups d x y :
x ∈ subscriptions d → y ∈ subscriptions d → x.2 = y.2 → x = y.
Proof.
unfold subscriptions. intros Hx Hy.
repeat (apply elem_of_cons in Hx as [->|Hx]); [..|by apply not_elem_of_nil in Hx];
  repeat (apply elem_of_cons in Hy as [->|Hy]); try (by apply not_elem_of_nil in Hy); (done || intros [=]).
Qed.

(** The consumer is there as soon as its application is up. *)
Lemma consumer_up d app topic group_id rt :
wired d = true → (app, topic, group_id) ∈ take 4 (subscriptions d) → booted app rt →
(ConsumerLoop topic group_id, Running) ∈ background_tasks rt.
Proof.
intros Hw Hin. unfold wired in Hw. rewrite !andb_true_iff in Hw.
destruct Hw as (((((((_ & _) & _) & _) & Hs) & Hp) & Hn) & Hb). unfold subscriptions in Hin. simpl in Hin.
intros Hr.
repeat (apply elem_of_cons in Hin as [[= -> -> ->]|Hin]); [..|by apply not_elem_of_nil in Hin];
  unfold booted, search_app, payment_app, notification_app, booking_app, consumer_if in Hr;
  rewrite ?Hs, ?Hp, ?Hn, ?Hb in Hr; boot Hr; repeat first [by left | right].
Qed.
End subscriptions.

(** ** Who handles what: the event types in the table of each group *)
Definition handled_types {WP} (client : StripeClient WP) (group_id : string) : list string :=
  if decide (group_id = "booking") then (PAYMENT_EVENT_HANDLERS (W := unit)).*1
  else if decide (group_id = "payment") then (build_booking_command_handlers client).*1
  else if decide (group_id = "notification") then BOOKING_EVENT_HANDLERS.*1
  else if decide (group_id = "search") then LISTING_EVENT_TYPES
  else [].

Lemma booking_message_handled {WP} (client : StripeClient WP) t d :
  booking_message t d → t ∈ handled_types client "payment" ∨ t ∈ handled_types client "notification".
Proof.
  intros [b|c b ?? Hc]; [left; by apply (bool_decide_unpack _)|].
  destruct c; cbn [command_message] in Hc; try discriminate Hc; injection Hc as <- _;
    first [left; by apply (bool_decide_unpack _) | right; by apply (bool_decide_unpack _)].
Qed.

Lemma payment_message_handled {WP} (client : StripeClient WP) t status :
  attests t status → t ∈ handled_types client "booking".
Proof. intros [[-> _]|[[-> _]|[[-> _]|[-> _]]]]; by apply (bool_decide_unpack _). Qed.

(** The rows a connector reads. *)
Definition outbox_of {WL WB WP E R RA} (c : Connector)
    (st : system (WL := WL) (WB := WB) (WP := WP) (E := E) (R := R) (RA := RA)) : list OutboxRow :=
  if decide (database_dbname c = "listing") then l_outbox (sy_listing st).1.1
  else if decide (database_dbname c = "booking") then b_outbox (sy_booking st).1.1
  else p_outbox (sy_payment st).1.1.

(** The applications that take the topic of each connector. *)
Lemma takers `{!Clients} d :
  wired d = true →
  (search_app (dp_search d), topic_replacement listing_connector, "search") ∈ take 4 (subscriptions d) ∧
  (payment_app (dp_payment d), topic_replacement booking_connector, "payment") ∈ take 4 (subscriptions d) ∧
  (notification_app (dp_notification d), topic_replacement booking_connector, "notification")
    ∈ take 4 (subscriptions d) ∧
  (booking_app (dp_booking d), topic_replacement payment_connector, "booking") ∈ take 4 (subscriptions d).
Proof.
  unfold wired. rewrite !andb_true_iff, !bool_decide_eq_true. intros [[[[[[[H1 H2] H3] H4] _] _] _] _].
  unfold subscriptions. rewrite H1, H2, H3, H4. split_and!; repeat first [by left | right].
Qed.

(** C27: every event finds its handler.  In a deployment whose settings fit the
    connectors (the default one does), take an event that any service has
    published: some application subscribes, as soon as it is up, to the topic
    its connector ships it to, under a group that no other application and no
    other topic uses, so that the group gets every record; and the handlers
    the group runs have one for the type of the event. *)
Theorem events_reach_handlers {WL WB WP E R RA} `{!Clients} `{!Platform} `{!FloatText} `{!StripeSdk WP}
    `{!Elasticsearch E} `{!ElasticsearchLaws E} `{!Redis R} `{!Redis RA} (d : Deployment)
    (acfg : Admin.admin_settings) (lcfg cfg : jwt_settings) (client : StripeClient WP) (ix : string)
    (c : Connector) (row : OutboxRow)
    (st : system (WL := WL) (WB := WB) (WP := WP) (E := E) (R := R) (RA := RA)) :
  wired d = true → system_reachable acfg lcfg cfg client ix st →
  c ∈ [listing_connector; booking_connector; payment_connector] → row ∈ outbox_of c st →
  ∃ event_type app group_id, dict_get (payload row) "event_type" = Some (PStr event_type) ∧
    app ∈ apps d ∧ event_type ∈ handled_types client group_id ∧
    (∀ rt, booted app rt → (ConsumerLoop (topic_replacement c) group_id, Running) ∈ background_tasks rt) ∧
    (∀ app' topic', app' ∈ apps d → subscribes app' topic' group_id →
       app' = app ∧ topic' = topic_replacement c).
Proof.
  intros Hw Hr Hc Hrow. pose proof (system_rows _ _ _ _ _ _ Hr) as [Hl Hb].
  rewrite Forall_forall in Hl, Hb. pose proof (takers d Hw) as (Hs & Hp & Hn & Hk).
  enough (∃ event_type app group_id, dict_get (payload row) "event_type" = Some (PStr event_type) ∧
    (app, topic_replacement c, group_id) ∈ take 4 (subscriptions d) ∧ app ∈ apps d ∧
    event_type ∈ handled_types client group_id) as (et & app & g & Het & Hin & Happ & Hh).
  { exists et, app, g. split_and!; [done..| |].
    - intros rt Hrt. by eapply consumer_up.
    - intros app' topic' Happ' Hsub. pose proof (subscriptions_complete _ _ _ _ Happ' Hsub) as Hin'.
      apply elem_of_take in Hin as (j & Hin%list_elem_of_lookup_2 & _).
      by pose proof (subscriptions_groups _ _ _ Hin' Hin eq_refl) as [= -> ->]. }
  unfold outbox_of in Hrow. rewrite !elem_of_cons, elem_of_nil in Hc.
  destruct Hc as [->|[->|[->|[]]]]; simpl in Hrow.
  - destruct (Hl _ Hrow) as (e & v & t & -> & Ht & _).
    exists t, (search_app (dp_search d)), "search". split_and!; [done..| |done]. set_solver.
  - destruct (Hb _ Hrow) as (e & id & t & dd & -> & Hm).
    destruct (booking_message_handled client t dd Hm) as [Ht|Ht].
    + exists t, (payment_app (dp_payment d)), "payment". split_and!; [done..| |done]. set_solver.
    + exists t, (notification_app (dp_notification d)), "notification". split_and!; [done..| |done]. set_solver.
  - pose proof (saga_reachable_agrees _ _ _ (system_saga_reachable _ _ _ _ _ _ Hr)) as Hag.
    destruct (ag_events _ _ Hag _ Hrow) as (eid & et & tr & id & p & Hpay & _ & Ha).
    exists et, (booking_app (dp_booking d)), "booking". rewrite Hpay. split_and!; [done..| |].
    + set_solver.
    + by eapply payment_message_handled.
Qed.
