(* ===== verification/Scenario.v ===== *)
(** * Scenario: the services run on concrete data

    A concrete platform (tokens are looked up in a table, Stripe grants
    amounts up to a limit and remembers its answers) and complete runs of the
    services on it, evaluated by the kernel.  They show that the hypotheses
    of the theorems can be met: every witness below applies its theorem to a
    state one of these runs reaches. *)
From S2P Require Import Prelude Python Columns Effects Outbox Inbox Idempotency JwtAuth Http.
From S2P Require Import Pagination.
From S2P Require Import BookingDomain BookingRepo BookingService BookingFacts BookingInvariant.
From S2P Require Import BookingConcurrency BookingRoutes.
From S2P Require Import Payment PaymentFacts PaymentBooks PaymentService.
From S2P Require Import Saga Notification.
Import Payment PaymentFacts PaymentBooks.

Definition uid (n : N) : uuid := default (mk_uuid 0 eq_refl) (uuid_of_N n).

Definition renter_id : uuid := uid 1.
Definition host_id : uuid := uid 2.
Definition car_id : uuid := uid 3.

(** Tokens name their claims. *)
#[local] Instance toy_platform : Platform := {|
  sha256_hexdigest body := body;
  model_dump_json d := "json";
  jwt_encode claims secret := "token";
  jwt_decode token secret issuer now :=
    if decide (token = "renter") then
      Some [("type", PStr "access"); ("sub", PStr (str_uuid renter_id)); ("role", PStr "renter")]
    else if decide (token = "host") then
      Some [("type", PStr "access"); ("sub", PStr (str_uuid host_id)); ("role", PStr "host")]
    else if decide (token = "admin") then
      Some [("type", PStr "access"); ("sub", PStr (str_uuid (uid 9))); ("role", PStr "admin")]
    else None;
|}.

(** A Stripe that answers from its log, grants up to 100000 cents, and counts
    the money moved. *)
Record toy_stripe := mk_toy_stripe {
  ts_intents : gmap string (option string);
  ts_captures : gmap string (option unit);
}.

#[local] Instance toy_sdk : StripeSdk toy_stripe := {|
  payment_intents_create p key w :=
    match ts_intents w !! key with
    | Some r => (r, w)
    | None =>
        let r := if decide (ip_amount p ≤ 100000)%Z then Some ("pi_" +:+ key) else None in
        (r, mk_toy_stripe (<[key := r]> (ts_intents w)) (ts_captures w))
    end;
  payment_intents_capture intent amount key w :=
    match ts_captures w !! key with
    | Some r => (r, w)
    | None =>
        let r := match intent with Some _ => Some tt | None => None end in
        (r, mk_toy_stripe (ts_intents w) (<[key := r]> (ts_captures w)))
    end;
  construct_event body sig secret := None;
|}.

#[local, refine] Instance toy_laws : PaymentService.StripeLaws toy_stripe := {|
  PaymentService.create_log w k := ts_intents w !! k;
  PaymentService.capture_log w k := ts_captures w !! k;
|}.
Proof.
  - intros p k w r Hk. simpl. by rewrite Hk.
  - intros p k w. simpl. destruct (ts_intents w !! k) as [r|] eqn:E; [done|]. simpl.
    split; [apply lookup_insert_eq|]. split; [|done]. intros k' r' Hk'.
    destruct (decide (k = k')) as [->|]; [congruence|]. by rewrite lookup_insert_ne.
  - intros i a k w r Hk. simpl. by rewrite Hk.
  - intros i a k w. simpl. destruct (ts_captures w !! k) as [r|] eqn:E; [done|]. simpl.
    split; [apply lookup_insert_eq|]. split; [done|]. intros k' r' Hk'.
    destruct (decide (k = k')) as [->|]; [congruence|]. by rewrite lookup_insert_ne.
Defined.

Definition toy_env (base : N) : env := mk_env (λ n, uid (base + N.of_nat n)) 1000 [].
Definition toy_cfg : jwt_settings := mk_jwt_settings "secret" "carflow-auth".
Definition empty_booking_db : BookingDB := mk_booking_db ∅ [] [] ∅ ∅.
Definition empty_payment_db : PaymentDB := mk_payment_db ∅ [] [] ∅.
Definition toy_client : StripeClient toy_stripe := StripeTestModeClient "pm_card_visa".

(** The listing service knows one approved car, booked instantly. *)
Definition toy_listing : listing_http := λ vehicle token,
  if decide (vehicle = car_id) then
    Ok (200%Z, [("id", PStr (str_uuid car_id)); ("host_id", PStr (str_uuid host_id));
           ("daily_price_cents", PInt 5000); ("daily_mileage_limit", PInt 200);
           ("booking_mode", PStr "instant"); ("approval_status", PStr "approved")])
  else Ok (404%Z, []).

Definition as_caller (token key : string) : request :=
  mk_request (Some ("Bearer " +:+ token)) (Some key) "{}".

Abbreviation toy_saga := (saga (W1 := unit) (W2 := toy_stripe)).
Abbreviation toy_step := (saga_step (W1 := unit) toy_cfg toy_client).
Abbreviation toy_reachable := (saga_reachable (W1 := unit) toy_cfg toy_client).

Definition start : toy_saga :=
  ((empty_booking_db, tt, toy_env 100), (empty_payment_db, mk_toy_stripe ∅ ∅, toy_env 200)).

(** One request to the booking service, one delivery in either direction. *)
Definition do_request (token key : string) (r : booking_request) (st : toy_saga) : toy_saga :=
  (snd (serve (handle toy_cfg toy_listing (as_caller token key) r) st.1), st.2).
Definition deliver_command (k : nat) (st : toy_saga) : toy_saga :=
  match b_outbox st.1.1.1 !! k with
  | Some row => (st.1, snd (consume (inbox_process (build_booking_command_handlers toy_client))
                             (payload row) st.2))
  | None => st
  end.
Definition deliver_event (k : nat) (st : toy_saga) : toy_saga :=
  match p_outbox st.2.1.1 !! k with
  | Some row => (snd (consume (inbox_process PAYMENT_EVENT_HANDLERS) (payload row) st.1), st.2)
  | None => st
  end.

Definition booking_id : uuid := uid 100.
Definition reading (odometer : Z) : input (uuid * ReadingRequest) :=
  Valid (booking_id, mk_reading odometer 80 "https://photos/1").

(** The renter books three days; Stripe holds the price; the host hands the
    car over, takes it back 700 miles later (100 too many), and the money is
    captured. *)
Definition requested : toy_saga :=
  do_request "renter" "k1" (PostBookings (Valid (mk_create_request car_id 10 13))) start.
Definition authorized : toy_saga := deliver_command 0 requested.
Definition confirmed : toy_saga := deliver_event 0 authorized.
Definition returned : toy_saga :=
  do_request "host" "k3" (PostReturn (reading 1700)) (do_request "host" "k2" (PostHandover (reading 1000)) confirmed).
Definition captured : toy_saga := deliver_command 2 returned.
Definition completed : toy_saga := deliver_event 1 captured.

Definition status_of (st : toy_saga) : option string * option string :=
  (bk_status <$> bookings st.1.1.1 !! booking_id, pm_status <$> payments st.2.1.1 !! booking_id).

(** ** The runs are behaviours of the services *)
Lemma do_request_step token key r st : toy_step st (do_request token key r st).
Proof. destruct st as [nb np]. eapply sg_request, surjective_pairing. Qed.

Lemma stay st : toy_step st st.
Proof. destruct st as [[[db w] e] [[db' w'] e']]. apply sg_background, (sg_environment _ _ (db, w, e) (db', w', e')). Qed.

Lemma deliver_command_step k st : toy_step st (deliver_command k st).
Proof.
  unfold deliver_command. destruct (b_outbox _ !! k) as [row|] eqn:E; [|apply stay].
  destruct st as [nb np]. eapply sg_background, sg_booking_command, surjective_pairing. by eapply list_elem_of_lookup_2.
Qed.

Lemma deliver_event_step k st : toy_step st (deliver_event k st).
Proof.
  unfold deliver_event. destruct (p_outbox _ !! k) as [row|] eqn:E; [|apply stay].
  destruct st as [nb np]. eapply sg_background, sg_payment_event, surjective_pairing. by eapply list_elem_of_lookup_2.
Qed.

Lemma start_reachable : toy_reachable start.
Proof. exists start. by split. Qed.

Lemma reach_step st st' : toy_step st st' → toy_reachable st → toy_reachable st'.
Proof. intros Hs (st0 & H0 & Hr). exists st0. split; [done|]. by eapply rtc_r. Qed.

Lemma reach_request token key r st : toy_reachable st → toy_reachable (do_request token key r st).
Proof. apply reach_step, do_request_step. Qed.
Lemma reach_command k st : toy_reachable st → toy_reachable (deliver_command k st).
Proof. apply reach_step, deliver_command_step. Qed.
Lemma reach_event k st : toy_reachable st → toy_reachable (deliver_event k st).
Proof. apply reach_step, deliver_event_step. Qed.

Ltac reach :=
  repeat match goal with
  | |- saga_reachable _ _ start => exact start_reachable
  | |- saga_reachable _ _ (do_request _ _ _ _) => apply reach_request
  | |- saga_reachable _ _ (deliver_command _ _) => apply reach_command
  | |- saga_reachable _ _ (deliver_event _ _) => apply reach_event
  end.

Lemma completed_reachable : toy_reachable completed.
Proof. unfold completed, captured, returned, confirmed, authorized, requested. reach. Qed.

(** A second booking of the same car, two weeks later. *)
Definition two_bookings : toy_saga :=
  do_request "renter" "k9" (PostBookings (Valid (mk_create_request car_id 24 26))) requested.
Definition booking_id2 : uuid := uid 103.

Lemma two_bookings_reachable : toy_reachable two_bookings.
Proof. unfold two_bookings, requested. reach. Qed.
Lemma requested_reachable : toy_reachable requested.
Proof. unfold requested. reach. Qed.
Lemma authorized_reachable : toy_reachable authorized.
Proof. unfold authorized, requested. reach. Qed.

(** The booking of a run. *)
Definition row_of (id : uuid) (st : toy_saga) : Booking :=
  default (mk_booking id id id id 0 0 0 0 "" "" 0 None None None None None None 0 0)
    (bookings st.1.1.1 !! id).
Definition pay_of (st : toy_saga) : Payment :=
  default (mk_payment booking_id booking_id booking_id 0 0 "" None None) (payments st.2.1.1 !! booking_id).

(** A run by its result: the state it leaves is not normalised. *)
Lemma run_fst {A B} (p : A * B) a : fst p = a → p = (a, snd p).
Proof. by destruct p; intros <-. Qed.

Ltac run_fst :=
  match goal with |- ?p = (?a, _) => refine (run_fst p a _) end; vm_compute; reflexivity.

(** *** Witnesses: the booking service *)
Lemma no_double_booking_witness :
  bk_vehicle_id (row_of booking_id two_bookings) = bk_vehicle_id (row_of booking_id2 two_bookings) ∧
  ¬ ((bk_start_date (row_of booking_id two_bookings) ≤ 12 ≤ bk_end_date (row_of booking_id two_bookings))%Z ∧
     (bk_start_date (row_of booking_id2 two_bookings) ≤ 12 ≤ bk_end_date (row_of booking_id2 two_bookings))%Z).
Proof.
  split; [vm_compute; reflexivity|].
  apply (no_double_booking unit two_bookings.1.1.1 booking_id booking_id2).
  - apply (saga_booking_reachable toy_cfg toy_client), two_bookings_reachable.
  - vm_compute; reflexivity.
  - vm_compute; reflexivity.
  - vm_compute; congruence.
  - vm_compute; reflexivity.
  - apply (bool_decide_eq_true_1 _). vm_compute; reflexivity.
  - apply (bool_decide_eq_true_1 _). vm_compute; reflexivity.
Defined.

Lemma event_log_replays_witness :
  bk_status (row_of booking_id completed) = "completed" ∧
  ev_version <$> events_of booking_id completed.1.1.1 =
    seqZ 2 (bk_version (row_of booking_id completed) - 1) ∧
  replay (events_of booking_id completed.1.1.1) = Some (view (row_of booking_id completed)).
Proof.
  split; [vm_compute; reflexivity|]. apply (event_log_replays unit).
  - apply (saga_booking_reachable toy_cfg toy_client), completed_reachable.
  - vm_compute; reflexivity.
Defined.

Lemma terminal_bookings_final_witness :
  ∃ db', rtc (booking_step unit) completed.1.1.1 db' ∧
    bookings db' !! booking_id = Some (row_of booking_id completed).
Proof.
  exists completed.1.1.1. split; [apply rtc_refl|].
  apply (terminal_bookings_final unit completed.1.1.1).
  - apply (saga_booking_reachable toy_cfg toy_client), completed_reachable.
  - apply rtc_refl.
  - vm_compute; reflexivity.
  - apply (bool_decide_eq_true_1 _). vm_compute; reflexivity.
Defined.

(** Two commands have loaded the confirmed booking; the first writes. *)
Definition confirmed_session : session BookingDB unit :=
  mk_session confirmed.1.1.1 confirmed.1.1.1 tt (toy_env 300).
Definition handover_cmd : command := CmdHandover host_id 1000 80 "https://photos/1".
Definition after_handover : session BookingDB unit :=
  snd (command_body (bk_id (row_of booking_id confirmed)) handover_cmd (row_of booking_id confirmed)
    confirmed_session).

Lemma confirmed_reachable : toy_reachable confirmed.
Proof. unfold confirmed, authorized, requested. reach. Qed.

Lemma interleavings_serialise_witness :
  rtc (booking_step unit) confirmed.1.1.1 (work after_handover) ∧ reachable unit (work after_handover).
Proof.
  apply (interleavings_serialise unit confirmed.1.1.1 (mk_conc (work after_handover) [row_of booking_id confirmed])).
  - apply (saga_booking_reachable toy_cfg toy_client), confirmed_reachable.
  - eapply rtc_l; [eapply (conc_load unit _ _ booking_id (row_of booking_id confirmed)); vm_compute; reflexivity|].
    eapply rtc_l; [eapply (conc_load unit _ _ booking_id (row_of booking_id confirmed)); vm_compute; reflexivity|].
    apply rtc_once.
    apply (conc_finish unit [] (row_of booking_id confirmed) [row_of booking_id confirmed] handover_cmd
      confirmed_session after_handover (apply_op (command_op handover_cmd) (row_of booking_id confirmed))).
    unfold after_handover. run_fst.
Defined.

Lemma stale_write_refused_witness :
  is_Ok (fst (command_body (bk_id (row_of booking_id confirmed)) handover_cmd
    (row_of booking_id confirmed) after_handover)) = false.
Proof.
  apply (stale_write_refused unit (row_of booking_id confirmed)
    (apply_op (command_op handover_cmd) (row_of booking_id confirmed)) handover_cmd handover_cmd
    confirmed_session after_handover
    (snd (command_body (bk_id (row_of booking_id confirmed)) handover_cmd
    (row_of booking_id confirmed) after_handover))).
  - apply (saga_booking_reachable toy_cfg toy_client), confirmed_reachable.
  - vm_compute; reflexivity.
  - unfold after_handover. run_fst.
  - apply surjective_pairing.
Defined.

Lemma service_reachable_witness : reachable unit requested.1.1.1.
Proof.
  apply (service_reachable toy_cfg toy_listing start.1 requested.1).
  - split; reflexivity.
  - apply rtc_once. eapply svc_request. apply surjective_pairing.
Defined.

(** The host cannot book. *)
Definition forbidden : M (session BookingDB unit) Response :=
  handle toy_cfg toy_listing (as_caller "host" "k1") (PostBookings (Valid (mk_create_request car_id 10 13))).

Lemma booking_errors_change_nothing_witness :
  fst (run_session forbidden start.1) = Err (HTTPException 403 "insufficient role") ∧
  (snd (run_session forbidden start.1)).1.1 = start.1.1.1.
Proof.
  split; [vm_compute; reflexivity|].
  apply (booking_errors_change_nothing toy_cfg toy_listing (as_caller "host" "k1")
    (PostBookings (Valid (mk_create_request car_id 10 13))) start.1 _
    (HTTPException 403 "insufficient role")).
  run_fst.
Defined.

Lemma list_bookings_complete_witness :
  ∃ rows, rows ≡ₚ (map_to_list (bookings two_bookings.1.1.1)).*2 ∧ StronglySorted list_order rows ∧
    crawl (λ offset, match list_bookings_handler [("role", PStr "admin")] 1 offset
                             (mk_session two_bookings.1.1.1 two_bookings.1.1.1 tt (toy_env 300)) with
                     | (Ok d, _) => Some d | (Err _, _) => None end)
      (S (length rows)) 0 = Some ((λ b, PDict (_booking_response b)) <$> rows).
Proof.
  apply (list_bookings_complete [("role", PStr "admin")] 1
    (mk_session two_bookings.1.1.1 two_bookings.1.1.1 tt (toy_env 300))).
  - reflexivity.
  - lia.
  - vm_compute; reflexivity.
Defined.

(** *** Witnesses: payments and the saga *)
Lemma saga_status_witness :
  bk_status (row_of booking_id completed) = "completed" ∧
  ∃ p, payments completed.2.1.1 !! booking_id = Some p ∧ pm_status p = "captured".
Proof.
  split; [vm_compute; reflexivity|].
  apply (saga_status toy_cfg toy_client completed booking_id (row_of booking_id completed)).
  - exact completed_reachable.
  - vm_compute; reflexivity.
  - vm_compute; reflexivity.
Defined.

Lemma saga_money_witness :
  ∃ b, bookings completed.1.1.1 !! booking_id = Some b ∧ rental_price b = 15000%Z ∧
    charged (renter_account (pay_of completed)) (entries_of booking_id completed.2.1.1) =
      (rental_price b + 5000)%Z.
Proof.
  destruct (saga_money toy_cfg toy_client completed booking_id (pay_of completed))
    as (b & Hb & _ & _ & Hm).
  - exact completed_reachable.
  - vm_compute; reflexivity.
  - rewrite decide_True in Hm by (vm_compute; reflexivity). exists b. split; [exact Hb|].
    assert (bookings completed.1.1.1 !! booking_id = Some (row_of booking_id completed)) as Hrow
      by (vm_compute; reflexivity).
    assert (b = row_of booking_id completed) as -> by congruence.
    split; [vm_compute; reflexivity|]. exact (proj2 Hm).
Defined.

Lemma ledger_balances_witness :
  length (ledger completed.2.1.1) = 4 ∧
  balance (ledger completed.2.1.1) = 0%Z ∧ balance (entries_of booking_id completed.2.1.1) = 0%Z.
Proof.
  split; [vm_compute; reflexivity|]. apply (ledger_balances toy_client).
  apply (saga_payment_reachable toy_cfg toy_client), completed_reachable.
Defined.

Lemma renter_charged_once_witness :
  ∃ host hold, (0 < hold)%Z ∧
    line <$> entries_of booking_id completed.2.1.1 = captured_lines (pay_of completed) host hold ∧
    charged (renter_account (pay_of completed)) (entries_of booking_id completed.2.1.1) =
      (hold + pm_overage_cents (pay_of completed))%Z.
Proof.
  apply (renter_charged_once toy_client completed.2.1.1 booking_id (pay_of completed)).
  - apply (saga_payment_reachable toy_cfg toy_client), completed_reachable.
  - vm_compute; reflexivity.
  - vm_compute; reflexivity.
Defined.

Lemma deliver_event_payment k st : (deliver_event k st).2 = st.2.
Proof. unfold deliver_event. by destruct (_ !! k). Qed.
Lemma do_request_payment token key r st : (do_request token key r st).2 = st.2.
Proof. done. Qed.
Lemma returned_payment : returned.2 = authorized.2.
Proof.
  unfold returned. rewrite !do_request_payment. unfold confirmed. apply deliver_event_payment.
Qed.

Lemma payment_final_witness :
  pm_status (pay_of authorized) = "authorized" ∧
  ∃ p', payments captured.2.1.1 !! booking_id = Some p' ∧
    (p' = pay_of authorized ∨ pm_status p' ∈ ["captured"; "capture_failed"]).
Proof.
  split; [vm_compute; reflexivity|].
  destruct (payment_final toy_client authorized.2.1.1 captured.2.1.1 booking_id (pay_of authorized))
    as (p' & Hp' & _ & Ha & _).
  - apply (saga_payment_reachable toy_cfg toy_client), authorized_reachable.
  - rewrite <- returned_payment. exact (saga_payment_step toy_cfg toy_client _ _ (deliver_command_step 2 returned)).
  - vm_compute; reflexivity.
  - exists p'. split; [exact Hp'|]. apply Ha. vm_compute; reflexivity.
Defined.

(** A Stripe that captures but loses the answer. *)
Definition lossy_sdk : StripeSdk toy_stripe := {|
  payment_intents_create := payment_intents_create;
  payment_intents_capture intent amount key w :=
    (None, mk_toy_stripe (ts_intents w) (<[key := Some tt]> (ts_captures w)));
  construct_event := construct_event;
|}.
Definition lossy_client : StripeClient toy_stripe :=
  @StripeTestModeClient _ lossy_sdk "pm_card_visa".

Definition lossy_start : session PaymentDB toy_stripe :=
  mk_session empty_payment_db empty_payment_db (mk_toy_stripe ∅ ∅) (toy_env 200).
Definition lossy_held : session PaymentDB toy_stripe :=
  snd (handle_authorize_payment_requested lossy_client booking_id renter_id 15000 lossy_start).
Definition lossy_captured : session PaymentDB toy_stripe :=
  snd (handle_capture_payment_requested lossy_client booking_id host_id 15000 0 lossy_held).
Definition lossy_payment : Payment :=
  default (pay_of authorized) (payments (work lossy_held) !! booking_id).

Lemma unanswered_capture_unbooked_witness :
  ts_captures (world lossy_captured) !! ("capture:" +:+ str_uuid booking_id) = Some (Some tt) ∧
  payments (work lossy_captured) !! booking_id = Some (set_status "capture_failed" lossy_payment) ∧
  entries_of booking_id (work lossy_captured) = [].
Proof.
  destruct (unanswered_capture_unbooked lossy_client booking_id host_id 15000 0 lossy_held
    lossy_captured lossy_payment (snd (capture_call lossy_client lossy_payment booking_id 15000
      (world lossy_held))) (work lossy_captured)) as (E1 & _ & E3 & E4).
  - exists empty_payment_db. split; [done|]. apply rtc_once.
    eapply (pstep_authorize _ _ _ booking_id renter_id 15000 lossy_start); [done..|].
    apply run_fst. vm_compute; reflexivity.
  - vm_compute; reflexivity.
  - reflexivity.
  - apply run_fst. vm_compute; reflexivity.
  - apply run_fst. vm_compute; reflexivity.
  - apply rtc_refl.
  - split; [|by split]. rewrite E1. reflexivity.
Defined.

Lemma pay_service_reachable_witness : pay_reachable toy_client captured.2.1.1.
Proof.
  apply (PaymentService.pay_service_reachable toy_client start.2 captured.2).
  - split; reflexivity.
  - assert (∀ k (st : toy_saga), rtc (PaymentService.pay_service_step toy_client) st.2 (deliver_command k st).2)
      as Hk.
    { intros k [nb np]. unfold deliver_command. destruct (_ !! k); [|apply rtc_refl].
      apply rtc_once. cbn [fst snd].
      eapply PaymentService.pay_record. apply surjective_pairing. }
    etrans; [exact (Hk 0 requested)|]. change (deliver_command 0 requested).2 with authorized.2.
    rewrite <- returned_payment. exact (Hk 2 returned).
Defined.


(** The host rejects while the authorization is under way. *)
Definition rejected : toy_saga := do_request "host" "k5" (PostReject (Valid booking_id)) authorized.

Lemma late_authorization_blocks_witness :
  ∃ msg n', n'.1.1 = rejected.1.1.1 ∧
    run_consumer (inbox_process PAYMENT_EVENT_HANDLERS)
      [authorized_record "e7" booking_id []] (rejected.1, 4)
    = (Err (InvalidBookingTransitionError msg), (n', 4)).
Proof.
  apply (late_authorization_blocks rejected.1 4 booking_id (row_of booking_id rejected)).
  - vm_compute; reflexivity.
  - vm_compute; congruence.
  - apply (bool_decide_eq_true_1 _). vm_compute; reflexivity.
Defined.

(** *** Witnesses: shared *)

(** The record of the payment event, delivered twice around a crash. *)
Definition event_record : dict :=
  envelope "e1" "payment_authorized" [("booking_id", PStr (str_uuid booking_id))] [].
Definition after_event : node BookingDB unit :=
  snd (consume (inbox_process PAYMENT_EVENT_HANDLERS) event_record requested.1).

Lemma at_least_once_exactly_once_witness :
  ∃ k, rtc (once PAYMENT_EVENT_HANDLERS [event_record] (λ _ _, False)) (requested.1, 0) (after_event, k) ∧
    0 ≤ k ≤ 1.
Proof.
  apply (at_least_once_exactly_once PAYMENT_EVENT_HANDLERS payment_handlers_ok [event_record]
    (λ _ _, False) (λ n n' (H : False), match H with end) requested.1 after_event 0).
  apply rtc_once. eapply deliver_crash; [reflexivity|]. unfold after_event. run_fst.
Defined.

Definition build_ok : M (session BookingDB unit) string := mret "done".

Lemma idempotent_retry_witness :
  run_session (guarded (Some "k") "c" "body" 200 (mret "other"))
    (snd (run_session (guarded (Some "k") "c" "body" 201 build_ok) start.1)) =
  (Ok (mk_response 201 "done"), snd (run_session (guarded (Some "k") "c" "body" 201 build_ok) start.1)).
Proof.
  apply (idempotent_retry (Some "k") "c" "body" 201 200 build_ok (mret "other") start.1).
  run_fst.
Defined.

Lemma key_reuse_refused_witness :
  let n := snd (run_session (guarded (Some "k") "c" "body" 201 build_ok) start.1) in
  run_session (guarded (Some "k") "c" "another body" 201 build_ok) n =
    (Err (HTTPException 409 mismatch_detail), n).
Proof.
  apply (key_reuse_refused "k" "c" "another body" 201 build_ok
    (snd (run_session (guarded (Some "k") "c" "body" 201 build_ok) start.1))
    (mk_idem_row "body" "done" 201 1000)).
  - congruence.
  - vm_compute; reflexivity.
  - vm_compute; congruence.
Defined.

(** A handler that writes a row and then fails. *)
Definition build_bad : M (session BookingDB unit) string :=
  write_outbox_event "booking" "id" "noise" [];; raise ValueError.

Lemma failed_request_rolls_back_witness :
  (snd (run_session (guarded (Some "k") "c" "body" 201 build_bad) start.1)).1.1 = start.1.1.1.
Proof.
  apply (failed_request_rolls_back (Some "k") "c" "body" 201 build_bad start.1 _ ValueError).
  - unfold build_bad. no_commit.
  - run_fst.
Defined.

(** The guard of the second request was resolved before the first committed. *)
Definition late_guard : IdempotencyGuard := mk_guard "c" "k" "body" None.
Definition after_first : session BookingDB unit :=
  let n := snd (run_session (guarded (Some "k") "c" "body" 201 build_ok) start.1) in
  mk_session n.1.1 n.1.1 n.1.2 n.2.
Definition build_effect : M (session BookingDB unit) string :=
  write_outbox_event "booking" "id" "second effect" [];; mret "second".

Lemma concurrent_retry_commits_twice_witness :
  ∃ s'', respond_idempotently late_guard 201 build_effect after_first = (Ok (mk_response 201 "done"), s'') ∧
    committed s'' = work (snd (build_effect after_first)) ∧
    length (b_outbox (work (snd (build_effect after_first)))) = 1.
Proof.
  destruct (concurrent_retry_commits_twice late_guard 201 build_effect after_first
    (snd (build_effect after_first)) "second" (mk_idem_row "body" "done" 201 1000)) as (s'' & H1 & H2).
  - reflexivity.
  - run_fst.
  - vm_compute; reflexivity.
  - reflexivity.
  - exists s''. split; [exact H1|]. split; [exact H2 | vm_compute; reflexivity].
Defined.

(** The confirmation of the booking reaches both parties. *)
Definition confirmation : OutboxRow :=
  default (mk_outbox_row "" "" "" "" []) (b_outbox confirmed.1.1.1 !! 1).
Definition notifier : node NotificationDB (list notice) := (mk_notification_db ∅ ∅, [], toy_env 400).

Lemma booking_events_notified_witness :
  ob_type confirmation = "booking_confirmed" ∧
  ∃ n', consume (inbox_process BOOKING_EVENT_HANDLERS) (payload confirmation) notifier = (Ok tt, n').
Proof.
  split; [vm_compute; reflexivity|].
  destruct (booking_events_notified (W := unit) start.1.1.1 confirmed.1.1.1 confirmation notifier)
    as (n' & Hn & _).
  - by split.
  - reflexivity.
  - unfold confirmed, authorized, requested. etrans; [|apply (saga_booking_step toy_cfg toy_client), deliver_event_step].
    etrans; [|apply (saga_booking_step toy_cfg toy_client), deliver_command_step].
    exact (saga_booking_step toy_cfg toy_client _ _ (do_request_step _ _ _ start)).
  - apply (list_elem_of_lookup_2 _ 1). vm_compute. reflexivity.
  - exists n'. exact Hn.
Defined.
