(* ===== verification/Services.v ===== *)
(** * Services: the other services run on concrete data

    A second concrete platform: tokens are JSON with the secret they were
    made with, floats have an exact text, Redis and Elasticsearch are maps,
    and the other services answer over HTTP.  Complete runs of listing,
    search, auth, telemetry and admin on it, evaluated by the kernel, witness that the hypotheses of their theorems can be met. *)
From S2P Require Import Prelude Python Columns Effects Outbox Inbox Idempotency Json JsonFacts.
From S2P Require Import JwtAuth Http Pagination.
From S2P Require Import Redis Auth AuthFacts Listing ListingFacts ListingService.
From S2P Require Import Search SearchApp SearchFacts SearchQuery SearchCache.
From S2P Require Import Telemetry TelemetryFacts Admin Notification.
From S2P Require Import BookingRepo BookingService BookingFacts BookingInvariant.
From Stdlib Require Import Decimal DecimalString DecimalPos.

(** ** The platform *)

(** A float is written as [0.] and the digits of its code. *)
Definition float_code (f : spec_float) : Pos.t :=
  match f with
  | S754_zero b => encode (inl b : bool + bool * Pos.t * Z)
  | S754_finite b m e => encode (inr (b, m, e) : bool + bool * Pos.t * Z)
  | _ => 1%positive
  end.

Definition code_float (p : Pos.t) : option spec_float :=
  match (decode p : option (bool + bool * Pos.t * Z)) with
  | Some (inl b) => Some (S754_zero b)
  | Some (inr (b, m, e)) => Some (S754_finite b m e)
  | None => None
  end.

Definition code_digits (p : Pos.t) : string := NilEmpty.string_of_uint (Pos.to_uint p).

Definition digits_code (s : string) : option Pos.t :=
  d ← NilEmpty.uint_of_string s;
  match Pos.of_uint d with Npos p => Some p | N0 => None end.

#[local] Instance exact_floats : FloatText := {|
  float_repr f := "0." +:+ code_digits (float_code f);
  float_of_string s :=
    match s with String _ (String _ ds) => p ← digits_code ds; code_float p | _ => None end;
|}.

Lemma digits_code_digits p : digits_code (code_digits p) = Some p.
Proof.
  unfold digits_code, code_digits. rewrite NilEmpty.usu. cbn [mbind option_bind].
  by rewrite Unsigned.of_to.
Qed.

Lemma code_float_code f :
  match f with S754_zero _ | S754_finite _ _ _ => True | _ => False end →
  code_float (float_code f) = Some f.
Proof. unfold code_float, float_code. destruct f; try done; intros _; by rewrite decode_encode. Qed.

#[local] Instance exact_float_laws : FloatLaws.
Proof.
  split. intros f _ Hf. cbn [float_repr exact_floats].
  assert (span_digits (code_digits (float_code f)) = (code_digits (float_code f), "")) as Hd
    by apply span_digits_uint.
  assert (code_digits (float_code f) ≠ "") as Hne.
  { unfold code_digits. pose proof (Unsigned.to_uint_nonnil (float_code f)).
    by destruct (Pos.to_uint (float_code f)). }
  revert Hd Hne. generalize (digits_code_digits (float_code f)).
  generalize (code_digits (float_code f)). intros ds Hc Hd Hne.
  change (json_number ("0." +:+ ds)) with
    (let '(fr, r) := scan_frac ("." +:+ ds) in
     let '(x, r) := scan_exp r in
     if decide (fr +:+ x = "") then
       z ← NilZero.int_of_string "0"; Some (PInt (Z.of_int z), r)
     else fl ← float_of_string ("0" +:+ fr +:+ x); Some (PFloat fl, r)).
  change (scan_frac ("." +:+ ds)) with
    (let '(d, r') := span_digits ds in if decide (d = "") then ("", "." +:+ ds) else ("." +:+ d, r')).
  rewrite Hd, decide_False by done. cbn [scan_exp scan_exp_head].
  rewrite decide_False by (by rewrite str_app_nil_r). rewrite str_app_nil_r.
  cbn [float_of_string exact_floats String.app].
  change (("0" +:+ "." +:+ ds)) with (String "0" (String "." ds)). cbn [mbind option_bind].
  rewrite Hc. cbn [mbind option_bind]. by rewrite code_float_code.
Qed.

(** The claims a token carries, when its secret and issuer are right and it
    has not expired. *)
Definition open_token (token secret issuer : string) (now : Z) : option dict :=
  match json_loads token with
  | Some (PList [PStr s; PDict claims]) =>
      match dict_get claims "iss", dict_get claims "iat", dict_get claims "exp" with
      | Some (PStr iss), Some (PInt iat), Some (PInt exp) =>
          if decide (s = secret ∧ iss = issuer ∧ (iat ≤ now < exp)%Z) then Some claims else None
      | _, _, _ => None
      end
  | _ => None
  end.

#[local] Instance json_platform : Platform := {|
  sha256_hexdigest body := body;
  model_dump_json d := json_dumps (PDict d);
  jwt_encode claims secret := json_dumps (PList [PStr secret; PDict claims]);
  jwt_decode := open_token;
|}.

#[local] Instance json_jwt : JwtLaws.
Proof.
  split. intros claims secret issuer t iat exp Hok Hiss Hiat Hexp.
  cbn [jwt_decode jwt_encode json_platform]. unfold open_token.
  rewrite json_loads_dumps by (by split_and!). rewrite Hiss, Hiat, Hexp.
  apply decide_ext. naive_solver.
Qed.

(** A hash that is the password itself, and its verification. *)
#[local] Instance plain_argon2 : Argon2 := {|
  argon2_hash salt password := password;
  argon2_verify hash password := if decide (hash = password) then Ok true else Err VerifyMismatchError;
|}.
#[local] Instance plain_argon2_laws : Argon2Laws.
Proof. by split. Qed.

(** *** Redis and Elasticsearch as maps *)
Abbreviation redis_map := (gmap string string).

#[local] Instance map_redis : Redis redis_map := {|
  redis_get k r := (Ok (r !! k), r);
  redis_set k v _ r := (Ok tt, <[k := v]> r);
  redis_set_nx k v _ r := match r !! k with Some _ => (Ok false, r) | None => (Ok true, <[k := v]> r) end;
  redis_exists k r := (Ok (bool_decide (is_Some (r !! k))), r);
  redis_delete k r := (Ok tt, delete k r);
|}.

#[local, refine] Instance map_redis_laws : RedisLaws redis_map := {| keys r := r |}.
Proof.
  - intros k r v r' H. by injection H as <- <-.
  - intros k v ttl r u r' H. by injection H as _ <-.
  - done.
  - intros k v ttl r b r'. cbn. destruct (r !! k) as [w|]; intros H.
    + by injection H as <- <-.
    + by injection H as <- <-.
  - intros k r b r' H. by injection H as <- <-.
  - intros k r u r' H. by injection H as _ <-.
Defined.

Abbreviation es_map := (gmap (string * string) dict).

(** Query evaluation: [match_all], [bool]/[filter], [term] and integer [range]. *)
Fixpoint matches (q : pyval) (d : dict) : bool :=
  match q with
  | PDict [(k, PDict [(f, v)])] =>
      if decide (k = "bool" ∧ f = "filter") then
        match v with PList fs => forallb (λ q, matches q d) fs | _ => false end
      else if decide (k = "term") then match v with PStr s => get_is d f s | _ => false end
      else if decide (k = "range") then
        match dict_get d f, v with Some (PInt z), PDict r => in_range r z | _, _ => false end
      else false
  | PDict [("match_all", PDict [])] => true
  | _ => false
  end.

(** The sort key of a document. *)
Definition order_key (sort : list dict) (d : dict) : Z :=
  match sort with
  | [[(f, PStr o)]] =>
      match dict_get d f with
      | Some (PInt z) => if decide (o = "desc") then - z else z
      | _ => 0
      end
  | _ => 0
  end.

Definition key_order (sort : list dict) (a b : dict) : Prop := (order_key sort a ≤ order_key sort b)%Z.
#[local] Instance key_order_dec sort a b : Decision (key_order sort a b).
Proof. unfold key_order. apply _. Defined.

Definition hit_list (rows : list dict) : dict :=
  [("hits", PDict [("hits", PList ((λ d, PDict [("_source", PDict d)]) <$> rows))])].

#[local] Instance map_es : Elasticsearch es_map := {|
  es_index ix i d e := (Ok tt, <[(ix, i) := d]> e);
  es_delete ix i e := match e !! (ix, i) with
                      | Some _ => (Ok tt, delete (ix, i) e)
                      | None => (Err NotFoundError, e)
                      end;
  es_search ix q sort from size e :=
    (Ok (hit_list (limit_offset size from
      (merge_sort (key_order sort) (filter (λ d, matches (PDict q) d = true) (index_docs ix e))))), e);
  es_indices_exists ix e := (Ok true, e);
  es_indices_create ix m e := (Ok tt, e);
|}.

#[local, refine] Instance map_es_laws : ElasticsearchLaws es_map := {| docs e := e |}.
Proof.
  - intros ix i d e u e' H. by injection H as _ <-.
  - intros ix i e u e'. cbn. destruct (e !! (ix, i)); [by intros [= _ <-] | done].
  - intros ix i e e'. cbn. destruct (e !! (ix, i)) eqn:E; [done | by intros [= <-]].
  - intros ix q s from size e r e' H. by injection H as _ <-.
  - intros ix e r e' H. by injection H as _ <-.
  - intros ix m e r e' H. by injection H as _ <-.
Defined.

#[local] Instance key_order_total sort : Total (key_order sort).
Proof. intros a b. unfold key_order. lia. Qed.
#[local] Instance key_order_trans sort : Transitive (key_order sort).
Proof. intros a b c. unfold key_order. lia. Qed.

Lemma hits_of_list {S} rows (s : S) : hits_of (hit_list rows) s = (Ok rows, s).
Proof.
  change (sources ((λ d, PDict [("_source", PDict d)]) <$> rows) s = (Ok rows, s)).
  induction rows as [|d rows IH]; [done|].
  transitivity ((rest ← sources ((λ d, PDict [("_source", PDict d)]) <$> rows); mret (d :: rest)) s);
    [reflexivity|]. by rewrite run_bind, IH.
Qed.

#[local, refine] Instance map_es_query : ElasticsearchQueryLaws es_map := {|
  es_matches q d := matches (PDict q) d;
  es_order := key_order;
|}.
Proof.
  - intros ix q sort from size e r e' H. injection H as <- _.
    eexists. split; [apply (merge_sort_Permutation (key_order sort))|]. split; [apply (StronglySorted_merge_sort (key_order sort)); apply _|].
    intros S s. apply hits_of_list.
  - done.
  - done.
  - intros fs d. transitivity (forallb (λ q, matches q d) (PDict <$> fs)); [reflexivity|].
    induction fs as [|f fs IH]; [done|]. cbn [fmap list_fmap forallb]. by rewrite IH.
  - done.
  - intros f r z d H. cbn. by rewrite H.
  - intros f a b x y H Ha Hb. unfold key_order, order_key in H. by rewrite Ha, Hb in H.
  - intros f a b x y H Ha Hb. unfold key_order, order_key in H. rewrite Ha, Hb in H.
    rewrite !decide_True in H by done. lia.
Defined.

(** ** The runs *)
Definition ident (n : N) : uuid := default (mk_uuid 0 eq_refl) (uuid_of_N n).
Definition env_from (base : N) (time : Z) : env := mk_env (λ n, ident (base + N.of_nat n)) time [].

Definition the_jwt : jwt_settings := mk_jwt_settings "secret" "carflow-auth".

(** An access token of [user] in [role], good for [1000, 1900). *)
Definition token_for (user : uuid) (role : string) : string :=
  jwt_encode (token_claims user role "access" "carflow-auth" 1000 900) "secret".

Definition asking (user : uuid) (role key : string) : request :=
  mk_request (Some ("Bearer " +:+ token_for user role)) (Some key) "{}".

Definition the_host : uuid := ident 2.
Definition the_admin : uuid := ident 9.

(** *** Listing: a host offers two cars and changes the price of the first,
    whose approval comes in between, and blocks some days of it. *)
Definition new_car (price : Z) : CreateVehicleRequest :=
  mk_create_vehicle "Fiat" "Panda" 2020 price 200 "instant" (float_of_Z 52) (float_of_Z 13).
Definition new_price (price : Z) : UpdateVehicleRequest :=
  mk_update_vehicle None None None (Some price) None None None None.

Definition listing_node : Type := node ListingDB unit.
Definition listing_start : listing_node := (mk_listing_db ∅ [] [] ∅, tt, env_from 100 1000).

Definition ask_listing (rq : request) (r : listing_request) (n : listing_node) : listing_node :=
  snd (serve (Listing.handle the_jwt rq r) n).

Definition car1 : uuid := ident 100.
Definition car2 : uuid := ident 101.

Definition offered : listing_node :=
  ask_listing (asking the_host "host" "l2") (PostVehicles (Valid (new_car 7000)))
    (ask_listing (asking the_host "host" "l1") (PostVehicles (Valid (new_car 5000))) listing_start).
Definition car1_approved : listing_node :=
  ask_listing (asking the_admin "admin" "l3") (Listing.PostApprove (Valid car1)) offered.
Definition car1_updated : listing_node :=
  ask_listing (asking the_host "host" "l4") (PatchVehicle (Valid (car1, new_price 4000))) car1_approved.
Definition car1_blocked : listing_node :=
  ask_listing (asking the_host "host" "l6") (PostBlock (Valid (car1, mk_create_block 15 18)))
    (ask_listing (asking the_host "host" "l5") (PostBlock (Valid (car1, mk_create_block 10 12))) car1_updated).

Lemma ask_listing_step rq r n : listing_service_step the_jwt n (ask_listing rq r n).
Proof. eapply lsvc_request, surjective_pairing. Qed.

Lemma listing_start_empty : empty_listing listing_start.1.1.
Proof. done. Qed.

Lemma offered_steps : rtc (listing_service_step the_jwt) listing_start offered.
Proof. eapply rtc_l; [apply ask_listing_step|]. apply rtc_once, ask_listing_step. Qed.
Lemma blocked_steps : rtc (listing_service_step the_jwt) listing_start car1_blocked.
Proof.
  etrans; [apply offered_steps|]. unfold car1_blocked, car1_updated, car1_approved.
  do 3 (eapply rtc_r; [|apply ask_listing_step]). apply rtc_once, ask_listing_step.
Qed.
Lemma offered_reachable : listing_reachable unit offered.1.1.
Proof. exact (listing_node_reachable _ _ _ listing_start_empty offered_steps). Qed.
Lemma blocked_reachable : listing_reachable unit car1_blocked.1.1.
Proof. exact (listing_node_reachable _ _ _ listing_start_empty blocked_steps). Qed.

Definition car_in (n : listing_node) (id : uuid) : Vehicle :=
  default (mk_vehicle id id "" "" 0 0 0 "" "" float_zero float_zero 0) (vehicles n.1.1 !! id).

Example blocked_run :
  (vh_approval_status <$> vehicles car1_blocked.1.1 !! car1, vh_daily_price_cents (car_in car1_blocked car1),
   vh_approval_status <$> vehicles car1_blocked.1.1 !! car2,
   length (blocks car1_blocked.1.1), ob_type <$> l_outbox car1_blocked.1.1) =
  (Some "approved", 4000%Z, Some "pending", 2, ["vehicle_approved"; "vehicle_updated"]).
Proof. vm_compute. reflexivity. Qed.


Lemma published_truth_witness :
  vh_approval_status (car_in car1_blocked car1) = "approved" ∧
  published car1 (car_in car1_blocked car1) (l_outbox car1_blocked.1.1).
Proof.
  split; [vm_compute; reflexivity|].
  apply (published_truth (W := unit) car1_blocked.1.1).
  - apply blocked_reachable.
  - vm_compute. reflexivity.
Defined.

Lemma blocks_disjoint_witness :
  length (blocks car1_blocked.1.1) = 2 ∧ disjoint_blocks (blocks car1_blocked.1.1).
Proof.
  split; [vm_compute; reflexivity|].
  apply (blocks_disjoint (W := unit) car1_blocked.1.1), blocked_reachable.
Defined.

Lemma listing_service_sound_witness :
  listing_reachable unit car1_blocked.1.1 ∧ vehicle_valid (car_in car1_blocked car1).
Proof.
  destruct (listing_service_sound the_jwt listing_start car1_blocked listing_start_empty blocked_steps)
    as [Hr Hv].
  split; [exact Hr|]. apply (Hv car1). vm_compute. reflexivity.
Defined.

(** A run by its result: the state it leaves is not normalised. *)
Lemma run_result {A B} (p : A * B) a : fst p = a → p = (a, snd p).
Proof. by destruct p; intros <-. Qed.

Ltac run_fst :=
  match goal with |- ?p = (?a, _) => refine (run_result p a _) end; vm_compute; reflexivity.

Lemma op_effect op (s s' : session ListingDB unit) :
  run_op op s = (Ok tt, s') → effect op (senv s) (work s) (work s').
Proof. intros (db' & He & ->)%run_op_Ok. exact He. Qed.

(** The update that loaded the car while it was pending resumes in a session
    that sees the approval. *)
Definition approve_session : session ListingDB unit :=
  mk_session offered.1.1 offered.1.1 tt (env_from 300 1000).
Definition after_approval : session ListingDB unit := snd (run_op (OpApprove car1) approve_session).
Definition resumed_session : session ListingDB unit :=
  mk_session (work after_approval) (work after_approval) tt (env_from 300 1000).

Lemma stale_update_unpublishes_witness :
  ∃ s', update_resumed (car_in offered car1) (new_price 4000) resumed_session =
      (Ok (set_fields (new_price 4000) (car_in offered car1)), s') ∧
    ¬ published car1 (set_approval_status "approved" (set_fields (new_price 4000) (car_in offered car1)))
        (l_outbox (work s')).
Proof.
  destruct (stale_update_unpublishes (W := unit) offered.1.1 car1 the_host (car_in offered car1)
    (new_price 4000) resumed_session) as (s' & Hs & _ & _ & Hp).
  - apply offered_reachable.
  - vm_compute. reflexivity.
  - vm_compute. reflexivity.
  - vm_compute. reflexivity.
  - apply (bool_decide_eq_true_1 _). vm_compute. reflexivity.
  - apply (op_effect (OpApprove car1) approve_session after_approval). unfold after_approval. run_fst.
  - exists s'. split; [exact Hs | exact Hp].
Defined.

(** *** Search: the consumer handles the first event twice, then the second *)
Definition topic : list OutboxRow := l_outbox car1_blocked.1.1.

Definition search_state : Type := es_map * redis_map.
Definition deliver (k : nat) (n : search_state) : search_state :=
  match topic !! k with
  | Some row => snd (consume (listing_event_processor "vehicles") (payload row) n)
  | None => n
  end.
Definition fed : search_state := deliver 1 (deliver 0 (deliver 0 (∅, ∅))).

Definition row_at (k : nat) : OutboxRow :=
  nth k topic (mk_outbox_row "" "" "" "" []).

Lemma deliver_run k n :
  topic !! k = Some (row_at k) →
  fst (consume (listing_event_processor "vehicles") (payload (row_at k)) n) = Ok tt →
  consume (listing_event_processor "vehicles") (payload (row_at k)) n = (Ok tt, deliver k n).
Proof. unfold deliver. intros -> H. by apply run_result. Qed.


(** Elasticsearch is down: the event is claimed and lost. *)
Definition down : Type := unit.
#[local] Instance down_es : Elasticsearch down := {|
  es_index _ _ _ _ := (Err (HTTPStatusError 503), tt);
  es_delete _ _ _ := (Err (HTTPStatusError 503), tt);
  es_search _ _ _ _ _ _ := (Err (HTTPStatusError 503), tt);
  es_indices_exists _ _ := (Err (HTTPStatusError 503), tt);
  es_indices_create _ _ _ := (Err (HTTPStatusError 503), tt);
|}.

Definition approved_car : Vehicle := car_in car1_blocked car1.
Definition approval_event : OutboxRow :=
  outbox_row (env_from 700 1000) "vehicle" (str_uuid (vh_id approved_car)) "vehicle_approved"
    (_vehicle_snapshot approved_car).
Definition claimed_redis : redis_map :=
  snd (redis_set_nx (event_key (ob_id approval_event)) "1" dedup_ttl_seconds (∅ : redis_map)).

Lemma failed_effect_is_lost_witness :
  ∃ r2, run_consumer (listing_event_processor (E := down) "vehicles") [payload approval_event]
      ((tt, claimed_redis), 0) = (Ok tt, ((tt, r2), 1)).
Proof.
  apply (failed_effect_is_lost (E := down) (R := redis_map) "vehicles" approval_event approved_car
    tt tt ∅ claimed_redis (HTTPStatusError 503)).
  - exists (env_from 700 1000), "vehicle_approved". split; [by left | done].
  - unfold claimed_redis. run_fst.
  - vm_compute. reflexivity.
  - exists false, claimed_redis. vm_compute. reflexivity.
Defined.

(** The operator indexes what listing has. *)
Definition listing_session : session ListingDB unit :=
  mk_session car1_blocked.1.1 car1_blocked.1.1 tt (env_from 900 1000).
Definition operator_session : session unit es_map := mk_session tt tt ∅ (env_from 800 1000).

Lemma backfill_complete_witness :
  ∃ n s', run_backfill "vehicles" (listing_api the_jwt listing_session) (S n) the_jwt operator_session =
      (Ok (Some n), s') ∧
    docs (world s') !! ("vehicles", str_uuid car1) = Some (vehicle_document approved_car).
Proof.
  destruct (backfill_complete (W := unit) (E := es_map) "vehicles" the_jwt listing_session
    operator_session) as (s' & Hr & Hi & _).
  - intros i d e. eexists. reflexivity.
  - intros e. eexists. reflexivity.
  - apply blocked_reachable.
  - vm_compute. reflexivity.
  - by split.
  - eexists _, s'. split; [exact Hr|]. apply (Hi car1 approved_car); vm_compute; reflexivity.
Defined.

(** A search over the index of one car. *)
Definition one_car : gmap uuid Vehicle := {[car1 := approved_car]}.
Definition one_index : es_map := {[("vehicles", str_uuid car1) := vehicle_document approved_car]}.
Definition cheap_fiats : search_params :=
  mk_search (Some "Fiat") None (Some 1000%Z) (Some 4500%Z) (Some (float_of_Z 52)) (Some (float_of_Z 13))
    None "price_asc" 20 0.

Lemma one_index_is_index : is_index "vehicles" one_car (docs one_index).
Proof.
  assert (approved_document approved_car = Some (vehicle_document approved_car)) as Ha
    by (unfold approved_document; rewrite decide_True; [done|]; vm_compute; reflexivity).
  split.
  - intros i. change (one_index !! ("vehicles", str_uuid i) = one_car !! i ≫= approved_document).
    unfold one_index, one_car. destruct (decide (i = car1)) as [->|Hne].
    + rewrite !lookup_singleton_eq. cbn [mbind option_bind]. by rewrite Ha.
    + rewrite !lookup_singleton_ne; [reflexivity|exact (not_eq_sym Hne)|].
      intros Heq. apply pair_eq in Heq as [_ Heq]. exact (Hne (eq_sym (inj str_uuid _ _ Heq))).
  - intros k Hk. change (is_Some (one_index !! ("vehicles", k))) in Hk. unfold one_index in Hk.
    apply lookup_singleton_is_Some in Hk. apply pair_eq in Hk as [_ Hk].
    exists car1. exact (eq_sym Hk).
Qed.


(** The same search again, from the cache. *)
#[local] Instance search_json : SearchJson :=
  λ s, match json_loads s with Some (PDict d) => Some d | _ => None end.

Definition first_search : result dict * search_state :=
  search "vehicles" 30 cheap_fiats (one_index, ∅).
Definition first_response : dict := match first_search.1 with Ok d => d | Err _ => [] end.
Definition second_search : result dict * search_state :=
  search "vehicles" 30 cheap_fiats ((∅ : es_map), first_search.2.2).

Definition second_response : dict := match second_search.1 with Ok d => d | Err _ => [] end.

Lemma cached_answer_same_query_witness :
  second_search.1 = Ok second_response ∧ second_response = first_response.
Proof.
  split; [vm_compute; reflexivity|].
  apply (cached_answer_same_query (E := es_map) (R := redis_map) "vehicles" 30 cheap_fiats cheap_fiats
    one_index first_search.2.1 ∅ ∅ first_search.2.2 first_search.2.2 first_response second_response
    second_search.2).
  - split_and!; [vm_compute; reflexivity | vm_compute; reflexivity | done].
  - split_and!; [vm_compute; reflexivity | vm_compute; reflexivity | done].
  - vm_compute. reflexivity.
  - vm_compute. reflexivity.
  - rewrite <- surjective_pairing. run_fst.
  - reflexivity.
  - reflexivity.
  - run_fst.
Defined.

(** *** An event envelope *)
Definition an_envelope : dict :=
  envelope "e1" "vehicle_updated"
    [("vehicle_id", PStr "v1"); ("daily_price_cents", PInt 5000); ("latitude", PFloat (float_of_Z 52))] [].

Lemma envelope_decodes_witness :
  decode_envelope (json_dumps (PStr (json_dumps (PDict an_envelope)))) = Some (PDict an_envelope).
Proof.
  apply (envelope_decodes an_envelope). cbn.
  repeat match goal with
  | |- _ ∧ _ => split
  | |- NoDup _ => by apply (bool_decide_unpack _)
  | |- True => exact I
  end.
  vm_compute. reflexivity.
Defined.

(** *** Auth: a host registers, logs in and refreshes *)
Definition the_auth : auth_settings := mk_auth_settings the_jwt 900 604800.
Definition ana : RegisterRequest := mk_register "ana@example.org" "Ana" "correct horse" "host".

Definition auth_start : node AuthDB unit := (mk_auth_db ∅ ∅, tt, env_from 500 1000).
Definition auth_registered : node AuthDB unit :=
  snd (serve (Auth.handle the_auth (mk_request None (Some "a1") "ana") (PostRegister (Valid ana))) auth_start).

Lemma accounts_sound_witness : size (users auth_registered.1.1) = 1 ∧ awf auth_registered.1.1.
Proof.
  split; [vm_compute; reflexivity|].
  apply (accounts_sound the_auth auth_start auth_registered); [reflexivity|].
  apply rtc_once. eapply asvc_request. apply surjective_pairing.
Defined.

Definition before_ana : session AuthDB unit :=
  mk_session (mk_auth_db ∅ ∅) (mk_auth_db ∅ ∅) tt (env_from 500 1000).
Definition ana_user : User := mk_user (ident 501) "ana@example.org" "Ana" "correct horse" "host" 1000.
Definition after_ana : session AuthDB unit := snd (register_user ana before_ana).

Lemma registered_user_logs_in_witness :
  (∃ access refresh, login_handler the_auth (mk_login "ana@example.org" "correct horse") after_ana =
    (Ok (token_response (access, refresh)), after_ana)) ∧
  login_handler the_auth (mk_login "ana@example.org" "correct mule") after_ana =
    (Err (HTTPException 401 "invalid email or password"), after_ana).
Proof.
  destruct (registered_user_logs_in the_auth ana ana_user before_ana after_ana after_ana)
    as [(access & refresh & Hl & _) Hq].
  - exists (mk_auth_db ∅ ∅). split; [reflexivity | apply rtc_refl].
  - vm_compute. reflexivity.
  - unfold after_ana. run_fst.
  - apply rtc_refl.
  - split; [exists access, refresh; exact Hl|]. apply (Hq "correct mule"). discriminate.
Defined.

Definition ana_session : session AuthDB unit :=
  mk_session (mk_auth_db {[ident 501 := ana_user]} ∅) (mk_auth_db {[ident 501 := ana_user]} ∅) tt
    (env_from 600 2500).

Definition ana_tokens : string * string := pair_of the_auth ana_user 1000.

Lemma token_kinds_separate_witness :
  refresh_handler the_auth ana_tokens.2 ana_session =
    (Ok (token_response (pair_of the_auth ana_user (clock (senv ana_session)))), ana_session).
Proof.
  pose proof (token_kinds_separate the_auth ana_user 1000 ana_session) as H.
  fold ana_tokens in H. destruct ana_tokens as [access refresh].
  destruct H as [Hr _]; [vm_compute; reflexivity|]. apply Hr. by split.
Defined.

(** *** Telemetry: two packets of a car, with a broken frame in between *)
Definition packet_at (lat speed : Z) (at_ : string) : TelemetryPacket :=
  mk_packet (float_of_Z lat) (float_of_Z 13) (float_of_Z speed) at_.
Definition packet1 : TelemetryPacket := packet_at 52 50 "2026-01-01T10:00:00".
Definition packet2 : TelemetryPacket := packet_at 53 60 "2026-01-01T10:00:05".

#[local] Instance two_packets : PacketJson := {|
  packet_fields raw :=
    if decide (raw = "p1") then Some packet1 else if decide (raw = "p2") then Some packet2 else None;
  packet_error raw := "invalid";
|}.

Definition frames : list string := ["p1"; "oops"; "p2"].
Definition device_token : string := token_for the_host "host".
Definition stopped : ingest_state redis_map :=
  mk_ingest {[_key "car" := "1"]} [] [] 0.

Lemma ingest_publishes_witness :
  in_topic (snd (ingest the_jwt 1000 device_token "car" frames stopped)) =
    [published_record "car" true packet1; published_record "car" true packet2] ∧
  in_sent (snd (ingest the_jwt 1000 device_token "car" frames stopped)) =
    [FrameOk; FrameRejected "invalid"; FrameOk] ∧
  in_ingested (snd (ingest the_jwt 1000 device_token "car" frames stopped)) = 2.
Proof.
  assert (ingest the_jwt 1000 device_token "car" frames stopped =
    (Ok tt, snd (ingest the_jwt 1000 device_token "car" frames stopped))) as Hrun by run_fst.
  pose proof (ingest_publishes the_jwt 1000 device_token "car" frames stopped _ tt Hrun) as Hing.
  assert (fst (decode_token the_jwt 1000 device_token tt) =
    Ok (token_claims the_host "host" "access" "carflow-auth" 1000 900)) as Hopen
    by (vm_compute; reflexivity).
  rewrite Hopen in Hing. destruct Hing as (Ht & Hs & Hn). rewrite Ht, Hs, Hn.
  split_and!; vm_compute; reflexivity.
Defined.

Definition no_positions : consumer_state redis_map := mk_consumer [] ∅.
Definition two_published : log := [("car", packet1); ("car", packet2)].
(** The first batch is handled, then lost before its offset is committed,
    and delivered again as a larger one. *)
Definition half_way : consumer_state redis_map :=
  snd (consume_prefix 300 1 (raw_record <$> [("car", packet1)]) no_positions).
Definition caught_up : consumer_state redis_map :=
  snd (consume_batch 300 (raw_record <$> two_published) half_way).

Lemma packets_are_doubles : packet_doubles packet1 ∧ packet_doubles packet2.
Proof. split; split_and!; vm_compute; reflexivity. Qed.

Lemma location_is_latest_witness :
  ∃ i p, last_record two_published 2 i "car" p ∧
    location_response "car" packet2 = location_response "car" p.
Proof.
  destruct packets_are_doubles as [Hp1 Hp2].
  apply (location_is_latest 300 no_positions caught_up (snd (get_location "car" caught_up)) two_published 2
    "car" (location_response "car" packet2)).
  - intros v. exact (lookup_empty (M := gmap string) (A := string) _).
  - eapply rtc_l; [exact (delivery_publish 300 [] no_positions 0 "car" packet1 Hp1)|].
    eapply rtc_l; [refine (delivery_crashed 300 _ no_positions 0 1 1 (Ok tt) half_way _)|].
    { unfold half_way. run_fst. }
    eapply rtc_l; [exact (delivery_publish 300 _ half_way 0 "car" packet2 Hp2)|].
    apply rtc_once. refine (delivery_commit 300 two_published half_way 0 2 caught_up _).
    unfold caught_up. run_fst.
  - run_fst.
Defined.

(** *** Admin: the kill switch of a car, and an approval *)
#[local] Instance upstream : Upstream unit := {|
  http_post url headers u := (Ok (200%Z, "{}"), u);
  http_get url params headers u := (Ok (200%Z, "{}"), u);
|}.

Definition the_services : admin_settings :=
  mk_admin_settings the_jwt "http://listing:8000/" "http://booking:8000".
Abbreviation world_of := (admin_world redis_map unit).
Definition admin_start : session AdminDB world_of :=
  mk_session (mk_admin_db [] ∅) (mk_admin_db [] ∅) (mk_admin_world ∅ tt) (env_from 400 1000).

Definition enable_car1 : result Response * session AdminDB world_of :=
  Admin.handle the_services (asking the_admin "admin" "s1") (EnableKillSwitch (Valid car1)) admin_start.
Definition approve_car1 : result Response * session AdminDB world_of :=
  Admin.handle the_services (asking the_admin "admin" "s2") (PostApprove (Valid car1)) admin_start.

Definition response_of (r : result Response) : Response :=
  match r with Ok resp => resp | Err _ => mk_response 500 "" end.

Lemma admin_audit_witness :
  length (admin_actions (committed approve_car1.2)) = 1 ∧
  (approve_car1.2 = admin_start ∨ ∃ claims a,
    get_access_claims the_jwt (asking the_admin "admin" "s2") admin_start = (Ok claims, admin_start) ∧
    dict_get claims "role" = Some (PStr "admin") ∧ entry_of claims "vehicle_approved" car1 a ∧
    admin_actions (committed approve_car1.2) = admin_actions (committed admin_start) ++ [a]).
Proof.
  split; [vm_compute; reflexivity|].
  apply (admin_audit the_services (asking the_admin "admin" "s2") (PostApprove (Valid car1)) admin_start
    approve_car1.2 (Ok (response_of approve_car1.1))); [reflexivity|].
  change (approve_car1 = (Ok (response_of approve_car1.1), approve_car1.2)). run_fst.
Defined.

(** A device of the car streams after the switch was set. *)
Definition device_start : ingest_state redis_map := mk_ingest (aw_redis (world enable_car1.2)) [] [] 0.

Definition device_end : ingest_state redis_map :=
  snd (ingest the_jwt 1000 device_token (str_uuid car1) frames device_start).

