(* ===== verification/SystemScenario.v ===== *)
(** * SystemScenario: a rental from the listing to the payout

    One run of the whole system on the concrete platforms of [Scenario] and
    [Services]: a host lists a car, an administrator approves it through the
    admin service, search indexes it, a renter books it, Stripe is charged,
    the parties are notified.  It witnesses the theorems of [System] and
    [Upstreams]. *)
From S2P Require Import Prelude Python Columns Json JsonFacts Effects Outbox Inbox Idempotency JwtAuth Http.
From S2P Require Import Redis Telemetry TelemetryFacts Admin.
From S2P Require Import BookingDomain BookingRepo BookingService BookingFacts BookingInvariant.
From S2P Require Import BookingRoutes Payment PaymentFacts PaymentBooks PaymentService Saga.
From S2P Require Import Auth Listing ListingFacts ListingService.
From S2P Require Import Search SearchApp SearchFacts Upstreams Notification System Wire.
From S2P Require Import Scenario Services.
Import Payment PaymentFacts PaymentBooks.

#[local] Existing Instances json_platform exact_floats exact_float_laws map_redis map_redis_laws
  map_es map_es_laws toy_sdk.

#[local] Instance json_text : PlatformJson.
Proof. intros d Hd. by apply json_loads_dumps. Qed.

#[local] Instance map_es_failures : ElasticsearchFailures es_map.
Proof.
  split.
  - intros ix i d e r e' H. injection H as _ <-. by right.
  - intros ix i e r e'. cbn. destruct (e !! (ix, i)); intros [= _ <-]; [by right | by left].
Qed.

Abbreviation the_system :=
  (system (WL := unit) (WB := unit) (WP := toy_stripe) (E := es_map) (R := redis_map) (RA := redis_map)).
Abbreviation the_step := (system_step the_services the_jwt the_jwt toy_client "vehicles").
Abbreviation the_reachable := (system_reachable the_services the_jwt the_jwt toy_client "vehicles").

(** What may be done to the system; messages are named by their place in the
    outbox. *)
Inductive action :=
| ToListing (rq : request) (r : listing_request)
| ToBooking (rq : request) (r : booking_request)
| ToAdmin (rq : request) (r : admin_request)
| Command (k : nat)
| PaymentEvent (k : nat)
| Indexing (k : nat)
| Notifying (k : nat).

Definition act (st : the_system) (a : action) : the_system :=
  let '(mk_system nl nb np es nn ad) := st in
  match a with
  | ToListing rq r => mk_system (serve (Listing.handle the_jwt rq r) nl).2 nb np es nn ad
  | ToBooking rq r =>
      mk_system nl (serve (BookingRoutes.handle the_jwt (listing_client the_jwt Delivered nl) rq r) nb).2 np es nn ad
  | ToAdmin rq r =>
      let '(db, w, e) := (serve (Admin.handle the_services
        (Upstream0 := service_servers the_services the_jwt the_jwt Delivered) rq r) (admin_node st)).2 in
      mk_system (aw_upstream w).1 (aw_upstream w).2 np es nn (db, aw_redis w, e)
  | Command k =>
      match b_outbox nb.1.1 !! k with
      | Some row => mk_system nl nb (consume (inbox_process (build_booking_command_handlers toy_client))
          (payload row) np).2 es nn ad
      | None => st
      end
  | PaymentEvent k =>
      match p_outbox np.1.1 !! k with
      | Some row => mk_system nl (consume (inbox_process PAYMENT_EVENT_HANDLERS) (payload row) nb).2 np es nn ad
      | None => st
      end
  | Indexing k =>
      match l_outbox nl.1.1 !! k with
      | Some row => mk_system nl nb np (consume (listing_event_processor "vehicles") (payload row) es).2 nn ad
      | None => st
      end
  | Notifying k =>
      match b_outbox nb.1.1 !! k with
      | Some row => mk_system nl nb np es (consume (inbox_process BOOKING_EVENT_HANDLERS) (payload row) nn).2 ad
      | None => st
      end
  end.

Lemma act_step st a : rtc the_step st (act st a).
Proof.
  destruct st as [nl nb np es nn ad], a as [rq r|rq r|rq r|k|k|k|k]; cbn [act].
  - eapply rtc_once, (sys_listing _ _ _ _ _ (mk_system nl nb np es nn ad)), lsvc_request, surjective_pairing.
  - eapply rtc_once, (sys_booking _ _ _ _ _ (mk_system nl nb np es nn ad)), surjective_pairing.
  - destruct (serve _ _).2 as [[db w] e] eqn:E.
    eapply rtc_once, (sys_admin _ _ _ _ _ (mk_system nl nb np es nn ad)).
    rewrite <- E. apply surjective_pairing.
  - destruct (_ !! k) as [row|] eqn:E; [|done].
    eapply rtc_once, (sys_background _ _ _ _ _ (mk_system nl nb np es nn ad)), sg_booking_command,
      surjective_pairing. by eapply list_elem_of_lookup_2.
  - destruct (_ !! k) as [row|] eqn:E; [|done].
    eapply rtc_once, (sys_background _ _ _ _ _ (mk_system nl nb np es nn ad)), sg_payment_event,
      surjective_pairing. by eapply list_elem_of_lookup_2.
  - destruct (_ !! k) as [row|] eqn:E; [|done].
    eapply rtc_once, (sys_search _ _ _ _ _ (mk_system nl nb np es nn ad)), surjective_pairing.
    by eapply list_elem_of_lookup_2.
  - destruct (_ !! k) as [row|] eqn:E; [|done].
    eapply rtc_once, (sys_notification _ _ _ _ _ (mk_system nl nb np es nn ad)), surjective_pairing.
    by eapply list_elem_of_lookup_2.
Qed.

Lemma acts_steps st l : rtc the_step st (foldl act st l).
Proof.
  revert st. induction l as [|a l IH]; intros st; [done|]. cbn [foldl].
  etrans; [apply act_step | apply IH].
Qed.

Definition day_one : the_system :=
  mk_system listing_start (empty_booking_db, tt, env_from 500 1000)
    (empty_payment_db, mk_toy_stripe ∅ ∅, env_from 600 1000) (∅, ∅)
    (mk_notification_db ∅ ∅, [], env_from 700 1000) (mk_admin_db [] ∅, ∅, env_from 400 1000).

Lemma day_one_start : system_start "vehicles" day_one.
Proof.
  split; [done|]. split; [by split_and!|]. split; [|done]. intros k. exact (lookup_empty (M := gmap (string * string)) (A := dict) _).
Qed.

Lemma acts_reachable l : the_reachable (foldl act day_one l).
Proof. exists day_one. split; [apply day_one_start | apply acts_steps]. Qed.

(** ** The run *)
Definition the_renter : uuid := ident 1.
Definition the_reading (odometer : Z) : input (uuid * ReadingRequest) :=
  Valid (ident 500, mk_reading odometer 80 "https://photos/1").

Definition listed_acts : list action :=
  [ToListing (asking the_host "host" "a1") (PostVehicles (Valid (new_car 5000)));
   ToAdmin (asking the_admin "admin" "a2") (Admin.PostApprove (Valid car1));
   Indexing 0].
Definition booking_act : action :=
  ToBooking (asking the_renter "renter" "a3") (PostBookings (Valid (mk_create_request car1 10 13))).
Definition rental_acts : list action :=
  [Command 0; PaymentEvent 0; Notifying 1;
   ToBooking (asking the_host "host" "a4") (PostHandover (the_reading 1000));
   ToBooking (asking the_host "host" "a5") (PostReturn (the_reading 1700));
   Command 2; PaymentEvent 1; Notifying 3; Notifying 1].

Definition listed : the_system := foldl act day_one listed_acts.
Definition booked_once : the_system := act listed booking_act.
Definition paid : the_system := foldl act booked_once rental_acts.

Example paid_run :
  (length (admin_actions (sy_admin paid).1.1), ob_type <$> l_outbox (sy_listing paid).1.1,
   bk_status <$> bookings (sy_booking paid).1.1 !! ident 500,
   pm_status <$> payments (sy_payment paid).1.1 !! ident 500,
   size (docs (sy_search paid).1), length (sy_notification paid).1.2) =
  (1, ["vehicle_approved"], Some "completed", Some "captured", 1, 8).
Proof. vm_compute. reflexivity. Qed.

Lemma listed_reachable : the_reachable listed.
Proof. apply acts_reachable. Qed.
Lemma paid_reachable : the_reachable paid.
Proof.
  unfold paid, booked_once, listed.
  change (act (foldl act day_one listed_acts) booking_act) with (foldl act (foldl act day_one listed_acts) [booking_act]).
  rewrite <- !foldl_app. apply acts_reachable.
Qed.

Definition booking_of (st : the_system) : Booking :=
  default (mk_booking (ident 0) (ident 0) (ident 0) (ident 0) 0 0 0 0 "" "" 0 None None None None None
    None 0 0) (bookings (sy_booking st).1.1 !! ident 500).
Definition payment_of (st : the_system) : Payment :=
  default (mk_payment (ident 0) (ident 0) (ident 0) 0 0 "" None None) (payments (sy_payment st).1.1 !! ident 500).

Lemma payment_reaches_owner_witness :
  ∃ b v, bookings (sy_booking paid).1.1 !! ident 500 = Some b ∧
    vehicles (sy_listing paid).1.1 !! bk_vehicle_id b = Some v ∧
    line <$> entries_of (ident 500) (sy_payment paid).1.1 =
      captured_lines (payment_of paid) (vh_host_id v) (rental_price b).
Proof.
  destruct (payment_reaches_owner the_services the_jwt the_jwt toy_client "vehicles" paid paid_reachable)
    as [_ Hpaid].
  apply (Hpaid (ident 500) (payment_of paid)); vm_compute; reflexivity.
Defined.

Definition index_after : es_map := docs (sy_search paid).1.
Definition car1_document : dict := default [] (index_after !! ("vehicles", str_uuid car1)).
Lemma car1_indexed : index_after !! ("vehicles", str_uuid car1) = Some car1_document.
Proof. vm_compute. reflexivity. Qed.

Lemma search_shows_approved_witness :
  ∃ w v, str_uuid car1 = str_uuid (vh_id w) ∧ vehicles (sy_listing paid).1.1 !! vh_id w = Some v ∧
    vh_approval_status v = "approved".
Proof.
  destruct (search_shows_approved the_services the_jwt the_jwt toy_client "vehicles" (str_uuid car1)
    car1_document paid paid_reachable car1_indexed) as (w & v & Hk & _ & _ & Hv & Ha & _).
  exists w, v. split; [exact Hk|]. split; [exact Hv | exact Ha].
Defined.

Definition first_notice : notice :=
  default (mk_notice "" (ident 0) "" PNone) ((sy_notification paid).1.2 !! 0).

Lemma notices_to_parties_witness :
  ∃ b, bookings (sy_booking paid).1.1 !! bk_id b = Some b ∧
    nt_booking_id first_notice = PStr (str_uuid (bk_id b)) ∧
    nt_user_id first_notice ∈ [bk_renter_id b; bk_host_id b].
Proof.
  apply (notices_to_parties the_services the_jwt the_jwt toy_client "vehicles" first_notice paid paid_reachable).
  apply (list_elem_of_lookup_2 _ 0). vm_compute. reflexivity.
Defined.


Lemma booked_on_listed_terms_witness :
  ∃ v, vehicles (sy_listing listed).1.1 !! bk_vehicle_id (booking_of booked_once) = Some v ∧
    terms_of v (booking_of booked_once).
Proof.
  apply (booked_on_listed_terms the_services the_jwt the_jwt toy_client "vehicles" (ident 500)
    (booking_of booked_once) listed booked_once).
  - exact listed_reachable.
  - unfold booked_once, booking_act, act. destruct listed as [nl nb np es nn ad].
    eapply (sys_booking _ _ _ _ _ (mk_system nl nb np es nn ad)), surjective_pairing.
  - vm_compute. reflexivity.
  - vm_compute. reflexivity.
Defined.

(** The administrator's session, the listing and the booking service behind it. *)
Definition admin_session_of (st : the_system) :
    session AdminDB (admin_world redis_map (servers (WL := unit) (WB := unit))) :=
  let '(db, w, e) := admin_node st in mk_session db db w e.

Definition car_listed : the_system := foldl act day_one (take 1 listed_acts).
Definition approval : result Response * session AdminDB (admin_world redis_map (servers (WL := unit) (WB := unit))) :=
  Admin.handle the_services (Upstream0 := service_servers the_services the_jwt the_jwt Delivered)
    (asking the_admin "admin" "a2") (Admin.PostApprove (Valid car1)) (admin_session_of car_listed).

Lemma key_free (m : gmap (string * string) IdemRow) key :
  bool_decide (map_Forall (λ k _, k.2 ≠ key) m) = true → ∀ cid, m !! (cid, key) = None.
Proof.
  intros Hm%bool_decide_eq_true cid. destruct (m !! (cid, key)) as [row|] eqn:E; [|done].
  by specialize (Hm _ _ E).
Qed.

(** The same request when the answer of the listing service is lost. *)
Definition lost : result Response * session AdminDB (admin_world redis_map (servers (WL := unit) (WB := unit))) :=
  Admin.handle the_services (Upstream0 := service_servers the_services the_jwt the_jwt AnswerLost)
    (asking the_admin "admin" "a2") (Admin.PostApprove (Valid car1)) (admin_session_of car_listed).

Lemma audited_decision_taken_witness :
  (∃ e db, effect (OpApprove car1) e (sy_listing car_listed).1.1 db ∧
    same_listing db (aw_upstream (world approval.2)).1.1.1) ∧
  is_Ok lost.1 = false ∧ admin_actions (committed lost.2) = [] ∧
  vh_approval_status <$> vehicles (aw_upstream (world lost.2)).1.1.1 !! car1 = Some "approved".
Proof.
  split; [|split; [|split]; vm_compute; reflexivity].
  destruct (audited_decision_taken the_services the_jwt the_jwt Delivered true (asking the_admin "admin" "a2")
    car1 (admin_session_of car_listed) approval.2 approval.1) as [Heq|(_ & _ & _ & He & _)].
  - reflexivity.
  - apply key_free. vm_compute. reflexivity.
  - apply surjective_pairing.
  - exfalso. apply (f_equal length) in Heq. revert Heq. vm_compute. discriminate.
  - exact He.
Defined.

(** *** Messages: the host rejects the booking while its payment is authorised *)
Definition first_row : OutboxRow := default (mk_outbox_row "" "" "" "" []) (outbox_rows paid !! 0).


Definition refused_acts : list action :=
  [Command 0; ToBooking (asking the_host "host" "a6") (BookingRoutes.PostReject (Valid (ident 500)))].
Definition refused : the_system := foldl act booked_once refused_acts.
Definition event_row : OutboxRow :=
  default (mk_outbox_row "" "" "" "" []) (p_outbox (sy_payment refused).1.1 !! 0).
Definition delivered : result unit * node BookingDB unit :=
  consume (inbox_process PAYMENT_EVENT_HANDLERS) (payload event_row) (sy_booking refused).
Definition refusal : exn := match delivered.1 with Err e => e | Ok _ => TypeError end.

Lemma refused_reachable : the_reachable refused.
Proof.
  unfold refused, booked_once, listed.
  change (act (foldl act day_one listed_acts) booking_act) with (foldl act (foldl act day_one listed_acts) [booking_act]).
  rewrite <- !foldl_app. apply acts_reachable.
Qed.

Lemma messages_well_typed_witness :
  (if delivered.1 is Err (InvalidBookingTransitionError _) then True else False) ∧ ¬ decoding_error refusal.
Proof.
  split; [vm_compute; exact I|].
  destruct (messages_well_typed the_services the_jwt the_jwt "pm_card_visa" "vehicles" event_row refusal
    refused refused_reachable) as [_ Hb].
  apply (Hb (sy_booking refused) delivered.2).
  - apply (list_elem_of_lookup_2 _ 0). vm_compute. reflexivity.
  - change (delivered = (Err refusal, delivered.2)). run_fst.
Defined.
