(* ===== verification/WiringScenario.v ===== *)
(** * WiringScenario: the deployed services of the default configuration

    The booking service up, its consumer stopped by the record [refusal] of
    SystemScenario stands for, seen by its probes and at its shutdown; and the
    route of the first event of the rental of SystemScenario. *)
From S2P Require Import Prelude Python Json JsonFacts Effects Outbox Inbox Idempotency JwtAuth.
From S2P Require Import Redis BookingRepo Payment PaymentService Listing Search SearchFacts System Wire.
From S2P Require Import Scenario Services SystemScenario Observability Settings Lifespan Wiring.

#[local] Existing Instances json_platform exact_floats exact_float_laws map_redis map_redis_laws
  map_es map_es_laws toy_sdk.

#[local] Instance obliging : Clients := {|
  start := λ _, None; close := λ _, None; ensure_index_call := None; stop_loop := λ _, None;
|}.

Definition the_booking_app : App := booking_app booking_settings.
Definition up : runtime := (app_startup the_booking_app (mk_runtime [] (app_clients the_booking_app))).2.
Definition the_consumer : coroutine := ConsumerLoop "payment.booking.events" "booking".
Definition stuck : runtime :=
  mk_runtime [(CleanupLoop, Running); (the_consumer, Failed refusal)] (opened up).
Definition worse : runtime :=
  mk_runtime [(CleanupLoop, Failed DataError); (the_consumer, Failed refusal)] (opened up).

Lemma booking_up : serving the_booking_app up.
Proof. by exists up. Qed.
Lemma up_stuck : background_step up stuck.
Proof. exact (loop_raises up 1 the_consumer refusal eq_refl). Qed.
Lemma booking_stuck : serving the_booking_app stuck.
Proof. exists up. split; [done|]. apply rtc_once, up_stuck. Qed.
Lemma stuck_worse : rtc background_step stuck worse.
Proof. apply rtc_once. exact (loop_raises stuck 0 CleanupLoop DataError eq_refl). Qed.

Lemma quiet_failure_witness :
  background_tasks stuck !! 1 = Some (the_consumer, Failed refusal) ∧
  serving the_booking_app worse ∧
  background_tasks worse !! 1 = Some (the_consumer, Failed refusal) ∧
  (∀ path, probe the_booking_app worse path = healthz) ∧
  ∃ e' rt'', app_shutdown the_booking_app worse = (Err e', rt'') ∧ opened rt'' = opened worse.
Proof.
  split; [done|].
  apply (quiet_failure default_deployment the_booking_app stuck worse 1 the_consumer refusal).
  - do 2 right. by left.
  - exact booking_stuck.
  - done.
  - exact stuck_worse.
Defined.

Lemma graceful_shutdown_witness :
  Forall (λ t, ¬ failed t) (background_tasks up) ∧
  ∃ rt', app_shutdown the_booking_app up = (Ok tt, rt') ∧
    Forall (λ t, t.2 = Cancelled) (background_tasks rt') ∧
    Forall (λ c, c ∈ [PostgresEngine; HttpClient]) (opened rt').
Proof.
  assert (Forall (λ t, ¬ failed t) (background_tasks up)) as Hn
    by (repeat constructor; by intros [e [=]]).
  split; [exact Hn|].
  apply (graceful_shutdown default_deployment the_booking_app up); [done..| | |exact Hn].
  - do 2 right. by left.
  - exact booking_up.
Defined.

Lemma events_reach_handlers_witness :
  wired default_deployment = true ∧
  ∃ event_type app group_id, dict_get (payload event_row) "event_type" = Some (PStr event_type) ∧
    app ∈ apps default_deployment ∧ event_type ∈ handled_types toy_client group_id ∧
    (∀ rt, booted app rt → (ConsumerLoop "payment.booking.events" group_id, Running) ∈ background_tasks rt) ∧
    (∀ app' topic', app' ∈ apps default_deployment → subscribes app' topic' group_id →
       app' = app ∧ topic' = "payment.booking.events").
Proof.
  split; [reflexivity|].
  apply (events_reach_handlers default_deployment the_services the_jwt the_jwt toy_client "vehicles"
    payment_connector event_row refused eq_refl refused_reachable).
  - do 2 right. by left.
  - apply (list_elem_of_lookup_2 _ 0). vm_compute. reflexivity.
Defined.
