(* ===== verification/SimulatorScenario.v ===== *)
(** * SimulatorScenario: a simulated device against the ingest

    Two packets before the deadline, on the concrete platform of Services, for
    a vehicle that is not stopped. *)
From S2P Require Import Prelude Python Effects Json JsonFacts JwtAuth Redis Idempotency.
From S2P Require Import Auth AuthFacts Listing Telemetry TelemetryFacts Simulator Scenario Services.

#[local] Existing Instances json_platform json_jwt exact_floats map_redis map_redis_laws.

(** pydantic's reading of a packet with its fields as they should be. *)
#[local] Instance json_packets : PacketJson := {|
  packet_fields raw :=
    match json_loads raw with
    | Some (PDict d) =>
        match dict_get d "lat", dict_get d "lng", dict_get d "speed_kph", dict_get d "recorded_at" with
        | Some (PFloat lat), Some (PFloat lng), Some (PFloat speed), Some (PStr at_) =>
            Some (mk_packet lat lng speed at_)
        | _, _, _, _ => None
        end
    | _ => None
    end;
  packet_error raw := "invalid";
|}.

Definition minted : result string * session unit unit :=
  _mint_token the_jwt (mk_session () () () (toy_env 900)).
Definition simulator_token : string := match minted.1 with Ok t => t | Err _ => "" end.
Definition tick_at (t : Z) : tick :=
  mk_tick (float_of_Z t) (S754_zero false) (S754_zero false) (float_of_Z 50) "2026-01-01T00:00:00+00:00".
Definition the_ticks : list tick := [tick_at 1; tick_at 2; tick_at 10].
Definition idle : ingest_state redis_map := mk_ingest ∅ [] [] 0.
Definition sent_frames : list string :=
  Simulator.frames (fadd (float_of_Z 0) (float_of_Z 5)) the_ticks start_lat start_lng.

Lemma simulator_drives_ingest_witness :
  length sent_frames = 2 ∧
  length (in_topic (ingest the_jwt 2000 simulator_token "car" sent_frames idle).2) = 2 ∧
  _stream_one_vehicle (WebSocket0 := service_socket the_jwt 2000) "ws://localhost:8080" "car" simulator_token
      (float_of_Z 1) (float_of_Z 0) (float_of_Z 5) the_ticks (mk_connection None idle 0) =
    match ingest the_jwt 2000 simulator_token "car" sent_frames idle with
    | (Ok _, s') => (Ok (Some (Z.of_nat (length sent_frames))), served "car" s')
    | (Err _, s') => (Err ConnectionClosed, mk_connection None s' (length (in_sent s')))
    end.
Proof.
  split; [reflexivity|]. split; [vm_compute; reflexivity|].
  apply (simulator_drives_ingest the_jwt 2000 "ws://localhost:8080" "car" simulator_token (float_of_Z 1)
    (float_of_Z 0) (float_of_Z 5) the_ticks (mk_session () () () (toy_env 900)) minted.2 idle 0).
  - reflexivity.
  - simpl. lia.
  - reflexivity.
  - do 2 right. left. vm_compute. reflexivity.
Defined.
