(* ===== verification/StorageScenario.v ===== *)
(** * StorageScenario: migrated databases, the writes on them, stored answers

    Concrete runs of the theorems of Migrations, Tables and Responses: an
    Alembic that keeps its databases in a map, services migrated next to a
    foreign table, the rows of a first booking, payment and user, and an
    answer replayed from the table of stored responses. *)
From S2P Require Import Prelude Python Columns Effects Outbox Inbox Idempotency JwtAuth Http Settings.
From S2P Require Import Schema Migrations Auth Payment Listing.
From S2P Require Import BookingDomain BookingRepo BookingRoutes Tables Responses Scenario.

(** A database that somebody else uses too. *)
Definition foreign : database :=
  mk_database ∅ {["notes" := mk_table [key_column "id" UUID_] [PrimaryKeyConstraint ["id"]]
    [[("id", CUuid (uid 7))]]]}.

Lemma foreign_apart (names : gset string) : "notes" ∉ names → apart names (tables foreign).
Proof.
  intros Hn. split.
  - intros n Hin. simpl. apply lookup_singleton_None. set_solver.
  - intros n _ i t. unfold foreign. simpl. intros [_ <-]%lookup_singleton_Some.
    unfold points_to. simpl. by intros [[]|?%Exists_nil]%Exists_cons.
Qed.

Lemma migrations_roundtrip_witness :
  ∃ db, upgrade_all (env_scripts (listing_env (dp_listing default_deployment))) foreign = (Ok tt, db) ∧
    tables db !! "notes" = tables foreign !! "notes" ∧
    downgrade_all (env_scripts (listing_env (dp_listing default_deployment))) db =
      (Ok tt, mk_database (extensions db) (tables foreign)).
Proof.
  destruct (migrations_roundtrip default_deployment (listing_env (dp_listing default_deployment)) foreign)
    as (db & Hup & Hrest & _ & Hdown).
  - unfold environments. set_solver.
  - apply foreign_apart. apply (bool_decide_eq_true_1 _). vm_compute. reflexivity.
  - exists db. split_and!; [exact Hup| |exact Hdown]. apply Hrest.
    apply (bool_decide_eq_true_1 _). vm_compute. reflexivity.
Defined.

(** ** An Alembic *)
Record alembic := mk_alembic {
  al_server : gmap string database;
  al_applied : gmap string nat;
  al_options : gmap string string;
  al_configured : option configuration;
}.

Section alembic.
Context (e : environment).

Definition al_run : M alembic unit := λ w,
match cf_connection <$> al_configured w with
| Some (Some url) =>
    match al_server w !! url with
    | Some db =>
        match upgrade_all (drop (default 0 (al_applied w !! url)) (env_scripts e)) db with
        | (Ok _, db') => (Ok tt, mk_alembic (<[url := db']> (al_server w))
            (<[url := length (env_scripts e)]> (al_applied w)) (al_options w) (al_configured w))
        | (Err x, _) => (Err x, w)
        end
    | None => (Err TransportError, w)
    end
| _ => (Ok tt, w)
end.

#[local] Instance toy_context : Context alembic := {|
  is_offline_mode := false;
  set_main_option k v w := (Ok tt, mk_alembic (al_server w) (al_applied w) (<[k := v]> (al_options w)) (al_configured w));
  get_main_option k w := (Ok (al_options w !! k), w);
  configure c w := (Ok tt, mk_alembic (al_server w) (al_applied w) (al_options w) (Some c));
  begin_transaction body := body;
  run_migrations := al_run;
  connect url body := body url;
  dispose w := (Ok tt, w);
|}.

#[local, refine] Instance toy_context_laws : ContextLaws alembic e := {|
  server := al_server;
  applied w u := default 0 (al_applied w !! u);
  main_option := al_options;
  configured_for := al_configured;
|}.
Proof.
- intros k v w. by eexists.
- done.
- intros c w. by eexists.
- intros url body w. simpl. destruct (body url w) as [r w'] eqn:E. exists r, w'. split; [done|].
  right. by exists w, w'.
- intros w. by eexists.
- intros w. simpl. unfold al_run. destruct (cf_connection <$> al_configured w) as [[url|]|]; [|by do 2 eexists..].
  destruct (al_server w !! url) as [db|] eqn:Hdb; [|do 2 eexists; split; [done|]; left; by split; [eexists|]].
  destruct (upgrade_all _ db) as [[[]|x] db'] eqn:Hup.
  2:{ do 2 eexists. split; [done|]. left. by split; [eexists|]. }
  do 2 eexists. split; [done|]. right. split; [done|]. exists db, db'. split_and!; [done..|].
  intros u. simpl. case_decide as Hu; [subst; by rewrite lookup_insert_eq|by rewrite lookup_insert_ne].
Defined.
End alembic.

(** The listing database after the container ran [alembic upgrade head]. *)
Definition listing_here : environment := listing_env (dp_listing default_deployment).
Definition fresh_alembic : alembic := mk_alembic {[env_database_url listing_here := foreign]} ∅ ∅ None.

Lemma environment_all_or_nothing_witness :
  ∃ w', env_main (Context0 := toy_context listing_here) listing_here fresh_alembic = (Ok tt, w') ∧
    "vehicles" ∈ dom (tables (default foreign (al_server w' !! env_database_url listing_here))).
Proof.
  destruct (environment_all_or_nothing (Context0 := toy_context listing_here) listing_here
    (ContextLaws0 := toy_context_laws listing_here) fresh_alembic) as (r & w' & Hr & [(_ & _ & Hoff)|H]).
  - assert (fst (env_main (Context0 := toy_context listing_here) listing_here fresh_alembic) = Ok tt) as Hok
      by (vm_compute; reflexivity).
    rewrite Hr in Hok. discriminate (Hoff Hok).
  - destruct H as (-> & _ & db & db' & Hdb & Hup & Hs & _). exists w'. split; [exact Hr|].
    simpl in Hs. rewrite Hs, lookup_insert_eq. simpl. simpl in Hdb.
    assert (db = foreign) as -> by (vm_compute in Hdb; by injection Hdb).
    change db' with (snd (Ok tt, db')). rewrite <- Hup. apply (bool_decide_eq_true_1 _). vm_compute. reflexivity.
Defined.

(** ** The first rows *)
Definition empty_session {DB} (db : DB) : session DB unit := mk_session db db tt (toy_env 400).

Definition a_booking (id : N) (first last : date) : Booking :=
  mk_booking (uid id) car_id host_id renter_id first last 5000 200 "instant" "requested" 1
    None None None None None None 0 0.

Definition booking_tables_db : database := snd (upgrade_all booking_scripts foreign).

(** The second booking overlaps the first: PostgreSQL refuses it, as the model does. *)
Lemma booking_tables_witness :
  agrees booking_rep (flush_booking (a_booking 100 10 13))
    (flush_row "bookings" "id" (booking_row 0 (a_booking 100 10 13)))
    (empty_session empty_booking_db) booking_tables_db ∧
  fst ((flush_row "bookings" "id" (booking_row 0 (a_booking 100 10 13));;
        flush_row "bookings" "id" (booking_row 0 (a_booking 101 13 15))) booking_tables_db) = Err IntegrityError.
Proof.
  split; [|vm_compute; reflexivity].
  apply (booking_tables (empty_session empty_booking_db) booking_tables_db); [|vm_compute; discriminate].
  apply (booking_migrated default_deployment). apply foreign_apart.
  apply (bool_decide_eq_true_1 _). vm_compute. reflexivity.
Defined.

Definition payment_tables_db : database := snd (upgrade_all payment_scripts foreign).
Definition a_payment : Payment :=
  mk_payment (uid 200) (uid 100) renter_id 15000 0 "authorized" (Some "pi") None.


Definition listing_tables_db : database := snd (upgrade_all listing_scripts foreign).
Definition auth_tables_db : database := snd (upgrade_all auth_scripts foreign).
Definition a_user : User := mk_user (uid 1) "ana@example.com" "Ana" "hash" "renter" 0.

Lemma listing_auth_tables_witness :
  agrees auth_rep (insert_user a_user) (insert_row "users" (user_row tt a_user))
    (empty_session (mk_auth_db ∅ ∅)) auth_tables_db ∧
  fst (insert_row "users" (user_row tt a_user) auth_tables_db) = Ok tt.
Proof.
  split; [|vm_compute; reflexivity].
  apply (listing_auth_tables (empty_session (mk_listing_db ∅ [] [] ∅)) (empty_session (mk_auth_db ∅ ∅))
    listing_tables_db auth_tables_db).
  - apply (listing_migrated default_deployment). apply foreign_apart.
    apply (bool_decide_eq_true_1 _). vm_compute. reflexivity.
  - apply (auth_migrated default_deployment). apply foreign_apart.
    apply (bool_decide_eq_true_1 _). vm_compute. reflexivity.
Defined.

(** ** A replayed answer has the type of the endpoint *)
#[local] Existing Instance toy_platform.

Definition booking_node : node BookingDB unit := (empty_booking_db, tt, toy_env 100).
Definition create_answer (n : node BookingDB unit) : result Response * node BookingDB unit :=
  run_session (BookingRoutes.handle toy_cfg toy_listing (as_caller "renter" "k1")
    (PostBookings (Valid (mk_create_request car_id 10 13)))) n.

Lemma responses_well_typed_witness :
  resp_status (http_response (fst (create_answer (snd (create_answer booking_node))))) = 201%Z ∧
  body_of (conforms BookingResponse)
    (http_response (fst (create_answer (snd (create_answer booking_node))))).
Proof.
  split; [vm_compute; reflexivity|].
  assert (is_Ok (fst (create_answer (snd (create_answer booking_node)))) = true) as Hok
    by (vm_compute; reflexivity).
  destruct (create_answer booking_node) as [r0 n1] eqn:E0. cbn [snd] in *.
  destruct (create_answer n1) as [[resp|x] n2] eqn:E1; [|discriminate Hok].
  apply (responses_well_typed toy_cfg toy_listing booking_node n1 n2
    (as_caller "renter" "k1") (PostBookings (Valid (mk_create_request car_id 10 13))) resp).
  - reflexivity.
  - apply rtc_once. apply (svc_request _ _ _ (as_caller "renter" "k1")
      (PostBookings (Valid (mk_create_request car_id 10 13))) (http_response r0)).
    unfold serve. fold (create_answer booking_node). by rewrite E0.
  - exact E1.
Defined.
