(* ===== verification/RoutingScenario.v ===== *)
(** * RoutingScenario: the route tables under one router

    A router that tries the routes in order, as the laws of Routing have it,
    with FastAPI's pages in front, and the inputs pydantic reads from paths
    and queries: the default deployment under them. *)
From S2P Require Import Prelude Python Json Effects Idempotency JwtAuth Settings Http Redis Admin.
From S2P Require Import BookingDomain BookingRepo BookingRoutes Listing Upstreams Scenario Services Routing.

#[local] Existing Instances json_platform exact_floats map_redis.

Fixpoint first_match (rs : list Route) (v : verb) (path : string) : option (endpoint * path_params) :=
  match rs with
  | [] => None
  | r :: rs =>
      match route_params r v path with
      | Some ps => Some (rt_endpoint r, ps)
      | None => first_match rs v path
      end
  end.

#[local] Instance in_order : Router := {|
  docs_routes := (λ p, mk_route GET p (Framework p)) <$> docs_path_list;
  dispatch := first_match;
|}.

#[local] Instance in_order_laws : RouterLaws.
Proof.
  split.
  - intros r (p & -> & Hp)%list_elem_of_fmap. exact Hp.
  - intros before r after v path ps Hb Hr. cbn [dispatch in_order].
    induction Hb as [|b before Hb _ IH]; cbn [app first_match]; [by rewrite Hr|by rewrite Hb].
Qed.

Definition int_param (params : dict) (name : string) (default : Z) : option Z :=
  match dict_get params name with None => Some default | Some (PInt z) => Some z | _ => None end.
Definition page_input (params : dict) : input (Z * Z) :=
  match int_param params "limit" 100, int_param params "offset" 0 with
  | Some limit, Some offset => Valid (limit, offset)
  | _, _ => Invalid
  end.

(** No body is sent in these calls: reading one fails. *)
#[local] Instance path_pydantic : Pydantic := {|
  path_uuid := UUID;
  query_page := page_input;
  query_vehicles params :=
    match page_input params, dict_get params "approval_status" with
    | Valid (limit, offset), Some (PStr status) => Valid (status, limit, offset)
    | Valid (limit, offset), None => Valid ("approved", limit, offset)
    | _, _ => Invalid
    end;
  body_vehicle _ := Malformed; body_update _ := Malformed; body_block _ := Malformed;
  body_booking _ := Malformed; body_reading _ := Malformed;
|}.

#[local] Instance path_pydantic_laws : PydanticLaws.
Proof. split; [apply UUID_str|done|done]. Qed.

Definition approve_route : Route := mk_route POST "/listing/vehicles/{vehicle_id}/approve" ListingApprove.
Definition default_listing : Application := listing_application listing_settings.

Lemma routes_reached_witness :
  dispatch (ap_routes default_listing) POST "/listing/vehicles/42/approve" =
    Some (ListingApprove, [("vehicle_id", "42")]).
Proof.
  apply (routes_reached default_deployment default_listing approve_route ["42"]); [| | | |reflexivity].
  - do 2 apply list_elem_of_further. apply list_elem_of_here.
  - by apply (list_elem_of_lookup_2 _ 11).
  - intros (p & Hp & _)%list_elem_of_fmap. discriminate Hp.
  - constructor; [by split|constructor].
Defined.

Lemma routed_calls_witness :
  listing_call listing_settings GET "/listing/vehicles"
    [("approval_status", PStr "approved"); ("limit", PInt 100); ("offset", PInt 200)] "" =
    Some (GetVehicles (Valid ("approved", 100, 200)%Z)).
Proof.
  by apply (routed_calls (WL := unit) (WB := unit) (mk_admin_settings default_jwt
    "http://listing:8000/" "http://booking:8000") listing_settings booking_settings telemetry_settings Delivered).
Defined.
